(** * ldpd/labelmapping.c: LDP label messages

    A shallow embedding of the label-message sender
    ([send_labelmessage]), the label-message parser
    ([recv_labelmessage]) and the FEC / optional-TLV codecs of
    [ldpd/labelmapping.c], followed by the properties established about
    them.

    Conventions.  Machine integers are [Z] with the wrap-around written
    out ([u8], [u16], [u32]).  A [char *] into a received packet is a
    [list Z] (the bytes from the pointer onwards) and pointer arithmetic
    is [skipn]; a byte read is [byte_at].  The collaborators the
    functions call ([session_shutdown], [send_notification],
    [ldpe_imsg_compose_lde], the write queue, [nbr_fsm]) appear as
    events in a log or as fields of the neighbour. *)

From Stdlib Require Import ZArith List Bool Lia.
Import ListNotations.
Local Open Scope Z_scope.

Set Implicit Arguments.

(** ** Machine integers and bytes *)

Definition u8 (x : Z) : Z := x mod 256.
Definition u16 (x : Z) : Z := x mod 65536.
Definition u32 (x : Z) : Z := x mod 4294967296.

(** [x & f] used as a C truth value. *)
Definition has_flag (x f : Z) : bool := negb (Z.land x f =? 0).

(** [buf[off]], read as an unsigned byte. *)
Definition byte_at (buf : list Z) (off : Z) : Z :=
  u8 (nth (Z.to_nat off) buf 0).

(** [memcpy] of a 16-bit field followed by [ntohs]. *)
Definition get_u16 (buf : list Z) (off : Z) : Z :=
  byte_at buf off * 256 + byte_at buf (off + 1).

(** [memcpy] of a 32-bit field followed by [ntohl]. *)
Definition get_u32 (buf : list Z) (off : Z) : Z :=
  byte_at buf off * 16777216 + byte_at buf (off + 1) * 65536 +
  byte_at buf (off + 2) * 256 + byte_at buf (off + 3).

(** [memcpy] of [n] bytes starting at [buf + off]. *)
Definition mem_read (buf : list Z) (off : Z) (n : nat) : list Z :=
  List.map (fun i => byte_at buf (off + Z.of_nat i)) (seq 0 n).

(** The bytes of [htons x] and [htonl x], in memory order. *)
Definition put_u16 (x : Z) : list Z := [u8 (x / 256); u8 x].
Definition put_u32 (x : Z) : list Z :=
  [u8 (x / 16777216); u8 (x / 65536); u8 (x / 256); u8 x].

(** ** Constants of the protocol headers

    Modelled from the spec: the headers [ldp.h], [ldpd.h] and [mpls.h]
    that define these macros are not among the sources at hand.  The
    sizes follow the wire layout of the specification (LDP header
    2+2+4+2 bytes of which the first 4 are not counted in its length
    field, message header 2+2+4 of which the first 4 are not counted,
    TLV header 2+2, label / request-id / pseudowire-status TLVs with a
    4-byte value, status TLV with a 4+4+2-byte value, FEC element tags
    1, 2, 5 and 128, address families 1 and 2, the control-word flag as
    top bit of the 16-bit pseudowire type, the "unknown" flag as top bit
    of a TLV type, 20-bit labels).  The codes the specification names
    without a number (message types, TLV types, reserved labels, flag
    bits of a mapping) carry the numbers RFC 5036, RFC 4447 and RFC 3032
    assign, which are the ones the headers define. *)

Definition LDP_VERSION : Z := 1.
Definition LDP_HDR_SIZE : Z := 10.
Definition LDP_HDR_DEAD_LEN : Z := 4.
Definition LDP_MSG_SIZE : Z := 8.
Definition LDP_MSG_DEAD_LEN : Z := 4.
Definition TLV_HDR_SIZE : Z := 4.

Definition UNKNOWN_FLAG : Z := 0x8000.

Definition MSG_TYPE_LABELMAPPING : Z := 0x0400.
Definition MSG_TYPE_LABELREQUEST : Z := 0x0401.
Definition MSG_TYPE_LABELWITHDRAW : Z := 0x0402.
Definition MSG_TYPE_LABELRELEASE : Z := 0x0403.
Definition MSG_TYPE_LABELABORTREQ : Z := 0x0404.

Definition TLV_TYPE_FEC : Z := 0x0100.
Definition TLV_TYPE_HOPCOUNT : Z := 0x0103.
Definition TLV_TYPE_PATHVECTOR : Z := 0x0104.
Definition TLV_TYPE_GENERICLABEL : Z := 0x0200.
Definition TLV_TYPE_ATMLABEL : Z := 0x0201.
Definition TLV_TYPE_FRLABEL : Z := 0x0202.
Definition TLV_TYPE_STATUS : Z := 0x0300.
Definition TLV_TYPE_LABELREQUEST : Z := 0x0600.
Definition TLV_TYPE_PW_STATUS : Z := 0x896A.

Definition STATUS_SIZE : Z := 14.
Definition STATUS_TLV_LEN : Z := 10.
Definition REQID_TLV_SIZE : Z := 8.
Definition REQID_TLV_LEN : Z := 4.
Definition PW_STATUS_TLV_SIZE : Z := 8.
Definition PW_STATUS_TLV_LEN : Z := 4.
Definition LABEL_TLV_SIZE : Z := 8.
Definition LABEL_TLV_LEN : Z := 4.

Definition AF_IPV4 : Z := 1.
Definition AF_IPV6 : Z := 2.

Definition FEC_ELM_WCARD_LEN : Z := 1.
Definition FEC_ELM_PREFIX_MIN_LEN : Z := 4.
Definition FEC_PWID_ELM_MIN_LEN : Z := 8.
Definition FEC_PWID_SIZE : Z := 4.
Definition FEC_ELM_TWCARD_MIN_LEN : Z := 3.

Definition MAP_TYPE_WILDCARD : Z := 0x01.
Definition MAP_TYPE_PREFIX : Z := 0x02.
Definition MAP_TYPE_TYPED_WCARD : Z := 0x05.
Definition MAP_TYPE_PWID : Z := 0x80.

Definition CONTROL_WORD_FLAG : Z := 0x8000.
Definition PW_TWCARD_RESERVED_BIT : Z := 0x8000.

Definition SUBTLV_HDR_SIZE : Z := 2.
Definition SUBTLV_IFMTU : Z := 0x01.
Definition FEC_SUBTLV_IFMTU_SIZE : Z := 4.

Definition F_MAP_REQ_ID : Z := 0x01.
Definition F_MAP_STATUS : Z := 0x02.
Definition F_MAP_PW_CWORD : Z := 0x04.
Definition F_MAP_PW_ID : Z := 0x08.
Definition F_MAP_PW_IFMTU : Z := 0x10.
Definition F_MAP_PW_STATUS : Z := 0x20.

Definition NO_LABEL : Z := 4294967295.
Definition MPLS_LABEL_IPV4_EXPLICIT_NULL : Z := 0.
Definition MPLS_LABEL_IPV6_EXPLICIT_NULL : Z := 2.
Definition MPLS_LABEL_IMPLICIT_NULL : Z := 3.
Definition MPLS_LABEL_RESERVED_MAX : Z := 15.
Definition MPLS_LABEL_MAX : Z := 1048575.

Definition IPV4_MAX_BITLEN : Z := 32.
Definition IPV6_MAX_BITLEN : Z := 128.

(** The host's address-family numbers ([<sys/socket.h>]): [AF_INET] is
    2 on every host the daemon builds on, [AF_INET6] is 10 on Linux.
    The numbers matter: the decoder compares a host family against the
    wire numbers [AF_IPV4] and [AF_IPV6]. *)
Definition AF_INET : Z := 2.
Definition AF_INET6 : Z := 10.

(** [PREFIX_SIZE(x)]: the bytes that hold [x] bits. *)
Definition PREFIX_SIZE (x : Z) : Z := (x + 7) / 8.

(** ** Data model *)

(** The LDP status codes handed to [session_shutdown] and
    [send_notification]. *)
Inductive status :=
| S_UNKNOWN_TLV | S_BAD_TLV_LEN | S_BAD_TLV_VAL
| S_UNKNOWN_FEC | S_MISS_MSG | S_UNSUP_ADDR.

(** The message kinds handed to the label-distribution engine. *)
Inductive imsg_type :=
| IMSG_NONE | IMSG_LABEL_MAPPING | IMSG_LABEL_REQUEST
| IMSG_LABEL_WITHDRAW | IMSG_LABEL_RELEASE | IMSG_LABEL_ABORT.

(** The [fec] union of [struct map], tagged by [map.type]: a record is
    a wildcard, a prefix [{af, prefix, prefixlen}], a pseudowire
    [{type, pwid, group_id, ifmtu}] or a typed wildcard [{type, u}]
    (where [u] is [prefix_af] or [pw_type], which share storage). *)
Inductive map_fec :=
| FecWildcard
| FecPrefix (af : Z) (prefix : list Z) (prefixlen : Z)
| FecPwid (pw_type pwid group_id ifmtu : Z)
| FecTwcard (tw_type u : Z).

(** [map.st]. *)
Record map_status := {
  status_code : Z;
  st_msg_id : Z;
  st_msg_type : Z
}.

(** [struct map]. *)
Record map := {
  msg_id : Z;
  fec : map_fec;
  st : map_status;
  label : Z;
  requestid : Z;
  pw_status : Z;
  flags : Z
}.

(** [map.type], the tag of the union. *)
Definition map_type (m : map) : Z :=
  match fec m with
  | FecWildcard => MAP_TYPE_WILDCARD
  | FecPrefix _ _ _ => MAP_TYPE_PREFIX
  | FecPwid _ _ _ _ => MAP_TYPE_PWID
  | FecTwcard _ _ => MAP_TYPE_TYPED_WCARD
  end.

Definition set_fec (m : map) (f : map_fec) : map :=
  {| msg_id := msg_id m; fec := f; st := st m; label := label m;
     requestid := requestid m; pw_status := pw_status m; flags := flags m |}.
Definition set_flags (m : map) (f : Z) : map :=
  {| msg_id := msg_id m; fec := fec m; st := st m; label := label m;
     requestid := requestid m; pw_status := pw_status m; flags := f |}.
Definition set_label (m : map) (l : Z) : map :=
  {| msg_id := msg_id m; fec := fec m; st := st m; label := l;
     requestid := requestid m; pw_status := pw_status m; flags := flags m |}.
Definition set_requestid (m : map) (r : Z) : map :=
  {| msg_id := msg_id m; fec := fec m; st := st m; label := label m;
     requestid := r; pw_status := pw_status m; flags := flags m |}.
Definition set_pw_status (m : map) (s : Z) : map :=
  {| msg_id := msg_id m; fec := fec m; st := st m; label := label m;
     requestid := requestid m; pw_status := s; flags := flags m |}.

(** [struct ldp_msg]: the message header as [recv_labelmessage] copies
    it out of the packet.  The source keeps [id] and [type] in network
    byte order and only passes them on; the model holds the numbers the
    bytes denote. *)
Record ldp_msg := {
  msg_type_f : Z;
  msg_length : Z;
  msg_id_f : Z
}.

(** What the parser tells its collaborators. *)
Inductive event :=
| EvShutdown (s : status) (id type : Z)
| EvNotification (s : status) (id type : Z)
| EvNotificationRtlvs (s : status) (id type tlv_type tlv_len : Z)
    (data : list Z)
| EvImsg (t : imsg_type) (peerid : Z) (m : map).

(** [nbr->stats], the counters of label messages sent. *)
Record nbr_stats := {
  labelmap_sent : Z;
  labelreq_sent : Z;
  labelwdraw_sent : Z;
  labelrel_sent : Z;
  labelabreq_sent : Z
}.

(** The events [nbr_fsm] receives from the sender. *)
Inductive nbr_event := NBR_EVT_PDU_SENT.

(** [struct nbr], the fields the label messages touch.  [wbuf] is the
    write queue of the neighbour's TCP connection (oldest PDU first) and
    [fsm_log] the events raised to its state machine. *)
Record nbr := {
  peerid : Z;
  max_pdu_len : Z;
  v4_enabled : bool;
  v6_enabled : bool;
  stats : nbr_stats;
  wbuf : list (list Z);
  fsm_log : list nbr_event
}.

(** ** Output buffers

    Modelled from the spec: the byte buffer ([struct ibuf], with
    [ibuf_open], [ibuf_add] and [ibuf_seek]) belongs to the transport
    library and is not among the sources at hand.  The specification has
    an append succeed or fail for want of room and nothing else; here a
    buffer is opened with a fixed capacity and an append that does not
    fit fails and leaves the buffer as it was. *)

Record ibuf := {
  ib_data : list Z;
  ib_max : Z
}.

Definition ibuf_open (len : Z) : ibuf := {| ib_data := []; ib_max := len |}.

Definition ibuf_size (b : ibuf) : Z := Z.of_nat (length (ib_data b)).

Definition ibuf_add (b : ibuf) (data : list Z) : ibuf * Z :=
  if ibuf_size b + Z.of_nat (length data) <=? ib_max b
  then ({| ib_data := ib_data b ++ data; ib_max := ib_max b |}, 0)
  else (b, -1).

(** [err |= ibuf_add(buf, data, n)] on the pair of the buffer and the
    error accumulated so far. *)
Definition add (data : list Z) (s : ibuf * Z) : ibuf * Z :=
  let (b', r) := ibuf_add (fst s) data in (b', Z.lor (snd s) r).

Notation "s >+ d" := (add d s) (at level 50, left associativity).

(** ** Encoders *)

(** [gen_label_tlv]. *)
Definition gen_label_tlv (buf : ibuf) (label : Z) : ibuf * Z :=
  ibuf_add buf
    (put_u16 TLV_TYPE_GENERICLABEL ++ put_u16 LABEL_TLV_LEN ++ put_u32 label).

(** [gen_reqid_tlv]. *)
Definition gen_reqid_tlv (buf : ibuf) (reqid : Z) : ibuf * Z :=
  ibuf_add buf
    (put_u16 TLV_TYPE_LABELREQUEST ++ put_u16 REQID_TLV_LEN ++ put_u32 reqid).

(** [gen_pw_status_tlv]. *)
Definition gen_pw_status_tlv (buf : ibuf) (status : Z) : ibuf * Z :=
  ibuf_add buf
    (put_u16 TLV_TYPE_PW_STATUS ++ put_u16 PW_STATUS_TLV_LEN ++ put_u32 status).

(** Modelled from the spec: [gen_status_tlv] is defined in another file
    of the daemon; the Status TLV is a TLV header followed by
    status-code (4), message-id (4) and message-type (2). *)
Definition gen_status_tlv (buf : ibuf) (code id type : Z) : ibuf * Z :=
  ibuf_add buf
    (put_u16 TLV_TYPE_STATUS ++ put_u16 STATUS_TLV_LEN ++
     put_u32 code ++ put_u32 id ++ put_u16 type).

(** Modelled from the spec: [gen_ldp_hdr] is defined in another file of
    the daemon; the LDP header is version (2), PDU length (2, the bytes
    after this field), LSR-ID (4) and label space (2). *)
Definition gen_ldp_hdr (lsr_id : Z) (buf : ibuf) (size : Z) : ibuf * Z :=
  ibuf_add buf
    (put_u16 LDP_VERSION ++ put_u16 (size - LDP_HDR_DEAD_LEN) ++
     put_u32 lsr_id ++ put_u16 0).

(** Modelled from the spec: [gen_msg_hdr] is defined in another file of
    the daemon; the message header is type (2), length (2, the bytes
    after this field) and message-id (4).  The specification leaves the
    choice of the identifier open: the caller passes it. *)
Definition gen_msg_hdr (id : Z) (buf : ibuf) (type size : Z) : ibuf * Z :=
  ibuf_add buf
    (put_u16 type ++ put_u16 (size - LDP_MSG_DEAD_LEN) ++ put_u32 id).

(** [len_fec_tlv]; [None] is [fatalx]. *)
Definition len_fec_tlv (m : map) : option Z :=
  let len := TLV_HDR_SIZE in
  match fec m with
  | FecWildcard => Some (u16 (len + FEC_ELM_WCARD_LEN))
  | FecPrefix _ _ prefixlen =>
      Some (u16 (len + (FEC_ELM_PREFIX_MIN_LEN + PREFIX_SIZE prefixlen)))
  | FecPwid _ _ _ _ =>
      let len := u16 (len + FEC_PWID_ELM_MIN_LEN) in
      let len := if has_flag (flags m) F_MAP_PW_ID
                 then u16 (len + PW_STATUS_TLV_LEN) else len in
      let len := if has_flag (flags m) F_MAP_PW_IFMTU
                 then u16 (len + FEC_SUBTLV_IFMTU_SIZE) else len in
      let len := if has_flag (flags m) F_MAP_PW_STATUS
                 then u16 (len + PW_STATUS_TLV_SIZE) else len in
      Some len
  | FecTwcard tw_type _ =>
      let len := u16 (len + FEC_ELM_TWCARD_MIN_LEN) in
      if (tw_type =? MAP_TYPE_PREFIX) || (tw_type =? MAP_TYPE_PWID)
      then Some (u16 (len + 2))
      else None
  end.

(** The [switch] on an address family that picks the wire number;
    [None] is [fatalx]. *)
Definition family_of_af (af : Z) : option Z :=
  if af =? AF_INET then Some AF_IPV4
  else if af =? AF_INET6 then Some AF_IPV6
  else None.

(** [gen_fec_tlv], started with a clear [err]; [None] is [fatalx].
    The prefix of a prefix record is read from the 16 bytes of its
    address.  Where the prefix length is above 128 the C code reads on
    behind the address field, as many bytes as [PREFIX_SIZE] says; the
    model appends a zero for every such byte. *)
Definition gen_fec_tlv (buf : ibuf) (m : map) : option (ibuf * Z) :=
  let ft_type := put_u16 TLV_TYPE_FEC in
  match fec m with
  | FecWildcard =>
      Some ((buf, 0) >+ (ft_type ++ put_u16 1) >+ [u8 (map_type m)])
  | FecPrefix af prefix prefixlen =>
      let len := u16 (PREFIX_SIZE prefixlen) in
      let s := (buf, 0) >+ (ft_type ++ put_u16 (1 + 2 + 1 + len))
                        >+ [u8 (map_type m)] in
      match family_of_af af with
      | None => None
      | Some family =>
          let s := s >+ put_u16 family >+ [u8 prefixlen] in
          Some (if len =? 0 then s
                else s >+ mem_read prefix 0 (Z.to_nat len))
      end
  | FecPwid pw_type pwid group_id ifmtu =>
      let pw_len := 0 in
      let pw_len := if has_flag (flags m) F_MAP_PW_ID
                    then u8 (pw_len + FEC_PWID_SIZE) else pw_len in
      let pw_len := if has_flag (flags m) F_MAP_PW_IFMTU
                    then u8 (pw_len + FEC_SUBTLV_IFMTU_SIZE) else pw_len in
      let len := u16 (FEC_PWID_ELM_MIN_LEN + pw_len) in
      let s := (buf, 0) >+ (ft_type ++ put_u16 len) >+ [u8 (map_type m)] in
      let pw_type := if has_flag (flags m) F_MAP_PW_CWORD
                     then Z.lor pw_type CONTROL_WORD_FLAG else pw_type in
      let s := s >+ put_u16 pw_type >+ [pw_len] >+ put_u32 group_id in
      let s := if has_flag (flags m) F_MAP_PW_ID
               then s >+ put_u32 pwid else s in
      let s := if has_flag (flags m) F_MAP_PW_IFMTU
               then s >+ [SUBTLV_IFMTU; FEC_SUBTLV_IFMTU_SIZE]
                      >+ put_u16 ifmtu
               else s in
      Some s
  | FecTwcard tw_type u =>
      let len := FEC_ELM_TWCARD_MIN_LEN in
      if (tw_type =? MAP_TYPE_PREFIX) || (tw_type =? MAP_TYPE_PWID) then
        let len := u16 (len + 2) in
        let s := (buf, 0) >+ (ft_type ++ put_u16 len)
                          >+ [u8 (map_type m)] >+ [u8 tw_type] in
        if tw_type =? MAP_TYPE_PREFIX then
          let s := s >+ [2] in
          match family_of_af u with
          | None => None
          | Some family => Some (s >+ put_u16 family)
          end
        else
          Some (s >+ [2] >+ put_u16 u)
      else None
  end.

(** ** The parser's effects

    A parsing step logs what it tells the collaborators and either
    yields a value, gives up ([Err]: the C function returns -1 or jumps
    to [err]) or does not come back ([NoReturn]: [fatalx] ends the
    process, or a loop spins for ever). *)

Inductive res (A : Type) :=
| Ok (a : A)
| Err
| NoReturn.
Arguments Err {A}.
Arguments NoReturn {A}.

Definition M (A : Type) : Type := (list event * res A)%type.

Definition ok {A : Type} (a : A) : M A := ([], Ok a).

Definition bind {A B : Type} (m : M A) (f : A -> M B) : M B :=
  match m with
  | (l, Ok a) => let (l', r) := f a in (l ++ l', r)
  | (l, Err) => (l, Err)
  | (l, NoReturn) => (l, NoReturn)
  end.

Notation "x <- m ;; f" := (bind m (fun x => f))
  (at level 61, m at next level, right associativity).
Notation "' p <- m ;; f" := (bind m (fun x => let p := x in f))
  (at level 61, p pattern, m at next level, right associativity).

(** [session_shutdown(nbr, s, msg->id, msg->type)] followed by the
    failure exit. *)
Definition shutdown {A : Type} (s : status) (msg : ldp_msg) : M A :=
  ([EvShutdown s (msg_id_f msg) (msg_type_f msg)], Err).

(** [send_notification(nbr->tcp, s, msg->id, msg->type)] followed by the
    failure exit. *)
Definition notification {A : Type} (s : status) (msg : ldp_msg) : M A :=
  ([EvNotification s (msg_id_f msg) (msg_type_f msg)], Err).

(** ** Decoding a FEC element *)

Fixpoint applymask_bytes (addr : list Z) (bits : Z) : list Z :=
  match addr with
  | [] => []
  | b :: rest =>
      (if 8 <=? bits then b
       else if bits <=? 0 then 0
       else Z.land b (Z.land (Z.shiftl 255 (8 - bits)) 255))
      :: applymask_bytes rest (bits - 8)
  end.

(** Modelled from the spec: [ldp_applymask] is defined in another file
    of the daemon; it masks the address to exactly [prefixlen] bits.  An
    IPv4 address is the first four bytes of the union, the rest is left
    alone.  (The decoder calls it with one of the two families only.) *)
Definition ldp_applymask (af : Z) (addr : list Z) (prefixlen : Z) : list Z :=
  if af =? AF_INET
  then applymask_bytes (firstn 4 addr) prefixlen ++ skipn 4 addr
  else applymask_bytes addr prefixlen.

Definition set_pwid_ifmtu (f : map_fec) (v : Z) : map_fec :=
  match f with
  | FecPwid t pwid gid _ => FecPwid t pwid gid v
  | _ => f
  end.

(** The loop over the optional interface-parameter sub-TLVs of a
    pseudowire element.  [pw_len] is a byte, so a run that comes back
    does so within 255 rounds; the fuel the caller gives covers that. *)
Fixpoint subtlv_loop (fuel : nat) (msg : ldp_msg) (buf : list Z)
    (off pw_len : Z) (m : map) : M (Z * map) :=
  if pw_len >? 0 then
    match fuel with
    | O => ([], NoReturn)
    | S fuel' =>
        if pw_len <? SUBTLV_HDR_SIZE then shutdown S_BAD_TLV_LEN msg
        else
          let stlv_type := byte_at buf off in
          let stlv_length := byte_at buf (off + 1) in
          if stlv_length >? pw_len then shutdown S_BAD_TLV_LEN msg
          else if stlv_type =? SUBTLV_IFMTU then
            if negb (stlv_length =? FEC_SUBTLV_IFMTU_SIZE)
            then shutdown S_BAD_TLV_LEN msg
            else
              let m := set_fec m (set_pwid_ifmtu (fec m)
                                    (get_u16 buf (off + SUBTLV_HDR_SIZE))) in
              let m := set_flags m (Z.lor (flags m) F_MAP_PW_IFMTU) in
              subtlv_loop fuel' msg buf (u16 (off + stlv_length))
                (u8 (pw_len - stlv_length)) m
          else
            subtlv_loop fuel' msg buf (u16 (off + stlv_length))
              (u8 (pw_len - stlv_length)) m
    end
  else ok (off, m).

(** The [switch] that turns a wire address family into the host's. *)
Definition af_of_family (family : Z) : option Z :=
  if family =? AF_IPV4 then Some AF_INET
  else if family =? AF_IPV6 then Some AF_INET6
  else None.

(** [tlv_decode_fec_elm].  [m] is the record the caller has cleared; the
    result is the number of bytes consumed and the record filled in.
    The prefix of a prefix element is kept as the bytes copied, filled
    up with zeros to the 16 bytes of the address field.  A prefix of
    more than 16 bytes - family IPv6 with a prefix length above 128,
    which the check lets through - does not fit that field: the copy
    in the C code then runs over its end, which C leaves undefined, and
    the model keeps the bytes copied and the prefix length of the
    wire. *)
Definition tlv_decode_fec_elm (msg : ldp_msg) (buf : list Z) (len : Z)
    (m : map) : M (Z * map) :=
  let type := byte_at buf 0 in
  let off := 1 in
  if type =? MAP_TYPE_WILDCARD then
    if len =? FEC_ELM_WCARD_LEN then ok (off, set_fec m FecWildcard)
    else shutdown S_BAD_TLV_VAL msg
  else if type =? MAP_TYPE_PREFIX then
    if len <? FEC_ELM_PREFIX_MIN_LEN then shutdown S_BAD_TLV_LEN msg
    else
      (* Address Family *)
      let family := get_u16 buf off in
      let off := off + 2 in
      match af_of_family family with
      | None => notification S_UNSUP_ADDR msg
      | Some af =>
          (* Prefix Length *)
          let prefixlen := byte_at buf off in
          let off := off + 1 in
          if ((af =? AF_IPV4) && (prefixlen >? IPV4_MAX_BITLEN))
             || ((af =? AF_IPV6) && (prefixlen >? IPV6_MAX_BITLEN))
          then shutdown S_BAD_TLV_VAL msg
          else if len <? off + PREFIX_SIZE prefixlen
          then shutdown S_BAD_TLV_LEN msg
          else
            (* Prefix *)
            let n := Z.to_nat (PREFIX_SIZE prefixlen) in
            let prefix := mem_read buf off n ++ repeat 0 (16 - n)%nat in
            let prefix := ldp_applymask af prefix prefixlen in
            ok (off + PREFIX_SIZE prefixlen,
                set_fec m (FecPrefix af prefix prefixlen))
      end
  else if type =? MAP_TYPE_PWID then
    if len <? FEC_PWID_ELM_MIN_LEN then shutdown S_BAD_TLV_LEN msg
    else
      (* PW type *)
      let pw_type := get_u16 buf off in
      let cword := has_flag pw_type CONTROL_WORD_FLAG in
      let m := if cword then set_flags m (Z.lor (flags m) F_MAP_PW_CWORD)
               else m in
      let pw_type := if cword
                     then Z.land pw_type (Z.lnot CONTROL_WORD_FLAG)
                     else pw_type in
      let off := off + 2 in
      (* PW info Length *)
      let pw_len := byte_at buf off in
      let off := off + 1 in
      if negb (len =? FEC_PWID_ELM_MIN_LEN + pw_len)
      then shutdown S_BAD_TLV_LEN msg
      else
        (* Group ID *)
        let group_id := get_u32 buf off in
        let off := off + 4 in
        (* PW ID *)
        if pw_len =? 0 then ok (off, set_fec m (FecPwid pw_type 0 group_id 0))
        else if pw_len <? 4 then shutdown S_BAD_TLV_LEN msg
        else
          let pwid := get_u32 buf off in
          let m := set_fec m (FecPwid pw_type pwid group_id 0) in
          let m := set_flags m (Z.lor (flags m) F_MAP_PW_ID) in
          let off := off + 4 in
          let pw_len := u8 (pw_len - 4) in
          (* Optional Interface Parameter Sub-TLVs *)
          subtlv_loop 256 msg buf off pw_len m
  else if type =? MAP_TYPE_TYPED_WCARD then
    if len <? FEC_ELM_TWCARD_MIN_LEN then shutdown S_BAD_TLV_LEN msg
    else
      let tw_type := byte_at buf off in
      let off := off + 1 in
      let twcard_len := byte_at buf off in
      let off := off + 1 in
      if negb (len =? FEC_ELM_TWCARD_MIN_LEN + twcard_len)
      then shutdown S_BAD_TLV_LEN msg
      else if tw_type =? MAP_TYPE_PREFIX then
        if negb (twcard_len =? 2) then shutdown S_BAD_TLV_LEN msg
        else
          let family := get_u16 buf off in
          let off := off + 2 in
          match af_of_family family with
          | None => shutdown S_BAD_TLV_VAL msg
          | Some af => ok (off, set_fec m (FecTwcard tw_type af))
          end
      else if tw_type =? MAP_TYPE_PWID then
        if negb (twcard_len =? 2) then shutdown S_BAD_TLV_LEN msg
        else
          let pw_type := get_u16 buf off in
          (* ignore the reserved bit as per RFC 6667 *)
          let pw_type := Z.land pw_type (Z.lnot PW_TWCARD_RESERVED_BIT) in
          let off := off + 2 in
          ok (off, set_fec m (FecTwcard tw_type pw_type))
      else notification S_UNKNOWN_FEC msg
  else notification S_UNKNOWN_FEC msg.

(** ** Receiving a label message *)

(** A cleared [struct map] ([memset(&map, 0, sizeof(map))]); the union
    reads as a wildcard until the decoder sets the tag. *)
Definition map_zero : map :=
  {| msg_id := 0; fec := FecWildcard;
     st := {| status_code := 0; st_msg_id := 0; st_msg_type := 0 |};
     label := 0; requestid := 0; pw_status := 0; flags := 0 |}.

Definition set_msg_id (m : map) (id : Z) : map :=
  {| msg_id := id; fec := fec m; st := st m; label := label m;
     requestid := requestid m; pw_status := pw_status m; flags := flags m |}.

(** The position of the parser in the packet: [buf] and [len]. *)
Record cursor := {
  c_buf : list Z;
  c_len : Z
}.

Definition advance (c : cursor) (n : Z) : cursor :=
  {| c_buf := skipn (Z.to_nat n) (c_buf c); c_len := u16 (c_len c - n) |}.

Definition is_wildcard (m : map) : bool :=
  match fec m with FecWildcard => true | _ => false end.
Definition is_twcard (m : map) : bool :=
  match fec m with FecTwcard _ _ => true | _ => false end.
Definition is_pwid (m : map) : bool :=
  match fec m with FecPwid _ _ _ _ => true | _ => false end.

(** One round of the [do ... while (feclen > 0)] loop: decode an
    element, check it against the message type and queue it.  The result
    is the element's length and the queue. *)
Definition fec_round (msg : ldp_msg) (type : Z) (c : cursor) (feclen : Z)
    (mh : list map) : M (Z * list map) :=
  let m := set_msg_id map_zero (msg_id_f msg) in
  '(tlen, m) <- tlv_decode_fec_elm msg (c_buf c) (u16 feclen) m ;;
  if is_pwid m && negb (has_flag (flags m) F_MAP_PW_ID) &&
     negb (type =? MSG_TYPE_LABELWITHDRAW) &&
     negb (type =? MSG_TYPE_LABELRELEASE)
  then notification S_MISS_MSG msg
  else if is_wildcard m &&
          ((type =? MSG_TYPE_LABELMAPPING) || (type =? MSG_TYPE_LABELREQUEST)
           || (type =? MSG_TYPE_LABELABORTREQ))
  then shutdown S_UNKNOWN_FEC msg
  else if is_twcard m &&
          ((type =? MSG_TYPE_LABELMAPPING) || (type =? MSG_TYPE_LABELABORTREQ))
  then shutdown S_UNKNOWN_FEC msg
  else if negb (type =? MSG_TYPE_LABELMAPPING) && negb (tlen =? feclen)
  then shutdown S_BAD_TLV_VAL msg
  else ok (tlen, mh ++ [m]).

(** The loop over the FEC elements.  Every round consumes at least one
    byte of [feclen], so [feclen] rounds and one more are enough. *)
Fixpoint fec_loop (fuel : nat) (msg : ldp_msg) (type : Z) (c : cursor)
    (feclen : Z) (mh : list map) : M (cursor * list map) :=
  match fuel with
  | O => ([], NoReturn)
  | S fuel' =>
      '(tlen, mh) <- fec_round msg type c feclen mh ;;
      let c := advance c tlen in
      let feclen := feclen - tlen in
      if feclen >? 0 then fec_loop fuel' msg type c feclen mh
      else ok (c, mh)
  end.

(** What the optional parameters leave behind: the locals [label],
    [reqid], [pw_status], [flags] and [current_tlv]. *)
Record optvals := {
  o_label : Z;
  o_reqid : Z;
  o_pw_status : Z;
  o_flags : Z;
  o_current_tlv : Z
}.

Definition optvals_init : optvals :=
  {| o_label := NO_LABEL; o_reqid := 0; o_pw_status := 0; o_flags := 0;
     o_current_tlv := 1 |}.

Definition label_invalid (label : Z) : bool :=
  (label >? MPLS_LABEL_MAX)
  || ((label <=? MPLS_LABEL_RESERVED_MAX)
      && negb (label =? MPLS_LABEL_IPV4_EXPLICIT_NULL)
      && negb (label =? MPLS_LABEL_IPV6_EXPLICIT_NULL)
      && negb (label =? MPLS_LABEL_IMPLICIT_NULL)).

(** The [switch (tlv_type)] of the optional-parameter loop; [buf] points
    at the value of the TLV. *)
Definition opt_switch (msg : ldp_msg) (type : Z) (tlv_type tlv_len : Z)
    (buf : list Z) (o : optvals) : M optvals :=
  if tlv_type =? TLV_TYPE_LABELREQUEST then
    if (type =? MSG_TYPE_LABELMAPPING) || (type =? MSG_TYPE_LABELREQUEST) then
      if negb (tlv_len =? REQID_TLV_LEN) then shutdown S_BAD_TLV_LEN msg
      else ok {| o_label := o_label o; o_reqid := get_u32 buf 0;
                 o_pw_status := o_pw_status o;
                 o_flags := Z.lor (o_flags o) F_MAP_REQ_ID;
                 o_current_tlv := o_current_tlv o |}
    else ok o
  else if (tlv_type =? TLV_TYPE_HOPCOUNT) || (tlv_type =? TLV_TYPE_PATHVECTOR)
  then ok o
  else if tlv_type =? TLV_TYPE_GENERICLABEL then
    if (type =? MSG_TYPE_LABELMAPPING) || (type =? MSG_TYPE_LABELWITHDRAW)
       || (type =? MSG_TYPE_LABELRELEASE) then
      if negb (tlv_len =? LABEL_TLV_LEN) then shutdown S_BAD_TLV_LEN msg
      else
        let label := get_u32 buf 0 in
        (* do not accept invalid labels *)
        if label_invalid label then shutdown S_BAD_TLV_VAL msg
        else ok {| o_label := label; o_reqid := o_reqid o;
                   o_pw_status := o_pw_status o; o_flags := o_flags o;
                   o_current_tlv := o_current_tlv o |}
    else ok o
  else if (tlv_type =? TLV_TYPE_ATMLABEL) || (tlv_type =? TLV_TYPE_FRLABEL) then
    if (type =? MSG_TYPE_LABELMAPPING) || (type =? MSG_TYPE_LABELWITHDRAW)
       || (type =? MSG_TYPE_LABELRELEASE)
    then shutdown S_BAD_TLV_VAL msg
    else ok o
  else if tlv_type =? TLV_TYPE_STATUS then
    if negb (tlv_len =? STATUS_TLV_LEN) then shutdown S_BAD_TLV_LEN msg
    else ok o
  else if tlv_type =? TLV_TYPE_PW_STATUS then
    if type =? MSG_TYPE_LABELMAPPING then
      if negb (tlv_len =? PW_STATUS_TLV_LEN) then shutdown S_BAD_TLV_LEN msg
      else ok {| o_label := o_label o; o_reqid := o_reqid o;
                 o_pw_status := get_u32 buf 0;
                 o_flags := Z.lor (o_flags o) F_MAP_PW_STATUS;
                 o_current_tlv := o_current_tlv o |}
    else ok o
  else
    if negb (has_flag tlv_type UNKNOWN_FLAG)
    then ([EvNotificationRtlvs S_UNKNOWN_TLV (msg_id_f msg) (msg_type_f msg)
             tlv_type tlv_len (mem_read buf 0 (Z.to_nat tlv_len))], Ok o)
    else ok o.

(** One round of the [while (len > 0)] loop over the optional
    parameters. *)
Definition opt_round (msg : ldp_msg) (type : Z) (c : cursor) (o : optvals)
    : M (cursor * optvals) :=
  if c_len c <? TLV_HDR_SIZE then shutdown S_BAD_TLV_LEN msg
  else
    let tlv_type := get_u16 (c_buf c) 0 in
    let tlv_len := get_u16 (c_buf c) 2 in
    if tlv_len + TLV_HDR_SIZE >? c_len c then shutdown S_BAD_TLV_LEN msg
    else
      let c := advance c TLV_HDR_SIZE in
      (*
       * For Label Mapping messages the Label TLV is mandatory and
       * should appear right after the FEC TLV.
       *)
      if (o_current_tlv o =? 1) && (type =? MSG_TYPE_LABELMAPPING) &&
         negb (has_flag tlv_type TLV_TYPE_GENERICLABEL)
      then notification S_MISS_MSG msg
      else
        o <- opt_switch msg type tlv_type tlv_len (c_buf c) o ;;
        ok (advance c tlv_len,
            {| o_label := o_label o; o_reqid := o_reqid o;
               o_pw_status := o_pw_status o; o_flags := o_flags o;
               o_current_tlv := u16 (o_current_tlv o + 1) |}).

(** The loop over the optional parameters.  Every round consumes at
    least the four bytes of a TLV header. *)
Fixpoint opt_loop (fuel : nat) (msg : ldp_msg) (type : Z) (c : cursor)
    (o : optvals) : M optvals :=
  if c_len c >? 0 then
    match fuel with
    | O => ([], NoReturn)
    | S fuel' =>
        '(c, o) <- opt_round msg type c o ;;
        opt_loop fuel' msg type c o
    end
  else ok o.

(** The message kind a message type is announced as. *)
Definition imsg_of_type (type : Z) : imsg_type :=
  if type =? MSG_TYPE_LABELMAPPING then IMSG_LABEL_MAPPING
  else if type =? MSG_TYPE_LABELREQUEST then IMSG_LABEL_REQUEST
  else if type =? MSG_TYPE_LABELWITHDRAW then IMSG_LABEL_WITHDRAW
  else if type =? MSG_TYPE_LABELRELEASE then IMSG_LABEL_RELEASE
  else if type =? MSG_TYPE_LABELABORTREQ then IMSG_LABEL_ABORT
  else IMSG_NONE.

(** What the last loop does with one queued record. *)
Inductive verdict :=
| Deliver (m : map)
| Skip
| Fatal (s : status)
| Abort.

(** The per-record [switch (me->map.type)] of the last loop. *)
Definition check_record (n : nbr) (o : optvals) (me : map) : verdict :=
  let me := set_flags me (Z.lor (flags me) (o_flags o)) in
  match fec me with
  | FecPrefix af _ _ =>
      if af =? AF_INET then
        if o_label o =? MPLS_LABEL_IPV6_EXPLICIT_NULL then Fatal S_BAD_TLV_VAL
        else if negb (v4_enabled n) then Skip
        else Deliver me
      else if af =? AF_INET6 then
        if o_label o =? MPLS_LABEL_IPV4_EXPLICIT_NULL then Fatal S_BAD_TLV_VAL
        else if negb (v6_enabled n) then Skip
        else Deliver me
      else Abort
  | FecPwid _ _ _ _ =>
      if o_label o <=? MPLS_LABEL_RESERVED_MAX then Fatal S_BAD_TLV_VAL
      else if has_flag (flags me) F_MAP_PW_STATUS
      then Deliver (set_pw_status me (o_pw_status o))
      else Deliver me
  | _ => Deliver me
  end.

(** The record as it is handed over: label and request id filled in. *)
Definition finish_record (o : optvals) (me : map) : map :=
  let me := set_label me (o_label o) in
  if has_flag (flags me) F_MAP_REQ_ID then set_requestid me (o_reqid o)
  else me.

(** The loop that notifies the label-distribution engine. *)
Fixpoint notify_lde (n : nbr) (msg : ldp_msg) (type : Z) (o : optvals)
    (mh : list map) : M unit :=
  match mh with
  | [] => ok tt
  | me :: rest =>
      match check_record n o me with
      | Fatal s => shutdown s msg
      | Abort => ([], NoReturn)
      | Skip => notify_lde n msg type o rest
      | Deliver me =>
          _ <- ([EvImsg (imsg_of_type type) (peerid n) (finish_record o me)],
                Ok tt) ;;
          notify_lde n msg type o rest
      end
  end.

(** The first part of [recv_labelmessage]: the message header, the
    header of the FEC TLV and the loop over its elements. *)
Definition parse_fec (msg : ldp_msg) (buf : list Z) (len : Z) (type : Z)
    : M (cursor * list map) :=
  let c := advance {| c_buf := buf; c_len := len |} LDP_MSG_SIZE in
  (* FEC TLV *)
  if c_len c <? TLV_HDR_SIZE then shutdown S_BAD_TLV_LEN msg
  else if negb (get_u16 (c_buf c) 0 =? TLV_TYPE_FEC)
  then notification S_MISS_MSG msg
  else
    let feclen := get_u16 (c_buf c) 2 in
    if feclen >? c_len c - TLV_HDR_SIZE then shutdown S_BAD_TLV_LEN msg
    else
      let c := advance c TLV_HDR_SIZE in
      fec_loop (S (Z.to_nat feclen)) msg type c feclen [].

(** [memcpy(&msg, buf, sizeof(msg))]. *)
Definition read_msg (buf : list Z) : ldp_msg :=
  {| msg_type_f := get_u16 buf 0; msg_length := get_u16 buf 2;
     msg_id_f := get_u32 buf 4 |}.

(** [recv_labelmessage]: the log of what the collaborators were told,
    and [Ok tt] for the return value 0, [Err] for -1. *)
Definition recv_labelmessage (n : nbr) (buf : list Z) (len : Z) (type : Z)
    : M unit :=
  let msg := read_msg buf in
  '(c, mh) <- parse_fec msg buf len type ;;
  (* Optional Parameters *)
  o <- opt_loop (Z.to_nat (c_len c)) msg type c optvals_init ;;
  (* notify lde about the received message. *)
  notify_lde n msg type o mh.

(** ** Sending label messages *)

Definition set_wbuf (n : nbr) (w : list (list Z)) : nbr :=
  {| peerid := peerid n; max_pdu_len := max_pdu_len n;
     v4_enabled := v4_enabled n; v6_enabled := v6_enabled n;
     stats := stats n; wbuf := w; fsm_log := fsm_log n |}.
Definition set_stats (n : nbr) (s : nbr_stats) : nbr :=
  {| peerid := peerid n; max_pdu_len := max_pdu_len n;
     v4_enabled := v4_enabled n; v6_enabled := v6_enabled n;
     stats := s; wbuf := wbuf n; fsm_log := fsm_log n |}.

(** [nbr_fsm(nbr, ev)], as far as the sender is concerned: the event
    reaches the state machine. *)
Definition nbr_fsm (n : nbr) (ev : nbr_event) : nbr :=
  {| peerid := peerid n; max_pdu_len := max_pdu_len n;
     v4_enabled := v4_enabled n; v6_enabled := v6_enabled n;
     stats := stats n; wbuf := wbuf n; fsm_log := fsm_log n ++ [ev] |}.

(** [enqueue_pdu]: write the length into the LDP header and queue the
    buffer.  [None]: [ibuf_seek] finds no header in the buffer and the
    store through its null result faults. *)
Definition enqueue_pdu (n : nbr) (type : Z) (buf : ibuf) (size : Z)
    : option nbr :=
  if ibuf_size buf <? LDP_HDR_SIZE then None
  else
    let data := firstn 2 (ib_data buf)
                ++ put_u16 (size - LDP_HDR_DEAD_LEN)
                ++ skipn 4 (ib_data buf) in
    Some (set_wbuf n (wbuf n ++ [data])).

(** The "calculate size" block; [None] is the [fatalx] of
    [len_fec_tlv]. *)
Definition calc_msg_size (me : map) : option Z :=
  match len_fec_tlv me with
  | None => None
  | Some l =>
      let msg_size := u16 (LDP_MSG_SIZE + l) in
      let msg_size := if negb (label me =? NO_LABEL)
                      then u16 (msg_size + LABEL_TLV_SIZE) else msg_size in
      let msg_size := if has_flag (flags me) F_MAP_REQ_ID
                      then u16 (msg_size + REQID_TLV_SIZE) else msg_size in
      let msg_size := if has_flag (flags me) F_MAP_STATUS
                      then u16 (msg_size + STATUS_SIZE) else msg_size in
      Some msg_size
  end.

(** The per-type counter [switch]. *)
Definition count_sent (type : Z) (s : nbr_stats) : nbr_stats :=
  if type =? MSG_TYPE_LABELMAPPING then
    {| labelmap_sent := u32 (labelmap_sent s + 1);
       labelreq_sent := labelreq_sent s; labelwdraw_sent := labelwdraw_sent s;
       labelrel_sent := labelrel_sent s; labelabreq_sent := labelabreq_sent s |}
  else if type =? MSG_TYPE_LABELREQUEST then
    {| labelmap_sent := labelmap_sent s;
       labelreq_sent := u32 (labelreq_sent s + 1);
       labelwdraw_sent := labelwdraw_sent s;
       labelrel_sent := labelrel_sent s; labelabreq_sent := labelabreq_sent s |}
  else if type =? MSG_TYPE_LABELWITHDRAW then
    {| labelmap_sent := labelmap_sent s; labelreq_sent := labelreq_sent s;
       labelwdraw_sent := u32 (labelwdraw_sent s + 1);
       labelrel_sent := labelrel_sent s; labelabreq_sent := labelabreq_sent s |}
  else if type =? MSG_TYPE_LABELRELEASE then
    {| labelmap_sent := labelmap_sent s; labelreq_sent := labelreq_sent s;
       labelwdraw_sent := labelwdraw_sent s;
       labelrel_sent := u32 (labelrel_sent s + 1);
       labelabreq_sent := labelabreq_sent s |}
  else if type =? MSG_TYPE_LABELABORTREQ then
    {| labelmap_sent := labelmap_sent s; labelreq_sent := labelreq_sent s;
       labelwdraw_sent := labelwdraw_sent s; labelrel_sent := labelrel_sent s;
       labelabreq_sent := u32 (labelabreq_sent s + 1) |}
  else s.

(** The variables of [send_labelmessage] that live across the rounds of
    its loop: the neighbour, the queue [mh], the locals [buf], [size],
    [first] and [err], and the counter the message identifiers are drawn
    from. *)
Record send_state := {
  s_nbr : nbr;
  s_msgcnt : Z;
  s_mh : list map;
  s_buf : option ibuf;
  s_size : Z;
  s_first : bool;
  s_err : Z
}.

(** How a call of [send_labelmessage] ends: it returns, leaving the
    neighbour, the counter and the queue in some state; or the process
    dies ([fatalx], a store through a null pointer); or the model's fuel
    is used up before the loop has come to an end. *)
Inductive send_outcome :=
| SendReturns (n : nbr) (msgcnt : Z) (mh : list map)
| SendDies
| SendOutOfFuel.

(** What one round of the loop leads to. *)
Inductive round_result :=
| Next (s : send_state)
| Returned (n : nbr) (msgcnt : Z) (mh : list map)
| Died.

(** The messages and TLVs appended for one record, after the message
    header: [None] is [fatalx]. *)
Definition gen_tlvs (s : ibuf * Z) (me : map) : option (ibuf * Z) :=
  match gen_fec_tlv (fst s) me with
  | None => None
  | Some (b, r) =>
      let s := (b, Z.lor (snd s) r) in
      let s := if negb (label me =? NO_LABEL)
               then let (b, r) := gen_label_tlv (fst s) (label me) in
                    (b, Z.lor (snd s) r)
               else s in
      let s := if has_flag (flags me) F_MAP_REQ_ID
               then let (b, r) := gen_reqid_tlv (fst s) (requestid me) in
                    (b, Z.lor (snd s) r)
               else s in
      let s := if has_flag (flags me) F_MAP_PW_STATUS
               then let (b, r) := gen_pw_status_tlv (fst s) (pw_status me) in
                    (b, Z.lor (snd s) r)
               else s in
      let s := if has_flag (flags me) F_MAP_STATUS
               then let (b, r) := gen_status_tlv (fst s)
                                    (status_code (st me)) (st_msg_id (st me))
                                    (st_msg_type (st me)) in
                    (b, Z.lor (snd s) r)
               else s in
      Some s
  end.

(** One round of the [while ((me = TAILQ_FIRST(mh)) != NULL)] loop, for
    the head [me] of the queue and the records [rest] behind it. *)
Definition send_round (lsr_id type : Z) (s : send_state) (me : map)
    (rest : list map) : round_result :=
  let n := s_nbr s in
  (* generate pdu *)
  let '(buf, err, size) :=
    if s_first s then
      let (b, r) := gen_ldp_hdr lsr_id
                      (ibuf_open (max_pdu_len n + LDP_HDR_DEAD_LEN)) 0 in
      (Some b, Z.lor (s_err s) r, LDP_HDR_SIZE)
    else (s_buf s, s_err s, s_size s) in
  match buf with
  | None => Died
  | Some buf =>
      (* calculate size *)
      match calc_msg_size me with
      | None => Died
      | Some msg_size =>
          (* maximum pdu length exceeded, we need a new ldp pdu *)
          if size + msg_size >? max_pdu_len n then
            match enqueue_pdu n type buf size with
            | None => Died
            | Some n' =>
                Next {| s_nbr := n'; s_msgcnt := s_msgcnt s;
                        s_mh := me :: rest; s_buf := Some buf;
                        s_size := size; s_first := true; s_err := err |}
            end
          else
            let size := u16 (size + msg_size) in
            (* append message and tlvs *)
            let id := s_msgcnt s + 1 in
            let (b, r) := gen_msg_hdr id buf type msg_size in
            match gen_tlvs (b, Z.lor err r) me with
            | None => Died
            | Some (b, err) =>
                if negb (err =? 0) then Returned n id []
                else
                  (* no errors - update per neighbor message counters *)
                  let n := set_stats n (count_sent type (stats n)) in
                  Next {| s_nbr := n; s_msgcnt := id; s_mh := rest;
                          s_buf := Some b; s_size := size;
                          s_first := false; s_err := err |}
            end
      end
  end.

(** The loop and what follows it. *)
Fixpoint send_loop (fuel : nat) (lsr_id type : Z) (s : send_state)
    : send_outcome :=
  match s_mh s with
  | [] =>
      match s_buf s with
      | None => SendDies
      | Some buf =>
          match enqueue_pdu (s_nbr s) type buf (s_size s) with
          | None => SendDies
          | Some n => SendReturns (nbr_fsm n NBR_EVT_PDU_SENT) (s_msgcnt s) []
          end
      end
  | me :: rest =>
      match fuel with
      | O => SendOutOfFuel
      | S fuel' =>
          match send_round lsr_id type s me rest with
          | Next s' => send_loop fuel' lsr_id type s'
          | Returned n c mh => SendReturns n c mh
          | Died => SendDies
          end
      end
  end.

(** [send_labelmessage].  [lsr_id] is the router id the LDP header
    carries and [msgcnt] the last message identifier given out. *)
Definition send_labelmessage (fuel : nat) (lsr_id : Z) (n : nbr) (msgcnt : Z)
    (type : Z) (mh : list map) : send_outcome :=
  match mh with
  | [] => SendReturns n msgcnt mh   (* nothing to send *)
  | _ =>
      send_loop fuel lsr_id type
        {| s_nbr := n; s_msgcnt := msgcnt; s_mh := mh; s_buf := None;
           s_size := 0; s_first := true; s_err := 0 |}
  end.

(** ** A neighbour and some messages to run the functions on *)

Definition stats0 : nbr_stats :=
  {| labelmap_sent := 0; labelreq_sent := 0; labelwdraw_sent := 0;
     labelrel_sent := 0; labelabreq_sent := 0 |}.

(** A neighbour with both address families enabled and the default
    maximum PDU length. *)
Definition nbr0 : nbr :=
  {| peerid := 7; max_pdu_len := 4096; v4_enabled := true;
     v6_enabled := true; stats := stats0; wbuf := []; fsm_log := [] |}.

Definition st0 : map_status :=
  {| status_code := 0; st_msg_id := 0; st_msg_type := 0 |}.

(** A Label Mapping message (id 9) for 10.0.0.0/24 whose only optional
    TLV is a Label Request Message ID TLV (type 0x0600) with value
    100. *)
Definition msg_reqid_first : list Z :=
  [0x04; 0x00; 0; 23;  0; 0; 0; 9;
   0x01; 0x00; 0; 7;   2; 0; 1; 24; 10; 0; 0;
   0x06; 0x00; 0; 4;   0; 0; 0; 100].


(** ** Vocabulary of the statements *)

Definition is_imsg (e : event) : bool :=
  match e with EvImsg _ _ _ => true | _ => false end.

(** The two ways the parser reports a failure. *)
Definition is_failure (e : event) : bool :=
  match e with
  | EvShutdown _ _ _ | EvNotification _ _ _ => true
  | _ => false
  end.

(** The flag bits the optional parameters of a message can set. *)
Definition OPT_FLAGS : Z := Z.lor F_MAP_REQ_ID F_MAP_PW_STATUS.

(** The header of the FEC TLV passes the checks that precede the loop
    over the elements. *)
Definition fec_header_ok (buf : list Z) (len : Z) : Prop :=
  let c := advance {| c_buf := buf; c_len := len |} LDP_MSG_SIZE in
  TLV_HDR_SIZE <= c_len c /\
  get_u16 (c_buf c) 0 = TLV_TYPE_FEC /\
  get_u16 (c_buf c) 2 <= c_len c - TLV_HDR_SIZE.

(** Where the loop over the FEC elements starts, and the length it is
    given. *)
Definition fec_start (buf : list Z) (len : Z) : cursor :=
  advance (advance {| c_buf := buf; c_len := len |} LDP_MSG_SIZE) TLV_HDR_SIZE.
Definition fec_len (buf : list Z) : Z :=
  get_u16 (skipn (Z.to_nat LDP_MSG_SIZE) buf) 2.

(** [fec_run msg type c fl mh c' fl' mh']: started at the head of a
    round with cursor [c], remaining length [fl] and queue [mh], the
    loop over the FEC elements comes, after some rounds that all
    succeed and go round again, to the head of a round with [c'], [fl']
    and [mh']. *)
Inductive fec_run (msg : ldp_msg) (type : Z)
  : cursor -> Z -> list map -> cursor -> Z -> list map -> Prop :=
| fec_run_here (c : cursor) (fl : Z) (mh : list map) :
    fec_run msg type c fl mh c fl mh
| fec_run_round (c : cursor) (fl : Z) (mh : list map) (l : list event)
    (tlen : Z) (mh1 : list map) (c' : cursor) (fl' : Z) (mh' : list map) :
    fec_round msg type c fl mh = (l, Ok (tlen, mh1)) ->
    fl - tlen > 0 ->
    fec_run msg type (advance c tlen) (fl - tlen) mh1 c' fl' mh' ->
    fec_run msg type c fl mh c' fl' mh'.

(** [opt_run msg type c o l c' o']: started at the head of a round with
    cursor [c] and locals [o], the loop over the optional parameters
    comes, after some rounds that all succeed, to the head of a round
    with [c'] and [o'], having logged [l]. *)
Inductive opt_run (msg : ldp_msg) (type : Z)
  : cursor -> optvals -> list event -> cursor -> optvals -> Prop :=
| opt_run_here (c : cursor) (o : optvals) :
    opt_run msg type c o [] c o
| opt_run_round (c : cursor) (o : optvals) (l1 : list event) (c1 : cursor)
    (o1 : optvals) (l2 : list event) (c' : cursor) (o' : optvals) :
    c_len c > 0 ->
    opt_round msg type c o = (l1, Ok (c1, o1)) ->
    opt_run msg type c1 o1 l2 c' o' ->
    opt_run msg type c o (l1 ++ l2) c' o'.

(** The events by which the records of [mh] that pass their checks are
    handed to the label-distribution engine. *)
Definition handed_over (n : nbr) (type : Z) (o : optvals) (mh : list map)
    : list event :=
  flat_map (fun me =>
              match check_record n o me with
              | Deliver m =>
                  [EvImsg (imsg_of_type type) (peerid n) (finish_record o m)]
              | _ => []
              end) mh.

(** The label values the claim on label bounds speaks of: above the
    largest label, or reserved and not one of the three that are let
    through. *)
Definition label_out_of_bounds (label : Z) : Prop :=
  label > MPLS_LABEL_MAX \/
  (label <= MPLS_LABEL_RESERVED_MAX /\
   label <> MPLS_LABEL_IPV4_EXPLICIT_NULL /\
   label <> MPLS_LABEL_IPV6_EXPLICIT_NULL /\
   label <> MPLS_LABEL_IMPLICIT_NULL).

(** What holds of a record when the FEC decoder has filled it in: it
    carries none of the flags of the optional parameters, and a prefix
    is of one of the two families. *)
Definition decoded_record (m : map) : Prop :=
  Z.land (flags m) OPT_FLAGS = 0 /\
  match fec m with
  | FecPrefix af _ _ => af = AF_INET \/ af = AF_INET6
  | _ => True
  end.

(** The claim that a failed decode hands nothing at all to the
    label-distribution engine. *)
Definition discards_everything (n : nbr) (buf : list Z) (len type : Z) : Prop :=
  forall log, recv_labelmessage n buf len type = (log, Err) ->
              forall e, In e log -> is_imsg e = false.

(** A Label Mapping message (id 9) with an IPv4 prefix 10.0.0.0/24 and
    an IPv6 prefix 2001:db8::/32 in its FEC TLV, and the label 0 (IPv4
    explicit null). *)
Definition msg_v4_v6_label0 : list Z :=
  [0x04; 0x00; 0; 31;  0; 0; 0; 9;
   0x01; 0x00; 0; 15;  2; 0; 1; 24; 10; 0; 0;
                       2; 0; 2; 32; 0x20; 0x01; 0x0d; 0xb8;
   0x02; 0x00; 0; 4;   0; 0; 0; 0].

(** How a decode that fails while the FEC TLV or the optional
    parameters are parsed ends: the log closes with the failure and
    holds no hand-over. *)
Definition failed_in_parsing (buf : list Z) (len type : Z) (log : list event)
    : Prop :=
  exists pre e,
    log = pre ++ [e] /\ is_failure e = true /\
    Forall (fun e => is_imsg e = false) pre /\
    (parse_fec (read_msg buf) buf len type = (log, Err) \/
     exists c mh,
       parse_fec (read_msg buf) buf len type = ([], Ok (c, mh)) /\
       opt_loop (Z.to_nat (c_len c)) (read_msg buf) type c optvals_init
       = (log, Err)).

(** How a decode that fails in the last loop ends: the queue splits
    into the records [pre] in front of the failing record [me] and the
    ones [post] behind it; the log holds what the optional parameters
    logged, the hand-over of [pre] and, last, the shutdown. *)
Definition failed_in_dispatch (n : nbr) (buf : list Z) (len type : Z)
    (log : list event) : Prop :=
  exists c mh l1 o pre me post s,
    parse_fec (read_msg buf) buf len type = ([], Ok (c, mh)) /\
    opt_loop (Z.to_nat (c_len c)) (read_msg buf) type c optvals_init
    = (l1, Ok o) /\
    Forall (fun e => is_imsg e = false) l1 /\
    mh = pre ++ me :: post /\
    check_record n o me = Fatal s /\
    log = l1 ++ handed_over n type o pre ++
          [EvShutdown s (msg_id_f (read_msg buf)) (msg_type_f (read_msg buf))].

(** A record carries the values [o] that the optional parameters of its
    message left behind. *)
Definition same_message_values (o : optvals) (m : map) : Prop :=
  label m = o_label o /\
  (has_flag (flags m) F_MAP_REQ_ID = true -> requestid m = o_reqid o) /\
  Z.land (flags m) OPT_FLAGS = o_flags o.

(** A Label Mapping message (id 9) with the prefixes 10.0.0.0/24 and
    192.168.0.0/16 in its FEC TLV, the label 100 and the request id
    5. *)
Definition msg_two_prefixes : list Z :=
  [0x04; 0x00; 0; 37;  0; 0; 0; 9;
   0x01; 0x00; 0; 13;  2; 0; 1; 24; 10; 0; 0;
                       2; 0; 1; 16; 192; 168;
   0x02; 0x00; 0; 4;   0; 0; 0; 100;
   0x06; 0x00; 0; 4;   0; 0; 0; 5].

Definition log_two_prefixes : list event :=
  [EvImsg IMSG_LABEL_MAPPING 7
     {| msg_id := 9;
        fec := FecPrefix AF_INET [10; 0; 0; 0; 0; 0; 0; 0;
                                  0; 0; 0; 0; 0; 0; 0; 0] 24;
        st := st0; label := 100; requestid := 5; pw_status := 0;
        flags := F_MAP_REQ_ID |};
   EvImsg IMSG_LABEL_MAPPING 7
     {| msg_id := 9;
        fec := FecPrefix AF_INET [192; 168; 0; 0; 0; 0; 0; 0;
                                  0; 0; 0; 0; 0; 0; 0; 0] 16;
        st := st0; label := 100; requestid := 5; pw_status := 0;
        flags := F_MAP_REQ_ID |}].

(** The claim that a prefix of an unsupported address family costs only
    that element: the notification is sent and the decode of the message
    goes on to its normal end. *)
Definition decode_carries_on (n : nbr) (buf : list Z) (len type : Z) : Prop :=
  exists log,
    recv_labelmessage n buf len type = (log, Ok tt) /\
    In (EvNotification S_UNSUP_ADDR (msg_id_f (read_msg buf))
          (msg_type_f (read_msg buf))) log.

(** A Label Mapping message (id 9) whose FEC TLV holds the prefix
    10.0.0.0/24 followed by a prefix element of address family 3, and
    the label 100. *)
Definition msg_bad_af : list Z :=
  [0x04; 0x00; 0; 37;  0; 0; 0; 9;
   0x01; 0x00; 0; 13;  2; 0; 1; 24; 10; 0; 0;
                       2; 0; 3; 16; 192; 168;
   0x02; 0x00; 0; 4;   0; 0; 0; 100].

(** A Label Mapping message (id 9) for 10.0.0.0/24 with a Hop Count TLV
    after its Generic Label TLV; the label is 1 (router alert). *)
Definition msg_label_1 : list Z :=
  [0x04; 0x00; 0; 28;  0; 0; 0; 9;
   0x01; 0x00; 0; 7;   2; 0; 1; 24; 10; 0; 0;
   0x02; 0x00; 0; 4;   0; 0; 0; 1;
   0x01; 0x03; 0; 1;   5].

(** ** Messages on the wire, for the statements about two prefixes *)

Definition is_byte (b : Z) : Prop := 0 <= b < 256.

(** A prefix FEC element: tag, address family, prefix length, prefix. *)
Definition prefix_elm (family prefixlen : Z) (bytes : list Z) : list Z :=
  [MAP_TYPE_PREFIX; 0; family; prefixlen] ++ bytes.

(** A Generic Label TLV. *)
Definition label_tlv (label : Z) : list Z :=
  put_u16 TLV_TYPE_GENERICLABEL ++ put_u16 LABEL_TLV_LEN ++ put_u32 label.

(** A prefix element as a peer that follows the protocol sends it: a
    family of 1 or 2, a length within the family's bounds and the bytes
    that hold that many bits. *)
Definition wire_prefix_ok (family prefixlen : Z) (bytes : list Z) : Prop :=
  ((family = AF_IPV4 /\ prefixlen <= IPV4_MAX_BITLEN) \/
   (family = AF_IPV6 /\ prefixlen <= IPV6_MAX_BITLEN)) /\
  0 <= prefixlen /\
  length bytes = Z.to_nat (PREFIX_SIZE prefixlen) /\
  Forall is_byte bytes.

Definition host_af (family : Z) : Z :=
  if family =? AF_IPV4 then AF_INET else AF_INET6.

(** The record the decoder builds for a prefix element. *)
Definition prefix_record (id family prefixlen : Z) (bytes : list Z) (label : Z)
    : map :=
  {| msg_id := id;
     fec := FecPrefix (host_af family)
              (ldp_applymask (host_af family)
                 (bytes ++ repeat 0 (16 - length bytes)%nat) prefixlen)
              prefixlen;
     st := st0; label := label; requestid := 0; pw_status := 0; flags := 0 |}.

(** The label suits a prefix of the family: no IPv6 explicit null on an
    IPv4 prefix, no IPv4 explicit null on an IPv6 prefix. *)
Definition label_fits_family (family label : Z) : Prop :=
  (family = AF_IPV4 -> label <> MPLS_LABEL_IPV6_EXPLICIT_NULL) /\
  (family = AF_IPV6 -> label <> MPLS_LABEL_IPV4_EXPLICIT_NULL).

(** A Label Mapping message with two prefix elements in its FEC TLV and
    a Generic Label TLV behind it; [hdr] is the message header. *)
Definition two_prefix_mapping (hdr : list Z) (f1 p1 : Z) (b1 : list Z)
    (f2 p2 : Z) (b2 : list Z) (label : Z) : list Z :=
  hdr ++ put_u16 TLV_TYPE_FEC ++
  put_u16 ((4 + PREFIX_SIZE p1) + (4 + PREFIX_SIZE p2)) ++
  prefix_elm f1 p1 b1 ++ prefix_elm f2 p2 b2 ++ label_tlv label.

(** A Label Withdraw message (id 9) with the prefixes 10.0.0.0/24 and
    192.168.0.0/16 in its FEC TLV. *)
Definition msg_withdraw_two : list Z :=
  [0x04; 0x02; 0; 21;  0; 0; 0; 9;
   0x01; 0x00; 0; 13;  2; 0; 1; 24; 10; 0; 0;
                       2; 0; 1; 16; 192; 168].

(** ** Vocabulary of the statements about sending *)

(** A run of appends, [err |= ibuf_add(...)] one after the other. *)
Definition adds (cs : list (list Z)) (s : ibuf * Z) : ibuf * Z :=
  fold_left (fun s d => add d s) cs s.

(** The pieces [gen_fec_tlv] appends, in order; [None] where it ends in
    [fatalx]. *)
Definition fec_chunks (m : map) : option (list (list Z)) :=
  let ft_type := put_u16 TLV_TYPE_FEC in
  match fec m with
  | FecWildcard => Some [ft_type ++ put_u16 1; [u8 (map_type m)]]
  | FecPrefix af prefix prefixlen =>
      let len := u16 (PREFIX_SIZE prefixlen) in
      match family_of_af af with
      | None => None
      | Some family =>
          Some ([ft_type ++ put_u16 (1 + 2 + 1 + len); [u8 (map_type m)];
                 put_u16 family; [u8 prefixlen]]
                ++ (if len =? 0 then []
                    else [mem_read prefix 0 (Z.to_nat len)]))
      end
  | FecPwid pw_type pwid group_id ifmtu =>
      let pw_len := 0 in
      let pw_len := if has_flag (flags m) F_MAP_PW_ID
                    then u8 (pw_len + FEC_PWID_SIZE) else pw_len in
      let pw_len := if has_flag (flags m) F_MAP_PW_IFMTU
                    then u8 (pw_len + FEC_SUBTLV_IFMTU_SIZE) else pw_len in
      let len := u16 (FEC_PWID_ELM_MIN_LEN + pw_len) in
      let pw_type := if has_flag (flags m) F_MAP_PW_CWORD
                     then Z.lor pw_type CONTROL_WORD_FLAG else pw_type in
      Some ([ft_type ++ put_u16 len; [u8 (map_type m)]; put_u16 pw_type;
             [pw_len]; put_u32 group_id]
            ++ (if has_flag (flags m) F_MAP_PW_ID then [put_u32 pwid] else [])
            ++ (if has_flag (flags m) F_MAP_PW_IFMTU
                then [[SUBTLV_IFMTU; FEC_SUBTLV_IFMTU_SIZE]; put_u16 ifmtu]
                else []))
  | FecTwcard tw_type u =>
      if (tw_type =? MAP_TYPE_PREFIX) || (tw_type =? MAP_TYPE_PWID) then
        let len := u16 (FEC_ELM_TWCARD_MIN_LEN + 2) in
        let head := [ft_type ++ put_u16 len; [u8 (map_type m)];
                     [u8 tw_type]; [2]] in
        if tw_type =? MAP_TYPE_PREFIX then
          match family_of_af u with
          | None => None
          | Some family => Some (head ++ [put_u16 family])
          end
        else Some (head ++ [put_u16 u])
      else None
  end.

(** The optional TLVs appended behind the FEC TLV, in order. *)
Definition opt_chunks (me : map) : list (list Z) :=
  (if negb (label me =? NO_LABEL)
   then [put_u16 TLV_TYPE_GENERICLABEL ++ put_u16 LABEL_TLV_LEN
         ++ put_u32 (label me)] else [])
  ++ (if has_flag (flags me) F_MAP_REQ_ID
      then [put_u16 TLV_TYPE_LABELREQUEST ++ put_u16 REQID_TLV_LEN
            ++ put_u32 (requestid me)] else [])
  ++ (if has_flag (flags me) F_MAP_PW_STATUS
      then [put_u16 TLV_TYPE_PW_STATUS ++ put_u16 PW_STATUS_TLV_LEN
            ++ put_u32 (pw_status me)] else [])
  ++ (if has_flag (flags me) F_MAP_STATUS
      then [put_u16 TLV_TYPE_STATUS ++ put_u16 STATUS_TLV_LEN
            ++ put_u32 (status_code (st me)) ++ put_u32 (st_msg_id (st me))
            ++ put_u16 (st_msg_type (st me))] else []).

(** The message the encoders write for one record - message header, FEC
    TLV, optional TLVs - into an empty buffer with room to spare;
    [None] if an encoder ends in [fatalx]. *)
Definition encode_msg (id type : Z) (me : map) : option (list Z) :=
  match calc_msg_size me with
  | None => None
  | Some msg_size =>
      let (b, r) := gen_msg_hdr id (ibuf_open 65535) type msg_size in
      match gen_tlvs (b, r) me with
      | Some (b, _) => Some (ib_data b)
      | None => None
      end
  end.

(** The messages for the records of [g], numbered from [id + 1] on. *)
Fixpoint encode_msgs (id type : Z) (g : list map) : option (list Z) :=
  match g with
  | [] => Some []
  | me :: rest =>
      match encode_msg (id + 1) type me, encode_msgs (id + 1) type rest with
      | Some a, Some b => Some (a ++ b)
      | _, _ => None
      end
  end.

(** The PDU that carries the records of [g]: the LDP header, with the
    length of what follows its length field, and the messages. *)
Definition pdu_of (lsr_id type id : Z) (g : list map) : option (list Z) :=
  match encode_msgs id type g with
  | Some body =>
      Some (put_u16 LDP_VERSION
            ++ put_u16 (LDP_HDR_SIZE + Z.of_nat (length body)
                        - LDP_HDR_DEAD_LEN)
            ++ put_u32 lsr_id ++ put_u16 0 ++ body)
  | None => None
  end.

(** The PDUs that carry the groups of records [gs], one PDU per group. *)
Fixpoint pdus_of (lsr_id type id : Z) (gs : list (list map))
    : option (list (list Z)) :=
  match gs with
  | [] => Some []
  | g :: rest =>
      match pdu_of lsr_id type id g,
            pdus_of lsr_id type (id + Z.of_nat (length g)) rest with
      | Some p, Some ps => Some (p :: ps)
      | _, _ => None
      end
  end.


(** The record is one [gen_fec_tlv] encodes: the address family of a
    prefix, or of a typed wildcard for prefixes, is IPv4 or IPv6. *)
Definition encodable (me : map) : Prop :=
  match fec me with
  | FecPrefix af _ _ => af = AF_INET \/ af = AF_INET6
  | FecTwcard tw_type u =>
      tw_type = MAP_TYPE_PREFIX -> u = AF_INET \/ u = AF_INET6
  | _ => True
  end.

(** The state of the loop of [send_labelmessage] after [k] rounds, if
    it goes round that often. *)
Fixpoint send_rounds (k : nat) (lsr_id type : Z) (s : send_state)
    : option send_state :=
  match k with
  | O => Some s
  | S k' =>
      match s_mh s with
      | [] => None
      | me :: rest =>
          match send_round lsr_id type s me rest with
          | Next s' => send_rounds k' lsr_id type s'
          | _ => None
          end
      end
  end.

Definition send_start (n : nbr) (msgcnt : Z) (mh : list map) : send_state :=
  {| s_nbr := n; s_msgcnt := msgcnt; s_mh := mh; s_buf := None;
     s_size := 0; s_first := true; s_err := 0 |}.

(** A neighbour whose maximum PDU length is 20 bytes. *)
Definition nbr_small : nbr :=
  {| peerid := 7; max_pdu_len := 20; v4_enabled := true;
     v6_enabled := true; stats := stats0; wbuf := []; fsm_log := [] |}.

(** The mapping of label 100 to 10.0.0.0/24; its Label Mapping message
    is 27 bytes long. *)
Definition map_10_24 : map :=
  {| msg_id := 0;
     fec := FecPrefix AF_INET [10; 0; 0; 0; 0; 0; 0; 0;
                               0; 0; 0; 0; 0; 0; 0; 0] 24;
     st := st0; label := 100; requestid := 0; pw_status := 0; flags := 0 |}.

(** [b'] is [b] with bytes appended. *)
Definition extends (b b' : ibuf) : Prop :=
  ib_max b' = ib_max b /\ exists d, ib_data b' = ib_data b ++ d.


(** The record is one whose computed message size is the size of the
    message: a prefix length is a byte, and the pseudowire status flag
    is set on pseudowire records only ([send_labelmessage] leaves the
    size of a Pseudowire Status TLV to [len_fec_tlv], which counts it
    for a pseudowire). *)
Definition well_sized (me : map) : Prop :=
  match fec me with
  | FecPrefix _ _ prefixlen => 0 <= prefixlen < 256
  | _ => True
  end /\
  (has_flag (flags me) F_MAP_PW_STATUS = true -> is_pwid me = true).

(** The bytes of the message for a record, given the pieces of its FEC
    TLV. *)
Definition msg_bytes (id type sz : Z) (me : map) (cs : list (list Z))
    : list Z :=
  (put_u16 type ++ put_u16 (sz - LDP_MSG_DEAD_LEN) ++ put_u32 id)
  ++ concat (cs ++ opt_chunks me).

(** The LDP header as [gen_ldp_hdr] first writes it, with a length field
    still to be set. *)
Definition ldp_hdr0 (lsr_id : Z) : list Z :=
  put_u16 LDP_VERSION ++ put_u16 (0 - LDP_HDR_DEAD_LEN) ++ put_u32 lsr_id
  ++ put_u16 0.

(** The record can be sent to a neighbour whose [max_pdu_len] is [M]:
    it fits, the encoders take it and its computed size is right. *)
Definition sendable (M : Z) (me : map) : Prop :=
  (exists sz, calc_msg_size me = Some sz /\ LDP_HDR_SIZE + sz <= M) /\
  encodable me /\ well_sized me.

(** The loop state while a PDU is open that holds the messages [body]
    for the records [g], the first of which got the identifier
    [cg + 1]. *)
Definition pdu_open (lsr_id type M cg : Z) (g : list map) (body : list Z)
    (s : send_state) : Prop :=
  s_first s = false /\ s_err s = 0 /\ max_pdu_len (s_nbr s) = M /\
  s_buf s = Some {| ib_data := ldp_hdr0 lsr_id ++ body;
                    ib_max := M + LDP_HDR_DEAD_LEN |} /\
  encode_msgs cg type g = Some body /\
  s_size s = LDP_HDR_SIZE + Z.of_nat (length body) /\
  s_size s <= M /\
  s_msgcnt s = cg + Z.of_nat (length g).

(** A log that holds neither a hand-over nor a failure. *)
Definition quiet (l : list event) : Prop :=
  Forall (fun e => is_imsg e = false /\ is_failure e = false) l.


(** Batching, for one call of [send_labelmessage]: the
    call returns with the queue empty, what it has added to the write
    queue are PDUs none of which is longer than [max_pdu_len], and these
    PDUs carry the records of the queue, split into consecutive groups,
    in the order of the queue. *)
Definition batches_ok (lsr_id : Z) (n : nbr) (msgcnt type : Z)
    (mh : list map) : Prop :=
  exists fuel n' c groups pdus,
    send_labelmessage fuel lsr_id n msgcnt type mh = SendReturns n' c [] /\
    wbuf n' = wbuf n ++ pdus /\
    pdus_of lsr_id type msgcnt groups = Some pdus /\
    concat groups = mh /\
    Forall (fun p => Z.of_nat (length p) <= max_pdu_len n) pdus.

(** A neighbour whose maximum PDU length is 70 bytes: two messages of 27
    bytes fit into a PDU, three do not. *)
Definition nbr_70 : nbr :=
  {| peerid := 7; max_pdu_len := 70; v4_enabled := true;
     v6_enabled := true; stats := stats0; wbuf := []; fsm_log := [] |}.

(** ** Vocabulary of the further statements about sending *)

(** The bytes of the FEC TLV that [gen_fec_tlv] writes for a record into
    an empty buffer with room to spare; [None] where it ends in
    [fatalx]. *)
Definition fec_tlv_bytes (m : map) : option (list Z) :=
  match gen_fec_tlv (ibuf_open 65535) m with
  | Some (b, _) => Some (ib_data b)
  | None => None
  end.

(** A PDU as the transport should get it: the length field of its LDP
    header counts the bytes behind that field, and the header is
    followed by at least the header of a message. *)
Definition pdu_header_ok (p : list Z) : Prop :=
  get_u16 p 2 = Z.of_nat (length p) - LDP_HDR_DEAD_LEN /\
  LDP_HDR_SIZE + LDP_MSG_SIZE <= Z.of_nat (length p).

(** The prefix length of a prefix record is a byte, as the [uint8_t]
    field of [struct map] has it. *)
Definition prefixlen_is_byte (m : map) : Prop :=
  match fec m with
  | FecPrefix _ _ prefixlen => 0 <= prefixlen < 256
  | _ => True
  end.

(** ** Vocabulary of the statements about encoding and decoding *)

(** A prefix as a record holds it: a family the daemon knows, a prefix
    length within the family's bounds, and the 16 bytes of the address
    union with no bit set beyond the prefix length. *)
Definition prefix_canonical (af : Z) (prefix : list Z) (prefixlen : Z)
    : Prop :=
  ((af = AF_INET /\ prefixlen <= IPV4_MAX_BITLEN) \/
   (af = AF_INET6 /\ prefixlen <= IPV6_MAX_BITLEN)) /\
  0 <= prefixlen /\
  length prefix = 16%nat /\
  Forall is_byte prefix /\
  applymask_bytes prefix prefixlen = prefix.

(** The flag bits of a record that the FEC element carries: control
    word, pseudowire identifier present, interface MTU present. *)
Definition FEC_FLAGS : Z :=
  Z.lor F_MAP_PW_CWORD (Z.lor F_MAP_PW_ID F_MAP_PW_IFMTU).

(** A pseudowire as a record holds it: a 15-bit pseudowire type (the
    sixteenth bit of the field is the control-word flag), 32-bit group
    and pseudowire identifiers and a 16-bit interface MTU; a field whose
    flag is clear is zero, and there is no interface MTU without a
    pseudowire identifier. *)
Definition pwid_canonical (fl pw_type pwid group_id ifmtu : Z) : Prop :=
  0 <= pw_type < CONTROL_WORD_FLAG /\
  0 <= group_id < 4294967296 /\
  (if has_flag fl F_MAP_PW_ID then 0 <= pwid < 4294967296
   else pwid = 0 /\ has_flag fl F_MAP_PW_IFMTU = false) /\
  (if has_flag fl F_MAP_PW_IFMTU then 0 <= ifmtu < 65536 else ifmtu = 0).

(** A pseudowire of type 5 (Ethernet) with the identifier 77 in group 1,
    an interface MTU of 1500, the control word and a status. *)
Definition pw_77 : map :=
  {| msg_id := 0; fec := FecPwid 5 77 1 1500; st := st0; label := 1000;
     requestid := 0; pw_status := 0;
     flags := Z.lor F_MAP_PW_ID
                (Z.lor F_MAP_PW_IFMTU
                   (Z.lor F_MAP_PW_CWORD F_MAP_PW_STATUS)) |}.

(** A message header to decode under: a Label Mapping with the
    identifier 9. *)
Definition msg_9 : ldp_msg :=
  {| msg_type_f := 0x0400; msg_length := 23; msg_id_f := 9 |}.

(** A wildcard as a record holds it: the wildcard, or a typed wildcard
    for the prefixes of a family the daemon knows, or for the
    pseudowires of a 15-bit type. *)
Definition wildcard_canonical (f : map_fec) : Prop :=
  match f with
  | FecWildcard => True
  | FecTwcard tw_type u =>
      (tw_type = MAP_TYPE_PREFIX /\ (u = AF_INET \/ u = AF_INET6)) \/
      (tw_type = MAP_TYPE_PWID /\ 0 <= u < PW_TWCARD_RESERVED_BIT)
  | _ => False
  end.

(** The typed wildcard for all IPv6 prefixes. *)
Definition twcard_v6 : map :=
  {| msg_id := 0; fec := FecTwcard MAP_TYPE_PREFIX AF_INET6; st := st0;
     label := NO_LABEL; requestid := 0; pw_status := 0; flags := 0 |}.

(** ** Vocabulary of the statements about messages with prefixes *)

(** A prefix element on the wire: address family, prefix length and
    prefix bytes. *)
Definition wire_elm : Type := (Z * Z * list Z)%type.

Definition elm_family (e : wire_elm) : Z := fst (fst e).
Definition elm_plen (e : wire_elm) : Z := snd (fst e).
Definition elm_bytes (e : wire_elm) : list Z := snd e.

Definition elm_ok (e : wire_elm) : Prop :=
  wire_prefix_ok (elm_family e) (elm_plen e) (elm_bytes e).

(** The bytes of the elements, one after the other, and their number. *)
Definition elms_wire (es : list wire_elm) : list Z :=
  flat_map (fun e => prefix_elm (elm_family e) (elm_plen e) (elm_bytes e)) es.

Fixpoint elms_len (es : list wire_elm) : Z :=
  match es with
  | [] => 0
  | e :: es => (4 + PREFIX_SIZE (elm_plen e)) + elms_len es
  end.

(** The record the decoder builds for an element, with the label of the
    message. *)
Definition elm_record (id label : Z) (e : wire_elm) : map :=
  prefix_record id (elm_family e) (elm_plen e) (elm_bytes e) label.

(** A Label Mapping message with the prefix elements [es] in its FEC TLV
    and a Generic Label TLV behind it; [hdr] is the message header. *)
Definition prefix_mapping (hdr : list Z) (es : list wire_elm) (label : Z)
    : list Z :=
  hdr ++ put_u16 TLV_TYPE_FEC ++ put_u16 (elms_len es) ++ elms_wire es
  ++ label_tlv label.

(** The optional TLVs as [send_labelmessage] has them written: Label
    Request Message ID, Status and Pseudowire Status. *)
Definition reqid_tlv (reqid : Z) : list Z :=
  put_u16 TLV_TYPE_LABELREQUEST ++ put_u16 REQID_TLV_LEN ++ put_u32 reqid.

Definition status_tlv (s : map_status) : list Z :=
  put_u16 TLV_TYPE_STATUS ++ put_u16 STATUS_TLV_LEN
  ++ put_u32 (status_code s) ++ put_u32 (st_msg_id s)
  ++ put_u16 (st_msg_type s).

Definition pw_status_tlv (status : Z) : list Z :=
  put_u16 TLV_TYPE_PW_STATUS ++ put_u16 PW_STATUS_TLV_LEN ++ put_u32 status.

(** The locals of [recv_labelmessage] with [current_tlv] stepped. *)
Definition next_tlv (o : optvals) : optvals :=
  {| o_label := o_label o; o_reqid := o_reqid o;
     o_pw_status := o_pw_status o; o_flags := o_flags o;
     o_current_tlv := u16 (o_current_tlv o + 1) |}.

(** Three prefix elements: 10.0.0.0/24, 2001:db8::/32 and
    192.168.0.0/16. *)
Definition three_elms : list wire_elm :=
  [(AF_IPV4, 24, [10; 0; 0]); (AF_IPV6, 32, [0x20; 0x01; 0x0d; 0xb8]);
   (AF_IPV4, 16, [192; 168])].

(** The header of a Label Mapping message with the identifier 9 that
    holds [three_elms] and a label. *)
Definition hdr_three : list Z := [0x04; 0x00; 0; 37; 0; 0; 0; 9].

(** The mapping of label 100 to 10.0.0.0/24, in answer to the request 5
    and with a status. *)
Definition map_10_24_req : map :=
  {| msg_id := 0;
     fec := FecPrefix AF_INET [10; 0; 0; 0; 0; 0; 0; 0;
                               0; 0; 0; 0; 0; 0; 0; 0] 24;
     st := {| status_code := 1; st_msg_id := 7; st_msg_type := 0x0401 |};
     label := 100; requestid := 5; pw_status := 0;
     flags := Z.lor F_MAP_REQ_ID F_MAP_STATUS |}.

(** ** Vocabulary of the statements about malformed elements *)

(** A pseudowire element with the identifier 77 whose "pseudowire info
    length" of 6 covers the identifier and a sub-TLV of type 2 and
    length 0. *)
Definition pwid_elm_zero_subtlv : list Z :=
  [0x80; 0; 5; 6; 0; 0; 0; 1; 0; 0; 0; 77; 2; 0].

(** Two buffers hold the same first [k] bytes. *)
Definition agree_upto (k : Z) (b1 b2 : list Z) : Prop :=
  forall i : Z, 0 <= i < k -> byte_at b1 i = byte_at b2 i.

(** No position within the first [k] bytes of the buffer reads as the
    head of a prefix element of family IPv6 with a prefix length above
    128, the bits of an IPv6 address.  Such an element passes the
    checks of [tlv_decode_fec_elm], and its prefix is longer than the
    16 bytes of the address field of the record. *)
Definition v6_prefixes_fit (k : Z) (buf : list Z) : Prop :=
  forall off : Z,
    0 <= off -> off + FEC_ELM_PREFIX_MIN_LEN <= k ->
    byte_at buf off = MAP_TYPE_PREFIX ->
    get_u16 buf (off + 1) = AF_IPV6 ->
    byte_at buf (off + 3) <= IPV6_MAX_BITLEN.

(** ** Vocabulary of the statements about what is handed over *)

(** What the last loop of [recv_labelmessage] has checked of a record
    before it hands it over: the label is the one of a Generic Label
    TLV that passed the bounds check, or there was none; a prefix is of
    a family that is enabled for the neighbour and does not carry the
    explicit-null label of the other family; a pseudowire does not carry
    a reserved label. *)
Definition dispatch_ok (n : nbr) (m : map) : Prop :=
  (label m = NO_LABEL \/ label_invalid (label m) = false) /\
  match fec m with
  | FecPrefix af _ _ =>
      (af = AF_INET /\ v4_enabled n = true /\
       label m <> MPLS_LABEL_IPV6_EXPLICIT_NULL) \/
      (af = AF_INET6 /\ v6_enabled n = true /\
       label m <> MPLS_LABEL_IPV4_EXPLICIT_NULL)
  | FecPwid _ _ _ _ => MPLS_LABEL_RESERVED_MAX < label m
  | _ => True
  end.

(** A record as the loop over the FEC elements queues it: it has the
    identifier of the message and no status. *)
Definition queued_record (id : Z) (m : map) : Prop :=
  msg_id m = id /\ Z.land (flags m) F_MAP_STATUS = 0 /\ st m = st0.

(** The label the optional parameters have left: none, or one that
    passed the bounds check. *)
Definition label_checked (o : optvals) : Prop :=
  o_label o = NO_LABEL \/ label_invalid (o_label o) = false.


(** The kinds of FEC element a message type may carry, as the loop over
    the elements lets them through: a Wildcard element in a Label
    Withdraw or Label Release only, a Typed Wildcard element in no Label
    Mapping and no Label Abort Request, and a PWid element without a
    pseudowire identifier in a Label Withdraw or Label Release only. *)
Definition fec_allowed (type : Z) (m : map) : Prop :=
  match fec m with
  | FecWildcard =>
      type <> MSG_TYPE_LABELMAPPING /\ type <> MSG_TYPE_LABELREQUEST /\
      type <> MSG_TYPE_LABELABORTREQ
  | FecTwcard _ _ =>
      type <> MSG_TYPE_LABELMAPPING /\ type <> MSG_TYPE_LABELABORTREQ
  | FecPwid _ _ _ _ =>
      has_flag (flags m) F_MAP_PW_ID = true \/
      type = MSG_TYPE_LABELWITHDRAW \/ type = MSG_TYPE_LABELRELEASE
  | FecPrefix _ _ _ => True
  end.

(** The sub-TLVs that the loop over the interface parameters of a
    pseudowire element comes to: started at [off] with [pw_len] bytes
    left, it stands at [off'] with [pw_len'] bytes left after any number
    of rounds, each over a sub-TLV that fits in what is left, is not of
    length zero and, if it is an interface MTU, has the length of
    one. *)
Inductive subtlv_at (buf : list Z) : Z -> Z -> Z -> Z -> Prop :=
| subtlv_first (off pw_len : Z) : subtlv_at buf off pw_len off pw_len
| subtlv_next (off pw_len off' pw_len' : Z) :
    SUBTLV_HDR_SIZE <= pw_len ->
    0 < byte_at buf (off + 1) <= pw_len ->
    (byte_at buf off = SUBTLV_IFMTU ->
     byte_at buf (off + 1) = FEC_SUBTLV_IFMTU_SIZE) ->
    subtlv_at buf (off + byte_at buf (off + 1))
      (pw_len - byte_at buf (off + 1)) off' pw_len' ->
    subtlv_at buf off pw_len off' pw_len'.

(** At [e] the buffer holds a pseudowire element with a pseudowire
    identifier, and the loop over its interface parameters comes to a
    sub-TLV that is not an interface MTU and whose length byte is 0. *)
Definition zero_length_subtlv (buf : list Z) (e : Z) : Prop :=
  byte_at buf e = MAP_TYPE_PWID /\
  4 <= byte_at buf (e + 3) /\
  exists off pw_len,
    subtlv_at buf (e + 12) (byte_at buf (e + 3) - 4) off pw_len /\
    SUBTLV_HDR_SIZE <= pw_len /\
    byte_at buf off <> SUBTLV_IFMTU /\
    byte_at buf (off + 1) = 0.

(** No session shutdown and no notification of a failure among the
    events. *)
Definition no_failure (l : list event) : Prop :=
  Forall (fun e => is_failure e = false) l.

(** The mapping of label 1000 to the pseudowire 77 of type 5 (Ethernet)
    in group 1, with an interface MTU of 1500 and the control word, in
    answer to the request 5, with the pseudowire status 1 (not
    forwarding) and a status. *)
Definition pw_77_mapping : map :=
  {| msg_id := 0; fec := FecPwid 5 77 1 1500;
     st := {| status_code := 1; st_msg_id := 7; st_msg_type := 0x0401 |};
     label := 1000; requestid := 5; pw_status := 1;
     flags := Z.lor F_MAP_REQ_ID
                (Z.lor F_MAP_STATUS
                   (Z.lor F_MAP_PW_CWORD
                      (Z.lor F_MAP_PW_ID
                         (Z.lor F_MAP_PW_IFMTU F_MAP_PW_STATUS)))) |}.

(** A message that ends with its FEC TLV, which holds the prefix
    elements [es]: no optional parameter follows.  [hdr] is the message
    header. *)
Definition fec_only_message (hdr : list Z) (es : list wire_elm) : list Z :=
  hdr ++ put_u16 TLV_TYPE_FEC ++ put_u16 (elms_len es) ++ elms_wire es.

(** The header of a Label Mapping message with the identifier 9 that
    holds [three_elms] and nothing else. *)
Definition hdr_three_bare : list Z := [0x04; 0x00; 0; 29; 0; 0; 0; 9].

(** ** Vocabulary of the statements about the bytes that are read *)

(** Two positions of the parser in two packets: the same length left,
    and the same bytes within it. *)
Definition cursor_agree (c1 c2 : cursor) : Prop :=
  c_len c1 = c_len c2 /\ 0 <= c_len c1 < 65536 /\
  agree_upto (c_len c1) (c_buf c1) (c_buf c2).

(** Two runs of a parsing step log the same and end alike, with the
    same value at agreeing positions. *)
Definition agree_res {A : Type} (x y : M (cursor * A)) : Prop :=
  fst x = fst y /\
  match snd x, snd y with
  | Ok (c1, a1), Ok (c2, a2) => a1 = a2 /\ cursor_agree c1 c2
  | Err, Err => True
  | NoReturn, NoReturn => True
  | _, _ => False
  end.

(** The optional parameters a message type lets the decoder keep, said
    of the flags and the label they leave: a request identifier in a
    Label Mapping or a Label Request only, a pseudowire status in a
    Label Mapping only, and a label in a Label Mapping, a Label Withdraw
    or a Label Release only. *)
Definition opt_allowed (type : Z) (fl label : Z) : Prop :=
  (type <> MSG_TYPE_LABELMAPPING -> type <> MSG_TYPE_LABELREQUEST ->
   has_flag fl F_MAP_REQ_ID = false) /\
  (type <> MSG_TYPE_LABELMAPPING -> has_flag fl F_MAP_PW_STATUS = false) /\
  (type <> MSG_TYPE_LABELMAPPING -> type <> MSG_TYPE_LABELWITHDRAW ->
   type <> MSG_TYPE_LABELRELEASE -> label = NO_LABEL).

(** A Label Abort Request message (id 9) for 10.0.0.0/24 with the Label
    Request Message ID TLV that names the request 5. *)
Definition msg_abort_req : list Z :=
  [0x04; 0x04; 0; 23; 0; 0; 0; 9;
   0x01; 0x00; 0; 7;   2; 0; 1; 24; 10; 0; 0;
   0x06; 0x00; 0; 4;   0; 0; 0; 5].

(** The record that comes of [msg_abort_req]. *)
Definition abort_10_24 : map :=
  {| msg_id := 9;
     fec := FecPrefix AF_INET [10; 0; 0; 0; 0; 0; 0; 0;
                               0; 0; 0; 0; 0; 0; 0; 0] 24;
     st := st0; label := NO_LABEL; requestid := 0; pw_status := 0;
     flags := 0 |}.

(** The record that withdraws, with a wildcard, every label advertised
    to the peer; no label is named. *)
Definition withdraw_all : map :=
  {| msg_id := 0; fec := FecWildcard; st := st0; label := NO_LABEL;
     requestid := 0; pw_status := 0; flags := 0 |}.

(** ** Vocabulary of the statements about draining the queue *)


(** The mapping of label 100 to 10.0.0.0/24 with the pseudowire status
    flag set.  The size computed for its message is 27 bytes, as
    without the flag: [len_fec_tlv] counts a Pseudowire Status TLV for
    a pseudowire only, but [send_labelmessage] has [gen_pw_status_tlv]
    write one, of 8 bytes, wherever the flag is set. *)
Definition map_10_24_pw_status : map :=
  {| msg_id := 0;
     fec := FecPrefix AF_INET [10; 0; 0; 0; 0; 0; 0; 0;
                               0; 0; 0; 0; 0; 0; 0; 0] 24;
     st := st0; label := 100; requestid := 0; pw_status := 0;
     flags := F_MAP_PW_STATUS |}.


(** ** Vocabulary of the statements about the round trip of a record *)


(** * Properties *)

Arguments u8 : simpl never.
Arguments u16 : simpl never.
Arguments u32 : simpl never.

(** ** Bytes and machine integers *)

Lemma u8_range (x : Z) : 0 <= u8 x < 256.
Proof. unfold u8. apply Z.mod_pos_bound. lia. Qed.

Lemma u16_range (x : Z) : 0 <= u16 x < 65536.
Proof. unfold u16. apply Z.mod_pos_bound. lia. Qed.

Lemma u8_small (x : Z) : 0 <= x < 256 -> u8 x = x.
Proof. intros H. unfold u8. apply Z.mod_small. exact H. Qed.

Lemma u16_small (x : Z) : 0 <= x < 65536 -> u16 x = x.
Proof. intros H. unfold u16. apply Z.mod_small. exact H. Qed.

Lemma byte_at_range (buf : list Z) (off : Z) : 0 <= byte_at buf off < 256.
Proof. apply u8_range. Qed.

Lemma get_u16_range (buf : list Z) (off : Z) : 0 <= get_u16 buf off < 65536.
Proof.
  unfold get_u16.
  pose proof (byte_at_range buf off). pose proof (byte_at_range buf (off + 1)).
  lia.
Qed.

Lemma get_u32_range (buf : list Z) (off : Z) :
  0 <= get_u32 buf off < 4294967296.
Proof.
  unfold get_u32.
  pose proof (byte_at_range buf off). pose proof (byte_at_range buf (off + 1)).
  pose proof (byte_at_range buf (off + 2)).
  pose proof (byte_at_range buf (off + 3)).
  lia.
Qed.

(** ** The monad of the parser *)

Lemma bind_ok_inv {A B : Type} (m : M A) (f : A -> M B) (l : list event)
    (b : B) :
  bind m f = (l, Ok b) ->
  exists l1 a l2, m = (l1, Ok a) /\ f a = (l2, Ok b) /\ l = l1 ++ l2.
Proof.
  destruct m as [l1 [a | | ]]; simpl; try discriminate.
  destruct (f a) as [l2 r] eqn:E. intros H. inversion H; subst.
  exists l1, a, l2. auto.
Qed.

Lemma bind_err_inv {A B : Type} (m : M A) (f : A -> M B) (l : list event) :
  bind m f = (l, Err) ->
  m = (l, Err) \/
  exists l1 a l2, m = (l1, Ok a) /\ f a = (l2, Err) /\ l = l1 ++ l2.
Proof.
  destruct m as [l1 [a | | ]]; simpl; try discriminate.
  - destruct (f a) as [l2 r] eqn:E. intros H. inversion H; subst.
    right. exists l1, a, l2. auto.
  - intros H. inversion H; subst. now left.
Qed.

Lemma bind_ok_eq {A B : Type} (m : M A) (f : A -> M B) (l : list event)
    (a : A) :
  m = (l, Ok a) -> bind m f = (l ++ fst (f a), snd (f a)).
Proof. intros ->. simpl. now destruct (f a). Qed.

Lemma bind_err_eq {A B : Type} (m : M A) (f : A -> M B) (l : list event) :
  m = (l, Err) -> bind m f = (l, Err).
Proof. now intros ->. Qed.

(** ** Sending: the empty queue *)

(** C8: [send_labelmessage] on an empty queue returns at once: the
    neighbour comes back as it was (nothing in its write queue, no
    counter touched, no event raised to its state machine), the message
    counter is untouched, and no round of the loop - which is where a
    PDU buffer is opened - is run, whatever the fuel. *)
Theorem send_labelmessage_empty_noop :
  forall (fuel : nat) (lsr_id : Z) (n : nbr) (msgcnt type : Z),
    send_labelmessage fuel lsr_id n msgcnt type [] = SendReturns n msgcnt [].
Proof. intros. reflexivity. Qed.

(** ** Receiving: the check on the first optional TLV *)

(** C5: the first optional TLV of a Label Mapping message is tested with
    [tlv_type & TLV_TYPE_GENERICLABEL], so a Label Request Message ID
    TLV (0x0600, which shares the bit 0x0200) in first position is let
    through: no notification is sent and the record is handed over
    without a label. *)
Theorem first_tlv_reqid_accepted :
  recv_labelmessage nbr0 msg_reqid_first 27 MSG_TYPE_LABELMAPPING =
  ([EvImsg IMSG_LABEL_MAPPING 7
      {| msg_id := 9;
         fec := FecPrefix AF_INET [10; 0; 0; 0; 0; 0; 0; 0;
                                   0; 0; 0; 0; 0; 0; 0; 0] 24;
         st := st0; label := NO_LABEL; requestid := 100; pw_status := 0;
         flags := F_MAP_REQ_ID |}],
   Ok tt).
Proof. vm_compute. reflexivity. Qed.

(** ** Receiving: what the stages log *)

Ltac case_if :=
  match goal with
  | |- context [if ?b then _ else _] => destruct b eqn:?
  | H : context [if ?b then _ else _] |- _ => destruct b eqn:?
  end.

Ltac inv H := inversion H; subst; clear H.

Lemma advance_len_range (c : cursor) (k : Z) :
  0 <= c_len (advance c k) < 65536.
Proof. apply u16_range. Qed.

Lemma advance_len_exact (c : cursor) (k : Z) :
  0 <= k <= c_len c -> c_len c < 65536 -> c_len (advance c k) = c_len c - k.
Proof. intros H1 H2. simpl. apply u16_small. lia. Qed.

(** The [switch] on the TLV type logs nothing but a notification with
    the returned TLV, fails with a single shutdown, and leaves
    [current_tlv] alone. *)
Lemma opt_switch_spec (msg : ldp_msg) (type tlv_type tlv_len : Z)
    (buf : list Z) (o : optvals) (l : list event) (r : res optvals) :
  opt_switch msg type tlv_type tlv_len buf o = (l, r) ->
  match r with
  | Ok o' =>
      Forall (fun e => is_imsg e = false /\ is_failure e = false) l /\
      o_current_tlv o' = o_current_tlv o /\
      (Z.land (o_flags o) OPT_FLAGS = o_flags o ->
       Z.land (o_flags o') OPT_FLAGS = o_flags o')
  | Err => exists s, l = [EvShutdown s (msg_id_f msg) (msg_type_f msg)]
  | NoReturn => False
  end.
Proof.
  unfold opt_switch, shutdown, ok.
  repeat case_if; intros H; inv H; simpl;
    try (eexists; reflexivity);
    try (split; [ repeat constructor | split; [ reflexivity | ] ]);
    try (intros Hf; exact Hf);
    intros Hf; rewrite Z.land_lor_distr_l, Hf; reflexivity.
Qed.

(** A round over an optional parameter: what it logs, and that it
    consumes at least a TLV header. *)
Lemma opt_round_spec (msg : ldp_msg) (type : Z) (c : cursor) (o : optvals)
    (l : list event) (r : res (cursor * optvals)) :
  0 <= c_len c < 65536 ->
  opt_round msg type c o = (l, r) ->
  match r with
  | Ok (c', o') =>
      Forall (fun e => is_imsg e = false /\ is_failure e = false) l /\
      0 <= c_len c' <= c_len c - TLV_HDR_SIZE /\
      (Z.land (o_flags o) OPT_FLAGS = o_flags o ->
       Z.land (o_flags o') OPT_FLAGS = o_flags o')
  | Err => exists e, l = [e] /\ is_failure e = true
  | NoReturn => False
  end.
Proof.
  intros Hlen. unfold opt_round.
  destruct (c_len c <? TLV_HDR_SIZE) eqn:E1.
  { intros H; inv H. eexists; split; reflexivity. }
  destruct (get_u16 (c_buf c) 2 + TLV_HDR_SIZE >? c_len c) eqn:E2.
  { intros H; inv H. eexists; split; reflexivity. }
  match goal with |- context [if ?b then _ else _] => destruct b eqn:E3 end.
  { intros H; inv H. eexists; split; reflexivity. }
  destruct (opt_switch msg type (get_u16 (c_buf c) 0) (get_u16 (c_buf c) 2)
              (c_buf (advance c TLV_HDR_SIZE)) o) as [l1 r1] eqn:Es.
  pose proof (opt_switch_spec _ _ _ _ _ _ Es) as Hs.
  unfold bind, ok. destruct r1 as [o1 | | ]; intros H; inv H.
  - destruct Hs as (Hl & _ & Hf). rewrite app_nil_r.
    split; [ exact Hl | split; [ | exact Hf ] ].
    pose proof (get_u16_range (c_buf c) 2) as Hr.
    unfold TLV_HDR_SIZE in *.
    apply Z.ltb_ge in E1. apply Z.gtb_ltb in E2 || idtac.
    assert (get_u16 (c_buf c) 2 + 4 <= c_len c).
    { destruct (Z.gtb_spec (get_u16 (c_buf c) 2 + 4) (c_len c)); [ discriminate | lia ]. }
    rewrite advance_len_exact.
    + rewrite advance_len_exact; lia.
    + rewrite advance_len_exact; lia.
    + apply advance_len_range.
  - destruct Hs as [s ->]. eexists; split; reflexivity.
  - destruct Hs.
Qed.

Lemma quiet_app (l1 l2 : list event) : quiet l1 -> quiet l2 -> quiet (l1 ++ l2).
Proof. unfold quiet. intros. apply Forall_app. auto. Qed.

(** The loop over the optional parameters hands nothing over, and when
    it fails its last word is the failure. *)
Lemma opt_loop_spec (msg : ldp_msg) (type : Z) :
  forall (fuel : nat) (c : cursor) (o : optvals) (l : list event)
         (r : res optvals),
    0 <= c_len c < 65536 ->
    (Z.to_nat (c_len c) <= fuel)%nat ->
    opt_loop fuel msg type c o = (l, r) ->
    match r with
    | Ok o' =>
        quiet l /\
        (Z.land (o_flags o) OPT_FLAGS = o_flags o ->
         Z.land (o_flags o') OPT_FLAGS = o_flags o')
    | Err => exists pre e, l = pre ++ [e] /\ is_failure e = true /\ quiet pre
    | NoReturn => False
    end.
Proof.
  induction fuel as [ | fuel IH]; intros c o l r Hlen Hfuel; simpl.
  - destruct (c_len c >? 0) eqn:E.
    + apply Z.gtb_lt in E. lia.
    + intros H; inv H. split; [ constructor | auto ].
  - destruct (c_len c >? 0) eqn:E.
    2:{ intros H; inv H. split; [ constructor | auto ]. }
    destruct (opt_round msg type c o) as [l1 r1] eqn:Er.
    pose proof (opt_round_spec _ _ _ _ Hlen Er) as Hr.
    unfold bind. destruct r1 as [[c1 o1] | | ].
    + destruct Hr as (Hq & Hl & Hf).
      destruct (opt_loop fuel msg type c1 o1) as [l2 r2] eqn:El.
      intros H; inv H.
      assert (H1 : 0 <= c_len c1 < 65536) by (unfold TLV_HDR_SIZE in *; lia).
      assert (H2 : (Z.to_nat (c_len c1) <= fuel)%nat)
        by (unfold TLV_HDR_SIZE in *; lia).
      specialize (IH _ _ _ _ H1 H2 El).
      destruct r as [o' | | ].
      * destruct IH as (Hq2 & Hf2). split; [ now apply quiet_app | auto ].
      * destruct IH as (pre & e & -> & He & Hp).
        exists (l1 ++ pre), e. rewrite app_assoc.
        split; [ reflexivity | split; [ exact He | now apply quiet_app ] ].
      * exact IH.
    + intros H; inv H. destruct Hr as (e & -> & He).
      exists [], e. split; [ reflexivity | split; [ exact He | constructor ] ].
    + destruct Hr.
Qed.

(** Following the loop over the optional parameters along a run. *)
Lemma opt_loop_run (msg : ldp_msg) (type : Z) (c : cursor) (o : optvals)
    (l : list event) (c' : cursor) (o' : optvals) :
  opt_run msg type c o l c' o' ->
  forall fuel : nat,
    0 <= c_len c < 65536 ->
    (Z.to_nat (c_len c) <= fuel)%nat ->
    exists fuel' : nat,
      0 <= c_len c' < 65536 /\
      (Z.to_nat (c_len c') <= fuel')%nat /\
      quiet l /\
      opt_loop fuel msg type c o =
      (l ++ fst (opt_loop fuel' msg type c' o'),
       snd (opt_loop fuel' msg type c' o')).
Proof.
  induction 1 as [c o | c o l1 c1 o1 l2 c' o' Hpos Hr Hrun IH];
    intros fuel Hlen Hfuel.
  - exists fuel. repeat split; try lia; try constructor.
    simpl. now destruct (opt_loop fuel msg type c o).
  - destruct fuel as [ | fuel]; [ lia | ].
    pose proof (opt_round_spec _ _ _ _ Hlen Hr) as (Hq & Hl & _).
    assert (H1 : 0 <= c_len c1 < 65536) by (unfold TLV_HDR_SIZE in *; lia).
    assert (H2 : (Z.to_nat (c_len c1) <= fuel)%nat)
      by (unfold TLV_HDR_SIZE in *; lia).
    destruct (IH fuel H1 H2) as (fuel' & Hc & Hf & Hq2 & Heq).
    exists fuel'. split; [ exact Hc | split; [ exact Hf | ] ].
    split; [ now apply quiet_app | ].
    assert (Hpos' : (c_len c >? 0) = true) by (apply Z.gtb_lt; lia).
    simpl. rewrite Hpos', Hr. simpl.
    rewrite Heq. now rewrite app_assoc.
Qed.

(** ** Receiving: the FEC elements *)

Lemma land_lor_flag (f g mask : Z) :
  Z.land f mask = 0 -> Z.land g mask = 0 -> Z.land (Z.lor f g) mask = 0.
Proof. intros Hf Hg. now rewrite Z.land_lor_distr_l, Hf, Hg. Qed.

Lemma subtlv_loop_spec (msg : ldp_msg) (buf : list Z) :
  forall (fuel : nat) (off pw_len : Z) (m : map) (l : list event)
         (r : res (Z * map)),
    subtlv_loop fuel msg buf off pw_len m = (l, r) ->
    0 <= pw_len < 256 -> 0 <= off -> off + pw_len < 65536 ->
    match r with
    | Ok (off', m') =>
        l = [] /\ off' = off + pw_len /\ is_pwid m' = is_pwid m /\
        msg_id m' = msg_id m /\
        (Z.land (flags m) OPT_FLAGS = 0 -> Z.land (flags m') OPT_FLAGS = 0)
    | Err => exists e, l = [e] /\ is_failure e = true
    | NoReturn => l = []
    end.
Proof.
  induction fuel as [ | fuel IH]; intros off pw_len m l r; simpl.
  - destruct (pw_len >? 0) eqn:E; intros H; inv H; intros.
    + reflexivity.
    + rewrite Z.gtb_ltb in E. apply Z.ltb_ge in E.
      repeat split; auto. lia.
  - destruct (pw_len >? 0) eqn:E.
    2:{ intros H; inv H; intros. rewrite Z.gtb_ltb in E. apply Z.ltb_ge in E.
        repeat split; auto. lia. }
    destruct (pw_len <? SUBTLV_HDR_SIZE) eqn:E1.
    { intros H; inv H; intros. eexists; split; reflexivity. }
    destruct (byte_at buf (off + 1) >? pw_len) eqn:E2.
    { intros H; inv H; intros. eexists; split; reflexivity. }
    pose proof (byte_at_range buf (off + 1)) as Hb.
    assert (Hle : byte_at buf (off + 1) <= pw_len).
    { destruct (Z.gtb_spec (byte_at buf (off + 1)) pw_len);
        [ discriminate | lia ]. }
    destruct (byte_at buf off =? SUBTLV_IFMTU) eqn:E3.
    + destruct (negb (byte_at buf (off + 1) =? FEC_SUBTLV_IFMTU_SIZE)) eqn:E4.
      { intros H; inv H; intros. eexists; split; reflexivity. }
      intros H H1 H2 H3.
      apply IH in H; [ | rewrite u8_small; lia | apply u16_range
                       | rewrite u8_small, u16_small; lia ].
      destruct r as [[off' m'] | | ]; auto.
      destruct H as (-> & -> & Hp & Hid & Hfl).
      rewrite u8_small, u16_small by lia.
      repeat split; try lia.
      * rewrite Hp. simpl. unfold is_pwid, set_pwid_ifmtu. simpl.
        now destruct (fec m).
      * rewrite Hid. reflexivity.
      * intros Hz. apply Hfl. simpl. apply land_lor_flag; auto.
    + intros H H1 H2 H3.
      apply IH in H; [ | rewrite u8_small; lia | apply u16_range
                       | rewrite u8_small, u16_small; lia ].
      destruct r as [[off' m'] | | ]; auto.
      destruct H as (-> & -> & Hp & Hid & Hfl).
      rewrite u8_small, u16_small by lia.
      repeat split; auto; lia.
Qed.

Lemma PREFIX_SIZE_nonneg (x : Z) : 0 <= x -> 0 <= PREFIX_SIZE x.
Proof. intros H. unfold PREFIX_SIZE. apply Z.div_pos; lia. Qed.

Lemma af_of_family_some (family af : Z) :
  af_of_family family = Some af -> af = AF_INET \/ af = AF_INET6.
Proof.
  unfold af_of_family. repeat case_if; intros H; inv H; auto.
Qed.

Lemma Zgtb_false (a b : Z) : (a >? b) = false -> a <= b.
Proof. destruct (Z.gtb_spec a b); [ discriminate | lia ]. Qed.

Lemma Zgtb_true (a b : Z) : (a >? b) = true -> a > b.
Proof. destruct (Z.gtb_spec a b); [ lia | discriminate ]. Qed.

Lemma negb_eqb_false (a b : Z) : negb (a =? b) = false -> a = b.
Proof. intros H. apply negb_false_iff in H. now apply Z.eqb_eq. Qed.

Ltac split_and := repeat match goal with |- _ /\ _ => split end.

Ltac fails_with_one := eexists; split; reflexivity.

Ltac got := let H := fresh in intros H; injection H as <- <-.

(** The FEC decoder: a success logs nothing and consumes between one
    byte and the length it was given - all of it unless the element is a
    prefix; a failure logs exactly the failure. *)
Lemma tlv_decode_fec_elm_spec (msg : ldp_msg) (buf : list Z) (len : Z)
    (m : map) (l : list event) (r : res (Z * map)) :
  0 <= len < 65536 ->
  tlv_decode_fec_elm msg buf len m = (l, r) ->
  match r with
  | Ok (tlen, m') =>
      l = [] /\ 1 <= tlen <= len /\ msg_id m' = msg_id m /\
      (Z.land (flags m) OPT_FLAGS = 0 -> decoded_record m') /\
      (tlen = len \/ exists af p pl, fec m' = FecPrefix af p pl)
  | Err => exists e, l = [e] /\ is_failure e = true
  | NoReturn => l = []
  end.
Proof.
  intros Hlen. unfold tlv_decode_fec_elm.
  destruct (byte_at buf 0 =? MAP_TYPE_WILDCARD) eqn:Ew.
  { destruct (len =? FEC_ELM_WCARD_LEN) eqn:E; got.
    - apply Z.eqb_eq in E. unfold FEC_ELM_WCARD_LEN in E. subst len.
      split_and; auto; try lia. intros Hz. split; simpl; auto.
    - fails_with_one. }
  destruct (byte_at buf 0 =? MAP_TYPE_PREFIX) eqn:Ep.
  { destruct (len <? FEC_ELM_PREFIX_MIN_LEN) eqn:E1.
    { got. fails_with_one. }
    destruct (af_of_family (get_u16 buf 1)) as [af | ] eqn:Eaf.
    2:{ got. fails_with_one. }
    case_if. { got. fails_with_one. }
    case_if. { got. fails_with_one. }
    set (tl := 1 + 2 + 1 + PREFIX_SIZE (byte_at buf (1 + 2))) in *.
    got. subst tl.
    pose proof (byte_at_range buf (1 + 2)) as Hb.
    pose proof (PREFIX_SIZE_nonneg (proj1 Hb)) as Hp.
    match goal with E : (len <? _) = false |- _ =>
      apply Z.ltb_ge in E end.
    split_and; auto; try lia.
    - intros Hz. split; simpl; [ exact Hz | ].
      eapply af_of_family_some; eauto.
    - right. simpl. eauto. }
  destruct (byte_at buf 0 =? MAP_TYPE_PWID) eqn:Epw.
  { destruct (len <? FEC_PWID_ELM_MIN_LEN) eqn:E1.
    { got. fails_with_one. }
    case_if. { got. fails_with_one. }
    match goal with E : negb (len =? _) = false |- _ =>
      apply negb_eqb_false in E; rename E into Elen end.
    pose proof (byte_at_range buf (1 + 2)) as Hb.
    unfold FEC_PWID_ELM_MIN_LEN in *.
    destruct (byte_at buf (1 + 2) =? 0) eqn:E0.
    { got. apply Z.eqb_eq in E0.
      split_and; auto; try lia.
      - destruct (has_flag (get_u16 buf 1) CONTROL_WORD_FLAG); reflexivity.
      - intros Hz. split; simpl; [ | exact I ].
        destruct (has_flag (get_u16 buf 1) CONTROL_WORD_FLAG); simpl;
          [ apply land_lor_flag; auto | exact Hz ]. }
    destruct (byte_at buf (1 + 2) <? 4) eqn:E4.
    { got. fails_with_one. }
    apply Z.ltb_ge in E4.
    intros H. apply subtlv_loop_spec in H;
      [ | rewrite u8_small; lia | lia | rewrite u8_small; lia ].
    destruct r as [[tlen m'] | | ]; auto.
    destruct H as (-> & -> & Hpw & Hid & Hfl).
    rewrite u8_small by lia.
    split_and; auto; try lia.
    + rewrite Hid. simpl.
      destruct (has_flag (get_u16 buf 1) CONTROL_WORD_FLAG); reflexivity.
    + intros Hz. split.
      * apply Hfl. simpl. apply land_lor_flag; auto.
        destruct (has_flag (get_u16 buf 1) CONTROL_WORD_FLAG); simpl;
          [ apply land_lor_flag; auto | exact Hz ].
      * simpl in Hpw. unfold is_pwid in Hpw. destruct (fec m'); auto;
          discriminate. }
  destruct (byte_at buf 0 =? MAP_TYPE_TYPED_WCARD) eqn:Et.
  { destruct (len <? FEC_ELM_TWCARD_MIN_LEN) eqn:E1.
    { got. fails_with_one. }
    case_if. { got. fails_with_one. }
    match goal with E : negb (len =? _) = false |- _ =>
      apply negb_eqb_false in E; rename E into Elen end.
    unfold FEC_ELM_TWCARD_MIN_LEN in *.
    destruct (byte_at buf 1 =? MAP_TYPE_PREFIX) eqn:E2.
    { case_if. { got. fails_with_one. }
      match goal with E : negb (_ =? 2) = false |- _ =>
        apply negb_eqb_false in E; rename E into Etw end.
      destruct (af_of_family (get_u16 buf (1 + 1 + 1))) as [af | ] eqn:Eaf;
        got; [ | fails_with_one ].
      split_and; auto; try lia. intros Hz. split; simpl; auto. }
    destruct (byte_at buf 1 =? MAP_TYPE_PWID) eqn:E3.
    { case_if. { got. fails_with_one. }
      match goal with E : negb (_ =? 2) = false |- _ =>
        apply negb_eqb_false in E; rename E into Etw end.
      got.
      split_and; auto; try lia. intros Hz. split; simpl; auto. }
    got. fails_with_one. }
  got. fails_with_one.
Qed.

Lemma map_zero_decoded (id : Z) :
  Z.land (flags (set_msg_id map_zero id)) OPT_FLAGS = 0.
Proof. reflexivity. Qed.

(** A round over a FEC element. *)
Lemma fec_round_spec (msg : ldp_msg) (type : Z) (c : cursor) (fl : Z)
    (mh : list map) (l : list event) (r : res (Z * list map)) :
  0 <= fl < 65536 ->
  fec_round msg type c fl mh = (l, r) ->
  match r with
  | Ok (tlen, mh1) =>
      l = [] /\ 1 <= tlen <= fl /\
      (type <> MSG_TYPE_LABELMAPPING -> tlen = fl) /\
      exists m', mh1 = mh ++ [m'] /\ decoded_record m'
  | Err => exists e, l = [e] /\ is_failure e = true
  | NoReturn => l = []
  end.
Proof.
  intros Hfl. unfold fec_round.
  rewrite (u16_small Hfl).
  destruct (tlv_decode_fec_elm msg (c_buf c) fl
              (set_msg_id map_zero (msg_id_f msg))) as [l1 r1] eqn:Ed.
  pose proof (tlv_decode_fec_elm_spec _ _ _ Hfl Ed) as Hd.
  destruct r1 as [[tlen m'] | | ]; simpl.
  - destruct Hd as (-> & Ht & Hid & Hdec & _).
    specialize (Hdec (map_zero_decoded _)).
    repeat case_if; got; try fails_with_one.
    split; [ reflexivity | ]. split; [ lia | ]. split.
    + intros Hty.
      match goal with E : negb (type =? _) && negb (tlen =? fl) = false |- _ =>
        apply andb_false_iff in E; destruct E as [E | E];
        apply negb_eqb_false in E end; [ contradiction | assumption ].
    + exists m'. split_and; auto.
  - got. exact Hd.
  - got. exact Hd.
Qed.

(** The loop over the FEC elements logs nothing unless it fails, and
    then logs exactly the failure. *)
Lemma fec_loop_spec (msg : ldp_msg) (type : Z) :
  forall (fuel : nat) (c : cursor) (fl : Z) (mh : list map) (l : list event)
         (r : res (cursor * list map)),
    0 <= fl < 65536 ->
    Forall decoded_record mh ->
    fec_loop fuel msg type c fl mh = (l, r) ->
    match r with
    | Ok (c', mh') =>
        l = [] /\ Forall decoded_record mh' /\ 0 <= c_len c' < 65536
    | Err => exists e, l = [e] /\ is_failure e = true
    | NoReturn => l = []
    end.
Proof.
  induction fuel as [ | fuel IH]; intros c fl mh l r Hfl Hmh; simpl.
  - got. reflexivity.
  - destruct (fec_round msg type c fl mh) as [l1 r1] eqn:Er.
    pose proof (fec_round_spec _ _ _ _ Hfl Er) as Hr.
    destruct r1 as [[tlen mh1] | | ]; simpl.
    + destruct Hr as (-> & Ht & _ & m' & -> & Hdec).
      assert (Hmh1 : Forall decoded_record (mh ++ [m']))
        by (apply Forall_app; split; [ exact Hmh | now constructor ]).
      destruct (fl - tlen >? 0) eqn:E.
      * destruct (fec_loop fuel msg type (advance c tlen) (fl - tlen)
                    (mh ++ [m'])) as [l2 r2] eqn:El.
        got. simpl.
        assert (Hfl' : 0 <= fl - tlen < 65536) by lia.
        specialize (IH _ _ _ _ _ Hfl' Hmh1 El).
        destruct r2 as [[c' mh'] | | ]; auto.
      * got. simpl. split_and; auto; apply advance_len_range.
    + got. exact Hr.
    + got. exact Hr.
Qed.

(** The first stage of [recv_labelmessage]. *)
Lemma parse_fec_spec (msg : ldp_msg) (buf : list Z) (len type : Z)
    (l : list event) (r : res (cursor * list map)) :
  parse_fec msg buf len type = (l, r) ->
  match r with
  | Ok (c, mh) => l = [] /\ Forall decoded_record mh /\ 0 <= c_len c < 65536
  | Err => exists e, l = [e] /\ is_failure e = true
  | NoReturn => l = []
  end.
Proof.
  unfold parse_fec.
  case_if. { got. fails_with_one. }
  case_if. { got. fails_with_one. }
  case_if. { got. fails_with_one. }
  intros H. apply fec_loop_spec in H; auto. apply get_u16_range.
Qed.

(** The last stage of [recv_labelmessage]: the records are handed over
    in the order of the queue until one of them fails its check. *)
Lemma notify_lde_spec (n : nbr) (msg : ldp_msg) (type : Z) (o : optvals) :
  forall (mh : list map) (l : list event) (r : res unit),
    notify_lde n msg type o mh = (l, r) ->
    match r with
    | Ok _ => l = handed_over n type o mh
    | Err =>
        exists pre me post s,
          mh = pre ++ me :: post /\
          check_record n o me = Fatal s /\
          l = handed_over n type o pre ++
              [EvShutdown s (msg_id_f msg) (msg_type_f msg)]
    | NoReturn => True
    end.
Proof.
  induction mh as [ | me rest IH]; intros l r; simpl.
  - got. reflexivity.
  - unfold handed_over. simpl. fold (handed_over n type o rest).
    destruct (check_record n o me) as [m' | | s | ] eqn:Ec.
    + destruct (notify_lde n msg type o rest) as [l2 r2] eqn:En.
      simpl. got. specialize (IH _ _ eq_refl).
      destruct r2 as [ [] | | ]; auto.
      * now rewrite IH.
      * destruct IH as (pre & me' & post & s & -> & Hc & ->).
        exists (me :: pre), me', post, s. split_and; auto.
        unfold handed_over. simpl. now rewrite Ec.
    + intros H. specialize (IH _ _ H).
      destruct r as [ [] | | ]; auto.
      destruct IH as (pre & me' & post & s & -> & Hc & ->).
      exists (me :: pre), me', post, s. split_and; auto.
      unfold handed_over. simpl. now rewrite Ec.
    + got. exists [], me, rest, s. split_and; auto.
    + got. exact I.
Qed.

(** ** Receiving: failures *)

(** The message [msg_v4_v6_label0] fails on its second record, after the
    first one has been handed over. *)
Lemma recv_v4_v6_label0 :
  recv_labelmessage nbr0 msg_v4_v6_label0 35 MSG_TYPE_LABELMAPPING =
  ([EvImsg IMSG_LABEL_MAPPING 7
      {| msg_id := 9;
         fec := FecPrefix AF_INET [10; 0; 0; 0; 0; 0; 0; 0;
                                   0; 0; 0; 0; 0; 0; 0; 0] 24;
         st := st0; label := 0; requestid := 0; pw_status := 0;
         flags := 0 |};
    EvShutdown S_BAD_TLV_VAL 9 0x0400],
   Err).
Proof. vm_compute. reflexivity. Qed.

(** C7, as stated, fails: a decode that fails at dispatch time has
    already handed over the records in front of the failing one. *)
Lemma failed_decode_keeps_earlier_records :
  ~ discards_everything nbr0 msg_v4_v6_label0 35 MSG_TYPE_LABELMAPPING.
Proof.
  intros H. specialize (H _ recv_v4_v6_label0).
  specialize (H _ (or_introl eq_refl)). discriminate H.
Qed.

(** C7, amended: when [recv_labelmessage] fails, the log ends with the
    failure (nothing is handed over after it).  If the failure is met
    while the FEC TLV or the optional parameters are parsed, no record
    at all has been handed over.  If it is met in the last loop, on the
    check of a queued record, the records in front of that one that
    passed their checks have been handed over, in order, and that
    record and those behind it are dropped. *)
Theorem recv_failure_discards_the_undispatched :
  forall (n : nbr) (buf : list Z) (len type : Z) (log : list event),
    recv_labelmessage n buf len type = (log, Err) ->
    failed_in_parsing buf len type log \/ failed_in_dispatch n buf len type log.
Proof.
  intros n buf len type log. unfold recv_labelmessage.
  intros H. apply bind_err_inv in H.
  destruct H as [H | (l0 & [c mh] & l' & Hp & H & ->)].
  - left. pose proof (parse_fec_spec _ _ _ _ H) as (e & -> & He).
    exists [], e. split_and; auto.
  - pose proof (parse_fec_spec _ _ _ _ Hp) as (-> & _ & Hc).
    simpl. apply bind_err_inv in H.
    destruct H as [H | (l1 & o & l2 & Ho & H & ->)].
    + left. pose proof (@opt_loop_spec _ _ _ _ _ _ _ Hc (Nat.le_refl _) H)
        as (pre & e & -> & He & Hq).
      exists pre, e. split_and; auto.
      * eapply Forall_impl; [ | exact Hq ]. simpl. tauto.
      * right. exists c, mh. auto.
    + right. pose proof (@opt_loop_spec _ _ _ _ _ _ _ Hc (Nat.le_refl _) Ho)
        as (Hq & _).
      pose proof (notify_lde_spec _ _ _ _ _ H)
        as (pre & me & post & s & -> & Hck & ->).
      exists c, (pre ++ me :: post), l1, o, pre, me, post, s.
      split_and; auto.
      eapply Forall_impl; [ | exact Hq ]. simpl. tauto.
Qed.

Lemma recv_failure_discards_the_undispatched_witness :
  recv_labelmessage nbr0 msg_v4_v6_label0 35 MSG_TYPE_LABELMAPPING =
  ([EvImsg IMSG_LABEL_MAPPING 7
      {| msg_id := 9;
         fec := FecPrefix AF_INET [10; 0; 0; 0; 0; 0; 0; 0;
                                   0; 0; 0; 0; 0; 0; 0; 0] 24;
         st := st0; label := 0; requestid := 0; pw_status := 0;
         flags := 0 |};
    EvShutdown S_BAD_TLV_VAL 9 0x0400],
   Err) /\
  (failed_in_parsing msg_v4_v6_label0 35 MSG_TYPE_LABELMAPPING
     [EvImsg IMSG_LABEL_MAPPING 7
        {| msg_id := 9;
           fec := FecPrefix AF_INET [10; 0; 0; 0; 0; 0; 0; 0;
                                     0; 0; 0; 0; 0; 0; 0; 0] 24;
           st := st0; label := 0; requestid := 0; pw_status := 0;
           flags := 0 |};
      EvShutdown S_BAD_TLV_VAL 9 0x0400] \/
   failed_in_dispatch nbr0 msg_v4_v6_label0 35 MSG_TYPE_LABELMAPPING
     [EvImsg IMSG_LABEL_MAPPING 7
        {| msg_id := 9;
           fec := FecPrefix AF_INET [10; 0; 0; 0; 0; 0; 0; 0;
                                     0; 0; 0; 0; 0; 0; 0; 0] 24;
           st := st0; label := 0; requestid := 0; pw_status := 0;
           flags := 0 |};
      EvShutdown S_BAD_TLV_VAL 9 0x0400]).
Proof.
  split.
  - vm_compute. reflexivity.
  - apply (@recv_failure_discards_the_undispatched nbr0 msg_v4_v6_label0 35
             MSG_TYPE_LABELMAPPING).
    vm_compute. reflexivity.
Defined.

(** ** Receiving: the values shared by the records of a message *)

Lemma check_record_deliver (n : nbr) (o : optvals) (me m : map) :
  check_record n o me = Deliver m ->
  flags m = Z.lor (flags me) (o_flags o).
Proof.
  unfold check_record. simpl.
  destruct (fec me); repeat case_if; intros H; inv H; reflexivity.
Qed.

Lemma finish_record_spec (o : optvals) (m : map) :
  label (finish_record o m) = o_label o /\
  flags (finish_record o m) = flags m /\
  (has_flag (flags m) F_MAP_REQ_ID = true ->
   requestid (finish_record o m) = o_reqid o).
Proof.
  unfold finish_record. simpl.
  destruct (has_flag (flags m) F_MAP_REQ_ID); simpl; split_and; auto.
  discriminate.
Qed.

(** C9: in a message that is decoded with success, every record handed
    over carries the values the optional parameters left behind - the
    same for all of them: the label, the request id whenever its flag
    is set, and, among the flag bits the optional parameters can set,
    exactly those they did set.  The optional parameters are parsed
    once, by the loop that runs between the FEC elements and the
    hand-over. *)
Theorem records_share_message_values :
  forall (n : nbr) (buf : list Z) (len type : Z) (log : list event),
    recv_labelmessage n buf len type = (log, Ok tt) ->
    exists c mh l1 o,
      parse_fec (read_msg buf) buf len type = ([], Ok (c, mh)) /\
      opt_loop (Z.to_nat (c_len c)) (read_msg buf) type c optvals_init
      = (l1, Ok o) /\
      forall t p m, In (EvImsg t p m) log -> same_message_values o m.
Proof.
  intros n buf len type log. unfold recv_labelmessage. intros H.
  apply bind_ok_inv in H. destruct H as (l0 & [c mh] & l' & Hp & H & ->).
  pose proof (parse_fec_spec _ _ _ _ Hp) as (-> & Hdec & Hc).
  apply bind_ok_inv in H. destruct H as (l1 & o & l2 & Ho & H & ->).
  pose proof (@opt_loop_spec _ _ _ _ _ _ _ Hc (Nat.le_refl _) Ho)
    as (Hq & Hfl).
  specialize (Hfl eq_refl).
  pose proof (notify_lde_spec _ _ _ _ _ H) as Hl. simpl in Hl. subst l2.
  exists c, mh, l1, o. split_and; auto.
  intros t p m Hin. simpl in Hin. apply in_app_or in Hin.
  destruct Hin as [Hin | Hin].
  - unfold quiet in Hq. rewrite Forall_forall in Hq.
    apply Hq in Hin. simpl in Hin. destruct Hin; discriminate.
  - unfold handed_over in Hin. apply in_flat_map in Hin.
    destruct Hin as (me & Hme & Hin).
    destruct (check_record n o me) as [m' | | s | ] eqn:Ec;
      simpl in Hin; try contradiction.
    destruct Hin as [Hin | []]. inv Hin.
    rewrite Forall_forall in Hdec. apply Hdec in Hme.
    destruct Hme as (Hz & _).
    apply check_record_deliver in Ec.
    pose proof (finish_record_spec o m') as (Hlab & Hflg & Hreq).
    unfold same_message_values. split_and; auto.
    + intros Hr. apply Hreq. now rewrite <- Hflg.
    + rewrite Hflg, Ec, Z.land_lor_distr_l, Hz, Hfl. reflexivity.
Qed.

Lemma records_share_message_values_witness :
  recv_labelmessage nbr0 msg_two_prefixes 41 MSG_TYPE_LABELMAPPING =
  (log_two_prefixes, Ok tt) /\
  exists c mh l1 o,
    parse_fec (read_msg msg_two_prefixes) msg_two_prefixes 41
      MSG_TYPE_LABELMAPPING = ([], Ok (c, mh)) /\
    opt_loop (Z.to_nat (c_len c)) (read_msg msg_two_prefixes)
      MSG_TYPE_LABELMAPPING c optvals_init = (l1, Ok o) /\
    forall t p m, In (EvImsg t p m) log_two_prefixes ->
                  same_message_values o m.
Proof.
  split.
  - vm_compute. reflexivity.
  - apply (@records_share_message_values nbr0 msg_two_prefixes 41
             MSG_TYPE_LABELMAPPING log_two_prefixes).
    vm_compute. reflexivity.
Defined.

(** ** Receiving: label bounds *)

Lemma nth_skipn_add (A : Type) (d : A) :
  forall (k : nat) (l : list A) (i : nat),
    nth i (skipn k l) d = nth (k + i) l d.
Proof.
  induction k as [ | k IH]; intros [ | x l] i; simpl; auto.
  now destruct i.
Qed.

Lemma byte_at_skipn (k : nat) (buf : list Z) (i : Z) :
  0 <= i -> byte_at (skipn k buf) i = byte_at buf (Z.of_nat k + i).
Proof.
  intros Hi. unfold byte_at. rewrite nth_skipn_add.
  replace (Z.to_nat (Z.of_nat k + i)) with (k + Z.to_nat i)%nat by lia.
  reflexivity.
Qed.

Lemma get_u32_skipn (k : nat) (buf : list Z) (i : Z) :
  0 <= i -> get_u32 (skipn k buf) i = get_u32 buf (Z.of_nat k + i).
Proof.
  intros Hi. unfold get_u32. rewrite !byte_at_skipn by lia.
  rewrite !Z.add_assoc. reflexivity.
Qed.

Lemma label_out_of_bounds_invalid (label : Z) :
  label_out_of_bounds label -> label_invalid label = true.
Proof.
  unfold label_out_of_bounds, label_invalid.
  intros [H | (H1 & H2 & H3 & H4)].
  - apply orb_true_iff. left. apply Z.gtb_lt. lia.
  - apply orb_true_iff. right.
    rewrite !andb_true_iff, !negb_true_iff, !Z.eqb_neq, Z.leb_le. auto.
Qed.

(** A round that meets a Generic Label TLV with a label out of bounds,
    in a message type that reads the label, ends in a shutdown. *)
Lemma opt_round_label_out_of_bounds (msg : ldp_msg) (type : Z) (c : cursor)
    (o : optvals) :
  type = MSG_TYPE_LABELMAPPING \/ type = MSG_TYPE_LABELWITHDRAW \/
  type = MSG_TYPE_LABELRELEASE ->
  TLV_HDR_SIZE + LABEL_TLV_LEN <= c_len c ->
  get_u16 (c_buf c) 0 = TLV_TYPE_GENERICLABEL ->
  get_u16 (c_buf c) 2 = LABEL_TLV_LEN ->
  label_out_of_bounds (get_u32 (c_buf c) 4) ->
  opt_round msg type c o = shutdown S_BAD_TLV_VAL msg.
Proof.
  intros Hty Hlen Ht Hl Hlab. unfold opt_round. rewrite Ht, Hl.
  unfold TLV_HDR_SIZE, LABEL_TLV_LEN in *.
  destruct (c_len c <? 4) eqn:E1; [ apply Z.ltb_lt in E1; lia | ].
  destruct (4 + 4 >? c_len c) eqn:E2; [ apply Zgtb_true in E2; lia | ].
  replace (has_flag TLV_TYPE_GENERICLABEL TLV_TYPE_GENERICLABEL) with true
    by reflexivity.
  rewrite andb_false_r.
  unfold opt_switch.
  replace (TLV_TYPE_GENERICLABEL =? TLV_TYPE_LABELREQUEST) with false
    by reflexivity.
  replace ((TLV_TYPE_GENERICLABEL =? TLV_TYPE_HOPCOUNT)
           || (TLV_TYPE_GENERICLABEL =? TLV_TYPE_PATHVECTOR)) with false
    by reflexivity.
  replace (TLV_TYPE_GENERICLABEL =? TLV_TYPE_GENERICLABEL) with true
    by reflexivity.
  assert (Hty' : (type =? MSG_TYPE_LABELMAPPING)
                 || (type =? MSG_TYPE_LABELWITHDRAW)
                 || (type =? MSG_TYPE_LABELRELEASE) = true).
  { destruct Hty as [-> | [-> | ->]]; reflexivity. }
  rewrite Hty'.
  replace (negb (4 =? LABEL_TLV_LEN)) with false by reflexivity.
  change (c_buf (advance c 4)) with (skipn 4 (c_buf c)).
  rewrite get_u32_skipn by lia. simpl (Z.of_nat 4 + 0).
  rewrite (label_out_of_bounds_invalid Hlab). reflexivity.
Qed.

(** C4: in a Label Mapping, Label Withdraw or Label Release message
    (the types for which the Generic Label TLV is read), wherever the
    loop over the optional parameters comes upon a Generic Label TLV of
    the right length whose label is above the largest MPLS label, or is
    reserved and none of IPv4 explicit null, IPv6 explicit null and
    implicit null, the session is shut down with Bad TLV Value and
    [recv_labelmessage] fails; no record is handed over. *)
Theorem label_out_of_bounds_is_fatal :
  forall (n : nbr) (buf : list Z) (len type : Z) (c : cursor)
         (mh : list map) (l1 : list event) (c' : cursor) (o' : optvals),
    type = MSG_TYPE_LABELMAPPING \/ type = MSG_TYPE_LABELWITHDRAW \/
    type = MSG_TYPE_LABELRELEASE ->
    parse_fec (read_msg buf) buf len type = ([], Ok (c, mh)) ->
    opt_run (read_msg buf) type c optvals_init l1 c' o' ->
    TLV_HDR_SIZE + LABEL_TLV_LEN <= c_len c' ->
    get_u16 (c_buf c') 0 = TLV_TYPE_GENERICLABEL ->
    get_u16 (c_buf c') 2 = LABEL_TLV_LEN ->
    label_out_of_bounds (get_u32 (c_buf c') 4) ->
    recv_labelmessage n buf len type =
    (l1 ++ [EvShutdown S_BAD_TLV_VAL (msg_id_f (read_msg buf))
              (msg_type_f (read_msg buf))], Err)
    /\ Forall (fun e => is_imsg e = false) l1.
Proof.
  intros n buf len type c mh l1 c' o' Hty Hp Hrun Hlen Ht Hl Hlab.
  pose proof (parse_fec_spec _ _ _ _ Hp) as (_ & _ & Hc).
  destruct (opt_loop_run Hrun Hc (Nat.le_refl _))
    as (fuel' & Hc' & Hf' & Hq & Heq).
  unfold recv_labelmessage. rewrite Hp. simpl. rewrite Heq.
  destruct fuel' as [ | fuel'];
    [ unfold TLV_HDR_SIZE, LABEL_TLV_LEN in *; lia | ].
  simpl opt_loop.
  assert (Hpos : (c_len c' >? 0) = true)
    by (apply Z.gtb_lt; unfold TLV_HDR_SIZE, LABEL_TLV_LEN in *; lia).
  rewrite Hpos.
  rewrite (@opt_round_label_out_of_bounds (read_msg buf) type c' o'
             Hty Hlen Ht Hl Hlab).
  simpl. split; [ reflexivity | ].
  eapply Forall_impl; [ | exact Hq ]. simpl. tauto.
Qed.

Lemma label_out_of_bounds_is_fatal_witness :
  recv_labelmessage nbr0 msg_label_1 32 MSG_TYPE_LABELMAPPING =
  ([] ++ [EvShutdown S_BAD_TLV_VAL (msg_id_f (read_msg msg_label_1))
            (msg_type_f (read_msg msg_label_1))], Err)
  /\ Forall (fun e => is_imsg e = false) [].
Proof.
  apply (@label_out_of_bounds_is_fatal nbr0 msg_label_1 32
           MSG_TYPE_LABELMAPPING
           {| c_buf := skipn 19 msg_label_1; c_len := 13 |}
           [ {| msg_id := 9;
                fec := FecPrefix AF_INET [10; 0; 0; 0; 0; 0; 0; 0;
                                          0; 0; 0; 0; 0; 0; 0; 0] 24;
                st := st0; label := 0; requestid := 0; pw_status := 0;
                flags := 0 |} ]
           []
           {| c_buf := skipn 19 msg_label_1; c_len := 13 |}
           optvals_init).
  - left. reflexivity.
  - vm_compute. reflexivity.
  - apply opt_run_here.
  - vm_compute. discriminate.
  - vm_compute. reflexivity.
  - vm_compute. reflexivity.
  - right. vm_compute. repeat split; discriminate.
Defined.

(** ** Receiving: a prefix of an unsupported address family *)

Lemma fec_loop_S (fuel : nat) (msg : ldp_msg) (type : Z) (c : cursor)
    (fl : Z) (mh : list map) :
  fec_loop (S fuel) msg type c fl mh =
  bind (fec_round msg type c fl mh)
    (fun x => let '(tlen, mh) := x in
              if fl - tlen >? 0
              then fec_loop fuel msg type (advance c tlen) (fl - tlen) mh
              else ok (advance c tlen, mh)).
Proof. reflexivity. Qed.

(** Following the loop over the FEC elements along a run. *)
Lemma fec_loop_run (msg : ldp_msg) (type : Z) (c : cursor) (fl : Z)
    (mh : list map) (c' : cursor) (fl' : Z) (mh' : list map) :
  fec_run msg type c fl mh c' fl' mh' ->
  forall fuel : nat,
    0 <= fl < 65536 ->
    (Z.to_nat fl < fuel)%nat ->
    exists fuel' : nat,
      0 <= fl' < 65536 /\
      (Z.to_nat fl' < fuel')%nat /\
      fec_loop fuel msg type c fl mh = fec_loop fuel' msg type c' fl' mh'.
Proof.
  induction 1 as [c fl mh | c fl mh l tlen mh1 c' fl' mh' Hr Hpos Hrun IH];
    intros fuel Hfl Hfuel.
  - exists fuel. auto.
  - destruct fuel as [ | fuel]; [ lia | ].
    pose proof (fec_round_spec _ _ _ _ Hfl Hr) as (-> & Ht & _).
    assert (H1 : 0 <= fl - tlen < 65536) by lia.
    assert (H2 : (Z.to_nat (fl - tlen) < fuel)%nat) by lia.
    destruct (IH fuel H1 H2) as (fuel' & Hc & Hf & Heq).
    exists fuel'. split; [ exact Hc | split; [ exact Hf | ] ].
    rewrite fec_loop_S, Hr. simpl.
    assert (Hpos' : (fl - tlen >? 0) = true) by (apply Z.gtb_lt; lia).
    rewrite Hpos', Heq.
    now destruct (fec_loop fuel' msg type c' fl' mh') as [l2 r2].
Qed.

Lemma parse_fec_header_ok (msg : ldp_msg) (buf : list Z) (len type : Z) :
  fec_header_ok buf len ->
  parse_fec msg buf len type =
  fec_loop (S (Z.to_nat (fec_len buf))) msg type (fec_start buf len)
    (fec_len buf) [].
Proof.
  unfold fec_header_ok, parse_fec, fec_len, fec_start.
  intros (H1 & H2 & H3).
  destruct (_ <? TLV_HDR_SIZE) eqn:E1; [ apply Z.ltb_lt in E1; lia | ].
  rewrite H2. simpl (negb _).
  destruct (_ >? _) eqn:E2; [ apply Zgtb_true in E2; lia | ].
  reflexivity.
Qed.

(** A round that meets a prefix element of a family other than IPv4 and
    IPv6 sends the notification and gives up. *)
Lemma fec_round_unsupported_af (msg : ldp_msg) (type : Z) (c : cursor)
    (fl : Z) (mh : list map) :
  0 <= fl < 65536 ->
  byte_at (c_buf c) 0 = MAP_TYPE_PREFIX ->
  FEC_ELM_PREFIX_MIN_LEN <= fl ->
  get_u16 (c_buf c) 1 <> AF_IPV4 ->
  get_u16 (c_buf c) 1 <> AF_IPV6 ->
  fec_round msg type c fl mh = notification S_UNSUP_ADDR msg.
Proof.
  intros Hfl Hty Hlen H4 H6. unfold fec_round, tlv_decode_fec_elm.
  rewrite (u16_small Hfl), Hty.
  replace (MAP_TYPE_PREFIX =? MAP_TYPE_WILDCARD) with false by reflexivity.
  replace (MAP_TYPE_PREFIX =? MAP_TYPE_PREFIX) with true by reflexivity.
  destruct (fl <? FEC_ELM_PREFIX_MIN_LEN) eqn:E; [ apply Z.ltb_lt in E; lia | ].
  unfold af_of_family.
  apply Z.eqb_neq in H4, H6. rewrite H4, H6. reflexivity.
Qed.

(** The message [msg_bad_af]: the notification is all that happens. *)
Lemma recv_bad_af :
  recv_labelmessage nbr0 msg_bad_af 41 MSG_TYPE_LABELMAPPING =
  ([EvNotification S_UNSUP_ADDR 9 0x0400], Err).
Proof. vm_compute. reflexivity. Qed.

(** C6, as stated, fails: the decode does not go on after the
    notification; it returns -1 and the record of the first, valid
    element is not handed over. *)
Lemma unsupported_af_ends_the_decode :
  ~ decode_carries_on nbr0 msg_bad_af 41 MSG_TYPE_LABELMAPPING.
Proof.
  intros (log & H & _). rewrite recv_bad_af in H. discriminate H.
Qed.

(** C6, amended: wherever in the FEC TLV the decoder comes upon a prefix
    element whose address family is neither IPv4 (1) nor IPv6 (2), an
    Unsupported Address Family notification is sent and nothing else
    happens: the session is not shut down, but the decode of the whole
    message is given up - [recv_labelmessage] returns -1, the records
    queued for the elements in front are dropped and nothing is handed
    over. *)
Theorem unsupported_af_aborts_the_message :
  forall (n : nbr) (buf : list Z) (len type : Z) (c : cursor) (fl : Z)
         (mh : list map),
    fec_header_ok buf len ->
    fec_run (read_msg buf) type (fec_start buf len) (fec_len buf) [] c fl mh ->
    byte_at (c_buf c) 0 = MAP_TYPE_PREFIX ->
    FEC_ELM_PREFIX_MIN_LEN <= fl ->
    get_u16 (c_buf c) 1 <> AF_IPV4 ->
    get_u16 (c_buf c) 1 <> AF_IPV6 ->
    recv_labelmessage n buf len type =
    ([EvNotification S_UNSUP_ADDR (msg_id_f (read_msg buf))
        (msg_type_f (read_msg buf))], Err).
Proof.
  intros n buf len type c fl mh Hh Hrun Hty Hlen H4 H6.
  unfold recv_labelmessage.
  rewrite (parse_fec_header_ok _ _ Hh).
  assert (Hfl0 : 0 <= fec_len buf < 65536) by apply get_u16_range.
  destruct (fec_loop_run Hrun Hfl0 (Nat.lt_succ_diag_r _))
    as (fuel' & Hfl & Hf & ->).
  destruct fuel' as [ | fuel']; [ lia | ].
  rewrite fec_loop_S.
  rewrite (@fec_round_unsupported_af (read_msg buf) type c fl mh
             Hfl Hty Hlen H4 H6).
  reflexivity.
Qed.

Lemma unsupported_af_aborts_the_message_witness :
  recv_labelmessage nbr0 msg_bad_af 41 MSG_TYPE_LABELMAPPING =
  ([EvNotification S_UNSUP_ADDR (msg_id_f (read_msg msg_bad_af))
      (msg_type_f (read_msg msg_bad_af))], Err).
Proof.
  apply (@unsupported_af_aborts_the_message nbr0 msg_bad_af 41
           MSG_TYPE_LABELMAPPING
           {| c_buf := skipn 19 msg_bad_af; c_len := 22 |} 6
           [ {| msg_id := 9;
                fec := FecPrefix AF_INET [10; 0; 0; 0; 0; 0; 0; 0;
                                          0; 0; 0; 0; 0; 0; 0; 0] 24;
                st := st0; label := 0; requestid := 0; pw_status := 0;
                flags := 0 |} ]).
  - vm_compute. repeat split; discriminate.
  - eapply fec_run_round with (tlen := 7) (l := []).
    + vm_compute. reflexivity.
    + vm_compute. reflexivity.
    + apply fec_run_here.
  - vm_compute. reflexivity.
  - vm_compute. discriminate.
  - vm_compute. discriminate.
  - vm_compute. discriminate.
Defined.

(** ** Reading what was written *)

Lemma get_u16_put_u16 (x : Z) (rest : list Z) :
  get_u16 (put_u16 x ++ rest) 0 = u16 x.
Proof.
  unfold get_u16, put_u16, byte_at. simpl nth. unfold u8, u16.
  rewrite !Z.mod_mod by lia. change 65536 with (256 * 256).
  rewrite Z.rem_mul_r by lia. lia.
Qed.

Lemma get_u32_put_u32 (x : Z) (rest : list Z) :
  get_u32 (put_u32 x ++ rest) 0 = u32 x.
Proof.
  unfold get_u32, put_u32, byte_at. simpl nth. unfold u8, u32.
  rewrite !Z.mod_mod by lia.
  change 4294967296 with (256 * (256 * (256 * 256))).
  rewrite !Z.rem_mul_r by lia.
  change 16777216 with (256 * 256 * 256). change 65536 with (256 * 256).
  rewrite <- !Z.div_div by lia. lia.
Qed.

Lemma byte_at_app_r (a b : list Z) (i : Z) :
  0 <= i -> byte_at (a ++ b) (Z.of_nat (length a) + i) = byte_at b i.
Proof.
  intros Hi. unfold byte_at.
  replace (Z.to_nat (Z.of_nat (length a) + i))
    with (length a + Z.to_nat i)%nat by lia.
  now rewrite app_nth2_plus.
Qed.

Lemma mem_read_shift (buf : list Z) (off : Z) (n : nat) (x : Z) :
  0 <= off -> mem_read (x :: buf) (off + 1) n = mem_read buf off n.
Proof.
  intros Hoff. unfold mem_read. apply map_ext. intros i. unfold byte_at.
  replace (Z.to_nat (off + 1 + Z.of_nat i))
    with (S (Z.to_nat (off + Z.of_nat i))) by lia.
  reflexivity.
Qed.

Lemma mem_read_S (buf : list Z) (off : Z) (n : nat) :
  mem_read buf off (S n) = byte_at buf off :: mem_read buf (off + 1) n.
Proof.
  unfold mem_read. simpl. f_equal.
  - f_equal. lia.
  - rewrite <- seq_shift, map_map. apply map_ext. intros i. f_equal. lia.
Qed.

Lemma mem_read_app (a b : list Z) :
  Forall is_byte a -> mem_read (a ++ b) 0 (length a) = a.
Proof.
  induction a as [ | x a IH]; intros H; simpl; auto.
  inversion H; subst. rewrite mem_read_S, mem_read_shift by lia.
  rewrite (IH H3). f_equal. unfold byte_at. simpl. now apply u8_small.
Qed.

Lemma skipn_app_len (A : Type) (n : nat) (a b : list A) :
  length a = n -> skipn n (a ++ b) = b.
Proof.
  intros <-. rewrite skipn_app, skipn_all, Nat.sub_diag. reflexivity.
Qed.

(** ** Receiving: prefix elements and the label TLV *)

Lemma decode_prefix_elm (msg : ldp_msg) (fam plen : Z) (bytes rest : list Z)
    (len : Z) (m : map) (af : Z) :
  af_of_family fam = Some af ->
  0 <= fam < 256 ->
  0 <= plen < 256 ->
  (af = AF_INET -> plen <= IPV6_MAX_BITLEN) ->
  length bytes = Z.to_nat (PREFIX_SIZE plen) ->
  Forall is_byte bytes ->
  4 + PREFIX_SIZE plen <= len ->
  tlv_decode_fec_elm msg ([MAP_TYPE_PREFIX; 0; fam; plen] ++ bytes ++ rest)
    len m =
  ok (4 + PREFIX_SIZE plen,
      set_fec m (FecPrefix af
                   (ldp_applymask af
                      (bytes ++ repeat 0 (16 - length bytes)%nat) plen)
                   plen)).
Proof.
  intros Haf Hfam Hplen Hmax Hlen Hb Hl.
  unfold tlv_decode_fec_elm.
  change (byte_at ([MAP_TYPE_PREFIX; 0; fam; plen] ++ bytes ++ rest) 0)
    with (u8 2).
  change (u8 2 =? MAP_TYPE_WILDCARD) with false.
  change (u8 2 =? MAP_TYPE_PREFIX) with true. cbv iota.
  assert (Hp : 0 <= PREFIX_SIZE plen) by (apply PREFIX_SIZE_nonneg; lia).
  destruct (len <? FEC_ELM_PREFIX_MIN_LEN) eqn:E1;
    [ apply Z.ltb_lt in E1; unfold FEC_ELM_PREFIX_MIN_LEN in E1; lia | ].
  change (get_u16 ([MAP_TYPE_PREFIX; 0; fam; plen] ++ bytes ++ rest) 1)
    with (u8 0 * 256 + u8 fam).
  change (u8 0) with 0. rewrite (u8_small Hfam). simpl (0 * 256 + fam).
  rewrite Haf.
  change (byte_at ([MAP_TYPE_PREFIX; 0; fam; plen] ++ bytes ++ rest) (1 + 2))
    with (u8 plen).
  rewrite (u8_small Hplen).
  assert (Hchk : ((af =? AF_IPV4) && (plen >? IPV4_MAX_BITLEN)
                 || (af =? AF_IPV6) && (plen >? IPV6_MAX_BITLEN)) = false).
  { destruct (af_of_family_some _ Haf) as [-> | ->].
    - simpl. destruct (plen >? IPV6_MAX_BITLEN) eqn:E; auto.
      apply Zgtb_true in E. specialize (Hmax eq_refl). lia.
    - reflexivity. }
  rewrite Hchk.
  destruct (len <? 1 + 2 + 1 + PREFIX_SIZE plen) eqn:E2;
    [ apply Z.ltb_lt in E2; lia | ].
  rewrite <- Hlen.
  change ([MAP_TYPE_PREFIX; 0; fam; plen] ++ bytes ++ rest)
    with (MAP_TYPE_PREFIX :: 0 :: fam :: plen :: (bytes ++ rest)).
  change (1 + 2 + 1) with (0 + 1 + 1 + 1 + 1).
  rewrite !mem_read_shift by lia.
  rewrite (mem_read_app _ Hb).
  reflexivity.
Qed.

Lemma wire_prefix_ok_len (family plen : Z) (bytes : list Z) :
  wire_prefix_ok family plen bytes ->
  0 <= PREFIX_SIZE plen <= 16 /\ Z.of_nat (length bytes) = PREFIX_SIZE plen.
Proof.
  intros (Hf & Hp & Hl & _). unfold PREFIX_SIZE in *.
  unfold IPV4_MAX_BITLEN, IPV6_MAX_BITLEN in *.
  assert (0 <= (plen + 7) / 8 <= 16)
    by (destruct Hf as [[_ H] | [_ H]]; Z.div_mod_to_equations; lia).
  lia.
Qed.

Lemma fec_round_prefix (msg : ldp_msg) (family plen : Z) (bytes rest : list Z)
    (clen fl : Z) (mh : list map) :
  wire_prefix_ok family plen bytes ->
  4 + PREFIX_SIZE plen <= fl < 65536 ->
  fec_round msg MSG_TYPE_LABELMAPPING
    {| c_buf := prefix_elm family plen bytes ++ rest; c_len := clen |} fl mh =
  ok (4 + PREFIX_SIZE plen,
      mh ++ [prefix_record (msg_id_f msg) family plen bytes 0]).
Proof.
  intros Hw Hfl. pose proof (wire_prefix_ok_len Hw) as (Hps & Hlen).
  destruct Hw as (Hf & Hp & Hl & Hb).
  unfold fec_round. rewrite u16_small by lia. cbn [c_buf].
  unfold prefix_elm. rewrite <- app_assoc.
  rewrite (@decode_prefix_elm msg family plen bytes rest fl
             (set_msg_id map_zero (msg_id_f msg)) (host_af family)).
  - reflexivity.
  - destruct Hf as [[-> _] | [-> _]]; reflexivity.
  - destruct Hf as [[-> _] | [-> _]]; vm_compute; split; congruence.
  - unfold PREFIX_SIZE, IPV4_MAX_BITLEN, IPV6_MAX_BITLEN in *.
    destruct Hf as [[_ H] | [_ H]]; lia.
  - unfold IPV4_MAX_BITLEN, IPV6_MAX_BITLEN in *.
    destruct Hf as [[_ H] | [_ H]]; lia.
  - exact Hl.
  - exact Hb.
  - lia.
Qed.

Lemma opt_round_label (msg : ldp_msg) (type label : Z) (rest : list Z)
    (len : Z) (o : optvals) :
  type = MSG_TYPE_LABELMAPPING \/ type = MSG_TYPE_LABELWITHDRAW \/
  type = MSG_TYPE_LABELRELEASE ->
  0 <= label < 4294967296 ->
  label_invalid label = false ->
  8 <= len < 65536 ->
  opt_round msg type {| c_buf := label_tlv label ++ rest; c_len := len |} o =
  ok ({| c_buf := rest; c_len := len - 8 |},
      {| o_label := label; o_reqid := o_reqid o;
         o_pw_status := o_pw_status o; o_flags := o_flags o;
         o_current_tlv := u16 (o_current_tlv o + 1) |}).
Proof.
  intros Hty Hlab Hval Hlen. unfold opt_round. cbn [c_len c_buf].
  unfold label_tlv. rewrite <- !app_assoc.
  rewrite get_u16_put_u16.
  change (get_u16 (put_u16 TLV_TYPE_GENERICLABEL ++
                   put_u16 LABEL_TLV_LEN ++ put_u32 label ++ rest) 2)
    with (get_u16 (put_u16 LABEL_TLV_LEN ++ put_u32 label ++ rest) 0).
  rewrite get_u16_put_u16.
  change (u16 TLV_TYPE_GENERICLABEL) with TLV_TYPE_GENERICLABEL.
  change (u16 LABEL_TLV_LEN) with 4. unfold TLV_HDR_SIZE.
  destruct (len <? 4) eqn:E1; [ apply Z.ltb_lt in E1; lia | ].
  destruct (4 + 4 >? len) eqn:E2; [ apply Zgtb_true in E2; lia | ].
  change (has_flag TLV_TYPE_GENERICLABEL TLV_TYPE_GENERICLABEL) with true.
  rewrite andb_false_r.
  unfold opt_switch.
  change (TLV_TYPE_GENERICLABEL =? TLV_TYPE_LABELREQUEST) with false.
  change ((TLV_TYPE_GENERICLABEL =? TLV_TYPE_HOPCOUNT)
          || (TLV_TYPE_GENERICLABEL =? TLV_TYPE_PATHVECTOR)) with false.
  change (TLV_TYPE_GENERICLABEL =? TLV_TYPE_GENERICLABEL) with true.
  assert (Hty' : (type =? MSG_TYPE_LABELMAPPING)
                 || (type =? MSG_TYPE_LABELWITHDRAW)
                 || (type =? MSG_TYPE_LABELRELEASE) = true).
  { destruct Hty as [-> | [-> | ->]]; reflexivity. }
  cbv iota. rewrite Hty'.
  change (negb (4 =? LABEL_TLV_LEN)) with false. cbv iota.
  change (c_buf (advance {| c_buf := put_u16 TLV_TYPE_GENERICLABEL ++
                   put_u16 LABEL_TLV_LEN ++ put_u32 label ++ rest; c_len := len |} 4))
    with (put_u32 label ++ rest).
  rewrite get_u32_put_u32. unfold u32. rewrite Z.mod_small by lia.
  rewrite Hval. unfold bind, ok. simpl app.
  f_equal. f_equal. f_equal.
  unfold advance. cbn [c_len c_buf].
  rewrite (u16_small (x := len - 4)) by lia. rewrite u16_small by lia.
  f_equal. lia.
Qed.

Lemma prefix_elm_length (family plen : Z) (bytes : list Z) :
  wire_prefix_ok family plen bytes ->
  Z.of_nat (length (prefix_elm family plen bytes)) = 4 + PREFIX_SIZE plen.
Proof.
  intros Hw. pose proof (wire_prefix_ok_len Hw) as (_ & Hl).
  unfold prefix_elm. rewrite length_app. simpl length. lia.
Qed.

Lemma parse_fec_two_prefixes (msg : ldp_msg) (hdr : list Z)
    (f1 p1 : Z) (b1 : list Z) (f2 p2 : Z) (b2 : list Z) (rest : list Z)
    (len restlen : Z) :
  length hdr = 8%nat ->
  wire_prefix_ok f1 p1 b1 ->
  wire_prefix_ok f2 p2 b2 ->
  0 <= restlen ->
  len = 12 + (4 + PREFIX_SIZE p1) + (4 + PREFIX_SIZE p2) + restlen ->
  len < 65536 ->
  parse_fec msg
    (hdr ++ put_u16 TLV_TYPE_FEC ++
     put_u16 ((4 + PREFIX_SIZE p1) + (4 + PREFIX_SIZE p2)) ++
     prefix_elm f1 p1 b1 ++ prefix_elm f2 p2 b2 ++ rest)
    len MSG_TYPE_LABELMAPPING =
  ok ({| c_buf := rest; c_len := restlen |},
      [prefix_record (msg_id_f msg) f1 p1 b1 0;
       prefix_record (msg_id_f msg) f2 p2 b2 0]).
Proof.
  intros Hh Hw1 Hw2 Hr Hlen Hmax.
  pose proof (wire_prefix_ok_len Hw1) as (Hps1 & Hl1).
  pose proof (wire_prefix_ok_len Hw2) as (Hps2 & Hl2).
  pose proof (prefix_elm_length Hw1) as He1.
  pose proof (prefix_elm_length Hw2) as He2.
  set (fl := 4 + PREFIX_SIZE p1 + (4 + PREFIX_SIZE p2)) in *.
  assert (Hfl : 0 <= fl < 65536) by (unfold fl; lia).
  rewrite parse_fec_header_ok.
  2:{ unfold fec_header_ok, advance. cbn [c_buf c_len].
      change (Z.to_nat LDP_MSG_SIZE) with 8%nat.
      rewrite (skipn_app_len _ _ Hh).
      rewrite get_u16_put_u16.
      change (get_u16 (put_u16 TLV_TYPE_FEC ++ put_u16 fl ++
                       prefix_elm f1 p1 b1 ++ prefix_elm f2 p2 b2 ++ rest) 2)
        with (get_u16 (put_u16 fl ++
                       prefix_elm f1 p1 b1 ++ prefix_elm f2 p2 b2 ++ rest) 0).
      rewrite get_u16_put_u16, (u16_small Hfl).
      unfold LDP_MSG_SIZE, TLV_HDR_SIZE. rewrite u16_small by lia.
      split; [ lia | split; [ reflexivity | lia ] ]. }
  assert (Hfeclen : fec_len (hdr ++ put_u16 TLV_TYPE_FEC ++ put_u16 fl ++
                       prefix_elm f1 p1 b1 ++ prefix_elm f2 p2 b2 ++ rest) = fl).
  { unfold fec_len. change (Z.to_nat LDP_MSG_SIZE) with 8%nat.
    rewrite (skipn_app_len _ _ Hh).
    change (get_u16 (put_u16 TLV_TYPE_FEC ++ put_u16 fl ++
                       prefix_elm f1 p1 b1 ++ prefix_elm f2 p2 b2 ++ rest) 2)
        with (get_u16 (put_u16 fl ++
                       prefix_elm f1 p1 b1 ++ prefix_elm f2 p2 b2 ++ rest) 0).
    now rewrite get_u16_put_u16, (u16_small Hfl). }
  rewrite Hfeclen.
  assert (Hstart : fec_start (hdr ++ put_u16 TLV_TYPE_FEC ++ put_u16 fl ++
                       prefix_elm f1 p1 b1 ++ prefix_elm f2 p2 b2 ++ rest) len
                   = {| c_buf := prefix_elm f1 p1 b1 ++ prefix_elm f2 p2 b2 ++ rest;
                        c_len := len - 12 |}).
  { unfold fec_start, advance. cbn [c_buf c_len].
    change (Z.to_nat LDP_MSG_SIZE) with 8%nat.
    rewrite (skipn_app_len _ _ Hh).
    change (Z.to_nat TLV_HDR_SIZE) with 4%nat.
    change (skipn 4 (put_u16 TLV_TYPE_FEC ++ put_u16 fl ++
                       prefix_elm f1 p1 b1 ++ prefix_elm f2 p2 b2 ++ rest))
      with (prefix_elm f1 p1 b1 ++ prefix_elm f2 p2 b2 ++ rest).
    unfold LDP_MSG_SIZE, TLV_HDR_SIZE.
    rewrite (u16_small (x := len - 8)) by lia. rewrite u16_small by lia.
    apply f_equal. lia. }
  rewrite Hstart.
  rewrite fec_loop_S, fec_round_prefix by (auto; unfold fl; lia).
  unfold bind, ok. cbn [app].
  assert (Hpos : (fl - (4 + PREFIX_SIZE p1) >? 0) = true)
    by (apply Z.gtb_lt; unfold fl; lia).
  rewrite Hpos.
  destruct (Z.to_nat fl) as [ | fuel] eqn:Ef; [ lia | ].
  unfold advance at 1. cbn [c_buf c_len].
  replace (Z.to_nat (4 + PREFIX_SIZE p1))
    with (length (prefix_elm f1 p1 b1)) by lia.
  rewrite skipn_app_len by reflexivity.
  rewrite fec_loop_S, fec_round_prefix by (auto; unfold fl; lia).
  unfold bind, ok. cbn [app].
  assert (Hend : (fl - (4 + PREFIX_SIZE p1) - (4 + PREFIX_SIZE p2) >? 0) = false).
  { apply not_true_is_false. intros E. apply Zgtb_true in E.
    unfold fl in E. lia. }
  rewrite Hend.
  unfold advance. cbn [c_buf c_len].
  replace (Z.to_nat (4 + PREFIX_SIZE p2))
    with (length (prefix_elm f2 p2 b2)) by lia.
  rewrite skipn_app_len by reflexivity.
  rewrite (u16_small (x := len - 12 - _)) by lia.
  rewrite u16_small by lia.
  replace (len - 12 - (4 + PREFIX_SIZE p1) - (4 + PREFIX_SIZE p2))
    with restlen by lia.
  reflexivity.
Qed.


Lemma label_in_bounds_valid (label : Z) :
  ~ label_out_of_bounds label -> label_invalid label = false.
Proof.
  intros H. apply not_true_is_false. intros Hi. apply H.
  unfold label_invalid in Hi. unfold label_out_of_bounds.
  apply orb_true_iff in Hi. destruct Hi as [Hi | Hi].
  - left. now apply Zgtb_true.
  - right. rewrite !andb_true_iff, !negb_true_iff, !Z.eqb_neq, Z.leb_le in Hi.
    tauto.
Qed.

Lemma check_record_prefix (n : nbr) (o : optvals) (id family plen : Z)
    (bytes : list Z) :
  v4_enabled n = true -> v6_enabled n = true ->
  family = AF_IPV4 \/ family = AF_IPV6 ->
  label_fits_family family (o_label o) ->
  o_flags o = 0 ->
  check_record n o (prefix_record id family plen bytes 0) =
  Deliver (prefix_record id family plen bytes 0).
Proof.
  intros H4 H6 Hf (Hl4 & Hl6) Hfl. unfold check_record. simpl.
  rewrite Hfl. destruct Hf as [-> | ->].
  - change (host_af AF_IPV4) with AF_INET.
    change (AF_INET =? AF_INET) with true. cbv iota.
    specialize (Hl4 eq_refl). apply Z.eqb_neq in Hl4. rewrite Hl4, H4.
    reflexivity.
  - change (host_af AF_IPV6) with AF_INET6.
    change (AF_INET6 =? AF_INET) with false.
    change (AF_INET6 =? AF_INET6) with true. cbv iota.
    specialize (Hl6 eq_refl). apply Z.eqb_neq in Hl6. rewrite Hl6, H6.
    reflexivity.
Qed.

Lemma bind_ok (A B : Type) (a : A) (f : A -> M B) : bind (ok a) f = f a.
Proof. unfold bind, ok. now destruct (f a). Qed.

Lemma opt_loop_S (fuel : nat) (msg : ldp_msg) (type : Z) (c : cursor)
    (o : optvals) :
  c_len c > 0 ->
  opt_loop (S fuel) msg type c o =
  bind (opt_round msg type c o)
    (fun x => let '(c, o) := x in opt_loop fuel msg type c o).
Proof.
  intros H. simpl.
  assert (E : (c_len c >? 0) = true) by (apply Z.gtb_lt; lia).
  now rewrite E.
Qed.

Lemma opt_loop_done (fuel : nat) (msg : ldp_msg) (type : Z) (c : cursor)
    (o : optvals) :
  c_len c <= 0 -> opt_loop fuel msg type c o = ok o.
Proof.
  intros H.
  assert (E : (c_len c >? 0) = false).
  { apply not_true_is_false. intros E. apply Zgtb_true in E. lia. }
  destruct fuel; simpl; now rewrite E.
Qed.

(** A Label Mapping message with two well-formed prefix elements and a
    label that suits both is decoded into two records, one per element,
    in the order of the elements. *)
Lemma two_prefixes_decoded :
  forall (n : nbr) (hdr : list Z) (f1 p1 : Z) (b1 : list Z) (f2 p2 : Z)
         (b2 : list Z) (label : Z),
    let buf := two_prefix_mapping hdr f1 p1 b1 f2 p2 b2 label in
    let id := msg_id_f (read_msg buf) in
    length hdr = 8%nat ->
    wire_prefix_ok f1 p1 b1 ->
    wire_prefix_ok f2 p2 b2 ->
    0 <= label < 4294967296 ->
    ~ label_out_of_bounds label ->
    label_fits_family f1 label -> label_fits_family f2 label ->
    v4_enabled n = true -> v6_enabled n = true ->
    recv_labelmessage n buf (Z.of_nat (length buf)) MSG_TYPE_LABELMAPPING =
    ([EvImsg IMSG_LABEL_MAPPING (peerid n) (prefix_record id f1 p1 b1 label);
      EvImsg IMSG_LABEL_MAPPING (peerid n) (prefix_record id f2 p2 b2 label)],
     Ok tt).
Proof.
  intros n hdr f1 p1 b1 f2 p2 b2 label buf id Hh Hw1 Hw2 Hlab Hin Hf1 Hf2
    H4 H6.
  pose proof (wire_prefix_ok_len Hw1) as (Hps1 & Hl1).
  pose proof (wire_prefix_ok_len Hw2) as (Hps2 & Hl2).
  pose proof (prefix_elm_length Hw1) as He1.
  pose proof (prefix_elm_length Hw2) as He2.
  assert (Hlen : Z.of_nat (length buf)
                 = 12 + (4 + PREFIX_SIZE p1) + (4 + PREFIX_SIZE p2) + 8).
  { unfold buf, two_prefix_mapping. rewrite !length_app.
    rewrite !Nat2Z.inj_add, He1, He2, Hh.
    unfold label_tlv, put_u16, put_u32. cbn [length app]. lia. }
  unfold recv_labelmessage. fold id.
  unfold buf at 2. unfold two_prefix_mapping.
  rewrite (@parse_fec_two_prefixes (read_msg buf) hdr f1 p1 b1 f2 p2 b2
             (label_tlv label) (Z.of_nat (length buf)) 8
             Hh Hw1 Hw2) by lia.
  rewrite bind_ok. cbn [c_len]. change (Z.to_nat 8) with 8%nat.
  rewrite opt_loop_S by (cbn [c_len]; lia).
  rewrite <- (app_nil_r (label_tlv label)).
  rewrite (@opt_round_label (read_msg buf) MSG_TYPE_LABELMAPPING label [] 8
             optvals_init (or_introl eq_refl) Hlab
             (label_in_bounds_valid Hin)) by lia.
  rewrite bind_ok, opt_loop_done by (cbn [c_len]; lia).
  rewrite bind_ok. cbn [notify_lde].
  destruct Hw1 as (Hfam1 & _). destruct Hw2 as (Hfam2 & _).
  rewrite !check_record_prefix; auto; try tauto.
Qed.

(** ** Receiving: how many FEC elements a message may hold *)

(** In a message other than a Label Mapping, a first element that is
    decoded with a length other than that of the FEC TLV is fatal. *)
Lemma second_element_is_fatal (n : nbr) (buf : list Z) (len type : Z)
    (l : list event) (tlen : Z) (m : map) :
  type <> MSG_TYPE_LABELMAPPING ->
  fec_header_ok buf len ->
  tlv_decode_fec_elm (read_msg buf) (c_buf (fec_start buf len)) (fec_len buf)
    (set_msg_id map_zero (msg_id_f (read_msg buf))) = (l, Ok (tlen, m)) ->
  tlen <> fec_len buf ->
  recv_labelmessage n buf len type =
  ([EvShutdown S_BAD_TLV_VAL (msg_id_f (read_msg buf))
      (msg_type_f (read_msg buf))], Err).
Proof.
  intros Hty Hh Hdec Hne.
  assert (Hfl : 0 <= fec_len buf < 65536) by apply get_u16_range.
  pose proof (tlv_decode_fec_elm_spec _ _ _ Hfl Hdec)
    as (-> & _ & _ & _ & [Heq | (af & p & pl & Hfec)]);
    [ contradiction | ].
  unfold recv_labelmessage.
  rewrite (parse_fec_header_ok _ _ Hh), fec_loop_S.
  unfold fec_round. rewrite (u16_small Hfl), Hdec.
  change (@pair (list event) (res (Z * map)) [] (Ok (tlen, m)))
    with (ok (tlen, m)).
  rewrite bind_ok. cbv beta iota zeta.
  unfold is_pwid, is_wildcard, is_twcard. rewrite Hfec. cbn [andb].
  apply Z.eqb_neq in Hty, Hne. rewrite Hty, Hne. reflexivity.
Qed.

(** C3: in a message that is not a Label Mapping, a first FEC element
    that leaves part of the FEC TLV unread - so that a second element
    follows - shuts the session down with Bad TLV Value and the decode
    fails; a Label Mapping with two prefix elements in its FEC TLV
    (well formed, under a label that suits both, both families enabled)
    is decoded with success into two records, each with its own
    prefix. *)
Theorem fec_element_cardinality :
  (forall (n : nbr) (buf : list Z) (len type : Z) (l : list event) (tlen : Z)
          (m : map),
      type <> MSG_TYPE_LABELMAPPING ->
      fec_header_ok buf len ->
      tlv_decode_fec_elm (read_msg buf) (c_buf (fec_start buf len))
        (fec_len buf) (set_msg_id map_zero (msg_id_f (read_msg buf)))
      = (l, Ok (tlen, m)) ->
      tlen <> fec_len buf ->
      recv_labelmessage n buf len type =
      ([EvShutdown S_BAD_TLV_VAL (msg_id_f (read_msg buf))
          (msg_type_f (read_msg buf))], Err))
  /\
  (forall (n : nbr) (hdr : list Z) (f1 p1 : Z) (b1 : list Z) (f2 p2 : Z)
          (b2 : list Z) (label : Z),
      let buf := two_prefix_mapping hdr f1 p1 b1 f2 p2 b2 label in
      let id := msg_id_f (read_msg buf) in
      length hdr = 8%nat ->
      wire_prefix_ok f1 p1 b1 ->
      wire_prefix_ok f2 p2 b2 ->
      0 <= label < 4294967296 ->
      ~ label_out_of_bounds label ->
      label_fits_family f1 label -> label_fits_family f2 label ->
      v4_enabled n = true -> v6_enabled n = true ->
      recv_labelmessage n buf (Z.of_nat (length buf)) MSG_TYPE_LABELMAPPING =
      ([EvImsg IMSG_LABEL_MAPPING (peerid n)
          (prefix_record id f1 p1 b1 label);
        EvImsg IMSG_LABEL_MAPPING (peerid n)
          (prefix_record id f2 p2 b2 label)],
       Ok tt)).
Proof.
  split.
  - intros. eapply second_element_is_fatal; eauto.
  - intros. apply two_prefixes_decoded; assumption.
Qed.

Lemma fec_element_cardinality_witness :
  recv_labelmessage nbr0 msg_withdraw_two 25 MSG_TYPE_LABELWITHDRAW =
  ([EvShutdown S_BAD_TLV_VAL (msg_id_f (read_msg msg_withdraw_two))
      (msg_type_f (read_msg msg_withdraw_two))], Err)
  /\
  recv_labelmessage nbr0
    (two_prefix_mapping [0x04; 0x00; 0; 29; 0; 0; 0; 9]
       1 24 [10; 0; 0] 1 16 [192; 168] 100)
    33 MSG_TYPE_LABELMAPPING =
  ([EvImsg IMSG_LABEL_MAPPING 7 (prefix_record 9 1 24 [10; 0; 0] 100);
    EvImsg IMSG_LABEL_MAPPING 7 (prefix_record 9 1 16 [192; 168] 100)],
   Ok tt).
Proof.
  split.
  - apply (proj1 fec_element_cardinality nbr0 msg_withdraw_two 25
             MSG_TYPE_LABELWITHDRAW [] 7
             {| msg_id := 9;
                fec := FecPrefix AF_INET [10; 0; 0; 0; 0; 0; 0; 0;
                                          0; 0; 0; 0; 0; 0; 0; 0] 24;
                st := st0; label := 0; requestid := 0; pw_status := 0;
                flags := 0 |}).
    + vm_compute. discriminate.
    + vm_compute. repeat split; discriminate.
    + vm_compute. reflexivity.
    + vm_compute. discriminate.
  - apply (proj2 fec_element_cardinality nbr0 [0x04; 0x00; 0; 29; 0; 0; 0; 9]
             1 24 [10; 0; 0] 1 16 [192; 168] 100).
    + reflexivity.
    + split; [ left; split; [ reflexivity | vm_compute; discriminate ] | ].
      split; [ lia | ]. split; [ reflexivity | ].
      repeat constructor; unfold is_byte; lia.
    + split; [ left; split; [ reflexivity | vm_compute; discriminate ] | ].
      split; [ lia | ]. split; [ reflexivity | ].
      repeat constructor; unfold is_byte; lia.
    + vm_compute. split; [ discriminate | reflexivity ].
    + vm_compute. intros [H | (H & _)]; [ discriminate H | apply H; reflexivity ].
    + vm_compute. split; intros; discriminate.
    + vm_compute. split; intros; discriminate.
    + reflexivity.
    + reflexivity.
Defined.

(** ** Sending: buffers *)

Lemma extends_refl (b : ibuf) : extends b b.
Proof. split; [ reflexivity | exists []; now rewrite app_nil_r ]. Qed.

Lemma extends_trans (b1 b2 b3 : ibuf) :
  extends b1 b2 -> extends b2 b3 -> extends b1 b3.
Proof.
  intros (H1 & d1 & E1) (H2 & d2 & E2). split; [ congruence | ].
  exists (d1 ++ d2). now rewrite E2, E1, app_assoc.
Qed.


Lemma ibuf_add_extends (b : ibuf) (d : list Z) : extends b (fst (ibuf_add b d)).
Proof.
  unfold ibuf_add. case_if; simpl.
  - split; [ reflexivity | now exists d ].
  - apply extends_refl.
Qed.

Lemma add_extends (d : list Z) (s : ibuf * Z) : extends (fst s) (fst (add d s)).
Proof.
  unfold add. pose proof (ibuf_add_extends (fst s) d) as H.
  now destruct (ibuf_add (fst s) d).
Qed.

Lemma adds_extends (cs : list (list Z)) :
  forall s : ibuf * Z, extends (fst s) (fst (adds cs s)).
Proof.
  induction cs as [ | d cs IH]; intros s; simpl.
  - apply extends_refl.
  - eapply extends_trans; [ apply add_extends | apply IH ].
Qed.

Lemma adds_app (cs1 cs2 : list (list Z)) (s : ibuf * Z) :
  adds (cs1 ++ cs2) s = adds cs2 (adds cs1 s).
Proof. unfold adds. apply fold_left_app. Qed.

Lemma add_pair (d : list Z) (b : ibuf) (e : Z) :
  add d (b, e) = (fst (ibuf_add b d), Z.lor e (snd (ibuf_add b d))).
Proof. unfold add. simpl. now destruct (ibuf_add b d). Qed.

(** The error a run of appends leaves is the one it started with, or-ed
    with the one the run would leave on a clear start. *)
Lemma adds_err (cs : list (list Z)) :
  forall (b : ibuf) (e : Z),
    adds cs (b, e) =
    (fst (adds cs (b, 0)), Z.lor e (snd (adds cs (b, 0)))).
Proof.
  induction cs as [ | d cs IH]; intros b e.
  - simpl. now rewrite Z.lor_0_r.
  - change (adds (d :: cs) (b, e)) with (adds cs (add d (b, e))).
    change (adds (d :: cs) (b, 0)) with (adds cs (add d (b, 0))).
    rewrite !add_pair.
    destruct (ibuf_add b d) as [b1 r1]. cbn [fst snd].
    rewrite (IH b1 (Z.lor e r1)), (IH b1 (Z.lor 0 r1)). cbn [fst snd].
    now rewrite Z.lor_0_l, Z.lor_assoc.
Qed.

(** An append that has room succeeds. *)
Lemma add_room (d : list Z) (b : ibuf) (e : Z) :
  ibuf_size b + Z.of_nat (length d) <= ib_max b ->
  add d (b, e) = ({| ib_data := ib_data b ++ d; ib_max := ib_max b |}, e).
Proof.
  intros H. unfold add, ibuf_add. simpl fst. simpl snd.
  apply Z.leb_le in H. rewrite H. now rewrite Z.lor_0_r.
Qed.

Lemma adds_room (cs : list (list Z)) :
  forall (b : ibuf) (e : Z),
    ibuf_size b + Z.of_nat (length (concat cs)) <= ib_max b ->
    adds cs (b, e) =
    ({| ib_data := ib_data b ++ concat cs; ib_max := ib_max b |}, e).
Proof.
  induction cs as [ | d cs IH]; intros b e H; simpl in *.
  - rewrite app_nil_r. now destruct b.
  - rewrite length_app in H. rewrite add_room by lia.
    rewrite IH.
    + simpl. now rewrite app_assoc.
    + unfold ibuf_size in *. simpl. rewrite length_app. lia.
Qed.

(** ** Sending: the encoders as runs of appends *)

Lemma adds_cons (d : list Z) (cs : list (list Z)) (s : ibuf * Z) :
  adds (d :: cs) s = adds cs (add d s).
Proof. reflexivity. Qed.

Lemma adds_nil (s : ibuf * Z) : adds [] s = s.
Proof. reflexivity. Qed.

Ltac run_adds := cbn [app]; rewrite ?adds_cons, ?adds_nil; reflexivity.

Lemma gen_fec_tlv_chunks (b : ibuf) (m : map) :
  gen_fec_tlv b m =
  match fec_chunks m with
  | Some cs => Some (adds cs (b, 0))
  | None => None
  end.
Proof.
  unfold gen_fec_tlv, fec_chunks.
  destruct (fec m) as [ | af prefix plen | pw_type pwid gid ifmtu | tw u].
  - run_adds.
  - destruct (family_of_af af); [ | reflexivity ].
    destruct (u16 (PREFIX_SIZE plen) =? 0); run_adds.
  - destruct (has_flag (flags m) F_MAP_PW_ID),
             (has_flag (flags m) F_MAP_PW_IFMTU); run_adds.
  - destruct ((tw =? MAP_TYPE_PREFIX) || (tw =? MAP_TYPE_PWID));
      [ | reflexivity ].
    destruct (tw =? MAP_TYPE_PREFIX); [ | run_adds ].
    destruct (family_of_af u); [ run_adds | reflexivity ].
Qed.

Lemma gen_tlvs_chunks (s : ibuf * Z) (m : map) :
  gen_tlvs s m =
  match fec_chunks m with
  | Some cs => Some (adds (cs ++ opt_chunks m) s)
  | None => None
  end.
Proof.
  unfold gen_tlvs. rewrite gen_fec_tlv_chunks.
  destruct (fec_chunks m) as [cs | ]; [ | reflexivity ].
  rewrite adds_app. destruct s as [b e]. simpl fst. simpl snd.
  rewrite (adds_err cs b e).
  destruct (adds cs (b, 0)) as [b1 r1]. simpl fst. simpl snd.
  unfold opt_chunks, gen_label_tlv, gen_reqid_tlv, gen_pw_status_tlv,
    gen_status_tlv.
  destruct (negb (label m =? NO_LABEL)), (has_flag (flags m) F_MAP_REQ_ID),
    (has_flag (flags m) F_MAP_PW_STATUS), (has_flag (flags m) F_MAP_STATUS);
    reflexivity.
Qed.

Lemma calc_msg_size_chunks (me : map) (sz : Z) :
  calc_msg_size me = Some sz -> encodable me ->
  exists cs, fec_chunks me = Some cs.
Proof.
  unfold calc_msg_size, len_fec_tlv, encodable, fec_chunks, family_of_af.
  destruct (fec me) as [ | af prefix plen | pw_type pwid gid ifmtu | tw u].
  - eauto.
  - intros _ [-> | ->]; simpl; eauto.
  - eauto.
  - destruct ((tw =? MAP_TYPE_PREFIX) || (tw =? MAP_TYPE_PWID));
      [ | discriminate ].
    intros _ H. destruct (tw =? MAP_TYPE_PREFIX) eqn:E; [ | eauto ].
    apply Z.eqb_eq in E. destruct (H E) as [-> | ->]; simpl; eauto.
Qed.

(** ** Sending: one round of the loop *)

Lemma calc_msg_size_range (me : map) (sz : Z) :
  calc_msg_size me = Some sz -> 0 <= sz < 65536.
Proof.
  unfold calc_msg_size. destruct (len_fec_tlv me); [ | discriminate ].
  repeat case_if; intros H; inv H; apply u16_range.
Qed.

Lemma gen_ldp_hdr_open (lsr_id M : Z) :
  LDP_HDR_SIZE <= M + LDP_HDR_DEAD_LEN ->
  gen_ldp_hdr lsr_id (ibuf_open (M + LDP_HDR_DEAD_LEN)) 0 =
  ({| ib_data := put_u16 LDP_VERSION ++ put_u16 (0 - LDP_HDR_DEAD_LEN)
                 ++ put_u32 lsr_id ++ put_u16 0;
      ib_max := M + LDP_HDR_DEAD_LEN |}, 0).
Proof.
  intros H. unfold gen_ldp_hdr, ibuf_add, ibuf_open, ibuf_size. simpl ib_data.
  simpl ib_max. simpl length.
  assert (E : (Z.of_nat 0 + Z.of_nat 10 <=? M + LDP_HDR_DEAD_LEN) = true)
    by (apply Z.leb_le; unfold LDP_HDR_SIZE in H; lia).
  rewrite E. reflexivity.
Qed.



(** ** Sending: termination *)


(** A round for a record that does not fit into an empty PDU: the PDU
    just opened is flushed with nothing but its header and the record
    stays where it is. *)
Lemma send_round_too_big (lsr_id type M : Z) (s : send_state) (me : map)
    (rest : list map) (sz : Z) :
  max_pdu_len (s_nbr s) = M ->
  s_first s = true ->
  calc_msg_size me = Some sz ->
  LDP_HDR_SIZE + sz > M ->
  LDP_HDR_SIZE <= M + LDP_HDR_DEAD_LEN ->
  exists s',
    send_round lsr_id type s me rest = Next s' /\
    max_pdu_len (s_nbr s') = M /\ s_first s' = true /\
    s_mh s' = me :: rest.
Proof.
  intros HM Hf Hsz Hbig Hhdr. unfold send_round.
  rewrite HM, Hf, Hsz, gen_ldp_hdr_open by exact Hhdr.
  assert (E : (LDP_HDR_SIZE + sz >? M) = true) by (apply Z.gtb_lt; lia).
  rewrite E. unfold enqueue_pdu.
  change (ibuf_size _ <? LDP_HDR_SIZE) with false.
  eexists. split; [ reflexivity | ]. split_and; auto.
Qed.

(** With such a record at the head of the queue the loop goes round for
    ever: whatever the fuel, it is used up, and after any number of
    rounds the queue is what it was. *)
Lemma send_loop_stuck (lsr_id type M : Z) (me : map) (rest : list map)
    (sz : Z) :
  calc_msg_size me = Some sz ->
  LDP_HDR_SIZE + sz > M ->
  LDP_HDR_SIZE <= M + LDP_HDR_DEAD_LEN ->
  forall (k : nat) (s : send_state),
    max_pdu_len (s_nbr s) = M ->
    s_first s = true ->
    s_mh s = me :: rest ->
    send_loop k lsr_id type s = SendOutOfFuel /\
    exists s', send_rounds k lsr_id type s = Some s' /\
               s_mh s' = me :: rest.
Proof.
  intros Hsz Hbig Hhdr. induction k as [ | k IH]; intros s HM Hf Hmh.
  - simpl. rewrite Hmh. eauto.
  - destruct (@send_round_too_big lsr_id type M s me rest sz
                HM Hf Hsz Hbig Hhdr) as (s' & Hr & HM' & Hf' & Hmh').
    simpl. rewrite Hmh, Hr. apply IH; auto.
Qed.

(** ** Sending: the computed size is the size *)

Lemma mem_read_length (buf : list Z) (off : Z) (n : nat) :
  length (mem_read buf off n) = n.
Proof. unfold mem_read. now rewrite length_map, length_seq. Qed.

Ltac u16_inner :=
  repeat match goal with
         | |- context [u16 ?x] =>
             lazymatch x with
             | context [u16 _] => fail
             | _ => rewrite (u16_small (x := x)) by lia
             end
         end.

Lemma opt_chunks_length (me : map) :
  Z.of_nat (length (concat (opt_chunks me))) =
  (if negb (label me =? NO_LABEL) then 8 else 0)
  + (if has_flag (flags me) F_MAP_REQ_ID then 8 else 0)
  + (if has_flag (flags me) F_MAP_PW_STATUS then 8 else 0)
  + (if has_flag (flags me) F_MAP_STATUS then 14 else 0).
Proof.
  unfold opt_chunks.
  destruct (negb (label me =? NO_LABEL)), (has_flag (flags me) F_MAP_REQ_ID),
    (has_flag (flags me) F_MAP_PW_STATUS), (has_flag (flags me) F_MAP_STATUS);
    reflexivity.
Qed.

Lemma calc_msg_size_value (me : map) (l : Z) :
  len_fec_tlv me = Some l -> 0 <= l <= 1000 ->
  calc_msg_size me =
  Some (8 + l
        + (if negb (label me =? NO_LABEL) then 8 else 0)
        + (if has_flag (flags me) F_MAP_REQ_ID then 8 else 0)
        + (if has_flag (flags me) F_MAP_STATUS then 14 else 0)).
Proof.
  intros H Hl. unfold calc_msg_size. rewrite H.
  unfold LDP_MSG_SIZE, LABEL_TLV_SIZE, REQID_TLV_SIZE, STATUS_SIZE.
  destruct (negb (label me =? NO_LABEL)), (has_flag (flags me) F_MAP_REQ_ID),
    (has_flag (flags me) F_MAP_STATUS);
    u16_inner; f_equal; lia.
Qed.

(** The length [len_fec_tlv] computes is that of the FEC TLV, plus - for
    a pseudowire with a status - that of the Pseudowire Status TLV. *)
Lemma fec_chunks_length (me : map) :
  well_sized me ->
  match fec_chunks me with
  | None => True
  | Some cs =>
      exists l,
        len_fec_tlv me = Some l /\ 0 <= l <= 1000 /\
        l = Z.of_nat (length (concat cs))
            + (if has_flag (flags me) F_MAP_PW_STATUS then 8 else 0)
  end.
Proof.
  intros (Hw & Hpw). unfold len_fec_tlv, fec_chunks.
  unfold is_pwid in Hpw.
  unfold TLV_HDR_SIZE, FEC_ELM_WCARD_LEN, FEC_ELM_PREFIX_MIN_LEN,
    FEC_PWID_ELM_MIN_LEN, PW_STATUS_TLV_LEN, FEC_SUBTLV_IFMTU_SIZE,
    PW_STATUS_TLV_SIZE, FEC_ELM_TWCARD_MIN_LEN.
  destruct (fec me) as [ | af prefix plen | pw_type pwid gid ifmtu | tw u].
  - destruct (has_flag (flags me) F_MAP_PW_STATUS);
      [ specialize (Hpw eq_refl); discriminate | ].
    eexists. split; [ reflexivity | ].
    split; [ vm_compute; split; discriminate | reflexivity ].
  - destruct (has_flag (flags me) F_MAP_PW_STATUS);
      [ specialize (Hpw eq_refl); discriminate | ].
    destruct (family_of_af af) as [family | ]; [ | exact I ].
    assert (Hp : 0 <= PREFIX_SIZE plen <= 32)
      by (unfold PREFIX_SIZE; Z.div_mod_to_equations; lia).
    rewrite (u16_small (x := PREFIX_SIZE plen)) by lia.
    eexists. split; [ reflexivity | ].
    rewrite (u16_small (x := 4 + (4 + PREFIX_SIZE plen))) by lia.
    split; [ lia | ].
    rewrite concat_app, length_app, Nat2Z.inj_add.
    destruct (PREFIX_SIZE plen =? 0) eqn:E.
    + apply Z.eqb_eq in E. rewrite E. reflexivity.
    + cbn [concat app length put_u16].
      rewrite app_nil_r, mem_read_length. lia.
  - eexists. split; [ reflexivity | ].
    destruct (has_flag (flags me) F_MAP_PW_ID),
      (has_flag (flags me) F_MAP_PW_IFMTU),
      (has_flag (flags me) F_MAP_PW_STATUS);
      (split; [ vm_compute; split; discriminate | reflexivity ]).
  - destruct (has_flag (flags me) F_MAP_PW_STATUS);
      [ specialize (Hpw eq_refl); discriminate | ].
    destruct ((tw =? MAP_TYPE_PREFIX) || (tw =? MAP_TYPE_PWID));
      [ | exact I ].
    destruct (tw =? MAP_TYPE_PREFIX);
      [ destruct (family_of_af u); [ | exact I ] | ];
      (eexists; split; [ reflexivity | ]);
      (split; [ vm_compute; split; discriminate | reflexivity ]).
Qed.

Lemma Some_inj (A : Type) (a b : A) : Some a = Some b -> a = b.
Proof. intros H. now inversion H. Qed.

Lemma msg_size_exact (id type : Z) (me : map) (sz : Z) (cs : list (list Z)) :
  well_sized me ->
  calc_msg_size me = Some sz ->
  fec_chunks me = Some cs ->
  Z.of_nat (length (msg_bytes id type sz me cs)) = sz.
Proof.
  intros Hw Hsz Hcs.
  pose proof (fec_chunks_length Hw) as H. rewrite Hcs in H.
  destruct H as (l & Hl & Hr & Heq).
  rewrite (calc_msg_size_value _ Hl Hr) in Hsz. apply Some_inj in Hsz.
  unfold msg_bytes.
  rewrite length_app, concat_app, (length_app (concat cs)), !Nat2Z.inj_add.
  rewrite opt_chunks_length.
  change (Z.of_nat (length (put_u16 type ++ put_u16 (sz - LDP_MSG_DEAD_LEN)
                            ++ put_u32 id))) with 8.
  destruct (negb (label me =? NO_LABEL)), (has_flag (flags me) F_MAP_REQ_ID),
    (has_flag (flags me) F_MAP_PW_STATUS), (has_flag (flags me) F_MAP_STATUS);
    lia.
Qed.

(** ** Sending: the bytes of a message *)

Lemma encode_msg_bytes (id type : Z) (me : map) (sz : Z)
    (cs : list (list Z)) :
  well_sized me ->
  calc_msg_size me = Some sz ->
  fec_chunks me = Some cs ->
  encode_msg id type me = Some (msg_bytes id type sz me cs).
Proof.
  intros Hw Hsz Hcs.
  pose proof (msg_size_exact id type Hw Hsz Hcs) as Hlen.
  pose proof (calc_msg_size_range _ Hsz) as Hr.
  unfold encode_msg, gen_msg_hdr. rewrite Hsz.
  unfold msg_bytes in *. rewrite length_app in Hlen.
  unfold ibuf_add at 1.
  assert (E : (ibuf_size (ibuf_open 65535)
               + Z.of_nat (length (put_u16 type
                                   ++ put_u16 (sz - LDP_MSG_DEAD_LEN)
                                   ++ put_u32 id)) <=? ib_max (ibuf_open 65535))
              = true) by reflexivity.
  rewrite E, gen_tlvs_chunks, Hcs, adds_room.
  - reflexivity.
  - unfold ibuf_size. cbn [ib_data ib_max ibuf_open app]. lia.
Qed.

(** Appending the message for a record to a buffer that has room for
    it. *)
Lemma gen_message_room (id type sz : Z) (buf : ibuf) (me : map)
    (cs : list (list Z)) (b : ibuf) (r : Z) :
  well_sized me ->
  calc_msg_size me = Some sz ->
  fec_chunks me = Some cs ->
  ibuf_size buf + sz <= ib_max buf ->
  gen_msg_hdr id buf type sz = (b, r) ->
  gen_tlvs (b, r) me
  = Some ({| ib_data := ib_data buf ++ msg_bytes id type sz me cs;
             ib_max := ib_max buf |}, 0).
Proof.
  intros Hw Hsz Hcs Hroom Hh.
  pose proof (msg_size_exact id type Hw Hsz Hcs) as Hlen.
  unfold msg_bytes in *. rewrite length_app in Hlen.
  unfold gen_msg_hdr, ibuf_add in Hh.
  assert (E : (ibuf_size buf
               + Z.of_nat (length (put_u16 type
                                   ++ put_u16 (sz - LDP_MSG_DEAD_LEN)
                                   ++ put_u32 id)) <=? ib_max buf) = true)
    by (apply Z.leb_le; lia).
  rewrite E in Hh. apply pair_equal_spec in Hh. destruct Hh as [<- <-].
  rewrite gen_tlvs_chunks, Hcs, adds_room.
  - cbn [ib_data ib_max]. now rewrite <- (app_assoc (ib_data buf)).
  - unfold ibuf_size in *. cbn [ib_data ib_max]. rewrite length_app. lia.
Qed.

Lemma encode_msgs_app (type : Z) (me : map) (m : list Z) :
  forall (g : list map) (cg : Z) (body : list Z),
    encode_msgs cg type g = Some body ->
    encode_msg (cg + Z.of_nat (length g) + 1) type me = Some m ->
    encode_msgs cg type (g ++ [me]) = Some (body ++ m).
Proof.
  induction g as [ | x g IH]; intros cg body Hg Hm.
  - cbn [encode_msgs app] in *. apply Some_inj in Hg. subst body.
    cbn [length] in Hm.
    replace (cg + Z.of_nat 0 + 1) with (cg + 1) in Hm by lia.
    rewrite Hm. now rewrite app_nil_r.
  - cbn [encode_msgs app] in *.
    destruct (encode_msg (cg + 1) type x) as [a | ]; [ | discriminate ].
    destruct (encode_msgs (cg + 1) type g) as [b | ] eqn:Eg;
      [ | discriminate ].
    apply Some_inj in Hg. subst body.
    rewrite (IH (cg + 1) b Eg).
    + now rewrite app_assoc.
    + rewrite <- Hm. f_equal. cbn [length]. lia.
Qed.

(** ** Sending: the PDUs *)

(** Flushing the open PDU queues the PDU for its records. *)
Lemma enqueue_pdu_open (lsr_id type M cg : Z) (g : list map) (body : list Z)
    (s : send_state) :
  pdu_open lsr_id type M cg g body s ->
  exists b pdu,
    s_buf s = Some b /\
    enqueue_pdu (s_nbr s) type b (s_size s)
    = Some (set_wbuf (s_nbr s) (wbuf (s_nbr s) ++ [pdu])) /\
    pdu_of lsr_id type cg g = Some pdu /\
    Z.of_nat (length pdu) <= M.
Proof.
  intros (Hf & He & HM & Hb & Henc & Hsize & Hle & Hcnt).
  eexists. eexists. split; [ exact Hb | ].
  unfold enqueue_pdu, pdu_of. rewrite Henc.
  unfold ibuf_size. cbn [ib_data].
  assert (E : (Z.of_nat (length (ldp_hdr0 lsr_id ++ body)) <? LDP_HDR_SIZE)
              = false).
  { apply Z.ltb_ge. rewrite length_app. unfold LDP_HDR_SIZE.
    change (length (ldp_hdr0 lsr_id)) with 10%nat. lia. }
  rewrite E, Hsize.
  split; [ reflexivity | ]. split; [ reflexivity | ].
  unfold LDP_HDR_SIZE in *.
  change (firstn 2 (ldp_hdr0 lsr_id ++ body)) with (put_u16 LDP_VERSION).
  change (skipn 4 (ldp_hdr0 lsr_id ++ body))
    with (put_u32 lsr_id ++ put_u16 0 ++ body).
  rewrite !length_app.
  change (length (put_u16 LDP_VERSION)) with 2%nat.
  change (length (put_u16 (10 + Z.of_nat (length body) - LDP_HDR_DEAD_LEN)))
    with 2%nat.
  change (length (put_u32 lsr_id)) with 4%nat.
  change (length (put_u16 0)) with 2%nat.
  lia.
Qed.

(** Opening a PDU for a record that fits. *)
Lemma send_round_open (lsr_id type M : Z) (s : send_state) (me : map)
    (rest : list map) (sz : Z) (cs : list (list Z)) :
  M < 65536 ->
  s_first s = true -> s_err s = 0 -> max_pdu_len (s_nbr s) = M ->
  well_sized me -> calc_msg_size me = Some sz -> fec_chunks me = Some cs ->
  LDP_HDR_SIZE + sz <= M ->
  exists s',
    send_round lsr_id type s me rest = Next s' /\
    pdu_open lsr_id type M (s_msgcnt s) [me]
      (msg_bytes (s_msgcnt s + 1) type sz me cs) s' /\
    s_mh s' = rest /\ wbuf (s_nbr s') = wbuf (s_nbr s).
Proof.
  intros H16 Hf He HM Hw Hsz Hcs Hfit.
  pose proof (calc_msg_size_range _ Hsz) as Hr.
  pose proof (msg_size_exact (s_msgcnt s + 1) type Hw Hsz Hcs) as Hlen.
  unfold send_round. rewrite HM, Hf, Hsz, He.
  rewrite gen_ldp_hdr_open
    by (unfold LDP_HDR_SIZE, LDP_HDR_DEAD_LEN in *; lia).
  cbn [Z.lor].
  assert (E : (LDP_HDR_SIZE + sz >? M) = false).
  { apply not_true_is_false. intros E. apply Zgtb_true in E. lia. }
  rewrite E.
  fold (ldp_hdr0 lsr_id).
  set (b0 := {| ib_data := ldp_hdr0 lsr_id;
                ib_max := M + LDP_HDR_DEAD_LEN |}).
  destruct (gen_msg_hdr (s_msgcnt s + 1) b0 type sz) as [b1 r1] eqn:Eh.
  cbn [Z.lor].
  rewrite (@gen_message_room (s_msgcnt s + 1) type sz b0 me cs b1 r1
             Hw Hsz Hcs).
  - change (negb (0 =? 0)) with false. cbv iota.
    eexists. split; [ reflexivity | ].
    split; [ | split; reflexivity ].
    unfold pdu_open. cbn [s_first s_err s_nbr s_buf s_size s_msgcnt].
    split_and;
      [ reflexivity | reflexivity | exact HM | reflexivity | | | | ].
    + cbn [encode_msgs].
      rewrite (encode_msg_bytes (s_msgcnt s + 1) type Hw Hsz Hcs).
      now rewrite app_nil_r.
    + rewrite Hlen, u16_small; unfold LDP_HDR_SIZE in *; lia.
    + rewrite u16_small; unfold LDP_HDR_SIZE in *; lia.
    + cbn [length]. lia.
  - unfold b0, ibuf_size. cbn [ib_data ib_max].
    change (length (ldp_hdr0 lsr_id)) with 10%nat.
    unfold LDP_HDR_SIZE, LDP_HDR_DEAD_LEN in *. lia.
  - exact Eh.
Qed.

(** Placing a record into the open PDU. *)
Lemma send_round_place (lsr_id type M cg : Z) (g : list map) (body : list Z)
    (s : send_state) (me : map) (rest : list map) (sz : Z)
    (cs : list (list Z)) :
  M < 65536 ->
  pdu_open lsr_id type M cg g body s ->
  well_sized me -> calc_msg_size me = Some sz -> fec_chunks me = Some cs ->
  s_size s + sz <= M ->
  exists s',
    send_round lsr_id type s me rest = Next s' /\
    pdu_open lsr_id type M cg (g ++ [me])
      (body ++ msg_bytes (s_msgcnt s + 1) type sz me cs) s' /\
    s_mh s' = rest /\ wbuf (s_nbr s') = wbuf (s_nbr s) /\
    s_msgcnt s' = s_msgcnt s + 1.
Proof.
  intros H16 (Hf & He & HM & Hb & Henc & Hsize & Hle & Hcnt) Hw Hsz Hcs Hfit.
  pose proof (calc_msg_size_range _ Hsz) as Hr.
  pose proof (msg_size_exact (s_msgcnt s + 1) type Hw Hsz Hcs) as Hlen.
  unfold send_round. rewrite HM, Hf, Hsz, He, Hb.
  assert (E : (s_size s + sz >? M) = false).
  { apply not_true_is_false. intros E. apply Zgtb_true in E. lia. }
  rewrite E.
  set (b0 := {| ib_data := ldp_hdr0 lsr_id ++ body;
                ib_max := M + LDP_HDR_DEAD_LEN |}).
  destruct (gen_msg_hdr (s_msgcnt s + 1) b0 type sz) as [b1 r1] eqn:Eh.
  cbn [Z.lor].
  rewrite (@gen_message_room (s_msgcnt s + 1) type sz b0 me cs b1 r1
             Hw Hsz Hcs).
  - change (negb (0 =? 0)) with false. cbv iota.
    eexists. split; [ reflexivity | ].
    split; [ | split_and; reflexivity ].
    unfold pdu_open. cbn [s_first s_err s_nbr s_buf s_size s_msgcnt].
    split_and; [ reflexivity | reflexivity | exact HM | | | | | ].
    + unfold b0. cbn [ib_data ib_max]. now rewrite app_assoc.
    + apply encode_msgs_app; [ exact Henc | ].
      rewrite <- Hcnt. now apply encode_msg_bytes.
    + rewrite length_app, Nat2Z.inj_add, Hlen, u16_small;
        unfold LDP_HDR_SIZE in *; lia.
    + rewrite u16_small; unfold LDP_HDR_SIZE in *; lia.
    + rewrite length_app. cbn [length]. lia.
  - unfold b0, ibuf_size. cbn [ib_data ib_max]. rewrite length_app.
    change (length (ldp_hdr0 lsr_id)) with 10%nat.
    unfold LDP_HDR_SIZE, LDP_HDR_DEAD_LEN in *. lia.
  - exact Eh.
Qed.

(** Flushing the open PDU because the record at the head of the queue
    does not fit into it any more. *)
Lemma send_round_flush (lsr_id type M cg : Z) (g : list map) (body : list Z)
    (s : send_state) (me : map) (rest : list map) (sz : Z) :
  pdu_open lsr_id type M cg g body s ->
  calc_msg_size me = Some sz ->
  s_size s + sz > M ->
  exists s' pdu,
    send_round lsr_id type s me rest = Next s' /\
    s_first s' = true /\ s_err s' = 0 /\ max_pdu_len (s_nbr s') = M /\
    s_mh s' = me :: rest /\ s_msgcnt s' = s_msgcnt s /\
    wbuf (s_nbr s') = wbuf (s_nbr s) ++ [pdu] /\
    pdu_of lsr_id type cg g = Some pdu /\
    Z.of_nat (length pdu) <= M.
Proof.
  intros Ho Hsz Hbig.
  destruct (enqueue_pdu_open Ho) as (b & pdu & Hb & Henq & Hpdu & Hlen).
  destruct Ho as (Hf & He & HM & _).
  unfold send_round. rewrite HM, Hf, Hsz, Hb.
  assert (E : (s_size s + sz >? M) = true) by (apply Z.gtb_lt; lia).
  rewrite E, Henq.
  eexists. exists pdu. split; [ reflexivity | ].
  cbn [s_first s_err s_nbr s_mh s_msgcnt]. split_and; auto.
Qed.

(** From a state with an open PDU, with records that can all be sent and
    fuel for two rounds per record, the loop places every record, in
    the order of the queue, into the PDU at hand or into a new one, and
    the call returns. *)
Lemma send_loop_batches (lsr_id type M : Z) :
  forall (mh : list map) (fuel : nat) (s : send_state) (cg : Z)
         (g : list map) (body : list Z),
    M < 65536 ->
    pdu_open lsr_id type M cg g body s ->
    s_mh s = mh ->
    Forall (sendable M) mh ->
    (2 * length mh <= fuel)%nat ->
    exists n' groups pdus,
      send_loop fuel lsr_id type s
      = SendReturns n' (s_msgcnt s + Z.of_nat (length mh)) [] /\
      wbuf n' = wbuf (s_nbr s) ++ pdus /\
      pdus_of lsr_id type cg groups = Some pdus /\
      concat groups = g ++ mh /\
      Forall (fun p => Z.of_nat (length p) <= M) pdus.
Proof.
  induction mh as [ | me rest IH]; intros fuel s cg g body H16 Ho Hmh Hall Hfuel.
  - destruct (enqueue_pdu_open Ho) as (b & pdu & Hb & Henq & Hpdu & Hlen).
    assert (Hloop : send_loop fuel lsr_id type s
                    = SendReturns (nbr_fsm (set_wbuf (s_nbr s)
                                              (wbuf (s_nbr s) ++ [pdu]))
                                     NBR_EVT_PDU_SENT)
                        (s_msgcnt s) []).
    { destruct fuel; simpl; rewrite Hmh, Hb, Henq; reflexivity. }
    eexists. exists [g], [pdu]. split_and.
    + rewrite Hloop. cbn [length]. f_equal. lia.
    + reflexivity.
    + cbn [pdus_of]. now rewrite Hpdu.
    + cbn [concat]. now rewrite !app_nil_r.
    + repeat constructor. exact Hlen.
  - inversion Hall as [ | x xs ((sz & Hsz & Hfit) & Henc & Hw) Hrest]; subst.
    destruct (calc_msg_size_chunks _ Hsz Henc) as (cs & Hcs).
    destruct fuel as [ | fuel]; [ cbn [length] in Hfuel; lia | ].
    destruct (Z_le_gt_dec (s_size s + sz) M) as [Hle | Hgt].
    + (* the record goes into the PDU at hand *)
      destruct (@send_round_place lsr_id type M cg g body s me rest sz cs
                  H16 Ho Hw Hsz Hcs Hle)
        as (s' & Hr & Ho' & Hmh' & Hwb & Hcnt).
      destruct (IH fuel s' cg (g ++ [me]) _ H16 Ho' Hmh' Hrest)
        as (n' & groups & pdus & Hloop & Hw' & Hp & Hc & Hl).
      { cbn [length] in Hfuel. lia. }
      exists n', groups, pdus. split_and; auto.
      * simpl send_loop. rewrite Hmh, Hr, Hloop. f_equal.
        rewrite Hcnt. cbn [length]. lia.
      * now rewrite Hw', Hwb.
      * now rewrite Hc, <- app_assoc.
    + (* the PDU at hand is flushed and a new one takes the record *)
      destruct (@send_round_flush lsr_id type M cg g body s me rest sz
                  Ho Hsz Hgt)
        as (s1 & pdu & Hr1 & Hf1 & He1 & HM1 & Hmh1 & Hcnt1 & Hwb1 & Hpdu
            & Hlen).
      destruct fuel as [ | fuel]; [ cbn [length] in Hfuel; lia | ].
      destruct (@send_round_open lsr_id type M s1 me rest sz cs
                  H16 Hf1 He1 HM1 Hw Hsz Hcs Hfit)
        as (s2 & Hr2 & Ho2 & Hmh2 & Hwb2).
      destruct (IH fuel s2 (s_msgcnt s1) [me] _ H16 Ho2 Hmh2 Hrest)
        as (n' & groups & pdus & Hloop & Hw' & Hp & Hc & Hl).
      { cbn [length] in Hfuel. lia. }
      destruct Ho as (_ & _ & _ & _ & _ & _ & _ & Hcg).
      destruct Ho2 as (_ & _ & _ & _ & _ & _ & _ & Hcg2).
      exists n', (g :: groups), (pdu :: pdus). split_and.
      * simpl send_loop. rewrite Hmh, Hr1. simpl send_loop.
        rewrite Hmh1, Hr2, Hloop. f_equal.
        rewrite Hcg2, Hcnt1. cbn [length]. lia.
      * rewrite Hw', Hwb2, Hwb1, <- app_assoc. reflexivity.
      * cbn [pdus_of]. rewrite Hpdu.
        replace (cg + Z.of_nat (length g)) with (s_msgcnt s1)
          by (rewrite Hcnt1; exact Hcg).
        now rewrite Hp.
      * cbn [concat]. now rewrite Hc.
      * constructor; assumption.
Qed.

(** Batching needs records that fit: for a neighbour whose
    [max_pdu_len] is 20 and a queue with one record whose message is 27
    bytes long, the call never returns, so the record is never placed in
    a PDU. *)
Lemma oversized_record_is_never_sent :
  ~ batches_ok 0 nbr_small 0 MSG_TYPE_LABELMAPPING [map_10_24].
Proof.
  intros (fuel & n' & c & groups & pdus & H & _).
  assert (Hsz : calc_msg_size map_10_24 = Some 27) by reflexivity.
  unfold send_labelmessage in H.
  assert (Hbig : LDP_HDR_SIZE + 27 > 20) by (vm_compute; congruence).
  assert (Hhdr : LDP_HDR_SIZE <= 20 + LDP_HDR_DEAD_LEN)
    by (vm_compute; congruence).
  destruct (@send_loop_stuck 0 MSG_TYPE_LABELMAPPING 20 map_10_24 []
              27 Hsz Hbig Hhdr fuel (send_start nbr_small 0 [map_10_24])
              eq_refl eq_refl eq_refl) as (Hstuck & _).
  unfold send_start in Hstuck. rewrite Hstuck in H. discriminate H.
Qed.

(** X1 (batching): for a neighbour whose [max_pdu_len] is a 16-bit
    value and a queue of records each of which can be sent - its
    computed message size plus the LDP header is within [max_pdu_len],
    the encoders take it, and the computed size is the size of its
    message - [send_labelmessage] returns with the queue empty; the PDUs
    it has queued are each within [max_pdu_len], and they carry the
    records of the queue, split into consecutive groups, in the order of
    the queue. *)
Theorem send_batches_within_max_pdu_len :
  forall (lsr_id : Z) (n : nbr) (msgcnt type : Z) (mh : list map),
    max_pdu_len n < 65536 ->
    Forall (sendable (max_pdu_len n)) mh ->
    batches_ok lsr_id n msgcnt type mh.
Proof.
  intros lsr_id n msgcnt type mh H16 Hall. unfold batches_ok.
  destruct mh as [ | me rest].
  - exists 0%nat, n, msgcnt, [], []. split_and; auto.
    now rewrite app_nil_r.
  - inversion Hall as [ | x xs ((sz & Hsz & Hfit) & Henc & Hw) Hrest]; subst.
    destruct (calc_msg_size_chunks _ Hsz Henc) as (cs & Hcs).
    destruct (@send_round_open lsr_id type (max_pdu_len n)
                (send_start n msgcnt (me :: rest)) me rest sz cs
                H16 eq_refl eq_refl eq_refl Hw Hsz Hcs Hfit)
      as (s1 & Hr & Ho & Hmh & Hwb).
    destruct (@send_loop_batches lsr_id type (max_pdu_len n) rest
                (2 * length rest) s1 msgcnt [me] _ H16 Ho Hmh Hrest
                (Nat.le_refl _))
      as (n' & groups & pdus & Hloop & Hw' & Hp & Hc & Hl).
    exists (S (2 * length rest)), n',
      (s_msgcnt s1 + Z.of_nat (length rest)), groups, pdus.
    split_and; auto.
    + unfold send_labelmessage. fold (send_start n msgcnt (me :: rest)).
      simpl send_loop. rewrite Hr. exact Hloop.
    + rewrite Hw', Hwb. reflexivity.
Qed.

Lemma send_batches_within_max_pdu_len_witness :
  (max_pdu_len nbr_70 < 65536 /\
   Forall (sendable (max_pdu_len nbr_70)) [map_10_24; map_10_24; map_10_24])
  /\ batches_ok 0x01020304 nbr_70 8 MSG_TYPE_LABELMAPPING
       [map_10_24; map_10_24; map_10_24].
Proof.
  assert (H : Forall (sendable (max_pdu_len nbr_70))
                [map_10_24; map_10_24; map_10_24]).
  { repeat constructor;
      try (exists 27; split; [ reflexivity | vm_compute; discriminate ]);
      try (left; reflexivity); try (vm_compute; discriminate).
    all: intros; discriminate. }
  split; [ split; [ reflexivity | exact H ] | ].
  apply (@send_batches_within_max_pdu_len 0x01020304 nbr_70 8
           MSG_TYPE_LABELMAPPING [map_10_24; map_10_24; map_10_24]
           eq_refl H).
Defined.

(** Three records for a neighbour whose [max_pdu_len] is 70: two PDUs,
    of 64 and 37 bytes, and three messages counted. *)
Example send_three_records :
  exists n',
    send_labelmessage 6 0x01020304 nbr_70 8 MSG_TYPE_LABELMAPPING
      [map_10_24; map_10_24; map_10_24] = SendReturns n' 11 [] /\
    List.map (@length Z) (wbuf n') = [64%nat; 37%nat] /\
    labelmap_sent (stats n') = 3 /\
    fsm_log n' = [NBR_EVT_PDU_SENT].
Proof. eexists. vm_compute. repeat split. Qed.

(** ** Sending: what a round leaves alone *)

(** A round that goes on to the next has either placed the record - and
    counted it - or flushed the PDU at hand; it raises no event and
    leaves the neighbour's identity alone. *)
Lemma send_round_next (lsr_id type : Z) (s : send_state) (me : map)
    (rest : list map) (s' : send_state) :
  send_round lsr_id type s me rest = Next s' ->
  peerid (s_nbr s') = peerid (s_nbr s) /\
  max_pdu_len (s_nbr s') = max_pdu_len (s_nbr s) /\
  fsm_log (s_nbr s') = fsm_log (s_nbr s) /\
  ((s_first s' = false /\
    stats (s_nbr s') = count_sent type (stats (s_nbr s))) \/
   (s_first s' = true /\ stats (s_nbr s') = stats (s_nbr s))).
Proof.
  unfold send_round.
  destruct (s_first s).
  - destruct (gen_ldp_hdr lsr_id
                (ibuf_open (max_pdu_len (s_nbr s) + LDP_HDR_DEAD_LEN)) 0)
      as [b0 r0].
    destruct (calc_msg_size me) as [sz | ]; [ | discriminate ].
    destruct (LDP_HDR_SIZE + sz >? max_pdu_len (s_nbr s)).
    + unfold enqueue_pdu. destruct (ibuf_size b0 <? LDP_HDR_SIZE);
        [ discriminate | ].
      intros H. inv H. cbn. split_and; auto.
    + destruct (gen_msg_hdr (s_msgcnt s + 1) b0 type sz) as [b1 r1].
      destruct (gen_tlvs (b1, Z.lor (Z.lor (s_err s) r0) r1) me)
        as [[b2 e2] | ]; [ | discriminate ].
      destruct (negb (e2 =? 0)); [ discriminate | ].
      intros H. inv H. cbn. split_and; auto.
  - destruct (s_buf s) as [buf | ]; [ | discriminate ].
    destruct (calc_msg_size me) as [sz | ]; [ | discriminate ].
    destruct (s_size s + sz >? max_pdu_len (s_nbr s)).
    + unfold enqueue_pdu. destruct (ibuf_size buf <? LDP_HDR_SIZE);
        [ discriminate | ].
      intros H. inv H. cbn. split_and; auto.
    + destruct (gen_msg_hdr (s_msgcnt s + 1) buf type sz) as [b1 r1].
      destruct (gen_tlvs (b1, Z.lor (s_err s) r1) me)
        as [[b2 e2] | ]; [ | discriminate ].
      destruct (negb (e2 =? 0)); [ discriminate | ].
      intros H. inv H. cbn. split_and; auto.
Qed.

(** From a state with an open PDU that holds at least one record, with
    records that can all be sent and fuel for two rounds per record: the
    loop places every record and the call returns; no PDU it queues is
    without a record; every record is counted once, and the state
    machine hears of one PDU sent, after the last PDU is queued. *)
Lemma send_loop_pdus (lsr_id type M : Z) :
  forall (mh : list map) (fuel : nat) (s : send_state) (cg : Z)
         (g : list map) (body : list Z),
    M < 65536 ->
    pdu_open lsr_id type M cg g body s ->
    g <> [] ->
    s_mh s = mh ->
    Forall (sendable M) mh ->
    (2 * length mh <= fuel)%nat ->
    exists n' groups pdus,
      send_loop fuel lsr_id type s
      = SendReturns n' (s_msgcnt s + Z.of_nat (length mh)) [] /\
      wbuf n' = wbuf (s_nbr s) ++ pdus /\
      pdus_of lsr_id type cg groups = Some pdus /\
      concat groups = g ++ mh /\
      Forall (fun p => Z.of_nat (length p) <= M) pdus /\
      Forall (fun g => g <> []) groups /\
      stats n' = Nat.iter (length mh) (count_sent type) (stats (s_nbr s)) /\
      fsm_log n' = fsm_log (s_nbr s) ++ [NBR_EVT_PDU_SENT] /\
      peerid n' = peerid (s_nbr s) /\
      max_pdu_len n' = max_pdu_len (s_nbr s).
Proof.
  induction mh as [ | me rest IH];
    intros fuel s cg g body H16 Ho Hg Hmh Hall Hfuel.
  - destruct (enqueue_pdu_open Ho) as (b & pdu & Hb & Henq & Hpdu & Hlen).
    assert (Hloop : send_loop fuel lsr_id type s
                    = SendReturns (nbr_fsm (set_wbuf (s_nbr s)
                                              (wbuf (s_nbr s) ++ [pdu]))
                                     NBR_EVT_PDU_SENT)
                        (s_msgcnt s) []).
    { destruct fuel; simpl; rewrite Hmh, Hb, Henq; reflexivity. }
    eexists. exists [g], [pdu].
    split; [ rewrite Hloop; cbn [length]; f_equal; lia | ].
    split; [ reflexivity | ].
    split; [ cbn [pdus_of]; now rewrite Hpdu | ].
    split; [ cbn [concat]; now rewrite !app_nil_r | ].
    split; [ repeat constructor; exact Hlen | ].
    split; [ repeat constructor; exact Hg | ].
    repeat split.
  - inversion Hall as [ | x xs ((sz & Hsz & Hfit) & Henc & Hw) Hrest]; subst.
    destruct (calc_msg_size_chunks _ Hsz Henc) as (cs & Hcs).
    destruct fuel as [ | fuel]; [ cbn [length] in Hfuel; lia | ].
    destruct (Z_le_gt_dec (s_size s + sz) M) as [Hle | Hgt].
    + (* the record goes into the PDU at hand *)
      destruct (@send_round_place lsr_id type M cg g body s me rest sz cs
                  H16 Ho Hw Hsz Hcs Hle)
        as (s' & Hr & Ho' & Hmh' & Hwb & Hcnt).
      destruct (send_round_next _ _ _ _ _ Hr) as (Hpe & Hmx & Hfsm & Hst).
      assert (Hst' : stats (s_nbr s') = count_sent type (stats (s_nbr s))).
      { destruct Hst as [[_ H] | [H _]]; [ exact H | ].
        destruct Ho' as (Hf' & _). congruence. }
      assert (Hg' : g ++ [me] <> []) by (now destruct g).
      destruct (IH fuel s' cg (g ++ [me]) _ H16 Ho' Hg' Hmh' Hrest)
        as (n' & groups & pdus & Hloop & Hw' & Hp & Hc & Hl & Hne & Hs & Hf
            & Hpe' & Hmx').
      { cbn [length] in Hfuel. lia. }
      exists n', groups, pdus.
      split; [ simpl send_loop; rewrite Hmh, Hr, Hloop; f_equal;
               rewrite Hcnt; cbn [length]; lia | ].
      split; [ now rewrite Hw', Hwb | ].
      split; [ exact Hp | ].
      split; [ now rewrite Hc, <- app_assoc | ].
      split; [ exact Hl | ].
      split; [ exact Hne | ].
      split; [ rewrite Hs, Hst'; cbn [length]; now rewrite Nat.iter_succ_r | ].
      split; [ now rewrite Hf, Hfsm | ].
      split; congruence.
    + (* the PDU at hand is flushed and a new one takes the record *)
      destruct (@send_round_flush lsr_id type M cg g body s me rest sz
                  Ho Hsz Hgt)
        as (s1 & pdu & Hr1 & Hf1 & He1 & HM1 & Hmh1 & Hcnt1 & Hwb1 & Hpdu
            & Hlen).
      destruct (send_round_next _ _ _ _ _ Hr1) as (Hpe1 & Hmx1 & Hfsm1 & Hst1).
      assert (Hst1' : stats (s_nbr s1) = stats (s_nbr s)).
      { destruct Hst1 as [[H _] | [_ H]]; [ congruence | exact H ]. }
      destruct fuel as [ | fuel]; [ cbn [length] in Hfuel; lia | ].
      destruct (@send_round_open lsr_id type M s1 me rest sz cs
                  H16 Hf1 He1 HM1 Hw Hsz Hcs Hfit)
        as (s2 & Hr2 & Ho2 & Hmh2 & Hwb2).
      destruct (send_round_next _ _ _ _ _ Hr2) as (Hpe2 & Hmx2 & Hfsm2 & Hst2).
      assert (Hst2' : stats (s_nbr s2) = count_sent type (stats (s_nbr s1))).
      { destruct Hst2 as [[_ H] | [H _]]; [ exact H | ].
        destruct Ho2 as (Hf' & _). congruence. }
      assert (Hg2 : [me] <> []) by discriminate.
      destruct (IH fuel s2 (s_msgcnt s1) [me] _ H16 Ho2 Hg2 Hmh2 Hrest)
        as (n' & groups & pdus & Hloop & Hw' & Hp & Hc & Hl & Hne & Hs & Hf
            & Hpe' & Hmx').
      { cbn [length] in Hfuel. lia. }
      destruct Ho as (_ & _ & _ & _ & _ & _ & _ & Hcg).
      destruct Ho2 as (_ & _ & _ & _ & _ & _ & _ & Hcg2).
      exists n', (g :: groups), (pdu :: pdus).
      split; [ simpl send_loop; rewrite Hmh, Hr1; simpl send_loop;
               rewrite Hmh1, Hr2, Hloop; f_equal;
               rewrite Hcg2, Hcnt1; cbn [length]; lia | ].
      split; [ rewrite Hw', Hwb2, Hwb1, <- app_assoc; reflexivity | ].
      split; [ cbn [pdus_of]; rewrite Hpdu;
               replace (cg + Z.of_nat (length g)) with (s_msgcnt s1)
                 by (rewrite Hcnt1; exact Hcg);
               now rewrite Hp | ].
      split; [ cbn [concat]; now rewrite Hc | ].
      split; [ constructor; assumption | ].
      split; [ constructor; assumption | ].
      split; [ rewrite Hs, Hst2', Hst1'; cbn [length];
               now rewrite Nat.iter_succ_r | ].
      split; [ now rewrite Hf, Hfsm2, Hfsm1 | ].
      split; congruence.
Qed.

Lemma send_loop_round (fuel : nat) (lsr_id type : Z) (s : send_state)
    (me : map) (rest : list map) (s' : send_state) :
  s_mh s = me :: rest ->
  send_round lsr_id type s me rest = Next s' ->
  send_loop (S fuel) lsr_id type s = send_loop fuel lsr_id type s'.
Proof. intros Hmh Hr. simpl. now rewrite Hmh, Hr. Qed.

(** A call of [send_labelmessage] with a queue that is not empty and
    holds records that can all be sent. *)
Lemma send_labelmessage_pdus (lsr_id : Z) (n : nbr) (msgcnt type : Z)
    (mh : list map) :
  max_pdu_len n < 65536 ->
  Forall (sendable (max_pdu_len n)) mh ->
  mh <> [] ->
  exists n' groups pdus,
    send_labelmessage (2 * length mh) lsr_id n msgcnt type mh
    = SendReturns n' (msgcnt + Z.of_nat (length mh)) [] /\
    wbuf n' = wbuf n ++ pdus /\
    pdus_of lsr_id type msgcnt groups = Some pdus /\
    concat groups = mh /\
    Forall (fun p => Z.of_nat (length p) <= max_pdu_len n) pdus /\
    Forall (fun g => g <> []) groups /\
    stats n' = Nat.iter (length mh) (count_sent type) (stats n) /\
    fsm_log n' = fsm_log n ++ [NBR_EVT_PDU_SENT] /\
    peerid n' = peerid n /\
    max_pdu_len n' = max_pdu_len n.
Proof.
  intros H16 Hall Hne.
  destruct mh as [ | me rest]; [ contradiction | ].
  inversion Hall as [ | x xs ((sz & Hsz & Hfit) & Henc & Hw) Hrest]; subst.
  destruct (calc_msg_size_chunks _ Hsz Henc) as (cs & Hcs).
  destruct (@send_round_open lsr_id type (max_pdu_len n)
              (send_start n msgcnt (me :: rest)) me rest sz cs
              H16 eq_refl eq_refl eq_refl Hw Hsz Hcs Hfit)
    as (s1 & Hr & Ho & Hmh & Hwb).
  destruct (send_round_next _ _ _ _ _ Hr) as (Hpe & Hmx & Hfsm & Hst).
  assert (Hst' : stats (s_nbr s1) = count_sent type (stats n)).
  { destruct Hst as [[_ H] | [H _]]; [ exact H | ].
    destruct Ho as (Hf' & _). congruence. }
  assert (Hg : [me] <> []) by discriminate.
  destruct (@send_loop_pdus lsr_id type (max_pdu_len n) rest
              (S (2 * length rest)) s1 msgcnt [me] _ H16 Ho Hg Hmh Hrest)
    as (n' & groups & pdus & Hloop & Hw' & Hp & Hc & Hl & Hgr & Hs & Hf
        & Hpe' & Hmx').
  { lia. }
  destruct Ho as (_ & _ & _ & _ & _ & _ & _ & Hcnt).
  exists n', groups, pdus.
  split.
  { replace (2 * length (me :: rest))%nat with (S (S (2 * length rest)))
      by (cbn [length]; lia).
    unfold send_labelmessage. fold (send_start n msgcnt (me :: rest)).
    rewrite (@send_loop_round (S (2 * length rest)) lsr_id type
               (send_start n msgcnt (me :: rest)) me rest s1 eq_refl Hr),
      Hloop.
    f_equal.
    rewrite Hcnt. cbn [length s_msgcnt send_start]. lia. }
  split; [ rewrite Hw', Hwb; reflexivity | ].
  split; [ exact Hp | ].
  split; [ exact Hc | ].
  split; [ exact Hl | ].
  split; [ exact Hgr | ].
  split; [ rewrite Hs, Hst'; cbn [length]; now rewrite Nat.iter_succ_r | ].
  split; [ rewrite Hf, Hfsm; reflexivity | ].
  split; [ rewrite Hpe', Hpe; reflexivity | rewrite Hmx', Hmx; reflexivity ].
Qed.

(** X2 (counters): when [send_labelmessage] has sent a queue of records
    that can all be sent, each record has been counted once in the
    neighbour's counter for the message type (as many applications of
    the counter [switch] as there are records), the message identifiers
    [msgcnt + 1] to [msgcnt + N] have been given out, the state machine
    has been told of one PDU sent, and the neighbour is the same peer
    with the same [max_pdu_len]. *)
Theorem send_counts_every_record :
  forall (lsr_id : Z) (n : nbr) (msgcnt type : Z) (mh : list map),
    max_pdu_len n < 65536 ->
    Forall (sendable (max_pdu_len n)) mh ->
    mh <> [] ->
    exists n',
      send_labelmessage (2 * length mh) lsr_id n msgcnt type mh
      = SendReturns n' (msgcnt + Z.of_nat (length mh)) [] /\
      stats n' = Nat.iter (length mh) (count_sent type) (stats n) /\
      fsm_log n' = fsm_log n ++ [NBR_EVT_PDU_SENT] /\
      peerid n' = peerid n /\
      max_pdu_len n' = max_pdu_len n.
Proof.
  intros lsr_id n msgcnt type mh H16 Hall Hne.
  destruct (@send_labelmessage_pdus lsr_id n msgcnt type mh H16 Hall Hne)
    as (n' & groups & pdus & Hsend & _ & _ & _ & _ & _ & Hs & Hf & Hpe & Hmx).
  exists n'. repeat split; assumption.
Qed.

(** Three mappings of 10.0.0.0/24 can be sent to a neighbour whose
    [max_pdu_len] is 70. *)
Lemma three_records_sendable :
  Forall (sendable (max_pdu_len nbr_70)) [map_10_24; map_10_24; map_10_24].
Proof.
  repeat constructor;
    try (exists 27; split; [ reflexivity | vm_compute; discriminate ]);
    try (left; reflexivity); try (vm_compute; discriminate).
  all: intros; discriminate.
Qed.

Lemma send_counts_every_record_witness :
  (max_pdu_len nbr_70 < 65536 /\
   Forall (sendable (max_pdu_len nbr_70)) [map_10_24; map_10_24; map_10_24] /\
   [map_10_24; map_10_24; map_10_24] <> [])
  /\ exists n',
      send_labelmessage 6 0x01020304 nbr_70 8 MSG_TYPE_LABELMAPPING
        [map_10_24; map_10_24; map_10_24]
      = SendReturns n' 11 [] /\
      stats n' = Nat.iter 3 (count_sent MSG_TYPE_LABELMAPPING) (stats nbr_70) /\
      fsm_log n' = fsm_log nbr_70 ++ [NBR_EVT_PDU_SENT] /\
      peerid n' = peerid nbr_70 /\
      max_pdu_len n' = max_pdu_len nbr_70.
Proof.
  split.
  - split; [ reflexivity | ].
    split; [ exact three_records_sendable | discriminate ].
  - apply (@send_counts_every_record 0x01020304 nbr_70 8
             MSG_TYPE_LABELMAPPING [map_10_24; map_10_24; map_10_24]
             eq_refl three_records_sendable).
    discriminate.
Defined.

(** ** Sending: batches *)

(** A mapping of 10.0.0.0/24 and the same with the pseudowire status
    flag, for a neighbour whose [max_pdu_len] is 70: both are placed in
    one PDU, 64 bytes by the computed sizes, and the Pseudowire Status
    TLV that is not counted makes it 72 bytes long. *)
Lemma uncounted_status_tlv_overruns (fuel : nat) :
  exists n',
    send_labelmessage (S (S fuel)) 0x01020304 nbr_70 8 MSG_TYPE_LABELMAPPING
      [map_10_24; map_10_24_pw_status] = SendReturns n' 10 [] /\
    List.map (@length Z) (wbuf n') = [72%nat].
Proof.
  exists (match send_labelmessage 2 0x01020304 nbr_70 8
                  MSG_TYPE_LABELMAPPING [map_10_24; map_10_24_pw_status]
          with
          | SendReturns n _ _ => n
          | _ => nbr_70
          end).
  split; [ | vm_compute; reflexivity ].
  unfold send_labelmessage at 1.
  do 2 (cbn [send_loop s_mh];
        match goal with
        | |- context [send_round ?a ?b ?c ?d ?e] =>
            let r := eval vm_compute in (send_round a b c d e) in
            let E := fresh "E" in
            assert (E : send_round a b c d e = r) by (vm_compute; reflexivity);
            rewrite E; clear E
        end).
  destruct fuel; vm_compute; reflexivity.
Qed.

(** C2, as stated, fails: not every queue is sent in PDUs within
    [max_pdu_len] that carry its records.  With a record whose message
    does not fit ([max_pdu_len] 20, a message of 27 bytes) the call
    never returns and the record is never placed in a PDU.  And with a
    record for which more is written than is computed, a PDU of 72
    bytes is queued for a neighbour whose [max_pdu_len] is 70. *)
Lemma batching_needs_sendable_records :
  ~ batches_ok 0 nbr_small 0 MSG_TYPE_LABELMAPPING [map_10_24] /\
  ~ batches_ok 0x01020304 nbr_70 8 MSG_TYPE_LABELMAPPING
      [map_10_24; map_10_24_pw_status].
Proof.
  split; [ exact oversized_record_is_never_sent | ].
  intros (fuel & n' & c & groups & pdus & H & Hw & _ & _ & Hsz).
  destruct fuel as [ | [ | fuel]];
    [ discriminate H | vm_compute in H; discriminate H | ].
  destruct (uncounted_status_tlv_overruns fuel) as (n1 & E & Hl).
  rewrite E in H. injection H as <- _.
  cbn [wbuf nbr_70 app] in Hw. rewrite <- Hw in Hsz.
  destruct (wbuf n1) as [ | p [ | q l]]; try discriminate Hl.
  injection Hl as Hl. inversion Hsz as [ | x xs Hp _]; subst.
  cbn [max_pdu_len nbr_70] in Hp. lia.
Qed.

(** C2, amended: for a neighbour whose [max_pdu_len] is a 16-bit value
    and a queue of records each of which can be sent - the encoders
    take it, the size computed for its message is the size of the
    message, and this size plus the LDP header is within [max_pdu_len]
    - [send_labelmessage] returns with the queue empty; no PDU it has
    put on the write queue is longer than [max_pdu_len]; and these PDUs
    carry the messages of the records of the queue, split into
    consecutive groups none of which is empty, in the order of the
    queue and with the identifiers [msgcnt + 1] to [msgcnt + N]. *)
Theorem batches_keep_queue_order :
  forall (lsr_id : Z) (n : nbr) (msgcnt type : Z) (mh : list map),
    max_pdu_len n < 65536 ->
    Forall (sendable (max_pdu_len n)) mh ->
    exists n' groups pdus,
      send_labelmessage (2 * length mh) lsr_id n msgcnt type mh
      = SendReturns n' (msgcnt + Z.of_nat (length mh)) [] /\
      wbuf n' = wbuf n ++ pdus /\
      pdus_of lsr_id type msgcnt groups = Some pdus /\
      concat groups = mh /\
      Forall (fun g => g <> []) groups /\
      Forall (fun p => Z.of_nat (length p) <= max_pdu_len n) pdus.
Proof.
  intros lsr_id n msgcnt type mh H16 Hall.
  destruct mh as [ | me rest].
  - exists n, [], [].
    cbn [send_labelmessage length Nat.iter pdus_of concat].
    rewrite Z.add_0_r, app_nil_r. repeat split; constructor.
  - assert (Hne : me :: rest <> []) by discriminate.
    destruct (@send_labelmessage_pdus lsr_id n msgcnt type (me :: rest)
                H16 Hall Hne)
      as (n' & groups & pdus & Hsend & Hw & Hp & Hc & Hl & Hg & _).
    exists n', groups, pdus. repeat split; assumption.
Qed.

Lemma batches_keep_queue_order_witness :
  (max_pdu_len nbr_70 < 65536 /\
   Forall (sendable (max_pdu_len nbr_70)) [map_10_24; map_10_24; map_10_24])
  /\ exists n' groups pdus,
      send_labelmessage 6 0x01020304 nbr_70 8 MSG_TYPE_LABELMAPPING
        [map_10_24; map_10_24; map_10_24]
      = SendReturns n' 11 [] /\
      wbuf n' = wbuf nbr_70 ++ pdus /\
      pdus_of 0x01020304 MSG_TYPE_LABELMAPPING 8 groups = Some pdus /\
      concat groups = [map_10_24; map_10_24; map_10_24] /\
      Forall (fun g => g <> []) groups /\
      Forall (fun p => Z.of_nat (length p) <= max_pdu_len nbr_70) pdus.
Proof.
  split.
  - split; [ reflexivity | exact three_records_sendable ].
  - apply (@batches_keep_queue_order 0x01020304 nbr_70 8
             MSG_TYPE_LABELMAPPING [map_10_24; map_10_24; map_10_24]
             eq_refl three_records_sendable).
Defined.

(** ** Sending: draining the queue *)





(** ** Sending: the header of a PDU *)

Lemma encode_msg_min (id type : Z) (me : map) (a : list Z) :
  encode_msg id type me = Some a -> (8 <= length a)%nat.
Proof.
  unfold encode_msg. destruct (calc_msg_size me) as [sz | ]; [ | discriminate ].
  change (gen_msg_hdr id (ibuf_open 65535) type sz)
    with ({| ib_data := put_u16 type ++ put_u16 (sz - LDP_MSG_DEAD_LEN)
                        ++ put_u32 id;
             ib_max := 65535 |}, 0).
  cbv beta iota. rewrite gen_tlvs_chunks.
  destruct (fec_chunks me) as [cs | ]; [ | discriminate ].
  set (s0 := ({| ib_data := _; ib_max := _ |}, 0)).
  pose proof (adds_extends (cs ++ opt_chunks me) s0) as (_ & d & Hd).
  destruct (adds (cs ++ opt_chunks me) s0) as [b e]. cbn [fst] in Hd.
  intros H. apply Some_inj in H. subst a. rewrite Hd, length_app.
  unfold s0. cbn [fst ib_data length app put_u16 put_u32]. lia.
Qed.

Lemma encode_msgs_min (type : Z) (me : map) (rest : list map) (id : Z)
    (body : list Z) :
  encode_msgs id type (me :: rest) = Some body -> (8 <= length body)%nat.
Proof.
  cbn [encode_msgs].
  destruct (encode_msg (id + 1) type me) as [a | ] eqn:Ea; [ | discriminate ].
  destruct (encode_msgs (id + 1) type rest) as [b | ]; [ | discriminate ].
  intros H. apply Some_inj in H. subst body. rewrite length_app.
  apply encode_msg_min in Ea. lia.
Qed.

(** The PDU for a group of records that is not empty. *)
Lemma pdu_of_header (lsr_id type id : Z) (g : list map) (p : list Z) :
  pdu_of lsr_id type id g = Some p ->
  g <> [] ->
  Z.of_nat (length p) < 65536 ->
  pdu_header_ok p.
Proof.
  unfold pdu_of. intros H Hg Hlen.
  destruct (encode_msgs id type g) as [body | ] eqn:Eb; [ | discriminate ].
  apply Some_inj in H. subst p.
  destruct g as [ | me rest]; [ contradiction | ].
  apply encode_msgs_min in Eb.
  assert (Hl : Z.of_nat (length (put_u16 LDP_VERSION
                 ++ put_u16 (LDP_HDR_SIZE + Z.of_nat (length body)
                             - LDP_HDR_DEAD_LEN)
                 ++ put_u32 lsr_id ++ put_u16 0 ++ body))
               = 10 + Z.of_nat (length body)).
  { rewrite !length_app. cbn [length put_u16 put_u32]. lia. }
  rewrite Hl in Hlen. unfold pdu_header_ok. rewrite Hl.
  unfold LDP_HDR_SIZE, LDP_HDR_DEAD_LEN, LDP_MSG_SIZE.
  split; [ | lia ].
  change (get_u16 (put_u16 LDP_VERSION
                   ++ put_u16 (10 + Z.of_nat (length body) - 4)
                   ++ put_u32 lsr_id ++ put_u16 0 ++ body) 2)
    with (get_u16 (put_u16 (10 + Z.of_nat (length body) - 4)
                   ++ put_u32 lsr_id ++ put_u16 0 ++ body) 0).
  rewrite get_u16_put_u16, u16_small; lia.
Qed.

Lemma pdus_of_headers (lsr_id type M : Z) :
  forall (groups : list (list map)) (id : Z) (pdus : list (list Z)),
    M < 65536 ->
    pdus_of lsr_id type id groups = Some pdus ->
    Forall (fun g => g <> []) groups ->
    Forall (fun p => Z.of_nat (length p) <= M) pdus ->
    Forall pdu_header_ok pdus.
Proof.
  induction groups as [ | g groups IH]; intros id pdus HM Hp Hg Hl.
  - cbn [pdus_of] in Hp. apply Some_inj in Hp. subst pdus. constructor.
  - cbn [pdus_of] in Hp.
    destruct (pdu_of lsr_id type id g) as [p | ] eqn:Ep; [ | discriminate ].
    destruct (pdus_of lsr_id type (id + Z.of_nat (length g)) groups)
      as [ps | ] eqn:Eps; [ | discriminate ].
    apply Some_inj in Hp. subst pdus.
    inversion Hg; subst. inversion Hl; subst.
    constructor.
    + eapply pdu_of_header; eauto. lia.
    + eapply IH; eauto.
Qed.

(** X3 (PDU header): every PDU that [send_labelmessage] queues for a
    queue of records that can all be sent carries, in the length field
    of its LDP header, the number of bytes behind that field, and holds
    at least one message; at least one PDU is queued. *)
Theorem queued_pdus_carry_their_length :
  forall (lsr_id : Z) (n : nbr) (msgcnt type : Z) (mh : list map),
    max_pdu_len n < 65536 ->
    Forall (sendable (max_pdu_len n)) mh ->
    mh <> [] ->
    exists n' c pdus,
      send_labelmessage (2 * length mh) lsr_id n msgcnt type mh
      = SendReturns n' c [] /\
      wbuf n' = wbuf n ++ pdus /\
      pdus <> [] /\
      Forall pdu_header_ok pdus.
Proof.
  intros lsr_id n msgcnt type mh H16 Hall Hne.
  destruct (@send_labelmessage_pdus lsr_id n msgcnt type mh H16 Hall Hne)
    as (n' & groups & pdus & Hsend & Hw & Hp & Hc & Hl & Hg & _).
  exists n', (msgcnt + Z.of_nat (length mh)), pdus.
  split; [ exact Hsend | ]. split; [ exact Hw | ]. split.
  - intros ->. destruct groups as [ | g groups].
    + cbn [concat] in Hc. congruence.
    + cbn [pdus_of] in Hp.
      destruct (pdu_of lsr_id type msgcnt g); [ | discriminate ].
      destruct (pdus_of lsr_id type (msgcnt + Z.of_nat (length g)) groups);
        discriminate.
  - eapply pdus_of_headers; eauto.
Qed.

Lemma queued_pdus_carry_their_length_witness :
  (max_pdu_len nbr_70 < 65536 /\
   Forall (sendable (max_pdu_len nbr_70)) [map_10_24; map_10_24; map_10_24] /\
   [map_10_24; map_10_24; map_10_24] <> [])
  /\ exists n' c pdus,
      send_labelmessage 6 0x01020304 nbr_70 8 MSG_TYPE_LABELMAPPING
        [map_10_24; map_10_24; map_10_24]
      = SendReturns n' c [] /\
      wbuf n' = wbuf nbr_70 ++ pdus /\
      pdus <> [] /\
      Forall pdu_header_ok pdus.
Proof.
  split.
  - split; [ reflexivity | ].
    split; [ exact three_records_sendable | discriminate ].
  - apply (@queued_pdus_carry_their_length 0x01020304 nbr_70 8
             MSG_TYPE_LABELMAPPING [map_10_24; map_10_24; map_10_24]
             eq_refl three_records_sendable).
    discriminate.
Defined.

(** ** Sending: the length of the FEC TLV *)

Lemma get_u16_tlv_hdr (t l : Z) (rest : list Z) :
  get_u16 (put_u16 t ++ put_u16 l ++ rest) 0 = u16 t /\
  get_u16 (put_u16 t ++ put_u16 l ++ rest) 2 = u16 l.
Proof.
  split; [ apply get_u16_put_u16 | ].
  change (get_u16 (put_u16 t ++ put_u16 l ++ rest) 2)
    with (get_u16 (put_u16 l ++ rest) 0).
  apply get_u16_put_u16.
Qed.

(** The pieces [gen_fec_tlv] appends make up a TLV whose header gives
    the type FEC and the length of what follows the header, and
    [len_fec_tlv] computes the length of the whole - to which it adds,
    for a pseudowire that carries a status, the length of the
    Pseudowire Status TLV. *)
Lemma fec_chunks_tlv (m : map) (cs : list (list Z)) :
  prefixlen_is_byte m ->
  fec_chunks m = Some cs ->
  Z.of_nat (length (concat cs)) <= 1000 /\
  len_fec_tlv m
  = Some (Z.of_nat (length (concat cs))
          + (if is_pwid m && has_flag (flags m) F_MAP_PW_STATUS
             then PW_STATUS_TLV_SIZE else 0)) /\
  get_u16 (concat cs) 0 = TLV_TYPE_FEC /\
  get_u16 (concat cs) 2 = Z.of_nat (length (concat cs)) - TLV_HDR_SIZE.
Proof.
  unfold prefixlen_is_byte, fec_chunks, len_fec_tlv, is_pwid.
  unfold TLV_HDR_SIZE, FEC_ELM_WCARD_LEN, FEC_ELM_PREFIX_MIN_LEN,
    FEC_PWID_ELM_MIN_LEN, PW_STATUS_TLV_LEN, FEC_SUBTLV_IFMTU_SIZE,
    PW_STATUS_TLV_SIZE, FEC_ELM_TWCARD_MIN_LEN.
  destruct (fec m) as [ | af prefix plen | pw_type pwid gid ifmtu | tw u];
    intros Hb Hcs.
  - apply Some_inj in Hcs. subst cs. vm_compute. repeat split; discriminate.
  - destruct (family_of_af af) as [family | ]; [ | discriminate ].
    apply Some_inj in Hcs. subst cs.
    assert (Hp : 0 <= PREFIX_SIZE plen <= 32)
      by (unfold PREFIX_SIZE; Z.div_mod_to_equations; lia).
    rewrite (u16_small (x := PREFIX_SIZE plen)) by lia.
    rewrite (u16_small (x := 4 + (4 + PREFIX_SIZE plen))) by lia.
    cbn [andb].
    assert (Hl : Z.of_nat (length (concat
                   ([put_u16 TLV_TYPE_FEC
                     ++ put_u16 (1 + 2 + 1 + PREFIX_SIZE plen);
                     [u8 (map_type m)]; put_u16 family; [u8 plen]]
                    ++ (if PREFIX_SIZE plen =? 0 then []
                        else [mem_read prefix 0
                                (Z.to_nat (PREFIX_SIZE plen))]))))
                 = 8 + PREFIX_SIZE plen).
    { rewrite concat_app, length_app, Nat2Z.inj_add.
      destruct (PREFIX_SIZE plen =? 0) eqn:E.
      - apply Z.eqb_eq in E. rewrite E. reflexivity.
      - cbn [concat app length put_u16].
        rewrite app_nil_r, mem_read_length. lia. }
    rewrite Hl. split; [ lia | ]. split; [ f_equal; lia | ].
    cbn [app concat]. rewrite <- !app_assoc.
    match goal with
    | |- get_u16 (_ ++ _ ++ ?r) 0 = _ /\ _ =>
        destruct (get_u16_tlv_hdr TLV_TYPE_FEC
                    (1 + 2 + 1 + PREFIX_SIZE plen) r) as (H0 & H2)
    end.
    rewrite H0, H2. change (u16 TLV_TYPE_FEC) with TLV_TYPE_FEC.
    rewrite (u16_small (x := 1 + 2 + 1 + PREFIX_SIZE plen)) by lia.
    split; [ reflexivity | lia ].
  - apply Some_inj in Hcs. subst cs. cbn [andb].
    destruct (has_flag (flags m) F_MAP_PW_ID),
      (has_flag (flags m) F_MAP_PW_IFMTU),
      (has_flag (flags m) F_MAP_PW_STATUS);
      vm_compute; repeat split; discriminate.
  - destruct ((tw =? MAP_TYPE_PREFIX) || (tw =? MAP_TYPE_PWID));
      [ | discriminate ].
    destruct (tw =? MAP_TYPE_PREFIX).
    + destruct (family_of_af u) as [family | ]; [ | discriminate ].
      apply Some_inj in Hcs. subst cs. vm_compute. repeat split; discriminate.
    + apply Some_inj in Hcs. subst cs. vm_compute. repeat split; discriminate.
Qed.

Lemma fec_tlv_bytes_chunks (m : map) :
  prefixlen_is_byte m ->
  fec_tlv_bytes m =
  match fec_chunks m with
  | Some cs => Some (concat cs)
  | None => None
  end.
Proof.
  intros Hb. unfold fec_tlv_bytes. rewrite gen_fec_tlv_chunks.
  destruct (fec_chunks m) as [cs | ] eqn:Ecs; [ | reflexivity ].
  destruct (fec_chunks_tlv m Hb Ecs) as (Hl & _).
  rewrite adds_room.
  - reflexivity.
  - unfold ibuf_size, ibuf_open. cbn [ib_data ib_max length]. lia.
Qed.

(** X4 (FEC TLV length): the FEC TLV that [gen_fec_tlv] writes for a
    record starts with the type FEC and a length field that counts the
    bytes behind the TLV header, and [len_fec_tlv] returns the length of
    the whole TLV - plus, for a pseudowire record with the status flag,
    the length of the Pseudowire Status TLV, which [gen_fec_tlv] does
    not write. *)
Theorem len_fec_tlv_counts_the_bytes_written :
  forall (m : map) (bytes : list Z),
    prefixlen_is_byte m ->
    fec_tlv_bytes m = Some bytes ->
    len_fec_tlv m
    = Some (Z.of_nat (length bytes)
            + (if is_pwid m && has_flag (flags m) F_MAP_PW_STATUS
               then PW_STATUS_TLV_SIZE else 0)) /\
    get_u16 bytes 0 = TLV_TYPE_FEC /\
    get_u16 bytes 2 = Z.of_nat (length bytes) - TLV_HDR_SIZE.
Proof.
  intros m bytes Hb H. rewrite (fec_tlv_bytes_chunks m Hb) in H.
  destruct (fec_chunks m) as [cs | ] eqn:Ecs; [ | discriminate ].
  apply Some_inj in H. subst bytes.
  destruct (fec_chunks_tlv m Hb Ecs) as (_ & Hlen & H0 & H2).
  repeat split; assumption.
Qed.

(** A pseudowire with identifier, interface MTU, control word and
    status. *)
Lemma len_fec_tlv_counts_the_bytes_written_witness :
  let m := {| msg_id := 0; fec := FecPwid 5 77 1 1500; st := st0;
              label := 1000; requestid := 0; pw_status := 0;
              flags := Z.lor F_MAP_PW_ID
                         (Z.lor F_MAP_PW_IFMTU
                            (Z.lor F_MAP_PW_CWORD F_MAP_PW_STATUS)) |} in
  let bytes := [0x01; 0x00; 0; 16; 0x80; 0x80; 5; 8; 0; 0; 0; 1;
                0; 0; 0; 77; 1; 4; 5; 220] in
  (prefixlen_is_byte m /\ fec_tlv_bytes m = Some bytes) /\
  len_fec_tlv m = Some (20 + 8) /\
  get_u16 bytes 0 = TLV_TYPE_FEC /\
  get_u16 bytes 2 = 20 - TLV_HDR_SIZE.
Proof.
  split; [ split; [ exact I | reflexivity ] | ].
  apply (@len_fec_tlv_counts_the_bytes_written
           {| msg_id := 0; fec := FecPwid 5 77 1 1500; st := st0;
              label := 1000; requestid := 0; pw_status := 0;
              flags := Z.lor F_MAP_PW_ID
                         (Z.lor F_MAP_PW_IFMTU
                            (Z.lor F_MAP_PW_CWORD F_MAP_PW_STATUS)) |}
           [0x01; 0x00; 0; 16; 0x80; 0x80; 5; 8; 0; 0; 0; 1;
            0; 0; 0; 77; 1; 4; 5; 220]
           I eq_refl).
Defined.

(** ** Sending: the length of a message *)

(** X5 (message size): for a record whose prefix length is a byte and
    which carries the pseudowire-status flag only if it is a
    pseudowire, the size that [send_labelmessage] computes before it
    appends the message is the number of bytes the encoders then
    append, and the message header they write holds the type, that
    size less the four bytes the length field does not count, and the
    message identifier. *)
Theorem computed_message_size_is_exact :
  forall (id type : Z) (me : map) (bytes : list Z),
    well_sized me ->
    encode_msg id type me = Some bytes ->
    calc_msg_size me = Some (Z.of_nat (length bytes)) /\
    get_u16 bytes 0 = u16 type /\
    get_u16 bytes 2 = Z.of_nat (length bytes) - LDP_MSG_DEAD_LEN /\
    get_u32 bytes 4 = u32 id.
Proof.
  intros id type me bytes Hw He.
  pose proof (encode_msg_min _ _ _ He) as Hmin.
  assert (Hex : exists sz cs, calc_msg_size me = Some sz
                              /\ fec_chunks me = Some cs).
  { unfold encode_msg in He.
    destruct (calc_msg_size me) as [sz | ]; [ | discriminate ].
    destruct (gen_msg_hdr id (ibuf_open 65535) type sz) as [b r].
    rewrite gen_tlvs_chunks in He.
    destruct (fec_chunks me) as [cs | ]; [ eauto | discriminate ]. }
  destruct Hex as (sz & cs & Hsz & Hcs).
  pose proof (msg_size_exact id type Hw Hsz Hcs) as Hlen.
  pose proof (calc_msg_size_range _ Hsz) as Hr.
  rewrite (encode_msg_bytes id type Hw Hsz Hcs) in He.
  apply Some_inj in He. subst bytes. rewrite Hlen in *.
  split; [ exact Hsz | ].
  unfold msg_bytes. rewrite <- !app_assoc.
  destruct (get_u16_tlv_hdr type (sz - LDP_MSG_DEAD_LEN)
              (put_u32 id ++ concat (cs ++ opt_chunks me))) as (H0 & H2).
  rewrite H0, H2. split; [ reflexivity | ].
  split; [ apply u16_small; unfold LDP_MSG_DEAD_LEN; lia | ].
  change (get_u32 (put_u16 type ++ put_u16 (sz - LDP_MSG_DEAD_LEN)
                   ++ put_u32 id ++ concat (cs ++ opt_chunks me)) 4)
    with (get_u32 (put_u32 id ++ concat (cs ++ opt_chunks me)) 0).
  apply get_u32_put_u32.
Qed.

Lemma computed_message_size_is_exact_witness :
  let bytes := [0x04; 0x00; 0; 23; 0; 0; 0; 9;
                0x01; 0x00; 0; 7; 2; 0; 1; 24; 10; 0; 0;
                0x02; 0x00; 0; 4; 0; 0; 0; 100] in
  (well_sized map_10_24 /\
   encode_msg 9 MSG_TYPE_LABELMAPPING map_10_24 = Some bytes) /\
  calc_msg_size map_10_24 = Some 27 /\
  get_u16 bytes 0 = u16 MSG_TYPE_LABELMAPPING /\
  get_u16 bytes 2 = 27 - LDP_MSG_DEAD_LEN /\
  get_u32 bytes 4 = u32 9.
Proof.
  assert (Hw : well_sized map_10_24).
  { split; [ simpl; lia | intros H; discriminate H ]. }
  split; [ split; [ exact Hw | reflexivity ] | ].
  apply (@computed_message_size_is_exact 9 MSG_TYPE_LABELMAPPING map_10_24
           [0x04; 0x00; 0; 23; 0; 0; 0; 9;
            0x01; 0x00; 0; 7; 2; 0; 1; 24; 10; 0; 0;
            0x02; 0x00; 0; 4; 0; 0; 0; 100]
           Hw eq_refl).
Defined.

(** ** Encoding and decoding: prefixes *)

Lemma Forall_firstn (A : Type) (P : A -> Prop) (l : list A) :
  forall k : nat, Forall P l -> Forall P (firstn k l).
Proof.
  induction l as [ | x l IH]; intros k H.
  - now rewrite firstn_nil.
  - destruct k as [ | k]; [ constructor | ].
    inversion H; subst. cbn [firstn]. constructor; auto.
Qed.

Lemma mem_read_firstn (p : list Z) (k : nat) :
  Forall is_byte p -> (k <= length p)%nat -> mem_read p 0 k = firstn k p.
Proof.
  intros Hb Hk.
  assert (Hl : length (firstn k p) = k) by (rewrite length_firstn; lia).
  pose proof (@mem_read_app (firstn k p) (skipn k p)
                (Forall_firstn k Hb)) as H.
  now rewrite firstn_skipn, Hl in H.
Qed.

Lemma applymask_bytes_length (p : list Z) :
  forall bits : Z, length (applymask_bytes p bits) = length p.
Proof.
  induction p as [ | b p IH]; intros bits; simpl; [ reflexivity | ].
  now rewrite IH.
Qed.

Lemma applymask_bytes_firstn (p : list Z) :
  forall (k : nat) (bits : Z),
    firstn k (applymask_bytes p bits) = applymask_bytes (firstn k p) bits.
Proof.
  induction p as [ | b p IH]; intros k bits.
  - now rewrite !firstn_nil.
  - destruct k as [ | k]; [ reflexivity | ].
    cbn [applymask_bytes firstn]. now rewrite IH.
Qed.

Lemma PREFIX_SIZE_step (bits : Z) :
  1 <= bits ->
  Z.to_nat (PREFIX_SIZE bits) = S (Z.to_nat (PREFIX_SIZE (bits - 8))).
Proof.
  intros H. unfold PREFIX_SIZE.
  assert ((bits + 7) / 8 = (bits - 8 + 7) / 8 + 1 /\ 0 <= (bits - 8 + 7) / 8)
    by (Z.div_mod_to_equations; lia).
  lia.
Qed.

Lemma PREFIX_SIZE_nonpos (bits : Z) :
  bits <= 0 -> Z.to_nat (PREFIX_SIZE bits) = 0%nat.
Proof.
  intros H. unfold PREFIX_SIZE.
  assert ((bits + 7) / 8 <= 0) by (Z.div_mod_to_equations; lia).
  lia.
Qed.

(** A prefix with no bit set beyond its length is its leading
    [PREFIX_SIZE] bytes followed by zeros. *)
Lemma masked_prefix_tail (p : list Z) :
  forall bits : Z,
    applymask_bytes p bits = p ->
    firstn (Z.to_nat (PREFIX_SIZE bits)) p
    ++ repeat 0 (length p - Z.to_nat (PREFIX_SIZE bits)) = p.
Proof.
  induction p as [ | b p IH]; intros bits H.
  - now rewrite firstn_nil.
  - cbn [applymask_bytes] in H. injection H as Hb Hp.
    specialize (IH _ Hp).
    destruct (Z_le_gt_dec bits 0) as [Hle | Hgt].
    + rewrite (PREFIX_SIZE_nonpos Hle).
      rewrite PREFIX_SIZE_nonpos in IH by lia.
      cbn [firstn app length Nat.sub repeat].
      rewrite Nat.sub_0_r in IH. cbn [firstn app] in IH. rewrite IH.
      destruct (8 <=? bits) eqn:E8; [ apply Z.leb_le in E8; lia | ].
      destruct (bits <=? 0) eqn:E0; [ | apply Z.leb_gt in E0; lia ].
      now rewrite <- Hb.
    + rewrite PREFIX_SIZE_step by lia.
      cbn [firstn app length Nat.sub]. now rewrite IH.
Qed.

Lemma ldp_applymask_canonical (af : Z) (p : list Z) (plen : Z) :
  af = AF_INET \/ af = AF_INET6 ->
  applymask_bytes p plen = p ->
  ldp_applymask af p plen = p.
Proof.
  intros [-> | ->] H; unfold ldp_applymask.
  - change (AF_INET =? AF_INET) with true. cbv iota.
    rewrite <- applymask_bytes_firstn, H. apply firstn_skipn.
  - change (AF_INET6 =? AF_INET) with false. cbv iota. exact H.
Qed.

(** X6 (prefix round trip): what [gen_fec_tlv] writes for a prefix
    record - an IPv4 or IPv6 prefix of a length within the family's
    bounds and with no bit set beyond that length - is decoded by
    [tlv_decode_fec_elm], given the bytes behind the TLV header and the
    length the header states, into the same family, prefix and prefix
    length; the element is consumed whole and nothing is logged. *)
Theorem prefix_fec_round_trip :
  forall (msg : ldp_msg) (m m0 : map) (af : Z) (prefix : list Z) (plen : Z)
         (rest : list Z),
    fec m = FecPrefix af prefix plen ->
    prefix_canonical af prefix plen ->
    exists bytes,
      fec_tlv_bytes m = Some bytes /\
      tlv_decode_fec_elm msg (skipn 4 bytes ++ rest) (get_u16 bytes 2) m0
      = ok (get_u16 bytes 2, set_fec m0 (FecPrefix af prefix plen)).
Proof.
  intros msg m m0 af prefix plen rest Hfec (Haf & Hpos & Hlen & Hbytes & Hmask).
  assert (Hpl : 0 <= plen <= 128)
    by (unfold IPV4_MAX_BITLEN, IPV6_MAX_BITLEN in Haf;
        destruct Haf as [[_ H] | [_ H]]; lia).
  assert (Hps : 0 <= PREFIX_SIZE plen <= 16)
    by (unfold PREFIX_SIZE; Z.div_mod_to_equations; lia).
  assert (Hbyte : prefixlen_is_byte m)
    by (unfold prefixlen_is_byte; rewrite Hfec; lia).
  set (n := Z.to_nat (PREFIX_SIZE plen)).
  set (data := firstn n prefix).
  assert (Hdl : length data = n)
    by (unfold data; rewrite length_firstn; unfold n; lia).
  assert (Hfam : exists fam, family_of_af af = Some fam /\
                             af_of_family fam = Some af /\ 0 <= fam < 256).
  { destruct Haf as [[-> _] | [-> _]];
      [ exists AF_IPV4 | exists AF_IPV6 ];
      (split; [ reflexivity | split; [ reflexivity | ] ]);
      vm_compute; split; congruence. }
  destruct Hfam as (fam & Hf1 & Hf2 & Hfr).
  assert (Hcat : fec_tlv_bytes m
                 = Some (put_u16 TLV_TYPE_FEC
                         ++ put_u16 (4 + PREFIX_SIZE plen)
                         ++ [MAP_TYPE_PREFIX; 0; fam; plen] ++ data)).
  { rewrite (fec_tlv_bytes_chunks m Hbyte). unfold fec_chunks, map_type.
    rewrite Hfec, Hf1.
    rewrite (u16_small (x := PREFIX_SIZE plen)) by lia.
    f_equal. rewrite concat_app. cbn [concat app].
    rewrite <- !app_assoc. f_equal. f_equal.
    change (u8 MAP_TYPE_PREFIX) with MAP_TYPE_PREFIX.
    unfold put_u16. cbn [app].
    rewrite (u8_small (x := plen)) by lia.
    rewrite (u8_small (x := fam)) by lia.
    replace (fam / 256) with 0 by (Z.div_mod_to_equations; lia).
    change (u8 0) with 0. do 4 f_equal.
    destruct (PREFIX_SIZE plen =? 0) eqn:E.
    - apply Z.eqb_eq in E. unfold data, n. rewrite E. reflexivity.
    - cbn [concat]. rewrite app_nil_r.
      apply mem_read_firstn; [ exact Hbytes | fold n; lia ]. }
  eexists. split; [ exact Hcat | ].
  destruct (get_u16_tlv_hdr TLV_TYPE_FEC (4 + PREFIX_SIZE plen)
              ([MAP_TYPE_PREFIX; 0; fam; plen] ++ data)) as (_ & H2).
  rewrite H2, u16_small by lia.
  change (skipn 4 (put_u16 TLV_TYPE_FEC ++ put_u16 (4 + PREFIX_SIZE plen)
                   ++ [MAP_TYPE_PREFIX; 0; fam; plen] ++ data))
    with ([MAP_TYPE_PREFIX; 0; fam; plen] ++ data).
  rewrite <- app_assoc.
  rewrite (@decode_prefix_elm msg fam plen data rest (4 + PREFIX_SIZE plen)
             m0 af Hf2 Hfr);
    [ | lia | unfold IPV6_MAX_BITLEN; lia | exact Hdl
      | unfold data; now apply Forall_firstn | lia ].
  unfold ok. do 4 f_equal.
  rewrite Hdl. unfold data.
  replace (16 - n)%nat with (length prefix - n)%nat by (rewrite Hlen; lia).
  unfold n. rewrite (@masked_prefix_tail prefix plen Hmask).
  rewrite ldp_applymask_canonical; [ reflexivity | | exact Hmask ].
  destruct Haf as [[-> _] | [-> _]]; auto.
Qed.

Lemma prefix_fec_round_trip_witness :
  let m := {| msg_id := 0;
              fec := FecPrefix AF_INET [10; 1; 16; 0; 0; 0; 0; 0;
                                        0; 0; 0; 0; 0; 0; 0; 0] 20;
              st := st0; label := 100; requestid := 0; pw_status := 0;
              flags := 0 |} in
  let msg := {| msg_type_f := 0x0400; msg_length := 23; msg_id_f := 9 |} in
  (fec m = FecPrefix AF_INET [10; 1; 16; 0; 0; 0; 0; 0;
                              0; 0; 0; 0; 0; 0; 0; 0] 20 /\
   prefix_canonical AF_INET [10; 1; 16; 0; 0; 0; 0; 0;
                             0; 0; 0; 0; 0; 0; 0; 0] 20) /\
  exists bytes,
    fec_tlv_bytes m = Some bytes /\
    tlv_decode_fec_elm msg (skipn 4 bytes ++ [0x02; 0x00; 0; 4; 0; 0; 0; 100])
      (get_u16 bytes 2) map_zero
    = ok (get_u16 bytes 2,
          set_fec map_zero
            (FecPrefix AF_INET [10; 1; 16; 0; 0; 0; 0; 0;
                                0; 0; 0; 0; 0; 0; 0; 0] 20)).
Proof.
  assert (Hc : prefix_canonical AF_INET [10; 1; 16; 0; 0; 0; 0; 0;
                                         0; 0; 0; 0; 0; 0; 0; 0] 20).
  { split; [ left; split; [ reflexivity | vm_compute; discriminate ] | ].
    split; [ lia | ]. split; [ reflexivity | ].
    split; [ repeat constructor; unfold is_byte; lia | reflexivity ]. }
  split; [ split; [ reflexivity | exact Hc ] | ].
  apply (@prefix_fec_round_trip
           {| msg_type_f := 0x0400; msg_length := 23; msg_id_f := 9 |}
           {| msg_id := 0;
              fec := FecPrefix AF_INET [10; 1; 16; 0; 0; 0; 0; 0;
                                        0; 0; 0; 0; 0; 0; 0; 0] 20;
              st := st0; label := 100; requestid := 0; pw_status := 0;
              flags := 0 |}
           map_zero AF_INET
           [10; 1; 16; 0; 0; 0; 0; 0; 0; 0; 0; 0; 0; 0; 0; 0] 20
           [0x02; 0x00; 0; 4; 0; 0; 0; 100] eq_refl Hc).
Defined.

(** ** Bits *)

Lemma testbit_below (x k : Z) : 0 <= x < 2 ^ k -> Z.testbit x k = false.
Proof.
  intros [H0 H1]. destruct (Z.eq_dec x 0) as [-> | Hne]; [ apply Z.bits_0 | ].
  apply Z.bits_above_log2; [ lia | ]. apply Z.log2_lt_pow2; lia.
Qed.

Lemma land_pow2 (f k : Z) :
  0 <= k -> Z.land f (2 ^ k) = if Z.testbit f k then 2 ^ k else 0.
Proof.
  intros Hk. apply Z.bits_inj'. intros i Hi.
  rewrite Z.land_spec, Z.pow2_bits_eqb by lia.
  destruct (Z.eqb_spec k i) as [-> | Hne].
  - rewrite andb_true_r. destruct (Z.testbit f i) eqn:E.
    + now rewrite Z.pow2_bits_true.
    + now rewrite Z.bits_0.
  - rewrite andb_false_r. destruct (Z.testbit f k).
    + now rewrite Z.pow2_bits_false.
    + now rewrite Z.bits_0.
Qed.

Lemma has_flag_pow2 (f k : Z) : 0 <= k -> has_flag f (2 ^ k) = Z.testbit f k.
Proof.
  intros Hk. unfold has_flag. rewrite land_pow2 by lia.
  destruct (Z.testbit f k); [ | reflexivity ].
  assert (0 < 2 ^ k) by (apply Z.pow_pos_nonneg; lia).
  destruct (Z.eqb_spec (2 ^ k) 0); [ lia | reflexivity ].
Qed.

Lemma lor_pow2_above (x k : Z) :
  0 <= k -> 0 <= x < 2 ^ k -> Z.lor x (2 ^ k) = x + 2 ^ k.
Proof.
  intros Hk Hx. pose proof (Z.add_lor_land x (2 ^ k)) as H.
  rewrite land_pow2, (@testbit_below x k Hx) in H by lia. lia.
Qed.

Lemma clear_pow2 (x k : Z) :
  0 <= k -> 0 <= x < 2 ^ k -> Z.land (Z.lor x (2 ^ k)) (Z.lnot (2 ^ k)) = x.
Proof.
  intros Hk Hx. apply Z.bits_inj'. intros i Hi.
  rewrite Z.land_spec, Z.lor_spec, Z.lnot_spec, Z.pow2_bits_eqb by lia.
  destruct (Z.eqb_spec k i) as [-> | Hne].
  - rewrite (@testbit_below x i Hx). reflexivity.
  - now rewrite orb_false_r, andb_true_r.
Qed.

Lemma has_flag_set (x k : Z) :
  0 <= k -> has_flag (Z.lor x (2 ^ k)) (2 ^ k) = true.
Proof.
  intros Hk. rewrite has_flag_pow2, Z.lor_spec, Z.pow2_bits_true by lia.
  apply orb_true_r.
Qed.

Lemma has_flag_below (x k : Z) :
  0 <= k -> 0 <= x < 2 ^ k -> has_flag x (2 ^ k) = false.
Proof.
  intros Hk Hx. rewrite has_flag_pow2 by lia. now apply testbit_below.
Qed.

(** The flag bits of the FEC element, read off a record's flags. *)
Lemma land_fec_flags (f : Z) :
  Z.land f FEC_FLAGS =
  (if has_flag f F_MAP_PW_CWORD then F_MAP_PW_CWORD else 0)
  + (if has_flag f F_MAP_PW_ID then F_MAP_PW_ID else 0)
  + (if has_flag f F_MAP_PW_IFMTU then F_MAP_PW_IFMTU else 0).
Proof.
  unfold FEC_FLAGS. rewrite !Z.land_lor_distr_r.
  change F_MAP_PW_CWORD with (2 ^ 2). change F_MAP_PW_ID with (2 ^ 3).
  change F_MAP_PW_IFMTU with (2 ^ 4).
  rewrite !has_flag_pow2, !land_pow2 by lia.
  destruct (Z.testbit f 2), (Z.testbit f 3), (Z.testbit f 4); reflexivity.
Qed.

(** ** Encoding and decoding: pseudowires *)

Lemma control_word_coding (c : bool) (pw_type : Z) :
  0 <= pw_type < CONTROL_WORD_FLAG ->
  let pw' := if c then Z.lor pw_type CONTROL_WORD_FLAG else pw_type in
  0 <= pw' < 65536 /\
  has_flag pw' CONTROL_WORD_FLAG = c /\
  (if c then Z.land pw' (Z.lnot CONTROL_WORD_FLAG) else pw') = pw_type.
Proof.
  change CONTROL_WORD_FLAG with (2 ^ 15). intros H. destruct c; cbv zeta.
  - rewrite has_flag_set, clear_pow2, lor_pow2_above by lia.
    change (2 ^ 15) with 32768 in *. repeat split; lia.
  - rewrite has_flag_below by lia.
    change (2 ^ 15) with 32768 in *. repeat split; lia.
Qed.

Ltac closed_ifs :=
  repeat match goal with
         | |- context [if ?b then _ else _] =>
             let b' := eval vm_compute in b in
             match b' with
             | true => change b with true
             | false => change b with false
             end; cbv iota
         end.

Ltac pwid_offsets :=
  change (1 + 2 + 1 + 4 + 4) with 12; change (1 + 2 + 1 + 4) with 8;
  change (1 + 2 + 1) with 4; change (1 + 2) with 3.

Lemma subtlv_loop_end (fuel : nat) (msg : ldp_msg) (buf : list Z) (off : Z)
    (m : map) :
  subtlv_loop fuel msg buf off 0 m = ok (off, m).
Proof. destruct fuel; reflexivity. Qed.

(** A round of the sub-TLV loop over an interface-MTU sub-TLV that is
    the last of the element. *)
Lemma subtlv_loop_ifmtu (fuel : nat) (msg : ldp_msg) (buf : list Z) (off : Z)
    (m : map) :
  byte_at buf off = SUBTLV_IFMTU ->
  byte_at buf (off + 1) = FEC_SUBTLV_IFMTU_SIZE ->
  0 <= off < 65532 ->
  subtlv_loop (S fuel) msg buf off 4 m =
  ok (off + 4,
      set_flags (set_fec m (set_pwid_ifmtu (fec m)
                              (get_u16 buf (off + SUBTLV_HDR_SIZE))))
        (Z.lor (flags m) F_MAP_PW_IFMTU)).
Proof.
  intros H0 H1 Hoff. cbn [subtlv_loop]. rewrite H0, H1.
  closed_ifs.
  change (u8 (4 - FEC_SUBTLV_IFMTU_SIZE)) with 0.
  rewrite subtlv_loop_end. unfold FEC_SUBTLV_IFMTU_SIZE.
  now rewrite u16_small by lia.
Qed.

(** The decoder on a pseudowire element, given what it reads. *)
Lemma decode_pwid_reads (msg : ldp_msg) (buf : list Z) (m0 : map) (c : bool)
    (pw' pw_type gid : Z) :
  byte_at buf 0 = MAP_TYPE_PWID ->
  get_u16 buf 1 = pw' ->
  has_flag pw' CONTROL_WORD_FLAG = c ->
  (if c then Z.land pw' (Z.lnot CONTROL_WORD_FLAG) else pw') = pw_type ->
  get_u32 buf 4 = gid ->
  flags m0 = 0 ->
  (byte_at buf 3 = 0 ->
   tlv_decode_fec_elm msg buf 8 m0
   = ok (8, set_flags (set_fec m0 (FecPwid pw_type 0 gid 0))
              (if c then F_MAP_PW_CWORD else 0))) /\
  (byte_at buf 3 = 4 ->
   tlv_decode_fec_elm msg buf 12 m0
   = ok (12, set_flags (set_fec m0 (FecPwid pw_type (get_u32 buf 8) gid 0))
               ((if c then F_MAP_PW_CWORD else 0) + F_MAP_PW_ID))) /\
  (byte_at buf 3 = 8 ->
   byte_at buf 12 = SUBTLV_IFMTU ->
   byte_at buf 13 = FEC_SUBTLV_IFMTU_SIZE ->
   tlv_decode_fec_elm msg buf 16 m0
   = ok (16, set_flags (set_fec m0 (FecPwid pw_type (get_u32 buf 8) gid
                                      (get_u16 buf 14)))
               ((if c then F_MAP_PW_CWORD else 0) + F_MAP_PW_ID
                + F_MAP_PW_IFMTU))).
Proof.
  intros R0 R1 P2 P3 R4 Hf0.
  split; [ | split ].
  - intros R3. unfold tlv_decode_fec_elm. pwid_offsets.
    rewrite R0, R1, R3, R4, P2, P3. closed_ifs.
    unfold ok. do 2 f_equal. unfold set_flags, set_fec.
    destruct c; cbn [msg_id fec st label requestid pw_status flags];
      rewrite ?Hf0; reflexivity.
  - intros R3. unfold tlv_decode_fec_elm. pwid_offsets.
    rewrite R0, R1, R3, R4, P2, P3. closed_ifs.
    change (u8 (4 - 4)) with 0. rewrite subtlv_loop_end.
    unfold ok. do 2 f_equal. unfold set_flags, set_fec.
    destruct c; cbn [msg_id fec st label requestid pw_status flags];
      rewrite ?Hf0; reflexivity.
  - intros R3 R12 R13. unfold tlv_decode_fec_elm. pwid_offsets.
    rewrite R0, R1, R3, R4, P2, P3. closed_ifs.
    change (u8 (8 - 4)) with 4. change 256%nat with (S 255).
    rewrite subtlv_loop_ifmtu by (assumption || lia).
    unfold ok. do 2 f_equal. unfold set_flags, set_fec, set_pwid_ifmtu.
    destruct c; cbn [msg_id fec st label requestid pw_status flags];
      rewrite ?Hf0; reflexivity.
Qed.

(** What [gen_fec_tlv] writes for a pseudowire record: a TLV header and
    an element that the decoder, given any bytes behind it, turns back
    into the pseudowire with the record's control-word, identifier and
    MTU flags. *)
Lemma pwid_fec_chunks (m : map) (pw_type pwid gid ifmtu : Z) :
  fec m = FecPwid pw_type pwid gid ifmtu ->
  pwid_canonical (flags m) pw_type pwid gid ifmtu ->
  exists cs elem,
    fec_chunks m = Some cs /\
    concat cs = put_u16 TLV_TYPE_FEC ++ put_u16 (Z.of_nat (length elem))
                ++ elem /\
    8 <= Z.of_nat (length elem) <= 16 /\
    forall (msg : ldp_msg) (m0 : map) (rest : list Z),
      flags m0 = 0 ->
      tlv_decode_fec_elm msg (elem ++ rest) (Z.of_nat (length elem)) m0
      = ok (Z.of_nat (length elem),
            set_flags (set_fec m0 (FecPwid pw_type pwid gid ifmtu))
              (Z.land (flags m) FEC_FLAGS)).
Proof.
  intros Hfec (Hpt & Hg & Hid & Hmtu).
  destruct (control_word_coding (has_flag (flags m) F_MAP_PW_CWORD) Hpt)
    as (P1 & P2 & P3).
  pose proof (land_fec_flags (flags m)) as Hland.
  set (c := has_flag (flags m) F_MAP_PW_CWORD) in *.
  set (pw' := if c then Z.lor pw_type CONTROL_WORD_FLAG else pw_type) in *.
  unfold fec_chunks, map_type. rewrite Hfec. fold c. fold pw'.
  destruct (has_flag (flags m) F_MAP_PW_ID) eqn:Eid;
    destruct (has_flag (flags m) F_MAP_PW_IFMTU) eqn:Emtu.
  - (* identifier and interface MTU *)
    eexists.
    exists ([MAP_TYPE_PWID] ++ put_u16 pw' ++ [8] ++ put_u32 gid
            ++ put_u32 pwid ++ [SUBTLV_IFMTU; 4] ++ put_u16 ifmtu).
    split; [ reflexivity | ]. split; [ reflexivity | ].
    match goal with
    | |- context [Z.of_nat (length ?e)] => change (Z.of_nat (length e)) with 16
    end.
    split; [ lia | ]. intros msg m0 rest Hf0. rewrite Hland.
    set (buf := _ ++ rest).
    assert (R1 : get_u16 buf 1 = pw').
    { change (get_u16 buf 1)
        with (get_u16 (put_u16 pw' ++ [8] ++ put_u32 gid
                ++ put_u32 pwid ++ [SUBTLV_IFMTU; 4] ++ put_u16 ifmtu
                ++ rest) 0).
      now rewrite get_u16_put_u16, u16_small. }
    assert (R4 : get_u32 buf 4 = gid).
    { change (get_u32 buf 4)
        with (get_u32 (put_u32 gid
                ++ put_u32 pwid ++ [SUBTLV_IFMTU; 4] ++ put_u16 ifmtu
                ++ rest) 0).
      rewrite get_u32_put_u32. unfold u32. now rewrite Z.mod_small. }
    assert (R8 : get_u32 buf 8 = pwid).
    { change (get_u32 buf 8)
        with (get_u32 (put_u32 pwid ++ [SUBTLV_IFMTU; 4] ++ put_u16 ifmtu
                ++ rest) 0).
      rewrite get_u32_put_u32. unfold u32. now rewrite Z.mod_small. }
    assert (R14 : get_u16 buf 14 = ifmtu).
    { change (get_u16 buf 14) with (get_u16 (put_u16 ifmtu ++ rest) 0).
      now rewrite get_u16_put_u16, u16_small. }
    destruct (@decode_pwid_reads msg buf m0 c pw' pw_type gid
                eq_refl R1 P2 P3 R4 Hf0) as (_ & _ & H).
    rewrite (H eq_refl eq_refl eq_refl), R8, R14. reflexivity.
  - (* identifier, no interface MTU *)
    subst ifmtu.
    eexists.
    exists ([MAP_TYPE_PWID] ++ put_u16 pw' ++ [4] ++ put_u32 gid
            ++ put_u32 pwid).
    split; [ reflexivity | ]. split; [ reflexivity | ].
    match goal with
    | |- context [Z.of_nat (length ?e)] => change (Z.of_nat (length e)) with 12
    end.
    split; [ lia | ]. intros msg m0 rest Hf0. rewrite Hland.
    set (buf := _ ++ rest).
    assert (R1 : get_u16 buf 1 = pw').
    { change (get_u16 buf 1)
        with (get_u16 (put_u16 pw' ++ [4] ++ put_u32 gid
                ++ put_u32 pwid ++ rest) 0).
      now rewrite get_u16_put_u16, u16_small. }
    assert (R4 : get_u32 buf 4 = gid).
    { change (get_u32 buf 4)
        with (get_u32 (put_u32 gid ++ put_u32 pwid ++ rest) 0).
      rewrite get_u32_put_u32. unfold u32. now rewrite Z.mod_small. }
    assert (R8 : get_u32 buf 8 = pwid).
    { change (get_u32 buf 8) with (get_u32 (put_u32 pwid ++ rest) 0).
      rewrite get_u32_put_u32. unfold u32. now rewrite Z.mod_small. }
    destruct (@decode_pwid_reads msg buf m0 c pw' pw_type gid
                eq_refl R1 P2 P3 R4 Hf0) as (_ & H & _).
    rewrite (H eq_refl), R8, Z.add_0_r. reflexivity.
  - (* an interface MTU without an identifier is ruled out *)
    destruct Hid as (_ & Hid). discriminate Hid.
  - (* neither *)
    destruct Hid as (-> & _). subst ifmtu.
    eexists.
    exists ([MAP_TYPE_PWID] ++ put_u16 pw' ++ [0] ++ put_u32 gid).
    split; [ reflexivity | ]. split; [ reflexivity | ].
    match goal with
    | |- context [Z.of_nat (length ?e)] => change (Z.of_nat (length e)) with 8
    end.
    split; [ lia | ]. intros msg m0 rest Hf0. rewrite Hland.
    set (buf := _ ++ rest).
    assert (R1 : get_u16 buf 1 = pw').
    { change (get_u16 buf 1)
        with (get_u16 (put_u16 pw' ++ [0] ++ put_u32 gid ++ rest) 0).
      now rewrite get_u16_put_u16, u16_small. }
    assert (R4 : get_u32 buf 4 = gid).
    { change (get_u32 buf 4) with (get_u32 (put_u32 gid ++ rest) 0).
      rewrite get_u32_put_u32. unfold u32. now rewrite Z.mod_small. }
    destruct (@decode_pwid_reads msg buf m0 c pw' pw_type gid
                eq_refl R1 P2 P3 R4 Hf0) as (H & _ & _).
    rewrite (H eq_refl), !Z.add_0_r. reflexivity.
Qed.

(** X7 (pseudowire round trip): what [gen_fec_tlv] writes for a
    pseudowire record is decoded by [tlv_decode_fec_elm], given the
    bytes behind the TLV header, the length the header states and a
    cleared record, into the same pseudowire type, identifiers and
    interface MTU, with exactly the record's control-word, identifier
    and MTU flags; the element is consumed whole and nothing is
    logged. *)
Theorem pwid_fec_round_trip :
  forall (msg : ldp_msg) (m m0 : map) (pw_type pwid gid ifmtu : Z)
         (rest : list Z),
    fec m = FecPwid pw_type pwid gid ifmtu ->
    pwid_canonical (flags m) pw_type pwid gid ifmtu ->
    flags m0 = 0 ->
    exists bytes,
      fec_tlv_bytes m = Some bytes /\
      tlv_decode_fec_elm msg (skipn 4 bytes ++ rest) (get_u16 bytes 2) m0
      = ok (get_u16 bytes 2,
            set_flags (set_fec m0 (FecPwid pw_type pwid gid ifmtu))
              (Z.land (flags m) FEC_FLAGS)).
Proof.
  intros msg m m0 pw_type pwid gid ifmtu rest Hfec Hcan Hf0.
  destruct (pwid_fec_chunks m Hfec Hcan)
    as (cs & elem & Hcs & Hcat & Hlen & Hdec).
  assert (Hbyte : prefixlen_is_byte m)
    by (unfold prefixlen_is_byte; now rewrite Hfec).
  rewrite (fec_tlv_bytes_chunks m Hbyte), Hcs.
  exists (concat cs). split; [ reflexivity | ].
  rewrite Hcat.
  destruct (get_u16_tlv_hdr TLV_TYPE_FEC (Z.of_nat (length elem)) elem)
    as (_ & H2).
  rewrite H2, u16_small by lia.
  change (skipn 4 (put_u16 TLV_TYPE_FEC ++ put_u16 (Z.of_nat (length elem))
                   ++ elem)) with elem.
  now apply Hdec.
Qed.

Lemma pwid_fec_round_trip_witness :
  (fec pw_77 = FecPwid 5 77 1 1500 /\
   pwid_canonical (flags pw_77) 5 77 1 1500 /\
   flags map_zero = 0) /\
  exists bytes,
    fec_tlv_bytes pw_77 = Some bytes /\
    tlv_decode_fec_elm msg_9 (skipn 4 bytes ++ [0x02; 0x00])
      (get_u16 bytes 2) map_zero
    = ok (get_u16 bytes 2,
          set_flags (set_fec map_zero (FecPwid 5 77 1 1500))
            (Z.land (flags pw_77) FEC_FLAGS)).
Proof.
  assert (Hc : pwid_canonical (flags pw_77) 5 77 1 1500).
  { vm_compute. repeat split; discriminate. }
  split; [ split; [ reflexivity | split; [ exact Hc | reflexivity ] ] | ].
  apply (@pwid_fec_round_trip msg_9 pw_77 map_zero 5 77 1 1500 [0x02; 0x00]
           eq_refl Hc eq_refl).
Defined.

(** ** Encoding and decoding: wildcards *)

Lemma land_lnot_pow2_below (x k : Z) :
  0 <= k -> 0 <= x < 2 ^ k -> Z.land x (Z.lnot (2 ^ k)) = x.
Proof.
  intros Hk Hx. apply Z.bits_inj'. intros i Hi.
  rewrite Z.land_spec, Z.lnot_spec, Z.pow2_bits_eqb by lia.
  destruct (Z.eqb_spec k i) as [-> | Hne].
  - rewrite (@testbit_below x i Hx). reflexivity.
  - now rewrite andb_true_r.
Qed.

(** What [gen_fec_tlv] writes for a wildcard or a typed wildcard: a
    TLV header and an element that the decoder, given any bytes behind
    it, turns back into the same FEC. *)
Lemma wildcard_fec_chunks (m : map) :
  wildcard_canonical (fec m) ->
  exists cs elem,
    fec_chunks m = Some cs /\
    concat cs = put_u16 TLV_TYPE_FEC ++ put_u16 (Z.of_nat (length elem))
                ++ elem /\
    1 <= Z.of_nat (length elem) <= 5 /\
    forall (msg : ldp_msg) (m0 : map) (rest : list Z),
      tlv_decode_fec_elm msg (elem ++ rest) (Z.of_nat (length elem)) m0
      = ok (Z.of_nat (length elem), set_fec m0 (fec m)).
Proof.
  intros Hc. unfold fec_chunks, map_type.
  destruct (fec m) as [ | af prefix plen | pw_type pwid gid ifmtu | tw u];
    try destruct Hc.
  - eexists. exists [MAP_TYPE_WILDCARD].
    split; [ reflexivity | ]. split; [ reflexivity | ].
    split; [ cbn [length]; lia | ]. intros msg m0 rest. reflexivity.
  - destruct H as (-> & [-> | ->]).
    + eexists.
      exists ([MAP_TYPE_TYPED_WCARD; MAP_TYPE_PREFIX; 2] ++ put_u16 AF_IPV4).
      split; [ reflexivity | ]. split; [ reflexivity | ].
      split; [ cbn [length app put_u16]; lia | ].
      intros msg m0 rest. reflexivity.
    + eexists.
      exists ([MAP_TYPE_TYPED_WCARD; MAP_TYPE_PREFIX; 2] ++ put_u16 AF_IPV6).
      split; [ reflexivity | ]. split; [ reflexivity | ].
      split; [ cbn [length app put_u16]; lia | ].
      intros msg m0 rest. reflexivity.
  - destruct H as (-> & Hu).
    change (MAP_TYPE_PWID =? MAP_TYPE_PREFIX) with false.
    change ((false || (MAP_TYPE_PWID =? MAP_TYPE_PWID))%bool) with true.
    cbv iota.
    eexists. exists ([MAP_TYPE_TYPED_WCARD; MAP_TYPE_PWID; 2] ++ put_u16 u).
    split; [ reflexivity | ]. split; [ reflexivity | ].
    split; [ cbn [length app put_u16]; lia | ].
    intros msg m0 rest.
    change (Z.of_nat (length ([MAP_TYPE_TYPED_WCARD; MAP_TYPE_PWID; 2]
                              ++ put_u16 u))) with 5.
    set (buf := _ ++ rest).
    assert (R3 : get_u16 buf 3 = u).
    { change (get_u16 buf 3) with (get_u16 (put_u16 u ++ rest) 0).
      rewrite get_u16_put_u16, u16_small; [ reflexivity | ].
      unfold PW_TWCARD_RESERVED_BIT in Hu. lia. }
    assert (R0 : byte_at buf 0 = MAP_TYPE_TYPED_WCARD) by reflexivity.
    assert (R1 : byte_at buf 1 = MAP_TYPE_PWID) by reflexivity.
    assert (R2 : byte_at buf 2 = 2) by reflexivity.
    clearbody buf. unfold tlv_decode_fec_elm.
    change (1 + 1 + 1) with 3. change (1 + 1) with 2.
    rewrite R0, R1, R2, R3. closed_ifs.
    change PW_TWCARD_RESERVED_BIT with (2 ^ 15) in *.
    rewrite land_lnot_pow2_below by lia. reflexivity.
Qed.

(** X8 (wildcard round trip): what [gen_fec_tlv] writes for a wildcard
    record or a typed-wildcard record (for the prefixes of IPv4 or of
    IPv6, or for the pseudowires of a 15-bit type) is decoded by
    [tlv_decode_fec_elm], given the bytes behind the TLV header and the
    length the header states, into the same FEC; the element is
    consumed whole and nothing is logged. *)
Theorem wildcard_fec_round_trip :
  forall (msg : ldp_msg) (m m0 : map) (rest : list Z),
    wildcard_canonical (fec m) ->
    exists bytes,
      fec_tlv_bytes m = Some bytes /\
      tlv_decode_fec_elm msg (skipn 4 bytes ++ rest) (get_u16 bytes 2) m0
      = ok (get_u16 bytes 2, set_fec m0 (fec m)).
Proof.
  intros msg m m0 rest Hc.
  destruct (wildcard_fec_chunks m Hc) as (cs & elem & Hcs & Hcat & Hlen & Hdec).
  assert (Hbyte : prefixlen_is_byte m).
  { unfold prefixlen_is_byte. destruct (fec m); try exact I. destruct Hc. }
  rewrite (fec_tlv_bytes_chunks m Hbyte), Hcs.
  exists (concat cs). split; [ reflexivity | ].
  rewrite Hcat.
  destruct (get_u16_tlv_hdr TLV_TYPE_FEC (Z.of_nat (length elem)) elem)
    as (_ & H2).
  rewrite H2, u16_small by lia.
  change (skipn 4 (put_u16 TLV_TYPE_FEC ++ put_u16 (Z.of_nat (length elem))
                   ++ elem)) with elem.
  apply Hdec.
Qed.

Lemma wildcard_fec_round_trip_witness :
  wildcard_canonical (fec twcard_v6) /\
  exists bytes,
    fec_tlv_bytes twcard_v6 = Some bytes /\
    tlv_decode_fec_elm msg_9 (skipn 4 bytes ++ []) (get_u16 bytes 2) map_zero
    = ok (get_u16 bytes 2, set_fec map_zero (fec twcard_v6)).
Proof.
  assert (Hc : wildcard_canonical (fec twcard_v6)).
  { left. split; [ reflexivity | right; reflexivity ]. }
  split; [ exact Hc | ].
  apply (@wildcard_fec_round_trip msg_9 twcard_v6 map_zero [] Hc).
Defined.

(** ** Receiving: any number of prefix elements *)

Lemma elms_len_nonneg (es : list wire_elm) :
  Forall elm_ok es -> 0 <= elms_len es.
Proof.
  induction 1 as [ | e es He _ IH]; cbn [elms_len]; [ lia | ].
  pose proof (wire_prefix_ok_len He) as (Hp & _). lia.
Qed.

Lemma elms_wire_length (es : list wire_elm) :
  Forall elm_ok es -> Z.of_nat (length (elms_wire es)) = elms_len es.
Proof.
  induction 1 as [ | e es He _ IH]; [ reflexivity | ].
  unfold elms_wire in *. cbn [flat_map elms_len].
  rewrite length_app, Nat2Z.inj_add, IH, (prefix_elm_length He). reflexivity.
Qed.

(** The loop over the FEC elements of a Label Mapping, on a run of
    well-formed prefix elements: one record per element, in the order
    of the elements. *)
Lemma fec_loop_prefixes (msg : ldp_msg) :
  forall (es : list wire_elm) (e : wire_elm) (fuel : nat) (clen : Z)
         (mh : list map) (rest : list Z),
    Forall elm_ok (e :: es) ->
    (length es < fuel)%nat ->
    elms_len (e :: es) <= clen < 65536 ->
    fec_loop fuel msg MSG_TYPE_LABELMAPPING
      {| c_buf := elms_wire (e :: es) ++ rest; c_len := clen |}
      (elms_len (e :: es)) mh
    = ok ({| c_buf := rest; c_len := clen - elms_len (e :: es) |},
          mh ++ List.map (elm_record (msg_id_f msg) 0) (e :: es)).
Proof.
  induction es as [ | e' es IH]; intros e fuel clen mh rest Hok Hfuel Hlen;
    (destruct fuel as [ | fuel]; [ cbn [length] in Hfuel; lia | ]);
    inversion Hok as [ | x xs He Hes]; subst;
    pose proof (wire_prefix_ok_len He) as (Hps & Hl);
    pose proof (elms_len_nonneg Hes) as Hnn;
    pose proof (prefix_elm_length He) as Hel;
    rewrite fec_loop_S; unfold elms_wire; cbn [flat_map elms_len] in *;
    rewrite <- app_assoc;
    rewrite fec_round_prefix by (auto; lia);
    rewrite bind_ok.
  - replace (4 + PREFIX_SIZE (elm_plen e) + 0 - (4 + PREFIX_SIZE (elm_plen e)))
      with 0 by lia.
    change (0 >? 0) with false. cbv iota.
    unfold advance. cbn [c_buf c_len app List.map].
    replace (Z.to_nat (4 + PREFIX_SIZE (elm_plen e)))
      with (length (prefix_elm (elm_family e) (elm_plen e) (elm_bytes e)))
      by lia.
    rewrite skipn_app_len by reflexivity.
    rewrite (u16_small (x := clen - (4 + PREFIX_SIZE (elm_plen e)))) by lia.
    unfold elm_record.
    replace (clen - (4 + PREFIX_SIZE (elm_plen e) + 0))
      with (clen - (4 + PREFIX_SIZE (elm_plen e))) by lia.
    reflexivity.
  - pose proof (wire_prefix_ok_len (Forall_inv Hes)) as (Hps' & _).
    assert (Hpos : (4 + PREFIX_SIZE (elm_plen e)
                    + (4 + PREFIX_SIZE (elm_plen e') + elms_len es)
                    - (4 + PREFIX_SIZE (elm_plen e)) >? 0) = true).
    { apply Z.gtb_lt.
      pose proof (elms_len_nonneg (Forall_inv_tail Hes)). lia. }
    rewrite Hpos.
    unfold advance. cbn [c_buf c_len].
    replace (Z.to_nat (4 + PREFIX_SIZE (elm_plen e)))
      with (length (prefix_elm (elm_family e) (elm_plen e) (elm_bytes e)))
      by lia.
    rewrite skipn_app_len by reflexivity.
    rewrite (u16_small (x := clen - (4 + PREFIX_SIZE (elm_plen e)))) by lia.
    replace (4 + PREFIX_SIZE (elm_plen e)
             + (4 + PREFIX_SIZE (elm_plen e') + elms_len es)
             - (4 + PREFIX_SIZE (elm_plen e)))
      with (4 + PREFIX_SIZE (elm_plen e') + elms_len es) by lia.
    fold (elms_wire es) in *.
    change (prefix_elm (elm_family e') (elm_plen e') (elm_bytes e')
            ++ elms_wire es) with (elms_wire (e' :: es)).
    rewrite (IH e' fuel (clen - (4 + PREFIX_SIZE (elm_plen e)))
               (mh ++ [prefix_record (msg_id_f msg) (elm_family e)
                         (elm_plen e) (elm_bytes e) 0]) rest Hes).
    + rewrite <- app_assoc. cbn [elms_len List.map app]. unfold elm_record.
      replace (clen - (4 + PREFIX_SIZE (elm_plen e))
               - (4 + PREFIX_SIZE (elm_plen e') + elms_len es))
        with (clen - (4 + PREFIX_SIZE (elm_plen e)
                      + (4 + PREFIX_SIZE (elm_plen e') + elms_len es)))
        by lia.
      reflexivity.
    + cbn [length] in Hfuel. lia.
    + cbn [elms_len]. lia.
Qed.

Lemma elms_len_count (es : list wire_elm) :
  Forall elm_ok es -> Z.of_nat (length es) <= elms_len es.
Proof.
  induction 1 as [ | e es He _ IH]; cbn [elms_len length]; [ lia | ].
  pose proof (wire_prefix_ok_len He) as (Hp & _). lia.
Qed.

(** The first stage of [recv_labelmessage] on a Label Mapping whose FEC
    TLV holds well-formed prefix elements. *)
Lemma parse_fec_prefixes (msg : ldp_msg) (hdr : list Z) (es : list wire_elm)
    (rest : list Z) (len restlen : Z) :
  length hdr = 8%nat ->
  es <> [] ->
  Forall elm_ok es ->
  0 <= restlen ->
  len = 12 + elms_len es + restlen ->
  len < 65536 ->
  parse_fec msg
    (hdr ++ put_u16 TLV_TYPE_FEC ++ put_u16 (elms_len es) ++ elms_wire es
     ++ rest)
    len MSG_TYPE_LABELMAPPING =
  ok ({| c_buf := rest; c_len := restlen |},
      List.map (elm_record (msg_id_f msg) 0) es).
Proof.
  intros Hh Hne Hok Hr Hlen Hmax.
  pose proof (elms_len_nonneg Hok) as Hnn.
  pose proof (elms_len_count Hok) as Hcnt.
  set (fl := elms_len es) in *.
  set (buf := hdr ++ put_u16 TLV_TYPE_FEC ++ put_u16 fl ++ elms_wire es
              ++ rest).
  assert (Hfl : 0 <= fl < 65536) by lia.
  assert (Hfeclen : fec_len buf = fl).
  { unfold fec_len, buf. change (Z.to_nat LDP_MSG_SIZE) with 8%nat.
    rewrite (skipn_app_len _ _ Hh).
    destruct (get_u16_tlv_hdr TLV_TYPE_FEC fl (elms_wire es ++ rest))
      as (_ & H2).
    now rewrite H2, (u16_small Hfl). }
  assert (Hstart : fec_start buf len
                   = {| c_buf := elms_wire es ++ rest; c_len := len - 12 |}).
  { unfold fec_start, advance, buf. cbn [c_buf c_len].
    change (Z.to_nat LDP_MSG_SIZE) with 8%nat.
    rewrite (skipn_app_len _ _ Hh).
    change (Z.to_nat TLV_HDR_SIZE) with 4%nat.
    change (skipn 4 (put_u16 TLV_TYPE_FEC ++ put_u16 fl ++ elms_wire es
                     ++ rest))
      with (elms_wire es ++ rest).
    unfold LDP_MSG_SIZE, TLV_HDR_SIZE.
    rewrite (u16_small (x := len - 8)) by lia.
    rewrite (u16_small (x := len - 8 - 4)) by lia.
    apply f_equal. lia. }
  rewrite parse_fec_header_ok.
  2:{ unfold fec_header_ok, advance, buf. cbn [c_buf c_len].
      change (Z.to_nat LDP_MSG_SIZE) with 8%nat.
      rewrite (skipn_app_len _ _ Hh).
      destruct (get_u16_tlv_hdr TLV_TYPE_FEC fl (elms_wire es ++ rest))
        as (H0 & H2).
      rewrite H0, H2, (u16_small Hfl).
      unfold LDP_MSG_SIZE, TLV_HDR_SIZE.
      rewrite (u16_small (x := len - 8)) by lia.
      split; [ lia | split; [ reflexivity | lia ] ]. }
  rewrite Hfeclen, Hstart. clear Hfeclen Hstart. clearbody buf.
  unfold fl in *. clear fl.
  destruct es as [ | e es]; [ contradiction | ].
  rewrite (@fec_loop_prefixes msg es e (S (Z.to_nat (elms_len (e :: es))))
             (len - 12) [] rest Hok).
  - replace (len - 12 - elms_len (e :: es)) with restlen by lia.
    reflexivity.
  - cbn [length] in Hcnt. lia.
  - lia.
Qed.

Lemma finish_record_prefix (o : optvals) (id family plen : Z)
    (bytes : list Z) :
  finish_record o (prefix_record id family plen bytes 0)
  = prefix_record id family plen bytes (o_label o).
Proof. reflexivity. Qed.

(** The last stage of [recv_labelmessage] on the records of well-formed
    prefix elements, for a label that suits them and no optional
    flag. *)
Lemma notify_lde_prefixes (n : nbr) (msg : ldp_msg) (o : optvals) (id : Z) :
  v4_enabled n = true -> v6_enabled n = true ->
  o_flags o = 0 ->
  forall es : list wire_elm,
    Forall elm_ok es ->
    Forall (fun e => label_fits_family (elm_family e) (o_label o)) es ->
    notify_lde n msg MSG_TYPE_LABELMAPPING o (List.map (elm_record id 0) es)
    = (List.map (fun e => EvImsg IMSG_LABEL_MAPPING (peerid n)
                            (elm_record id (o_label o) e)) es,
       Ok tt).
Proof.
  intros H4 H6 Hfl. induction es as [ | e es IH]; intros Hok Hfit.
  - reflexivity.
  - inversion Hok as [ | x xs (Hfam & _) Hes]; subst.
    inversion Hfit as [ | x xs Hf Hfs]; subst.
    cbn [List.map notify_lde]. unfold elm_record at 1.
    rewrite check_record_prefix; auto; [ | tauto ].
    rewrite finish_record_prefix, (IH Hes Hfs). reflexivity.
Qed.

(** X9 (order of decode): a Label Mapping message whose FEC TLV holds
    any number (at least one) of well-formed prefix elements, followed
    by a Generic Label TLV with a label that is within bounds and suits
    the family of every element, is decoded - for a neighbour with both families
    enabled - into one record per element, handed to the
    label-distribution engine in the order of the elements, each with
    the label and the identifier of the message; the decode returns
    success. *)
Theorem prefixes_decoded_in_order :
  forall (n : nbr) (hdr : list Z) (es : list wire_elm) (label : Z),
    let buf := prefix_mapping hdr es label in
    let id := msg_id_f (read_msg buf) in
    length hdr = 8%nat ->
    es <> [] ->
    Forall elm_ok es ->
    elms_len es < 65000 ->
    0 <= label < 4294967296 ->
    ~ label_out_of_bounds label ->
    Forall (fun e => label_fits_family (elm_family e) label) es ->
    v4_enabled n = true -> v6_enabled n = true ->
    recv_labelmessage n buf (Z.of_nat (length buf)) MSG_TYPE_LABELMAPPING =
    (List.map (fun e => EvImsg IMSG_LABEL_MAPPING (peerid n)
                          (elm_record id label e)) es,
     Ok tt).
Proof.
  intros n hdr es label buf id Hh Hne Hok Hsmall Hlab Hin Hfit H4 H6.
  pose proof (elms_len_nonneg Hok) as Hnn.
  pose proof (elms_wire_length Hok) as Hwl.
  assert (Hlen : Z.of_nat (length buf) = 12 + elms_len es + 8).
  { unfold buf, prefix_mapping. rewrite !length_app, !Nat2Z.inj_add, Hwl, Hh.
    unfold label_tlv, put_u16, put_u32. cbn [length app]. lia. }
  unfold recv_labelmessage. fold id.
  unfold buf at 2. unfold prefix_mapping.
  rewrite (@parse_fec_prefixes (read_msg buf) hdr es (label_tlv label)
             (Z.of_nat (length buf)) 8 Hh Hne Hok) by lia.
  rewrite bind_ok. cbn [c_len]. change (Z.to_nat 8) with 8%nat.
  rewrite opt_loop_S by (cbn [c_len]; lia).
  rewrite <- (app_nil_r (label_tlv label)).
  rewrite (@opt_round_label (read_msg buf) MSG_TYPE_LABELMAPPING label [] 8
             optvals_init (or_introl eq_refl) Hlab
             (label_in_bounds_valid Hin)) by lia.
  rewrite bind_ok, opt_loop_done by (cbn [c_len]; lia).
  rewrite bind_ok.
  apply (@notify_lde_prefixes n (read_msg buf)
           {| o_label := label; o_reqid := o_reqid optvals_init;
              o_pw_status := o_pw_status optvals_init;
              o_flags := o_flags optvals_init;
              o_current_tlv := u16 (o_current_tlv optvals_init + 1) |}
           id H4 H6 eq_refl es Hok Hfit).
Qed.

Lemma three_elms_ok : Forall elm_ok three_elms.
Proof.
  unfold three_elms.
  constructor; [ | constructor; [ | constructor; [ | constructor ] ] ];
    unfold elm_ok, wire_prefix_ok;
    cbn [elm_family elm_plen elm_bytes fst snd];
    (split;
     [ | split; [ lia | split; [ reflexivity
                               | repeat constructor; unfold is_byte; lia ] ] ]).
  - left. split; [ reflexivity | vm_compute; discriminate ].
  - right. split; [ reflexivity | vm_compute; discriminate ].
  - left. split; [ reflexivity | vm_compute; discriminate ].
Qed.

Lemma prefixes_decoded_in_order_witness :
  (length hdr_three = 8%nat /\
   three_elms <> [] /\
   Forall elm_ok three_elms /\
   elms_len three_elms < 65000 /\
   0 <= 100 < 4294967296 /\
   ~ label_out_of_bounds 100 /\
   Forall (fun e => label_fits_family (elm_family e) 100) three_elms /\
   v4_enabled nbr0 = true /\ v6_enabled nbr0 = true) /\
  recv_labelmessage nbr0 (prefix_mapping hdr_three three_elms 100)
    (Z.of_nat (length (prefix_mapping hdr_three three_elms 100)))
    MSG_TYPE_LABELMAPPING =
  (List.map (fun e => EvImsg IMSG_LABEL_MAPPING (peerid nbr0)
                        (elm_record
                           (msg_id_f (read_msg
                              (prefix_mapping hdr_three three_elms 100)))
                           100 e))
     three_elms,
   Ok tt).
Proof.
  assert (Hne : three_elms <> []) by discriminate.
  assert (Hlen : elms_len three_elms < 65000) by reflexivity.
  assert (Hlab : 0 <= 100 < 4294967296) by lia.
  assert (Hin : ~ label_out_of_bounds 100).
  { unfold label_out_of_bounds, MPLS_LABEL_MAX, MPLS_LABEL_RESERVED_MAX.
    lia. }
  assert (Hfit : Forall (fun e => label_fits_family (elm_family e) 100)
                   three_elms).
  { repeat constructor; intros _ H; discriminate H. }
  split.
  - split; [ reflexivity | ]. split; [ exact Hne | ].
    split; [ exact three_elms_ok | ]. split; [ exact Hlen | ].
    split; [ exact Hlab | ]. split; [ exact Hin | ].
    split; [ exact Hfit | ]. split; reflexivity.
  - apply (@prefixes_decoded_in_order nbr0 hdr_three three_elms 100
             eq_refl Hne three_elms_ok Hlen Hlab Hin Hfit eq_refl eq_refl).
Defined.

(** ** Receiving: the optional TLVs one by one *)

(** A round over a TLV that lies whole within the message: the header
    is read, the check on the first TLV of a Label Mapping is made, the
    [switch] sees the type, the length and the value, and the cursor
    moves behind the TLV. *)
Lemma opt_round_tlv (msg : ldp_msg) (type t : Z) (value rest : list Z)
    (len : Z) (o : optvals) :
  0 <= t < 65536 ->
  4 + Z.of_nat (length value) <= len < 65536 ->
  opt_round msg type
    {| c_buf := put_u16 t ++ put_u16 (Z.of_nat (length value)) ++ value
                ++ rest;
       c_len := len |} o =
  if (o_current_tlv o =? 1) && (type =? MSG_TYPE_LABELMAPPING) &&
     negb (has_flag t TLV_TYPE_GENERICLABEL)
  then notification S_MISS_MSG msg
  else
    bind (opt_switch msg type t (Z.of_nat (length value)) (value ++ rest) o)
      (fun o' => ok ({| c_buf := rest;
                        c_len := len - 4 - Z.of_nat (length value) |},
                     next_tlv o')).
Proof.
  intros Ht Hlen. unfold opt_round. cbn [c_len c_buf].
  destruct (get_u16_tlv_hdr t (Z.of_nat (length value)) (value ++ rest))
    as (H0 & H2).
  rewrite H0, H2, (u16_small Ht).
  rewrite (u16_small (x := Z.of_nat (length value))) by lia.
  unfold TLV_HDR_SIZE.
  destruct (len <? 4) eqn:E1; [ apply Z.ltb_lt in E1; lia | ].
  destruct (Z.of_nat (length value) + 4 >? len) eqn:E2;
    [ apply Zgtb_true in E2; lia | ].
  replace (advance (advance
             {| c_buf := put_u16 t ++ put_u16 (Z.of_nat (length value))
                         ++ value ++ rest;
                c_len := len |} 4) (Z.of_nat (length value)))
    with {| c_buf := rest; c_len := len - 4 - Z.of_nat (length value) |}.
  - reflexivity.
  - unfold advance. cbn [c_buf c_len].
    change (skipn (Z.to_nat 4)
              (put_u16 t ++ put_u16 (Z.of_nat (length value)) ++ value
               ++ rest))
      with (value ++ rest).
    rewrite Nat2Z.id, skipn_app_len by reflexivity.
    rewrite (u16_small (x := len - 4)) by lia.
    rewrite u16_small by lia. reflexivity.
Qed.

(** The Label Request Message ID TLV in a Label Mapping or a Label
    Request: the identifier is kept and its flag is set. *)
Lemma opt_round_reqid (msg : ldp_msg) (type reqid : Z) (rest : list Z)
    (len : Z) (o : optvals) :
  type = MSG_TYPE_LABELMAPPING \/ type = MSG_TYPE_LABELREQUEST ->
  0 <= reqid < 4294967296 ->
  8 <= len < 65536 ->
  opt_round msg type {| c_buf := reqid_tlv reqid ++ rest; c_len := len |} o =
  ok ({| c_buf := rest; c_len := len - 8 |},
      {| o_label := o_label o; o_reqid := reqid;
         o_pw_status := o_pw_status o;
         o_flags := Z.lor (o_flags o) F_MAP_REQ_ID;
         o_current_tlv := u16 (o_current_tlv o + 1) |}).
Proof.
  intros Hty Hr Hlen. unfold reqid_tlv. rewrite <- !app_assoc.
  change REQID_TLV_LEN with (Z.of_nat (length (put_u32 reqid))).
  rewrite opt_round_tlv
    by (try (vm_compute; split; congruence);
        change (Z.of_nat (length (put_u32 reqid))) with 4; lia).
  change (has_flag TLV_TYPE_LABELREQUEST TLV_TYPE_GENERICLABEL) with true.
  rewrite andb_false_r.
  unfold opt_switch.
  change (TLV_TYPE_LABELREQUEST =? TLV_TYPE_LABELREQUEST) with true.
  assert (Hty' : (type =? MSG_TYPE_LABELMAPPING)
                 || (type =? MSG_TYPE_LABELREQUEST) = true).
  { destruct Hty as [-> | ->]; reflexivity. }
  cbv iota. rewrite Hty'.
  change (Z.of_nat (length (put_u32 reqid))) with 4.
  change (negb (4 =? REQID_TLV_LEN)) with false. cbv iota.
  rewrite get_u32_put_u32. unfold u32. rewrite Z.mod_small by lia.
  rewrite bind_ok. unfold next_tlv. cbn [o_label o_reqid o_pw_status o_flags
                                         o_current_tlv].
  replace (len - 4 - 4) with (len - 8) by lia. reflexivity.
Qed.

(** The Status TLV: its length is checked and it is skipped. *)
Lemma opt_round_status (msg : ldp_msg) (type : Z) (s : map_status)
    (rest : list Z) (len : Z) (o : optvals) :
  14 <= len < 65536 ->
  opt_round msg type {| c_buf := status_tlv s ++ rest; c_len := len |} o =
  ok ({| c_buf := rest; c_len := len - 14 |}, next_tlv o).
Proof.
  intros Hlen. unfold status_tlv.
  replace ((put_u16 TLV_TYPE_STATUS ++ put_u16 STATUS_TLV_LEN
            ++ put_u32 (status_code s) ++ put_u32 (st_msg_id s)
            ++ put_u16 (st_msg_type s)) ++ rest)
    with (put_u16 TLV_TYPE_STATUS
          ++ put_u16 (Z.of_nat (length (put_u32 (status_code s)
                                        ++ put_u32 (st_msg_id s)
                                        ++ put_u16 (st_msg_type s))))
          ++ (put_u32 (status_code s) ++ put_u32 (st_msg_id s)
              ++ put_u16 (st_msg_type s)) ++ rest)
    by (rewrite <- !app_assoc; reflexivity).
  rewrite opt_round_tlv
    by (try (vm_compute; split; congruence);
        change (Z.of_nat (length (put_u32 (status_code s)
                                  ++ put_u32 (st_msg_id s)
                                  ++ put_u16 (st_msg_type s)))) with 10;
        lia).
  change (has_flag TLV_TYPE_STATUS TLV_TYPE_GENERICLABEL) with true.
  rewrite andb_false_r.
  unfold opt_switch.
  change (Z.of_nat (length (put_u32 (status_code s)
                            ++ put_u32 (st_msg_id s)
                            ++ put_u16 (st_msg_type s)))) with 10.
  closed_ifs. rewrite bind_ok.
  replace (len - 4 - 10) with (len - 14) by lia. reflexivity.
Qed.

(** ** Encoding and decoding: a whole message *)

Lemma label_valid_range (l : Z) :
  label_invalid l = false -> 0 <= l <= MPLS_LABEL_MAX.
Proof.
  unfold label_invalid, MPLS_LABEL_MAX, MPLS_LABEL_RESERVED_MAX,
    MPLS_LABEL_IPV4_EXPLICIT_NULL, MPLS_LABEL_IPV6_EXPLICIT_NULL,
    MPLS_LABEL_IMPLICIT_NULL.
  intros H. apply orb_false_iff in H. destruct H as [H1 H2].
  apply Zgtb_false in H1.
  destruct (Z.leb_spec l 15) as [Hle | Hgt]; [ | lia ].
  destruct (Z.eqb_spec l 0), (Z.eqb_spec l 2), (Z.eqb_spec l 3);
    try discriminate H2; lia.
Qed.

Lemma opt_chunks_concat (me : map) :
  concat (opt_chunks me) =
  (if negb (label me =? NO_LABEL) then label_tlv (label me) else [])
  ++ (if has_flag (flags me) F_MAP_REQ_ID
      then reqid_tlv (requestid me) else [])
  ++ (if has_flag (flags me) F_MAP_PW_STATUS
      then pw_status_tlv (pw_status me) else [])
  ++ (if has_flag (flags me) F_MAP_STATUS then status_tlv (st me) else []).
Proof.
  unfold opt_chunks.
  destruct (negb (label me =? NO_LABEL)), (has_flag (flags me) F_MAP_REQ_ID),
    (has_flag (flags me) F_MAP_PW_STATUS), (has_flag (flags me) F_MAP_STATUS);
    reflexivity.
Qed.

Lemma land_req_id (f : Z) :
  Z.land f F_MAP_REQ_ID = if has_flag f F_MAP_REQ_ID then F_MAP_REQ_ID else 0.
Proof.
  change F_MAP_REQ_ID with (2 ^ 0).
  rewrite has_flag_pow2, land_pow2 by lia. reflexivity.
Qed.

(** What [gen_fec_tlv] writes for a prefix record, as a prefix element
    on the wire, and the record the decoder builds for that element. *)
Lemma prefix_fec_chunks (m : map) (af : Z) (prefix : list Z) (plen : Z) :
  fec m = FecPrefix af prefix plen ->
  prefix_canonical af prefix plen ->
  exists fam cs,
    fec_chunks m = Some cs /\
    concat cs = put_u16 TLV_TYPE_FEC ++ put_u16 (4 + PREFIX_SIZE plen)
                ++ prefix_elm fam plen
                     (firstn (Z.to_nat (PREFIX_SIZE plen)) prefix) /\
    wire_prefix_ok fam plen (firstn (Z.to_nat (PREFIX_SIZE plen)) prefix) /\
    (fam = AF_IPV4 /\ af = AF_INET \/ fam = AF_IPV6 /\ af = AF_INET6) /\
    forall id label,
      prefix_record id fam plen
        (firstn (Z.to_nat (PREFIX_SIZE plen)) prefix) label
      = {| msg_id := id; fec := FecPrefix af prefix plen; st := st0;
           label := label; requestid := 0; pw_status := 0; flags := 0 |}.
Proof.
  intros Hfec (Haf & Hpos & Hlen & Hbytes & Hmask).
  assert (Hpl : 0 <= plen <= 128)
    by (unfold IPV4_MAX_BITLEN, IPV6_MAX_BITLEN in Haf;
        destruct Haf as [[_ H] | [_ H]]; lia).
  assert (Hps : 0 <= PREFIX_SIZE plen <= 16)
    by (unfold PREFIX_SIZE; Z.div_mod_to_equations; lia).
  set (n := Z.to_nat (PREFIX_SIZE plen)).
  set (data := firstn n prefix).
  assert (Hdl : length data = n)
    by (unfold data; rewrite length_firstn; unfold n; lia).
  assert (Hfam : exists fam,
             family_of_af af = Some fam /\ host_af fam = af /\
             0 <= fam < 256 /\
             (fam = AF_IPV4 /\ af = AF_INET \/ fam = AF_IPV6 /\ af = AF_INET6)
             /\ ((fam = AF_IPV4 /\ plen <= IPV4_MAX_BITLEN) \/
                 (fam = AF_IPV6 /\ plen <= IPV6_MAX_BITLEN))).
  { destruct Haf as [[-> H] | [-> H]];
      [ exists AF_IPV4 | exists AF_IPV6 ];
      (split; [ reflexivity | split; [ reflexivity | ] ]);
      (split; [ vm_compute; split; congruence | ]); auto. }
  destruct Hfam as (fam & Hf1 & Hf2 & Hfr & Hfa & Hfl).
  exists fam. unfold fec_chunks, map_type. rewrite Hfec, Hf1.
  eexists. split; [ reflexivity | ].
  split; [ | split; [ | split; [ exact Hfa | ] ] ].
  - rewrite (u16_small (x := PREFIX_SIZE plen)) by lia.
    rewrite concat_app. cbn [concat app].
    rewrite <- !app_assoc. f_equal. f_equal.
    change (u8 MAP_TYPE_PREFIX) with MAP_TYPE_PREFIX.
    unfold prefix_elm, put_u16. cbn [app].
    rewrite (u8_small (x := plen)) by lia.
    rewrite (u8_small (x := fam)) by lia.
    replace (fam / 256) with 0 by (Z.div_mod_to_equations; lia).
    change (u8 0) with 0. do 4 f_equal.
    destruct (PREFIX_SIZE plen =? 0) eqn:E.
    + apply Z.eqb_eq in E. unfold data, n. rewrite E. reflexivity.
    + cbn [concat]. rewrite app_nil_r.
      apply mem_read_firstn; [ exact Hbytes | fold n; lia ].
  - split; [ exact Hfl | ]. split; [ exact Hpos | ].
    split; [ exact Hdl | ]. unfold data. now apply Forall_firstn.
  - intros id label. unfold prefix_record. rewrite Hf2. f_equal. f_equal.
    fold n. fold data. rewrite Hdl. unfold data.
    replace (16 - n)%nat with (length prefix - n)%nat
      by (rewrite Hlen; lia).
    unfold n. rewrite (@masked_prefix_tail prefix plen Hmask).
    apply ldp_applymask_canonical; [ | exact Hmask ].
    destruct Haf as [[-> _] | [-> _]]; auto.
Qed.

(** The Label Mapping message that the encoders write for a prefix
    record, and what [recv_labelmessage] makes of it. *)
Lemma prefix_mapping_decoded :
  forall (n : nbr) (id : Z) (me : map) (af : Z) (prefix : list Z) (plen : Z),
    fec me = FecPrefix af prefix plen ->
    prefix_canonical af prefix plen ->
    0 <= id < 4294967296 ->
    label_invalid (label me) = false ->
    (af = AF_INET ->
     label me <> MPLS_LABEL_IPV6_EXPLICIT_NULL /\ v4_enabled n = true) ->
    (af = AF_INET6 ->
     label me <> MPLS_LABEL_IPV4_EXPLICIT_NULL /\ v6_enabled n = true) ->
    has_flag (flags me) F_MAP_PW_STATUS = false ->
    0 <= requestid me < 4294967296 ->
    exists bytes,
      encode_msg id MSG_TYPE_LABELMAPPING me = Some bytes /\
      recv_labelmessage n bytes (Z.of_nat (length bytes))
        MSG_TYPE_LABELMAPPING
      = ([EvImsg IMSG_LABEL_MAPPING (peerid n)
            {| msg_id := id; fec := fec me; st := st0; label := label me;
               requestid := if has_flag (flags me) F_MAP_REQ_ID
                            then requestid me else 0;
               pw_status := 0;
               flags := Z.land (flags me) F_MAP_REQ_ID |}],
         Ok tt).
Proof.
  intros n id me af prefix plen Hfec Hcan Hid Hlab H4 H6 Hpw Hreq.
  pose proof (label_valid_range _ Hlab) as Hlr.
  unfold MPLS_LABEL_MAX in Hlr.
  assert (Hnl : negb (label me =? NO_LABEL) = true).
  { apply negb_true_iff, Z.eqb_neq. unfold NO_LABEL. lia. }
  destruct (prefix_fec_chunks me Hfec Hcan)
    as (fam & cs & Hcs & Hcat & Hwire & Hfa & Hrec).
  set (data := firstn (Z.to_nat (PREFIX_SIZE plen)) prefix) in *.
  pose proof (wire_prefix_ok_len Hwire) as (Hps & Hdl).
  assert (Hw : well_sized me).
  { split; [ | rewrite Hpw; discriminate ].
    rewrite Hfec. destruct Hcan as (Ha & Hp & _).
    unfold IPV4_MAX_BITLEN, IPV6_MAX_BITLEN in Ha.
    destruct Ha as [[_ H] | [_ H]]; lia. }
  destruct (calc_msg_size me) as [sz | ] eqn:Hsz.
  2:{ unfold calc_msg_size, len_fec_tlv in Hsz. rewrite Hfec in Hsz.
      discriminate Hsz. }
  pose proof (msg_size_exact id MSG_TYPE_LABELMAPPING Hw Hsz Hcs) as Hlen.
  exists (msg_bytes id MSG_TYPE_LABELMAPPING sz me cs).
  split; [ now apply encode_msg_bytes | ].
  set (e := (fam, plen, data) : wire_elm).
  set (hdr := put_u16 MSG_TYPE_LABELMAPPING ++ put_u16 (sz - LDP_MSG_DEAD_LEN)
              ++ put_u32 id).
  set (opts := concat (opt_chunks me)).
  assert (Hshape : msg_bytes id MSG_TYPE_LABELMAPPING sz me cs
                   = hdr ++ put_u16 TLV_TYPE_FEC ++ put_u16 (elms_len [e])
                     ++ elms_wire [e] ++ opts).
  { unfold msg_bytes. fold hdr. rewrite concat_app, Hcat. fold opts.
    unfold elms_wire. cbn [elms_len flat_map elm_plen elm_family elm_bytes
                             e fst snd].
    rewrite app_nil_r, Z.add_0_r, <- !app_assoc. reflexivity. }
  assert (Hmsgid : msg_id_f (read_msg (msg_bytes id MSG_TYPE_LABELMAPPING
                                         sz me cs)) = id).
  { unfold msg_bytes, read_msg. cbn [msg_id_f]. rewrite <- !app_assoc.
    change (get_u32 (put_u16 MSG_TYPE_LABELMAPPING
                     ++ put_u16 (sz - LDP_MSG_DEAD_LEN) ++ put_u32 id
                     ++ concat (cs ++ opt_chunks me)) 4)
      with (get_u32 (put_u32 id ++ concat (cs ++ opt_chunks me)) 0).
    rewrite get_u32_put_u32. unfold u32. now rewrite Z.mod_small. }
  assert (Hok : Forall elm_ok [e]) by (constructor; [ exact Hwire | constructor ]).
  assert (Hol : Z.of_nat (length opts)
                = 8 + (if has_flag (flags me) F_MAP_REQ_ID then 8 else 0)
                  + (if has_flag (flags me) F_MAP_STATUS then 14 else 0)).
  { unfold opts. rewrite opt_chunks_length, Hnl, Hpw. lia. }
  assert (Htot : Z.of_nat (length (msg_bytes id MSG_TYPE_LABELMAPPING sz me cs))
                 = 12 + elms_len [e] + Z.of_nat (length opts)).
  { rewrite Hshape, !length_app, !Nat2Z.inj_add, (elms_wire_length Hok).
    unfold hdr, put_u16, put_u32. cbn [length app]. lia. }
  assert (Hparse : forall msg : ldp_msg,
             parse_fec msg
               (msg_bytes id MSG_TYPE_LABELMAPPING sz me cs)
               (Z.of_nat (length (msg_bytes id MSG_TYPE_LABELMAPPING
                                    sz me cs)))
               MSG_TYPE_LABELMAPPING
             = ok ({| c_buf := opts; c_len := Z.of_nat (length opts) |},
                   [elm_record (msg_id_f msg) 0 e])).
  { intros msg. rewrite Htot, Hshape.
    apply parse_fec_prefixes; auto; try discriminate; try lia.
    cbn [elms_len elm_plen e fst snd].
    destruct (has_flag (flags me) F_MAP_REQ_ID),
      (has_flag (flags me) F_MAP_STATUS); lia. }
  unfold recv_labelmessage. rewrite Hparse, bind_ok. cbn [c_len].
  rewrite Hmsgid. unfold elm_record.
  cbn [elm_family elm_plen elm_bytes e fst snd]. rewrite Hrec.
  set (msg := read_msg _). clearbody msg.
  clear Hparse Htot Hshape Hmsgid.
  rewrite land_req_id. rewrite Hol. unfold opts.
  rewrite opt_chunks_concat, Hnl, Hpw. cbn [app].
  assert (Hlv : 0 <= label me < 4294967296) by lia.
  assert (Hdeliver :
            forall o : optvals,
              o_label o = label me ->
              o_reqid o = (if has_flag (flags me) F_MAP_REQ_ID
                           then requestid me else 0) ->
              o_flags o = (if has_flag (flags me) F_MAP_REQ_ID
                           then F_MAP_REQ_ID else 0) ->
              notify_lde n msg MSG_TYPE_LABELMAPPING o
                [{| msg_id := id; fec := FecPrefix af prefix plen; st := st0;
                    label := 0; requestid := 0; pw_status := 0; flags := 0 |}]
              = ([EvImsg IMSG_LABEL_MAPPING (peerid n)
                    {| msg_id := id; fec := fec me; st := st0;
                       label := label me;
                       requestid := if has_flag (flags me) F_MAP_REQ_ID
                                    then requestid me else 0;
                       pw_status := 0;
                       flags := if has_flag (flags me) F_MAP_REQ_ID
                                then F_MAP_REQ_ID else 0 |}],
                 Ok tt)).
  { intros o Hl Hr Hf. cbn [notify_lde]. unfold check_record.
    cbn [fec set_flags flags]. rewrite Hl, Hf, Hfec.
    destruct Hfa as [(_ & ->) | (_ & ->)].
    - destruct (H4 eq_refl) as (Hne & Hen).
      change (AF_INET =? AF_INET) with true. cbv iota.
      apply Z.eqb_neq in Hne. rewrite Hne, Hen. cbn [negb].
      unfold finish_record, set_label, set_requestid.
      cbn [flags msg_id fec st label requestid pw_status].
      rewrite Hl, Hr.
      destruct (has_flag (flags me) F_MAP_REQ_ID); reflexivity.
    - destruct (H6 eq_refl) as (Hne & Hen).
      change (AF_INET6 =? AF_INET) with false.
      change (AF_INET6 =? AF_INET6) with true. cbv iota.
      apply Z.eqb_neq in Hne. rewrite Hne, Hen. cbn [negb].
      unfold finish_record, set_label, set_requestid.
      cbn [flags msg_id fec st label requestid pw_status].
      rewrite Hl, Hr.
      destruct (has_flag (flags me) F_MAP_REQ_ID); reflexivity. }
  destruct (has_flag (flags me) F_MAP_REQ_ID) eqn:Er;
    destruct (has_flag (flags me) F_MAP_STATUS) eqn:Es;
    cbn [app]; rewrite ?app_nil_r.
  - change (Z.to_nat (8 + 8 + 14)) with 30%nat.
    rewrite opt_loop_S by (cbn [c_len]; lia).
    rewrite (@opt_round_label msg MSG_TYPE_LABELMAPPING (label me) _
               (8 + 8 + 14) optvals_init (or_introl eq_refl) Hlv Hlab)
      by lia.
    rewrite bind_ok, opt_loop_S by (cbn [c_len]; lia).
    rewrite (@opt_round_reqid msg MSG_TYPE_LABELMAPPING (requestid me) _
               (8 + 8 + 14 - 8) _ (or_introl eq_refl) Hreq) by lia.
    rewrite bind_ok, opt_loop_S by (cbn [c_len]; lia).
    rewrite <- (app_nil_r (status_tlv (st me))).
    rewrite (@opt_round_status msg MSG_TYPE_LABELMAPPING (st me) []
               (8 + 8 + 14 - 8 - 8) _) by lia.
    rewrite bind_ok, opt_loop_done by (cbn [c_len]; lia).
    rewrite bind_ok. apply Hdeliver; reflexivity.
  - change (Z.to_nat (8 + 8 + 0)) with 16%nat.
    rewrite opt_loop_S by (cbn [c_len]; lia).
    rewrite (@opt_round_label msg MSG_TYPE_LABELMAPPING (label me) _
               (8 + 8 + 0) optvals_init (or_introl eq_refl) Hlv Hlab)
      by lia.
    rewrite bind_ok, opt_loop_S by (cbn [c_len]; lia).
    rewrite <- (app_nil_r (reqid_tlv (requestid me))).
    rewrite (@opt_round_reqid msg MSG_TYPE_LABELMAPPING (requestid me) []
               (8 + 8 + 0 - 8) _ (or_introl eq_refl) Hreq) by lia.
    rewrite bind_ok, opt_loop_done by (cbn [c_len]; lia).
    rewrite bind_ok. apply Hdeliver; reflexivity.
  - change (Z.to_nat (8 + 0 + 14)) with 22%nat.
    rewrite opt_loop_S by (cbn [c_len]; lia).
    rewrite (@opt_round_label msg MSG_TYPE_LABELMAPPING (label me) _
               (8 + 0 + 14) optvals_init (or_introl eq_refl) Hlv Hlab)
      by lia.
    rewrite bind_ok, opt_loop_S by (cbn [c_len]; lia).
    rewrite <- (app_nil_r (status_tlv (st me))).
    rewrite (@opt_round_status msg MSG_TYPE_LABELMAPPING (st me) []
               (8 + 0 + 14 - 8) _) by lia.
    rewrite bind_ok, opt_loop_done by (cbn [c_len]; lia).
    rewrite bind_ok. apply Hdeliver; reflexivity.
  - change (Z.to_nat (8 + 0 + 0)) with 8%nat.
    rewrite opt_loop_S by (cbn [c_len]; lia).
    rewrite <- (app_nil_r (label_tlv (label me))).
    rewrite (@opt_round_label msg MSG_TYPE_LABELMAPPING (label me) []
               (8 + 0 + 0) optvals_init (or_introl eq_refl) Hlv Hlab)
      by lia.
    rewrite bind_ok, opt_loop_done by (cbn [c_len]; lia).
    rewrite bind_ok. apply Hdeliver; reflexivity.
Qed.

(** X10 (message round trip): the Label Mapping message that the
    encoders write for a prefix record - a canonical prefix, a label
    within bounds that suits the family, with or without a request
    identifier, with or without a status - is decoded by
    [recv_labelmessage], for a neighbour with the family enabled, into
    exactly one record, handed to the label-distribution engine: it has
    the identifier of the message, the FEC and the label of the record
    sent, the request identifier and its flag if they were sent, and no
    other flag - the Status TLV is skipped, so the status and its flag
    do not come back. *)
Theorem prefix_mapping_round_trip :
  forall (n : nbr) (id : Z) (me : map) (af : Z) (prefix : list Z) (plen : Z),
    fec me = FecPrefix af prefix plen ->
    prefix_canonical af prefix plen ->
    0 <= id < 4294967296 ->
    label_invalid (label me) = false ->
    (af = AF_INET ->
     label me <> MPLS_LABEL_IPV6_EXPLICIT_NULL /\ v4_enabled n = true) ->
    (af = AF_INET6 ->
     label me <> MPLS_LABEL_IPV4_EXPLICIT_NULL /\ v6_enabled n = true) ->
    has_flag (flags me) F_MAP_PW_STATUS = false ->
    0 <= requestid me < 4294967296 ->
    exists bytes,
      encode_msg id MSG_TYPE_LABELMAPPING me = Some bytes /\
      recv_labelmessage n bytes (Z.of_nat (length bytes))
        MSG_TYPE_LABELMAPPING
      = ([EvImsg IMSG_LABEL_MAPPING (peerid n)
            {| msg_id := id; fec := fec me; st := st0; label := label me;
               requestid := if has_flag (flags me) F_MAP_REQ_ID
                            then requestid me else 0;
               pw_status := 0;
               flags := Z.land (flags me) F_MAP_REQ_ID |}],
         Ok tt).
Proof.
  intros n id me af prefix plen Hfec Hcan Hid Hlab H4 H6 Hpw Hreq.
  eapply prefix_mapping_decoded; eassumption.
Qed.

Lemma prefix_10_24_canonical :
  prefix_canonical AF_INET [10; 0; 0; 0; 0; 0; 0; 0;
                            0; 0; 0; 0; 0; 0; 0; 0] 24.
Proof.
  split; [ left; split; [ reflexivity | vm_compute; discriminate ] | ].
  split; [ lia | ]. split; [ reflexivity | ].
  split; [ repeat constructor; unfold is_byte; lia | reflexivity ].
Qed.

Lemma prefix_mapping_round_trip_witness :
  (fec map_10_24_req = FecPrefix AF_INET [10; 0; 0; 0; 0; 0; 0; 0;
                                          0; 0; 0; 0; 0; 0; 0; 0] 24 /\
   prefix_canonical AF_INET [10; 0; 0; 0; 0; 0; 0; 0;
                             0; 0; 0; 0; 0; 0; 0; 0] 24 /\
   0 <= 9 < 4294967296 /\
   label_invalid (label map_10_24_req) = false /\
   (AF_INET = AF_INET ->
    label map_10_24_req <> MPLS_LABEL_IPV6_EXPLICIT_NULL /\
    v4_enabled nbr0 = true) /\
   (AF_INET = AF_INET6 ->
    label map_10_24_req <> MPLS_LABEL_IPV4_EXPLICIT_NULL /\
    v6_enabled nbr0 = true) /\
   has_flag (flags map_10_24_req) F_MAP_PW_STATUS = false /\
   0 <= requestid map_10_24_req < 4294967296) /\
  exists bytes,
    encode_msg 9 MSG_TYPE_LABELMAPPING map_10_24_req = Some bytes /\
    recv_labelmessage nbr0 bytes (Z.of_nat (length bytes))
      MSG_TYPE_LABELMAPPING
    = ([EvImsg IMSG_LABEL_MAPPING (peerid nbr0)
          {| msg_id := 9; fec := fec map_10_24_req; st := st0;
             label := label map_10_24_req;
             requestid := if has_flag (flags map_10_24_req) F_MAP_REQ_ID
                          then requestid map_10_24_req else 0;
             pw_status := 0;
             flags := Z.land (flags map_10_24_req) F_MAP_REQ_ID |}],
       Ok tt).
Proof.
  assert (Hid : 0 <= 9 < 4294967296) by lia.
  assert (Hr : 0 <= requestid map_10_24_req < 4294967296)
    by (cbn [requestid map_10_24_req]; lia).
  assert (H4 : AF_INET = AF_INET ->
               label map_10_24_req <> MPLS_LABEL_IPV6_EXPLICIT_NULL /\
               v4_enabled nbr0 = true).
  { intros _. split; [ intros H; discriminate H | reflexivity ]. }
  assert (H6 : AF_INET = AF_INET6 ->
               label map_10_24_req <> MPLS_LABEL_IPV4_EXPLICIT_NULL /\
               v6_enabled nbr0 = true).
  { intros H. discriminate H. }
  split.
  - split; [ reflexivity | ]. split; [ exact prefix_10_24_canonical | ].
    split; [ exact Hid | ]. split; [ reflexivity | ].
    split; [ exact H4 | ]. split; [ exact H6 | ].
    split; [ reflexivity | exact Hr ].
  - apply (@prefix_mapping_round_trip nbr0 9 map_10_24_req AF_INET
             [10; 0; 0; 0; 0; 0; 0; 0; 0; 0; 0; 0; 0; 0; 0; 0] 24
             eq_refl prefix_10_24_canonical Hid eq_refl H4 H6 eq_refl Hr).
Defined.


(** ** Receiving: a sub-TLV of length zero *)

Lemma subtlv_loop_spins (msg : ldp_msg) (buf : list Z) (off pw_len : Z) :
  2 <= pw_len < 256 ->
  0 <= off < 65536 ->
  byte_at buf off <> SUBTLV_IFMTU ->
  byte_at buf (off + 1) = 0 ->
  forall (fuel : nat) (m : map),
    subtlv_loop fuel msg buf off pw_len m = ([], NoReturn).
Proof.
  intros Hpw Hoff Hty Hlen.
  assert (E0 : (pw_len >? 0) = true) by (apply Z.gtb_lt; lia).
  induction fuel as [ | fuel IH]; intros m; cbn [subtlv_loop]; rewrite E0.
  - reflexivity.
  - unfold SUBTLV_HDR_SIZE.
    assert (E1 : (pw_len <? 2) = false) by (apply Z.ltb_ge; lia).
    assert (E2 : (0 >? pw_len) = false).
    { apply not_true_is_false. intros E. apply Zgtb_true in E. lia. }
    apply Z.eqb_neq in Hty.
    rewrite E1, Hlen, E2, Hty.
    rewrite Z.add_0_r, Z.sub_0_r, (u16_small Hoff), u8_small by lia.
    apply IH.
Qed.

(** The decoder on a pseudowire element that holds a pseudowire
    identifier followed by a sub-TLV of length zero that is not an
    interface MTU. *)
Lemma pwid_elm_spins (msg : ldp_msg) (buf : list Z) (m : map) :
  byte_at buf 0 = MAP_TYPE_PWID ->
  6 <= byte_at buf 3 ->
  byte_at buf 12 <> SUBTLV_IFMTU ->
  byte_at buf 13 = 0 ->
  (forall (fuel : nat) (m' : map),
      subtlv_loop fuel msg buf 12 (byte_at buf 3 - 4) m' = ([], NoReturn)) /\
  tlv_decode_fec_elm msg buf (FEC_PWID_ELM_MIN_LEN + byte_at buf 3) m
  = ([], NoReturn).
Proof.
  intros H0 H3 H12 H13.
  pose proof (byte_at_range buf 3) as Hb.
  assert (Hspin : forall (fuel : nat) (m' : map),
             subtlv_loop fuel msg buf 12 (byte_at buf 3 - 4) m'
             = ([], NoReturn)).
  { apply subtlv_loop_spins; try assumption; lia. }
  split; [ exact Hspin | ].
  unfold tlv_decode_fec_elm. pwid_offsets. rewrite H0.
  change (MAP_TYPE_PWID =? MAP_TYPE_WILDCARD) with false.
  change (MAP_TYPE_PWID =? MAP_TYPE_PREFIX) with false.
  change (MAP_TYPE_PWID =? MAP_TYPE_PWID) with true. cbv iota.
  unfold FEC_PWID_ELM_MIN_LEN.
  destruct (8 + byte_at buf 3 <? 8) eqn:E1; [ apply Z.ltb_lt in E1; lia | ].
  rewrite Z.eqb_refl. cbn [negb].
  destruct (byte_at buf 3 =? 0) eqn:E2; [ apply Z.eqb_eq in E2; lia | ].
  destruct (byte_at buf 3 <? 4) eqn:E3; [ apply Z.ltb_lt in E3; lia | ].
  rewrite u8_small by lia. apply Hspin.
Qed.

(** X11 (sub-TLV of length zero): a message of any type whose FEC TLV
    holds a pseudowire element with a pseudowire identifier followed by
    an interface-parameter sub-TLV whose length byte is 0 and whose type
    is not the interface MTU makes [recv_labelmessage] never return:
    the loop over the sub-TLVs adds the length 0 to its offset and
    takes it from the length left, so it stands at that sub-TLV for any
    number of rounds.  Nothing is logged: no notification is sent and
    the session is not shut down. *)
Theorem zero_length_subtlv_never_returns :
  forall (n : nbr) (buf : list Z) (len type : Z),
    len <= Z.of_nat (length buf) ->
    fec_header_ok buf len ->
    byte_at (c_buf (fec_start buf len)) 0 = MAP_TYPE_PWID ->
    6 <= byte_at (c_buf (fec_start buf len)) 3 ->
    fec_len buf
    = FEC_PWID_ELM_MIN_LEN + byte_at (c_buf (fec_start buf len)) 3 ->
    byte_at (c_buf (fec_start buf len)) 12 <> SUBTLV_IFMTU ->
    byte_at (c_buf (fec_start buf len)) 13 = 0 ->
    (forall (fuel : nat) (m' : map),
        subtlv_loop fuel (read_msg buf) (c_buf (fec_start buf len)) 12
          (byte_at (c_buf (fec_start buf len)) 3 - 4) m' = ([], NoReturn)) /\
    recv_labelmessage n buf len type = ([], NoReturn).
Proof.
  intros n buf len type _ Hh H0 H3 Hfl H12 H13.
  destruct (@pwid_elm_spins (read_msg buf) (c_buf (fec_start buf len))
              (set_msg_id map_zero (msg_id_f (read_msg buf)))
              H0 H3 H12 H13) as (Hspin & Hdec).
  split; [ exact Hspin | ].
  pose proof (get_u16_range (skipn (Z.to_nat LDP_MSG_SIZE) buf) 2) as Hr.
  fold (fec_len buf) in Hr.
  unfold recv_labelmessage.
  rewrite (parse_fec_header_ok _ _ Hh), fec_loop_S.
  unfold fec_round. rewrite (u16_small Hr), Hfl, Hdec. reflexivity.
Qed.

Lemma zero_length_subtlv_never_returns_witness :
  let buf := [0x04; 0x00; 0; 22; 0; 0; 0; 9; 0x01; 0x00; 0; 14]
             ++ pwid_elm_zero_subtlv in
  (26 <= Z.of_nat (length buf) /\
   fec_header_ok buf 26 /\
   byte_at (c_buf (fec_start buf 26)) 0 = MAP_TYPE_PWID /\
   6 <= byte_at (c_buf (fec_start buf 26)) 3 /\
   fec_len buf = FEC_PWID_ELM_MIN_LEN + byte_at (c_buf (fec_start buf 26)) 3 /\
   byte_at (c_buf (fec_start buf 26)) 12 <> SUBTLV_IFMTU /\
   byte_at (c_buf (fec_start buf 26)) 13 = 0) /\
  (forall (fuel : nat) (m' : map),
      subtlv_loop fuel (read_msg buf) (c_buf (fec_start buf 26)) 12
        (byte_at (c_buf (fec_start buf 26)) 3 - 4) m' = ([], NoReturn)) /\
  recv_labelmessage nbr0 buf 26 MSG_TYPE_LABELMAPPING = ([], NoReturn).
Proof.
  cbv zeta.
  assert (Hh : fec_header_ok
                 ([0x04; 0x00; 0; 22; 0; 0; 0; 9; 0x01; 0x00; 0; 14]
                  ++ pwid_elm_zero_subtlv) 26).
  { vm_compute. repeat split; discriminate. }
  assert (H3 : 6 <= byte_at (c_buf (fec_start
                 ([0x04; 0x00; 0; 22; 0; 0; 0; 9; 0x01; 0x00; 0; 14]
                  ++ pwid_elm_zero_subtlv) 26)) 3)
    by (vm_compute; discriminate).
  assert (H12 : byte_at (c_buf (fec_start
                  ([0x04; 0x00; 0; 22; 0; 0; 0; 9; 0x01; 0x00; 0; 14]
                   ++ pwid_elm_zero_subtlv) 26)) 12 <> SUBTLV_IFMTU)
    by (vm_compute; discriminate).
  assert (Hlen : 26 <= Z.of_nat (length
                   ([0x04; 0x00; 0; 22; 0; 0; 0; 9; 0x01; 0x00; 0; 14]
                    ++ pwid_elm_zero_subtlv)))
    by (vm_compute; discriminate).
  split.
  - split; [ exact Hlen | ].
    split; [ exact Hh | ]. split; [ reflexivity | ].
    split; [ exact H3 | ]. split; [ reflexivity | ].
    split; [ exact H12 | reflexivity ].
  - apply (@zero_length_subtlv_never_returns nbr0
             ([0x04; 0x00; 0; 22; 0; 0; 0; 9; 0x01; 0x00; 0; 14]
              ++ pwid_elm_zero_subtlv) 26 MSG_TYPE_LABELMAPPING
             Hlen Hh eq_refl H3 eq_refl H12 eq_refl).
Defined.

(** ** Receiving: an empty FEC TLV *)

(** X12 (empty FEC TLV): a message whose FEC TLV has the length 0 is
    always refused - [recv_labelmessage] returns failure and hands
    nothing over.  The loop over the FEC elements runs once all the
    same, and the decoder reads the byte behind the TLV header as an
    element type before it looks at the length: which failure is
    reported - a shutdown with Bad TLV Value, a shutdown with Bad TLV
    Length or an Unknown FEC notification - depends on that byte, which
    is not part of the FEC TLV (the buffer is taken to hold it). *)
Theorem empty_fec_tlv_is_rejected :
  forall (n : nbr) (buf : list Z) (len type : Z),
    (12 < length buf)%nat ->
    fec_header_ok buf len ->
    fec_len buf = 0 ->
    recv_labelmessage n buf len type =
    ([if byte_at (c_buf (fec_start buf len)) 0 =? MAP_TYPE_WILDCARD
      then EvShutdown S_BAD_TLV_VAL (msg_id_f (read_msg buf))
             (msg_type_f (read_msg buf))
      else if (byte_at (c_buf (fec_start buf len)) 0 =? MAP_TYPE_PREFIX)
              || (byte_at (c_buf (fec_start buf len)) 0 =? MAP_TYPE_PWID)
              || (byte_at (c_buf (fec_start buf len)) 0
                  =? MAP_TYPE_TYPED_WCARD)
      then EvShutdown S_BAD_TLV_LEN (msg_id_f (read_msg buf))
             (msg_type_f (read_msg buf))
      else EvNotification S_UNKNOWN_FEC (msg_id_f (read_msg buf))
             (msg_type_f (read_msg buf))],
     Err).
Proof.
  intros n buf len type _ Hh Hfl.
  unfold recv_labelmessage.
  rewrite (parse_fec_header_ok _ _ Hh), Hfl, fec_loop_S.
  unfold fec_round. change (u16 0) with 0.
  unfold tlv_decode_fec_elm.
  destruct (byte_at (c_buf (fec_start buf len)) 0 =? MAP_TYPE_WILDCARD);
    [ reflexivity | ].
  destruct (byte_at (c_buf (fec_start buf len)) 0 =? MAP_TYPE_PREFIX);
    [ reflexivity | ].
  destruct (byte_at (c_buf (fec_start buf len)) 0 =? MAP_TYPE_PWID);
    [ reflexivity | ].
  destruct (byte_at (c_buf (fec_start buf len)) 0 =? MAP_TYPE_TYPED_WCARD);
    reflexivity.
Qed.

Lemma empty_fec_tlv_is_rejected_witness :
  let buf := [0x04; 0x02; 0; 16; 0; 0; 0; 9; 0x01; 0x00; 0; 0;
              0x02; 0x00; 0; 4; 0; 0; 0; 100] in
  ((12 < length buf)%nat /\ fec_header_ok buf 20 /\ fec_len buf = 0) /\
  recv_labelmessage nbr0 buf 20 MSG_TYPE_LABELWITHDRAW =
  ([if byte_at (c_buf (fec_start buf 20)) 0 =? MAP_TYPE_WILDCARD
    then EvShutdown S_BAD_TLV_VAL (msg_id_f (read_msg buf))
           (msg_type_f (read_msg buf))
    else if (byte_at (c_buf (fec_start buf 20)) 0 =? MAP_TYPE_PREFIX)
            || (byte_at (c_buf (fec_start buf 20)) 0 =? MAP_TYPE_PWID)
            || (byte_at (c_buf (fec_start buf 20)) 0
                =? MAP_TYPE_TYPED_WCARD)
    then EvShutdown S_BAD_TLV_LEN (msg_id_f (read_msg buf))
           (msg_type_f (read_msg buf))
    else EvNotification S_UNKNOWN_FEC (msg_id_f (read_msg buf))
           (msg_type_f (read_msg buf))],
   Err).
Proof.
  cbv zeta.
  assert (Hh : fec_header_ok
                 [0x04; 0x02; 0; 16; 0; 0; 0; 9; 0x01; 0x00; 0; 0;
                  0x02; 0x00; 0; 4; 0; 0; 0; 100] 20).
  { vm_compute. repeat split; discriminate. }
  assert (Hl : (12 < length [0x04; 0x02; 0; 16; 0; 0; 0; 9; 0x01; 0x00; 0; 0;
                             0x02; 0x00; 0; 4; 0; 0; 0; 100])%nat)
    by (cbn [length]; lia).
  split; [ split; [ exact Hl | split; [ exact Hh | reflexivity ] ] | ].
  apply (@empty_fec_tlv_is_rejected nbr0
           [0x04; 0x02; 0; 16; 0; 0; 0; 9; 0x01; 0x00; 0; 0;
            0x02; 0x00; 0; 4; 0; 0; 0; 100] 20 MSG_TYPE_LABELWITHDRAW
           Hl Hh eq_refl).
Defined.

(** ** Receiving: what the element decoder reads *)

Lemma agree_get_u16 (k : Z) (b1 b2 : list Z) (off : Z) :
  agree_upto k b1 b2 -> 0 <= off -> off + 2 <= k ->
  get_u16 b1 off = get_u16 b2 off.
Proof.
  intros H H0 H1. unfold get_u16. rewrite !(H _) by lia. reflexivity.
Qed.

Lemma agree_get_u32 (k : Z) (b1 b2 : list Z) (off : Z) :
  agree_upto k b1 b2 -> 0 <= off -> off + 4 <= k ->
  get_u32 b1 off = get_u32 b2 off.
Proof.
  intros H H0 H1. unfold get_u32. rewrite !(H _) by lia. reflexivity.
Qed.

Lemma agree_mem_read (k : Z) (b1 b2 : list Z) (off : Z) (n : nat) :
  agree_upto k b1 b2 -> 0 <= off -> off + Z.of_nat n <= k ->
  mem_read b1 off n = mem_read b2 off n.
Proof.
  intros H H0 H1. unfold mem_read. apply map_ext_in. intros i Hi.
  apply in_seq in Hi. apply H. lia.
Qed.

(** The loop over the sub-TLVs reads within the length it is given. *)
Lemma subtlv_loop_agree (msg : ldp_msg) (b1 b2 : list Z) :
  forall (fuel : nat) (off pw_len : Z) (m : map),
    0 <= off -> 0 <= pw_len < 256 -> off + pw_len < 65536 ->
    agree_upto (off + pw_len) b1 b2 ->
    subtlv_loop fuel msg b1 off pw_len m = subtlv_loop fuel msg b2 off pw_len m.
Proof.
  induction fuel as [ | fuel IH]; intros off pw_len m Hoff Hpw Hmax Hag;
    cbn [subtlv_loop]; [ reflexivity | ].
  destruct (pw_len >? 0) eqn:E0; [ | reflexivity ].
  unfold SUBTLV_HDR_SIZE.
  destruct (pw_len <? 2) eqn:E1; [ reflexivity | ].
  apply Z.ltb_ge in E1.
  rewrite (Hag off), (Hag (off + 1)) by lia.
  pose proof (byte_at_range b2 (off + 1)) as Hb.
  destruct (byte_at b2 (off + 1) >? pw_len) eqn:E2; [ reflexivity | ].
  apply Zgtb_false in E2.
  assert (Hnext : forall m' : map,
             subtlv_loop fuel msg b1 (u16 (off + byte_at b2 (off + 1)))
               (u8 (pw_len - byte_at b2 (off + 1))) m'
             = subtlv_loop fuel msg b2 (u16 (off + byte_at b2 (off + 1)))
                 (u8 (pw_len - byte_at b2 (off + 1))) m').
  { intros m'. rewrite u16_small, u8_small by lia.
    apply IH; try lia.
    replace (off + byte_at b2 (off + 1) + (pw_len - byte_at b2 (off + 1)))
      with (off + pw_len) by lia.
    exact Hag. }
  destruct (byte_at b2 off =? SUBTLV_IFMTU); [ | apply Hnext ].
  destruct (negb (byte_at b2 (off + 1) =? FEC_SUBTLV_IFMTU_SIZE)) eqn:E4;
    [ reflexivity | ].
  apply negb_eqb_false in E4. unfold FEC_SUBTLV_IFMTU_SIZE in E4.
  rewrite (@agree_get_u16 (off + pw_len) b1 b2 (off + 2) Hag) by lia.
  apply Hnext.
Qed.

(** The element decoder looks at no byte beyond the length it is given
    (a length of at least 1): on two buffers that hold the same first
    [len] bytes it logs the same, returns the same length and fills in
    the same record - or fails, or spins, on both. *)
Lemma tlv_decode_fec_elm_agree :
  forall (msg : ldp_msg) (b1 b2 : list Z) (len : Z) (m : map),
    1 <= len < 65536 ->
    agree_upto len b1 b2 ->
    tlv_decode_fec_elm msg b1 len m = tlv_decode_fec_elm msg b2 len m.
Proof.
  intros msg b1 b2 len m Hlen Hag.
  unfold tlv_decode_fec_elm.
  change (1 + 2 + 1 + 4 + 4) with 12. change (1 + 2 + 1 + 4) with 8.
  change (1 + 2 + 1) with 4. change (1 + 2) with 3.
  change (1 + 1 + 1) with 3. change (1 + 1) with 2.
  rewrite (Hag 0) by lia.
  destruct (byte_at b2 0 =? MAP_TYPE_WILDCARD); [ reflexivity | ].
  destruct (byte_at b2 0 =? MAP_TYPE_PREFIX).
  { unfold FEC_ELM_PREFIX_MIN_LEN.
    destruct (len <? 4) eqn:E1; [ reflexivity | ]. apply Z.ltb_ge in E1.
    rewrite (@agree_get_u16 len b1 b2 1 Hag), (Hag 3) by lia.
    destruct (af_of_family (get_u16 b2 1)) as [af | ]; [ | reflexivity ].
    match goal with
    | |- (if ?c then _ else _) = _ => destruct c; [ reflexivity | ]
    end.
    pose proof (byte_at_range b2 3) as Hb.
    pose proof (PREFIX_SIZE_nonneg (proj1 Hb)) as Hp.
    destruct (len <? 4 + PREFIX_SIZE (byte_at b2 3)) eqn:E2;
      [ reflexivity | ].
    apply Z.ltb_ge in E2.
    rewrite (@agree_mem_read len b1 b2 4
               (Z.to_nat (PREFIX_SIZE (byte_at b2 3))) Hag) by lia.
    reflexivity. }
  destruct (byte_at b2 0 =? MAP_TYPE_PWID).
  { unfold FEC_PWID_ELM_MIN_LEN.
    destruct (len <? 8) eqn:E1; [ reflexivity | ]. apply Z.ltb_ge in E1.
    rewrite (@agree_get_u16 len b1 b2 1 Hag), (Hag 3),
      (@agree_get_u32 len b1 b2 4 Hag) by lia.
    pose proof (byte_at_range b2 3) as Hb.
    destruct (negb (len =? 8 + byte_at b2 3)) eqn:E2; [ reflexivity | ].
    apply negb_eqb_false in E2.
    destruct (byte_at b2 3 =? 0); [ reflexivity | ].
    destruct (byte_at b2 3 <? 4) eqn:E3; [ reflexivity | ].
    apply Z.ltb_ge in E3.
    rewrite (@agree_get_u32 len b1 b2 8 Hag) by lia.
    apply subtlv_loop_agree; rewrite ?u8_small by lia; try lia.
    replace (12 + (byte_at b2 3 - 4)) with len by lia. exact Hag. }
  destruct (byte_at b2 0 =? MAP_TYPE_TYPED_WCARD); [ | reflexivity ].
  unfold FEC_ELM_TWCARD_MIN_LEN.
  destruct (len <? 3) eqn:E1; [ reflexivity | ]. apply Z.ltb_ge in E1.
  rewrite (Hag 1), (Hag 2) by lia.
  destruct (negb (len =? 3 + byte_at b2 2)) eqn:E2; [ reflexivity | ].
  apply negb_eqb_false in E2.
  destruct (byte_at b2 1 =? MAP_TYPE_PREFIX).
  { destruct (negb (byte_at b2 2 =? 2)) eqn:E3; [ reflexivity | ].
    apply negb_eqb_false in E3.
    rewrite (@agree_get_u16 len b1 b2 3 Hag) by lia. reflexivity. }
  destruct (byte_at b2 1 =? MAP_TYPE_PWID); [ | reflexivity ].
  destruct (negb (byte_at b2 2 =? 2)) eqn:E3; [ reflexivity | ].
  apply negb_eqb_false in E3.
  rewrite (@agree_get_u16 len b1 b2 3 Hag) by lia. reflexivity.
Qed.

(** ** Receiving: what is handed over *)

Lemma bind_inv {A B : Type} (m : M A) (f : A -> M B) (l : list event)
    (r : res B) :
  bind m f = (l, r) ->
  (exists l1 a l2, m = (l1, Ok a) /\ f a = (l2, r) /\ l = l1 ++ l2) \/
  (m = (l, Err) /\ r = Err) \/
  (m = (l, NoReturn) /\ r = NoReturn).
Proof.
  destruct m as [l1 [a | | ]]; simpl.
  - destruct (f a) as [l2 r2] eqn:E. intros H. inversion H; subst.
    left. exists l1, a, l2. auto.
  - intros H. inversion H; subst. right. left. auto.
  - intros H. inversion H; subst. right. right. auto.
Qed.

(** The sub-TLV loop leaves the identifier and the status of the record
    alone, and sets no flag but that of the interface MTU. *)
Lemma subtlv_loop_queued (msg : ldp_msg) (buf : list Z) (id : Z) :
  forall (fuel : nat) (off pw_len : Z) (m : map) (l : list event)
         (off' : Z) (m' : map),
    subtlv_loop fuel msg buf off pw_len m = (l, Ok (off', m')) ->
    queued_record id m -> queued_record id m'.
Proof.
  induction fuel as [ | fuel IH]; intros off pw_len m l off' m';
    cbn [subtlv_loop].
  - destruct (pw_len >? 0); intros H; inv H. auto.
  - destruct (pw_len >? 0); [ | intros H; inv H; auto ].
    destruct (pw_len <? SUBTLV_HDR_SIZE); [ intros H; inv H | ].
    destruct (byte_at buf (off + 1) >? pw_len); [ intros H; inv H | ].
    destruct (byte_at buf off =? SUBTLV_IFMTU).
    + destruct (negb (byte_at buf (off + 1) =? FEC_SUBTLV_IFMTU_SIZE));
        [ intros H; inv H | ].
      intros H (Hid & Hst & Hs). apply IH in H; [ exact H | ].
      split; [ exact Hid | split; [ | exact Hs ] ].
      cbn [flags set_flags set_fec]. rewrite Z.land_lor_distr_l, Hst.
      reflexivity.
    + intros H Hq. apply IH in H; auto.
Qed.

(** So does the element decoder, which sets no flag but those of the
    control word, the pseudowire identifier and the interface MTU. *)
Lemma tlv_decode_fec_elm_queued (msg : ldp_msg) (buf : list Z) (len : Z)
    (m : map) (l : list event) (tlen : Z) (m' : map) (id : Z) :
  tlv_decode_fec_elm msg buf len m = (l, Ok (tlen, m')) ->
  queued_record id m -> queued_record id m'.
Proof.
  unfold tlv_decode_fec_elm. intros H (Hid & Hst & Hs).
  assert (Hcw : queued_record id
                  (if has_flag (get_u16 buf 1) CONTROL_WORD_FLAG
                   then set_flags m (Z.lor (flags m) F_MAP_PW_CWORD)
                   else m)).
  { destruct (has_flag (get_u16 buf 1) CONTROL_WORD_FLAG);
      [ | split; auto ].
    split; [ exact Hid | split; [ | exact Hs ] ].
    cbn [flags set_flags]. rewrite Z.land_lor_distr_l, Hst. reflexivity. }
  destruct (byte_at buf 0 =? MAP_TYPE_WILDCARD).
  { destruct (len =? FEC_ELM_WCARD_LEN); inv H. split; auto. }
  destruct (byte_at buf 0 =? MAP_TYPE_PREFIX).
  { destruct (len <? FEC_ELM_PREFIX_MIN_LEN); [ inv H | ].
    destruct (af_of_family (get_u16 buf 1)); [ | inv H ].
    clear Hcw. repeat case_if; try (inv H; fail).
    unfold ok in H. apply pair_equal_spec in H. destruct H as [_ H].
    apply (f_equal (fun r => match r with
                             | Ok (_, x) => x
                             | _ => m'
                             end)) in H.
    subst m'. split; auto. }
  destruct (byte_at buf 0 =? MAP_TYPE_PWID).
  { destruct (len <? FEC_PWID_ELM_MIN_LEN); [ inv H | ].
    destruct (negb (len =? FEC_PWID_ELM_MIN_LEN + byte_at buf (1 + 2)));
      [ inv H | ].
    destruct (byte_at buf (1 + 2) =? 0).
    { unfold ok in H. apply pair_equal_spec in H. destruct H as [_ H].
      apply (f_equal (fun r => match r with
                               | Ok (_, x) => x
                               | _ => m'
                               end)) in H.
      subst m'. destruct Hcw as (H1 & H2 & H3).
      split; [ exact H1 | split; [ exact H2 | exact H3 ] ]. }
    destruct (byte_at buf (1 + 2) <? 4); [ inv H | ].
    eapply subtlv_loop_queued; [ exact H | ].
    destruct Hcw as (H1 & H2 & H3).
    split; [ exact H1 | split; [ | exact H3 ] ].
    cbn [flags set_flags set_fec]. rewrite Z.land_lor_distr_l, H2.
    reflexivity. }
  destruct (byte_at buf 0 =? MAP_TYPE_TYPED_WCARD); [ | inv H ].
  destruct (len <? FEC_ELM_TWCARD_MIN_LEN); [ inv H | ].
  destruct (negb (len =? FEC_ELM_TWCARD_MIN_LEN + byte_at buf (1 + 1)));
    [ inv H | ].
  destruct (byte_at buf 1 =? MAP_TYPE_PREFIX).
  { destruct (negb (byte_at buf (1 + 1) =? 2)); [ inv H | ].
    destruct (af_of_family (get_u16 buf (1 + 1 + 1))); inv H. split; auto. }
  destruct (byte_at buf 1 =? MAP_TYPE_PWID); [ | inv H ].
  destruct (negb (byte_at buf (1 + 1) =? 2)); inv H. split; auto.
Qed.

Lemma fec_round_queued (msg : ldp_msg) (type : Z) (c : cursor) (fl : Z)
    (mh : list map) (l : list event) (tlen : Z) (mh1 : list map) :
  fec_round msg type c fl mh = (l, Ok (tlen, mh1)) ->
  Forall (queued_record (msg_id_f msg)) mh ->
  Forall (queued_record (msg_id_f msg)) mh1.
Proof.
  unfold fec_round. intros H Hq.
  apply bind_ok_inv in H. destruct H as (l1 & [t m'] & l2 & Hd & H & ->).
  apply tlv_decode_fec_elm_queued with (id := msg_id_f msg) in Hd;
    [ | split; [ reflexivity | split; reflexivity ] ].
  cbv beta iota in H.
  repeat case_if; try (inv H; fail).
  unfold ok in H. apply pair_equal_spec in H. destruct H as [_ H].
  apply (f_equal (fun r => match r with
                           | Ok (_, x) => x
                           | _ => mh1
                           end)) in H.
  subst mh1. apply Forall_app. split; [ exact Hq | now constructor ].
Qed.

Lemma fec_loop_queued (msg : ldp_msg) (type : Z) :
  forall (fuel : nat) (c : cursor) (fl : Z) (mh : list map) (l : list event)
         (c' : cursor) (mh' : list map),
    fec_loop fuel msg type c fl mh = (l, Ok (c', mh')) ->
    Forall (queued_record (msg_id_f msg)) mh ->
    Forall (queued_record (msg_id_f msg)) mh'.
Proof.
  induction fuel as [ | fuel IH]; intros c fl mh l c' mh' H Hq.
  - inv H.
  - rewrite fec_loop_S in H. apply bind_ok_inv in H.
    destruct H as (l1 & [tlen mh1] & l2 & Hr & H & ->).
    apply fec_round_queued in Hr; [ | exact Hq ].
    cbv beta iota in H.
    destruct (fl - tlen >? 0).
    + eapply IH; eauto.
    + unfold ok in H. apply pair_equal_spec in H. destruct H as [_ H].
      apply (f_equal (fun r => match r with
                               | Ok (_, x) => x
                               | _ => mh'
                               end)) in H.
      now subst mh'.
Qed.

Lemma parse_fec_queued (msg : ldp_msg) (buf : list Z) (len type : Z)
    (l : list event) (c : cursor) (mh : list map) :
  parse_fec msg buf len type = (l, Ok (c, mh)) ->
  Forall (queued_record (msg_id_f msg)) mh.
Proof.
  unfold parse_fec. intros H.
  repeat case_if; try (inv H; fail).
  eapply fec_loop_queued; [ exact H | constructor ].
Qed.

(** The label the optional parameters leave is none or one that passed
    the bounds check. *)
Lemma opt_switch_checked (msg : ldp_msg) (type tlv_type tlv_len : Z)
    (buf : list Z) (o o' : optvals) (l : list event) :
  opt_switch msg type tlv_type tlv_len buf o = (l, Ok o') ->
  label_checked o -> label_checked o'.
Proof.
  unfold opt_switch, shutdown, ok, label_checked.
  repeat case_if; intros H; inv H; cbn [o_label]; auto.
Qed.

Lemma opt_round_checked (msg : ldp_msg) (type : Z) (c c' : cursor)
    (o o' : optvals) (l : list event) :
  opt_round msg type c o = (l, Ok (c', o')) ->
  label_checked o -> label_checked o'.
Proof.
  unfold opt_round. intros H Hc.
  repeat case_if; try (inv H; fail).
  apply bind_ok_inv in H. destruct H as (l1 & o1 & l2 & Hs & H & ->).
  apply opt_switch_checked in Hs; [ | exact Hc ].
  inv H. exact Hs.
Qed.

Lemma opt_loop_checked (msg : ldp_msg) (type : Z) :
  forall (fuel : nat) (c : cursor) (o o' : optvals) (l : list event),
    opt_loop fuel msg type c o = (l, Ok o') ->
    label_checked o -> label_checked o'.
Proof.
  induction fuel as [ | fuel IH]; intros c o o' l H Hc; cbn [opt_loop] in H.
  - destruct (c_len c >? 0); inv H. exact Hc.
  - destruct (c_len c >? 0); [ | inv H; exact Hc ].
    apply bind_ok_inv in H. destruct H as (l1 & [c1 o1] & l2 & Hr & H & ->).
    apply opt_round_checked in Hr; [ | exact Hc ].
    eapply IH; eauto.
Qed.

(** Whatever the last loop hands over is a record of the queue that
    passed its checks, finished with the label and the request
    identifier - however the loop ends. *)
Lemma notify_lde_imsgs (n : nbr) (msg : ldp_msg) (type : Z) (o : optvals) :
  forall (mh : list map) (l : list event) (r : res unit),
    notify_lde n msg type o mh = (l, r) ->
    forall (t : imsg_type) (p : Z) (m : map),
      In (EvImsg t p m) l ->
      exists me m',
        In me mh /\ check_record n o me = Deliver m' /\
        t = imsg_of_type type /\ p = peerid n /\ m = finish_record o m'.
Proof.
  induction mh as [ | me rest IH]; intros l r H t p m Hin;
    cbn [notify_lde] in H.
  - inv H. destruct Hin.
  - destruct (check_record n o me) as [m' | | s | ] eqn:Ec.
    + apply bind_inv in H.
      destruct H as [(l1 & [] & l2 & H1 & H2 & ->) | [(H1 & _) | (H1 & _)]];
        try discriminate H1.
      inv H1. cbn [app] in Hin. destruct Hin as [Hin | Hin].
      * inv Hin. exists me, m'. split; [ now left | auto ].
      * destruct (IH _ _ H2 _ _ _ Hin) as (me0 & m0 & Hm & Hrest).
        exists me0, m0. split; [ now right | exact Hrest ].
    + destruct (IH _ _ H _ _ _ Hin) as (me0 & m0 & Hm & Hrest).
      exists me0, m0. split; [ now right | exact Hrest ].
    + inv H. destruct Hin as [Hin | []]. discriminate Hin.
    + inv H. destruct Hin.
Qed.

Lemma check_record_deliver_ok (n : nbr) (o : optvals) (me m' : map) :
  check_record n o me = Deliver m' ->
  fec m' = fec me /\ msg_id m' = msg_id me /\ st m' = st me /\
  match fec me with
  | FecPrefix af _ _ =>
      (af = AF_INET /\ v4_enabled n = true /\
       o_label o <> MPLS_LABEL_IPV6_EXPLICIT_NULL) \/
      (af = AF_INET6 /\ v6_enabled n = true /\
       o_label o <> MPLS_LABEL_IPV4_EXPLICIT_NULL)
  | FecPwid _ _ _ _ => MPLS_LABEL_RESERVED_MAX < o_label o
  | _ => True
  end.
Proof.
  unfold check_record. cbn [fec set_flags].
  destruct (fec me) as [ | af prefix plen | pw_type pwid gid ifmtu | tw u]
    eqn:Ef.
  - intros H. inv H. cbn. auto.
  - destruct (af =? AF_INET) eqn:E4.
    + apply Z.eqb_eq in E4.
      destruct (o_label o =? MPLS_LABEL_IPV6_EXPLICIT_NULL) eqn:El;
        [ discriminate | ].
      apply Z.eqb_neq in El.
      destruct (v4_enabled n) eqn:Ev; cbn [negb]; [ | discriminate ].
      intros H. inv H. cbn. rewrite Ef. auto 10.
    + destruct (af =? AF_INET6) eqn:E6; [ | discriminate ].
      apply Z.eqb_eq in E6.
      destruct (o_label o =? MPLS_LABEL_IPV4_EXPLICIT_NULL) eqn:El;
        [ discriminate | ].
      apply Z.eqb_neq in El.
      destruct (v6_enabled n) eqn:Ev; cbn [negb]; [ | discriminate ].
      intros H. inv H. cbn. rewrite Ef. auto 10.
  - destruct (o_label o <=? MPLS_LABEL_RESERVED_MAX) eqn:El;
      [ discriminate | ].
    apply Z.leb_gt in El.
    destruct (has_flag _ F_MAP_PW_STATUS);
      intros H; inv H; cbn; rewrite Ef; auto.
  - intros H. inv H. cbn. auto.
Qed.

Lemma finish_record_keeps (o : optvals) (m : map) :
  fec (finish_record o m) = fec m /\
  msg_id (finish_record o m) = msg_id m /\
  st (finish_record o m) = st m.
Proof.
  unfold finish_record. cbn [flags set_label].
  destruct (has_flag (flags m) F_MAP_REQ_ID); cbn; auto.
Qed.

Lemma no_status_flag (f g : Z) :
  Z.land f F_MAP_STATUS = 0 ->
  Z.land g OPT_FLAGS = g ->
  has_flag (Z.lor f g) F_MAP_STATUS = false.
Proof.
  intros Hf Hg. unfold has_flag.
  rewrite Z.land_lor_distr_l, Hf, <- Hg, <- Z.land_assoc.
  change (Z.land OPT_FLAGS F_MAP_STATUS) with 0.
  rewrite Z.land_0_r. reflexivity.
Qed.

(** Where a hand-over comes from: the FEC TLV was parsed without a word
    to the peer, the optional parameters were parsed to their end with
    no hand-over and no failure, and the record is one of the queue
    that passed its check, finished with the label and the request
    identifier. *)
Lemma handed_over_origin (n : nbr) (buf : list Z) (len type : Z)
    (log : list event) (r : res unit) (t : imsg_type) (p : Z) (m : map) :
  recv_labelmessage n buf len type = (log, r) ->
  In (EvImsg t p m) log ->
  exists c mh l1 o me m',
    parse_fec (read_msg buf) buf len type = ([], Ok (c, mh)) /\
    opt_loop (Z.to_nat (c_len c)) (read_msg buf) type c optvals_init
    = (l1, Ok o) /\
    quiet l1 /\ Z.land (o_flags o) OPT_FLAGS = o_flags o /\
    In me mh /\ check_record n o me = Deliver m' /\
    t = imsg_of_type type /\ p = peerid n /\ m = finish_record o m'.
Proof.
  intros H Hin.
  unfold recv_labelmessage in H. apply bind_inv in H.
  destruct H as [(l0 & [c mh] & l' & Hp & H & ->) | [(Hp & _) | (Hp & _)]].
  2:{ pose proof (parse_fec_spec _ _ _ _ Hp) as (e & -> & He).
      destruct Hin as [Hin | []]. rewrite Hin in He. discriminate He. }
  2:{ pose proof (parse_fec_spec _ _ _ _ Hp) as ->. destruct Hin. }
  pose proof (parse_fec_spec _ _ _ _ Hp) as (-> & _ & Hc).
  cbv beta iota in H. cbn [app] in Hin. apply bind_inv in H.
  destruct H as [(l1 & o & l2 & Ho & H & ->) | [(Ho & _) | (Ho & _)]].
  2:{ pose proof (@opt_loop_spec _ _ _ _ _ _ _ Hc (Nat.le_refl _) Ho)
        as (pre & e & -> & He & Hpre).
      apply in_app_or in Hin. destruct Hin as [Hin | [Hin | []]].
      - unfold quiet in Hpre. rewrite Forall_forall in Hpre.
        apply Hpre in Hin. destruct Hin as (Hi & _). discriminate Hi.
      - rewrite Hin in He. discriminate He. }
  2:{ pose proof (@opt_loop_spec _ _ _ _ _ _ _ Hc (Nat.le_refl _) Ho) as [].
      }
  pose proof (@opt_loop_spec _ _ _ _ _ _ _ Hc (Nat.le_refl _) Ho)
    as (Hquiet & Hfl).
  specialize (Hfl eq_refl).
  apply in_app_or in Hin. destruct Hin as [Hin | Hin].
  { unfold quiet in Hquiet. rewrite Forall_forall in Hquiet.
    apply Hquiet in Hin. destruct Hin as (Hi & _). discriminate Hi. }
  destruct (notify_lde_imsgs _ _ _ _ _ H _ _ _ Hin)
    as (me & m' & Hme & Hck & Ht & Hpe & Hm).
  exists c, mh, l1, o, me, m'.
  split; [ exact Hp | ]. split; [ exact Ho | ]. split; [ exact Hquiet | ].
  split; [ exact Hfl | ]. split; [ exact Hme | ]. split; [ exact Hck | ].
  split; [ exact Ht | ]. split; [ exact Hpe | exact Hm ].
Qed.

(** X14 (what is handed over): whatever the message and however
    [recv_labelmessage] ends, every record it hands to the
    label-distribution engine goes out under the kind of the message
    type and the peer identifier of the neighbour, carries the
    identifier of the message and no status flag, and has passed the
    checks of the last loop: its label is that of a Generic Label TLV
    that passed the bounds check (or none was read), a prefix is of a
    family enabled for the neighbour and does not carry the
    explicit-null label of the other family, and a pseudowire does not
    carry a reserved label. *)
Theorem only_checked_records_are_handed_over :
  forall (n : nbr) (buf : list Z) (len type : Z) (log : list event)
         (r : res unit) (t : imsg_type) (p : Z) (m : map),
    recv_labelmessage n buf len type = (log, r) ->
    In (EvImsg t p m) log ->
    t = imsg_of_type type /\ p = peerid n /\
    msg_id m = msg_id_f (read_msg buf) /\
    has_flag (flags m) F_MAP_STATUS = false /\
    dispatch_ok n m.
Proof.
  intros n buf len type log r t p m H Hin.
  destruct (@handed_over_origin n buf len type log r t p m H Hin)
    as (c & mh & l1 & o & me & m' & Hp & Ho & _ & Hfl & Hme & Hck
        & -> & -> & ->).
  pose proof (parse_fec_queued _ _ _ _ Hp) as Hq.
  assert (Hlab : label_checked o).
  { eapply opt_loop_checked; [ exact Ho | left; reflexivity ]. }
  rewrite Forall_forall in Hq. destruct (Hq _ Hme) as (Hid & Hst & Hs).
  pose proof (check_record_deliver _ _ _ Hck) as Hflags.
  destruct (check_record_deliver_ok _ _ _ Hck) as (Hfec & Hmid & Hst' & Hchk).
  pose proof (finish_record_spec o m') as (Hl & Hf & _).
  pose proof (finish_record_keeps o m') as (Hkf & Hkm & Hks).
  split; [ reflexivity | ]. split; [ reflexivity | ].
  split; [ congruence | ].
  split; [ rewrite Hf, Hflags; now apply no_status_flag | ].
  unfold dispatch_ok. rewrite Hl, Hkf, Hfec. split; [ exact Hlab | ].
  exact Hchk.
Qed.

Lemma only_checked_records_are_handed_over_witness :
  let m := {| msg_id := 9;
              fec := FecPrefix AF_INET [192; 168; 0; 0; 0; 0; 0; 0;
                                        0; 0; 0; 0; 0; 0; 0; 0] 16;
              st := st0; label := 100; requestid := 5; pw_status := 0;
              flags := F_MAP_REQ_ID |} in
  (recv_labelmessage nbr0 msg_two_prefixes 41 MSG_TYPE_LABELMAPPING
   = (log_two_prefixes, Ok tt) /\
   In (EvImsg IMSG_LABEL_MAPPING 7 m) log_two_prefixes) /\
  IMSG_LABEL_MAPPING = imsg_of_type MSG_TYPE_LABELMAPPING /\
  7 = peerid nbr0 /\
  msg_id m = msg_id_f (read_msg msg_two_prefixes) /\
  has_flag (flags m) F_MAP_STATUS = false /\
  dispatch_ok nbr0 m.
Proof.
  cbv zeta.
  assert (Hrun : recv_labelmessage nbr0 msg_two_prefixes 41
                   MSG_TYPE_LABELMAPPING = (log_two_prefixes, Ok tt))
    by (vm_compute; reflexivity).
  assert (Hin : In (EvImsg IMSG_LABEL_MAPPING 7
                      {| msg_id := 9;
                         fec := FecPrefix AF_INET
                                  [192; 168; 0; 0; 0; 0; 0; 0;
                                   0; 0; 0; 0; 0; 0; 0; 0] 16;
                         st := st0; label := 100; requestid := 5;
                         pw_status := 0; flags := F_MAP_REQ_ID |})
                   log_two_prefixes)
    by (right; left; reflexivity).
  split; [ split; [ exact Hrun | exact Hin ] | ].
  exact (@only_checked_records_are_handed_over nbr0 msg_two_prefixes 41
           MSG_TYPE_LABELMAPPING log_two_prefixes (Ok tt)
           IMSG_LABEL_MAPPING 7 _ Hrun Hin).
Defined.

(** ** Receiving: the element kinds a message type may carry *)

Lemma has_flag_lor_l (f g k : Z) :
  has_flag f k = true -> has_flag (Z.lor f g) k = true.
Proof.
  unfold has_flag. rewrite !negb_true_iff, !Z.eqb_neq, Z.land_lor_distr_l.
  intros Hf H. apply Z.lor_eq_0_iff in H. tauto.
Qed.

Lemma fec_round_allowed (msg : ldp_msg) (type : Z) (c : cursor) (fl : Z)
    (mh : list map) (l : list event) (tlen : Z) (mh1 : list map) :
  fec_round msg type c fl mh = (l, Ok (tlen, mh1)) ->
  Forall (fec_allowed type) mh -> Forall (fec_allowed type) mh1.
Proof.
  unfold fec_round. intros H Hq.
  apply bind_ok_inv in H. destruct H as (l1 & [t m'] & l2 & Hd & H & ->).
  cbv beta iota in H.
  destruct (is_pwid m' && negb (has_flag (flags m') F_MAP_PW_ID) &&
            negb (type =? MSG_TYPE_LABELWITHDRAW) &&
            negb (type =? MSG_TYPE_LABELRELEASE)) eqn:E1; [ inv H | ].
  destruct (is_wildcard m' &&
            ((type =? MSG_TYPE_LABELMAPPING) || (type =? MSG_TYPE_LABELREQUEST)
             || (type =? MSG_TYPE_LABELABORTREQ))) eqn:E2; [ inv H | ].
  destruct (is_twcard m' &&
            ((type =? MSG_TYPE_LABELMAPPING)
             || (type =? MSG_TYPE_LABELABORTREQ))) eqn:E3; [ inv H | ].
  destruct (negb (type =? MSG_TYPE_LABELMAPPING) && negb (t =? fl));
    [ inv H | ].
  unfold ok in H. apply pair_equal_spec in H. destruct H as [_ H].
  apply (f_equal (fun r => match r with
                           | Ok (_, x) => x
                           | _ => mh1
                           end)) in H.
  subst mh1. apply Forall_app. split; [ exact Hq | ].
  constructor; [ | constructor ].
  unfold fec_allowed. unfold is_pwid, is_wildcard, is_twcard in *.
  destruct (fec m'); [ | exact I | | ].
  - cbn [andb] in E2. rewrite !orb_false_iff, !Z.eqb_neq in E2. tauto.
  - cbn [andb] in E1.
    destruct (has_flag (flags m') F_MAP_PW_ID); [ now left | right ].
    cbn [negb andb] in E1. rewrite andb_false_iff, !negb_false_iff in E1.
    rewrite !Z.eqb_eq in E1. exact E1.
  - cbn [andb] in E3. rewrite !orb_false_iff, !Z.eqb_neq in E3. tauto.
Qed.

Lemma fec_loop_allowed (msg : ldp_msg) (type : Z) :
  forall (fuel : nat) (c : cursor) (fl : Z) (mh : list map) (l : list event)
         (c' : cursor) (mh' : list map),
    fec_loop fuel msg type c fl mh = (l, Ok (c', mh')) ->
    Forall (fec_allowed type) mh -> Forall (fec_allowed type) mh'.
Proof.
  induction fuel as [ | fuel IH]; intros c fl mh l c' mh' H Hq.
  - inv H.
  - rewrite fec_loop_S in H. apply bind_ok_inv in H.
    destruct H as (l1 & [tlen mh1] & l2 & Hr & H & ->).
    apply fec_round_allowed in Hr; [ | exact Hq ].
    cbv beta iota in H.
    destruct (fl - tlen >? 0).
    + eapply IH; eauto.
    + unfold ok in H. apply pair_equal_spec in H. destruct H as [_ H].
      apply (f_equal (fun r => match r with
                               | Ok (_, x) => x
                               | _ => mh'
                               end)) in H.
      now subst mh'.
Qed.

Lemma parse_fec_allowed (msg : ldp_msg) (buf : list Z) (len type : Z)
    (l : list event) (c : cursor) (mh : list map) :
  parse_fec msg buf len type = (l, Ok (c, mh)) ->
  Forall (fec_allowed type) mh.
Proof.
  unfold parse_fec. intros H.
  repeat case_if; try (inv H; fail).
  eapply fec_loop_allowed; [ exact H | constructor ].
Qed.

(** X15 (element kinds by message type): whatever the message, a record
    that [recv_labelmessage] hands to the label-distribution engine is
    of a kind its message type may carry: a Wildcard element comes from
    a Label Withdraw or a Label Release only - never from a Label
    Mapping, a Label Request or a Label Abort Request -, a Typed
    Wildcard element never from a Label Mapping or a Label Abort
    Request, and a pseudowire without its identifier from a Label
    Withdraw or a Label Release only. *)
Theorem record_kind_suits_message_type :
  forall (n : nbr) (buf : list Z) (len type : Z) (log : list event)
         (r : res unit) (t : imsg_type) (p : Z) (m : map),
    recv_labelmessage n buf len type = (log, r) ->
    In (EvImsg t p m) log ->
    fec_allowed type m.
Proof.
  intros n buf len type log r t p m H Hin.
  destruct (@handed_over_origin n buf len type log r t p m H Hin)
    as (c & mh & l1 & o & me & m' & Hp & Ho & _ & Hfl & Hme & Hck
        & -> & -> & ->).
  pose proof (parse_fec_allowed _ _ _ _ Hp) as Hq.
  rewrite Forall_forall in Hq. specialize (Hq _ Hme).
  pose proof (check_record_deliver _ _ _ Hck) as Hflags.
  destruct (check_record_deliver_ok _ _ _ Hck) as (Hfec & _).
  pose proof (finish_record_spec o m') as (_ & Hf & _).
  pose proof (finish_record_keeps o m') as (Hkf & _).
  unfold fec_allowed in *. rewrite Hkf, Hfec, Hf, Hflags.
  destruct (fec me); auto.
  destruct Hq as [Hq | Hq]; [ left | right; exact Hq ].
  now apply has_flag_lor_l.
Qed.

Lemma record_kind_suits_message_type_witness :
  let buf := [0x04; 0x02; 0; 17; 0; 0; 0; 9;
              0x01; 0x00; 0; 1; 1;
              0x02; 0x00; 0; 4; 0; 0; 0; 100] in
  let m := {| msg_id := 9; fec := FecWildcard; st := st0; label := 100;
              requestid := 0; pw_status := 0; flags := 0 |} in
  (recv_labelmessage nbr0 buf 21 MSG_TYPE_LABELWITHDRAW
   = ([EvImsg IMSG_LABEL_WITHDRAW 7 m], Ok tt) /\
   In (EvImsg IMSG_LABEL_WITHDRAW 7 m) [EvImsg IMSG_LABEL_WITHDRAW 7 m]) /\
  fec_allowed MSG_TYPE_LABELWITHDRAW m.
Proof.
  cbv zeta.
  assert (Hrun : recv_labelmessage nbr0
                   [0x04; 0x02; 0; 17; 0; 0; 0; 9;
                    0x01; 0x00; 0; 1; 1;
                    0x02; 0x00; 0; 4; 0; 0; 0; 100] 21
                   MSG_TYPE_LABELWITHDRAW
                 = ([EvImsg IMSG_LABEL_WITHDRAW 7
                       {| msg_id := 9; fec := FecWildcard; st := st0;
                          label := 100; requestid := 0; pw_status := 0;
                          flags := 0 |}], Ok tt))
    by (vm_compute; reflexivity).
  assert (Hin : In (EvImsg IMSG_LABEL_WITHDRAW 7
                      {| msg_id := 9; fec := FecWildcard; st := st0;
                         label := 100; requestid := 0; pw_status := 0;
                         flags := 0 |})
                   [EvImsg IMSG_LABEL_WITHDRAW 7
                      {| msg_id := 9; fec := FecWildcard; st := st0;
                         label := 100; requestid := 0; pw_status := 0;
                         flags := 0 |}])
    by (left; reflexivity).
  split; [ split; [ exact Hrun | exact Hin ] | ].
  exact (@record_kind_suits_message_type nbr0 _ 21 MSG_TYPE_LABELWITHDRAW
           _ (Ok tt) IMSG_LABEL_WITHDRAW 7 _ Hrun Hin).
Defined.

(** ** Receiving: when the decode does not return *)

Lemma subtlv_loop_hangs (msg : ldp_msg) (buf : list Z) :
  forall (fuel : nat) (off pw_len : Z) (m : map) (l : list event),
    subtlv_loop fuel msg buf off pw_len m = (l, NoReturn) ->
    0 <= pw_len < Z.of_nat fuel -> pw_len < 256 ->
    0 <= off -> off + pw_len < 65536 ->
    exists off' pw_len',
      subtlv_at buf off pw_len off' pw_len' /\
      SUBTLV_HDR_SIZE <= pw_len' /\
      byte_at buf off' <> SUBTLV_IFMTU /\
      byte_at buf (off' + 1) = 0.
Proof.
  induction fuel as [ | fuel IH]; intros off pw_len m l H Hpw Hb8 Hoff Hsum.
  - lia.
  - cbn [subtlv_loop] in H.
    destruct (pw_len >? 0) eqn:E0; [ | inv H ].
    destruct (pw_len <? SUBTLV_HDR_SIZE) eqn:E1; [ inv H | ].
    apply Z.ltb_ge in E1.
    destruct (byte_at buf (off + 1) >? pw_len) eqn:E2; [ inv H | ].
    apply Zgtb_false in E2.
    pose proof (byte_at_range buf (off + 1)) as Hb.
    rewrite (@u16_small (off + byte_at buf (off + 1))) in H by lia.
    rewrite (@u8_small (pw_len - byte_at buf (off + 1))) in H by lia.
    destruct (byte_at buf off =? SUBTLV_IFMTU) eqn:E3.
    + destruct (negb (byte_at buf (off + 1) =? FEC_SUBTLV_IFMTU_SIZE)) eqn:E4;
        [ inv H | ].
      apply negb_eqb_false in E4.
      assert (H4 : byte_at buf (off + 1) = 4) by exact E4.
      apply IH in H; [ | lia | lia | lia | lia ].
      destruct H as (off' & pw' & Hat & Hrest).
      exists off', pw'. split; [ | exact Hrest ].
      apply subtlv_next; [ exact E1 | lia | intros _; exact E4 | exact Hat ].
    + apply Z.eqb_neq in E3.
      destruct (Z.eq_dec (byte_at buf (off + 1)) 0) as [Hz | Hnz].
      * exists off, pw_len.
        split; [ apply subtlv_first | ]. split; [ exact E1 | ].
        split; [ exact E3 | exact Hz ].
      * apply IH in H; [ | lia | lia | lia | lia ].
        destruct H as (off' & pw' & Hat & Hrest).
        exists off', pw'. split; [ | exact Hrest ].
        apply subtlv_next;
          [ exact E1 | lia | intros Hc; contradiction | exact Hat ].
Qed.

(** The element decoder comes back unless it stands at a pseudowire
    element with a sub-TLV of length zero. *)
Lemma tlv_decode_fec_elm_hangs (msg : ldp_msg) (buf : list Z) (len : Z)
    (m : map) (l : list event) :
  tlv_decode_fec_elm msg buf len m = (l, NoReturn) ->
  zero_length_subtlv buf 0.
Proof.
  unfold tlv_decode_fec_elm. intros H.
  destruct (byte_at buf 0 =? MAP_TYPE_WILDCARD).
  { destruct (len =? FEC_ELM_WCARD_LEN); inv H. }
  destruct (byte_at buf 0 =? MAP_TYPE_PREFIX).
  { destruct (len <? FEC_ELM_PREFIX_MIN_LEN); [ inv H | ].
    destruct (af_of_family (get_u16 buf 1)); [ | inv H ].
    repeat case_if; inv H. }
  destruct (byte_at buf 0 =? MAP_TYPE_PWID) eqn:Ep.
  { apply Z.eqb_eq in Ep.
    destruct (len <? FEC_PWID_ELM_MIN_LEN); [ inv H | ].
    destruct (negb (len =? FEC_PWID_ELM_MIN_LEN + byte_at buf (1 + 2)));
      [ inv H | ].
    destruct (byte_at buf (1 + 2) =? 0); [ inv H | ].
    destruct (byte_at buf (1 + 2) <? 4) eqn:E4; [ inv H | ].
    apply Z.ltb_ge in E4.
    change (1 + 2) with 3 in *. change (3 + 1 + 4 + 4) with 12 in H.
    pose proof (byte_at_range buf 3) as Hb.
    rewrite (@u8_small (byte_at buf 3 - 4)) in H by lia.
    apply subtlv_loop_hangs in H;
      [ | change (Z.of_nat 256) with 256; lia | lia | lia | lia ].
    split; [ exact Ep | ]. split; [ exact E4 | exact H ]. }
  destruct (byte_at buf 0 =? MAP_TYPE_TYPED_WCARD); [ | inv H ].
  destruct (len <? FEC_ELM_TWCARD_MIN_LEN); [ inv H | ].
  destruct (negb (len =? FEC_ELM_TWCARD_MIN_LEN + byte_at buf (1 + 1)));
    [ inv H | ].
  destruct (byte_at buf 1 =? MAP_TYPE_PREFIX).
  { destruct (negb (byte_at buf (1 + 1) =? 2)); [ inv H | ].
    destruct (af_of_family (get_u16 buf (1 + 1 + 1))); inv H. }
  destruct (byte_at buf 1 =? MAP_TYPE_PWID); [ | inv H ].
  destruct (negb (byte_at buf (1 + 1) =? 2)); inv H.
Qed.

Lemma fec_round_hangs (msg : ldp_msg) (type : Z) (c : cursor) (fl : Z)
    (mh : list map) (l : list event) :
  fec_round msg type c fl mh = (l, NoReturn) ->
  zero_length_subtlv (c_buf c) 0.
Proof.
  unfold fec_round. intros H. apply bind_inv in H.
  destruct H as [(l1 & [t m'] & l2 & _ & H & _) | [(_ & H) | (H & _)]].
  - cbv beta iota in H. repeat case_if; inv H.
  - discriminate H.
  - eapply tlv_decode_fec_elm_hangs. exact H.
Qed.

Lemma subtlv_at_skipn (k : nat) (buf : list Z) :
  forall (off pw_len off' pw_len' : Z),
    subtlv_at (skipn k buf) off pw_len off' pw_len' ->
    0 <= off ->
    0 <= off' /\
    subtlv_at buf (Z.of_nat k + off) pw_len (Z.of_nat k + off') pw_len'.
Proof.
  intros off pw_len off' pw_len' H.
  induction H as [off pw_len | off pw_len off' pw_len' H1 H2 H3 _ IH];
    intros Hoff.
  - split; [ exact Hoff | apply subtlv_first ].
  - rewrite !byte_at_skipn in * by lia.
    destruct IH as (Hge & IH); [ lia | ].
    split; [ exact Hge | ].
    replace (Z.of_nat k + (off + 1)) with (Z.of_nat k + off + 1) in * by lia.
    replace (Z.of_nat k + (off + byte_at buf (Z.of_nat k + off + 1)))
      with (Z.of_nat k + off + byte_at buf (Z.of_nat k + off + 1)) in IH
      by lia.
    apply subtlv_next; [ exact H1 | exact H2 | exact H3 | exact IH ].
Qed.

Lemma zero_length_subtlv_skipn (k : nat) (buf : list Z) (e : Z) :
  0 <= e ->
  zero_length_subtlv (skipn k buf) e ->
  zero_length_subtlv buf (Z.of_nat k + e).
Proof.
  intros He (Hty & H4 & off & pw & Hat & Hpw & Hnot & Hz).
  rewrite !byte_at_skipn in * by lia.
  apply subtlv_at_skipn in Hat; [ | lia ]. destruct Hat as (Hoff & Hat).
  rewrite !byte_at_skipn in * by lia.
  replace (Z.of_nat k + (e + 3)) with (Z.of_nat k + e + 3) in * by lia.
  replace (Z.of_nat k + (e + 12)) with (Z.of_nat k + e + 12) in * by lia.
  replace (Z.of_nat k + (off + 1)) with (Z.of_nat k + off + 1) in * by lia.
  split; [ exact Hty | ]. split; [ exact H4 | ].
  exists (Z.of_nat k + off), pw.
  split; [ exact Hat | ].
  split; [ exact Hpw | ]. split; [ exact Hnot | exact Hz ].
Qed.

(** The loop over the elements goes round at most once per byte of the
    FEC TLV, so it comes back unless an element decoder does not. *)
Lemma fec_loop_hangs (msg : ldp_msg) (type : Z) :
  forall (fuel : nat) (c : cursor) (fl : Z) (mh : list map) (l : list event),
    fec_loop fuel msg type c fl mh = (l, NoReturn) ->
    0 <= fl < 65536 -> fl < Z.of_nat fuel ->
    exists e, 0 <= e /\ zero_length_subtlv (c_buf c) e.
Proof.
  induction fuel as [ | fuel IH]; intros c fl mh l H Hfl Hfuel.
  - lia.
  - rewrite fec_loop_S in H. apply bind_inv in H.
    destruct H as [(l1 & [tlen mh1] & l2 & Hr & H & _) | [(_ & H) | (H & _)]].
    + pose proof (fec_round_spec _ _ _ _ Hfl Hr) as (_ & Ht & _).
      cbv beta iota in H.
      destruct (fl - tlen >? 0); [ | inv H ].
      apply IH in H; [ | lia | lia ].
      destruct H as (e & He & H). cbn [advance c_buf] in H.
      exists (Z.of_nat (Z.to_nat tlen) + e).
      split; [ lia | now apply zero_length_subtlv_skipn ].
    + discriminate H.
    + exists 0. split; [ lia | eapply fec_round_hangs; exact H ].
Qed.

Lemma parse_fec_hangs (msg : ldp_msg) (buf : list Z) (len type : Z)
    (l : list event) :
  parse_fec msg buf len type = (l, NoReturn) ->
  exists e, LDP_MSG_SIZE + TLV_HDR_SIZE <= e /\ zero_length_subtlv buf e.
Proof.
  unfold parse_fec. intros H.
  repeat case_if; try (inv H; fail).
  match type of H with
  | fec_loop _ _ _ _ ?fl _ = _ =>
      pose proof (get_u16_range
                    (c_buf (advance {| c_buf := buf; c_len := len |}
                              LDP_MSG_SIZE)) 2) as Hr
  end.
  apply fec_loop_hangs in H; [ | exact Hr | lia ].
  destruct H as (e & He & H). cbn [advance c_buf] in H.
  apply zero_length_subtlv_skipn in H; [ | exact He ].
  apply zero_length_subtlv_skipn in H; [ | lia ].
  exists (Z.of_nat (Z.to_nat LDP_MSG_SIZE)
          + (Z.of_nat (Z.to_nat TLV_HDR_SIZE) + e)).
  split; [ unfold LDP_MSG_SIZE, TLV_HDR_SIZE; lia | exact H ].
Qed.

(** The last loop never reaches its fatal exit on a queue of decoded
    records. *)
Lemma notify_lde_returns (n : nbr) (msg : ldp_msg) (type : Z) (o : optvals) :
  forall (mh : list map) (l : list event),
    Forall decoded_record mh ->
    notify_lde n msg type o mh <> (l, NoReturn).
Proof.
  induction mh as [ | me rest IH]; intros l Hd H; cbn [notify_lde] in H.
  - inv H.
  - inversion Hd as [ | ? ? Hme Hrest]; subst.
    destruct (check_record n o me) as [m' | | s | ] eqn:Ec.
    + apply bind_inv in H.
      destruct H as [(l1 & [] & l2 & _ & H & _) | [(_ & H) | (H & _)]];
        try discriminate H.
      exact (IH _ Hrest H).
    + exact (IH _ Hrest H).
    + inv H.
    + unfold check_record in Ec. cbn [fec set_flags] in Ec.
      destruct Hme as (_ & Hme).
      destruct (fec me) as [ | af ? ? | | ]; try discriminate Ec.
      * destruct Hme as [-> | ->]; cbn in Ec; repeat case_if; discriminate Ec.
      * repeat case_if; discriminate Ec.
Qed.

(** X17 (the only hang): [recv_labelmessage] returns on every message
    but one whose FEC TLV holds, at some offset [e], a pseudowire
    element in whose interface parameters the loop over the sub-TLVs
    comes to a sub-TLV of length zero (and not an interface MTU).  The
    loops over the FEC elements and over the optional parameters always
    come to an end, and the fatal exit of the last loop is never
    taken. *)
Theorem only_a_zero_length_subtlv_hangs :
  forall (n : nbr) (buf : list Z) (len type : Z) (log : list event),
    recv_labelmessage n buf len type = (log, NoReturn) ->
    exists e, LDP_MSG_SIZE + TLV_HDR_SIZE <= e /\ zero_length_subtlv buf e.
Proof.
  intros n buf len type log H.
  unfold recv_labelmessage in H. apply bind_inv in H.
  destruct H as [(l0 & [c mh] & l' & Hp & H & _) | [(_ & H) | (Hp & _)]].
  - pose proof (parse_fec_spec _ _ _ _ Hp) as (_ & Hdec & Hc).
    cbv beta iota in H. apply bind_inv in H.
    destruct H as [(l1 & o & l2 & Ho & H & _) | [(_ & H) | (Ho & _)]].
    + exfalso.
      exact (@notify_lde_returns n (read_msg buf) type o mh l2 Hdec H).
    + discriminate H.
    + pose proof (@opt_loop_spec _ _ _ _ _ _ _ Hc (Nat.le_refl _) Ho) as [].
  - discriminate H.
  - eapply parse_fec_hangs. exact Hp.
Qed.

Lemma only_a_zero_length_subtlv_hangs_witness :
  let buf := [0x04; 0x00; 0; 22; 0; 0; 0; 9; 0x01; 0x00; 0; 14]
             ++ pwid_elm_zero_subtlv in
  recv_labelmessage nbr0 buf 26 MSG_TYPE_LABELMAPPING = ([], NoReturn) /\
  exists e, LDP_MSG_SIZE + TLV_HDR_SIZE <= e /\ zero_length_subtlv buf e.
Proof.
  cbv zeta.
  assert (Hrun : recv_labelmessage nbr0
                   ([0x04; 0x00; 0; 22; 0; 0; 0; 9; 0x01; 0x00; 0; 14]
                    ++ pwid_elm_zero_subtlv) 26 MSG_TYPE_LABELMAPPING
                 = ([], NoReturn))
    by (vm_compute; reflexivity).
  split; [ exact Hrun | ].
  exact (@only_a_zero_length_subtlv_hangs nbr0
           ([0x04; 0x00; 0; 22; 0; 0; 0; 9; 0x01; 0x00; 0; 14]
            ++ pwid_elm_zero_subtlv) 26 MSG_TYPE_LABELMAPPING [] Hrun).
Defined.

(** ** Receiving: the return value and what the peer is told *)

Lemma handed_over_no_failure (n : nbr) (type : Z) (o : optvals)
    (mh : list map) :
  no_failure (handed_over n type o mh).
Proof.
  unfold no_failure, handed_over.
  induction mh as [ | me rest IH]; cbn [flat_map]; [ constructor | ].
  apply Forall_app. split; [ | exact IH ].
  destruct (check_record n o me); repeat constructor.
Qed.

Lemma quiet_no_failure (l : list event) : quiet l -> no_failure l.
Proof.
  unfold quiet, no_failure. intros H.
  eapply Forall_impl; [ | exact H ]. cbv beta. tauto.
Qed.

(** X16 (return value and failures): [recv_labelmessage] returns 0
    exactly when it has sent no session shutdown and no notification of
    a failure (a notification of an unknown TLV is not one: the decode
    goes on after it); when it returns -1 it has sent exactly one of
    them, as the last thing it did - every hand-over to the
    label-distribution engine comes before it; and a decode that does
    not return has sent and handed over nothing. *)
Theorem one_failure_iff_decode_fails :
  forall (n : nbr) (buf : list Z) (len type : Z) (log : list event)
         (r : res unit),
    recv_labelmessage n buf len type = (log, r) ->
    match r with
    | Ok _ => no_failure log
    | Err =>
        exists pre e,
          log = pre ++ [e] /\ is_failure e = true /\ no_failure pre
    | NoReturn => log = []
    end.
Proof.
  intros n buf len type log r H.
  unfold recv_labelmessage in H. apply bind_inv in H.
  destruct H as [(l0 & [c mh] & l' & Hp & H & ->)
                | [(Hp & ->) | (Hp & ->)]].
  - pose proof (parse_fec_spec _ _ _ _ Hp) as (-> & Hdec & Hc).
    cbv beta iota in H. cbn [app]. apply bind_inv in H.
    destruct H as [(l1 & o & l2 & Ho & H & ->) | [(Ho & ->) | (Ho & ->)]].
    + pose proof (@opt_loop_spec _ _ _ _ _ _ _ Hc (Nat.le_refl _) Ho)
        as (Hquiet & _).
      apply quiet_no_failure in Hquiet.
      pose proof (notify_lde_spec _ _ _ _ _ H) as Hn.
      destruct r as [[] | | ].
      * subst l2. apply Forall_app.
        split; [ exact Hquiet | apply handed_over_no_failure ].
      * destruct Hn as (pre & me & post & s & _ & _ & ->).
        exists (l1 ++ handed_over n type o pre),
          (EvShutdown s (msg_id_f (read_msg buf)) (msg_type_f (read_msg buf))).
        split; [ now rewrite app_assoc | ]. split; [ reflexivity | ].
        apply Forall_app.
        split; [ exact Hquiet | apply handed_over_no_failure ].
      * exfalso.
        exact (@notify_lde_returns n (read_msg buf) type o mh l2 Hdec H).
    + pose proof (@opt_loop_spec _ _ _ _ _ _ _ Hc (Nat.le_refl _) Ho)
        as (pre & e & -> & He & Hpre).
      exists pre, e. split; [ reflexivity | ]. split; [ exact He | ].
      now apply quiet_no_failure.
    + pose proof (@opt_loop_spec _ _ _ _ _ _ _ Hc (Nat.le_refl _) Ho) as [].
  - pose proof (parse_fec_spec _ _ _ _ Hp) as (e & -> & He).
    exists [], e. split; [ reflexivity | ]. split; [ exact He | constructor ].
  - exact (parse_fec_spec _ _ _ _ Hp).
Qed.

Lemma one_failure_iff_decode_fails_witness :
  recv_labelmessage nbr0 msg_v4_v6_label0 35 MSG_TYPE_LABELMAPPING
  = ([EvImsg IMSG_LABEL_MAPPING 7
        {| msg_id := 9;
           fec := FecPrefix AF_INET [10; 0; 0; 0; 0; 0; 0; 0;
                                     0; 0; 0; 0; 0; 0; 0; 0] 24;
           st := st0; label := 0; requestid := 0; pw_status := 0;
           flags := 0 |};
      EvShutdown S_BAD_TLV_VAL 9 0x0400], Err) /\
  exists pre e,
    [EvImsg IMSG_LABEL_MAPPING 7
       {| msg_id := 9;
          fec := FecPrefix AF_INET [10; 0; 0; 0; 0; 0; 0; 0;
                                    0; 0; 0; 0; 0; 0; 0; 0] 24;
          st := st0; label := 0; requestid := 0; pw_status := 0;
          flags := 0 |};
     EvShutdown S_BAD_TLV_VAL 9 0x0400] = pre ++ [e] /\
    is_failure e = true /\ no_failure pre.
Proof.
  assert (Hrun : recv_labelmessage nbr0 msg_v4_v6_label0 35
                   MSG_TYPE_LABELMAPPING
                 = ([EvImsg IMSG_LABEL_MAPPING 7
                       {| msg_id := 9;
                          fec := FecPrefix AF_INET
                                   [10; 0; 0; 0; 0; 0; 0; 0;
                                    0; 0; 0; 0; 0; 0; 0; 0] 24;
                          st := st0; label := 0; requestid := 0;
                          pw_status := 0; flags := 0 |};
                     EvShutdown S_BAD_TLV_VAL 9 0x0400], Err))
    by (vm_compute; reflexivity).
  split; [ exact Hrun | ].
  exact (@one_failure_iff_decode_fails nbr0 msg_v4_v6_label0 35
           MSG_TYPE_LABELMAPPING _ Err Hrun).
Defined.

(** ** Encoding and decoding: a pseudowire mapping *)

Lemma fec_allowed_checks (type : Z) (m : map) :
  fec_allowed type m ->
  is_pwid m && negb (has_flag (flags m) F_MAP_PW_ID) &&
  negb (type =? MSG_TYPE_LABELWITHDRAW) &&
  negb (type =? MSG_TYPE_LABELRELEASE) = false /\
  is_wildcard m &&
  ((type =? MSG_TYPE_LABELMAPPING) || (type =? MSG_TYPE_LABELREQUEST)
   || (type =? MSG_TYPE_LABELABORTREQ)) = false /\
  is_twcard m &&
  ((type =? MSG_TYPE_LABELMAPPING) || (type =? MSG_TYPE_LABELABORTREQ))
  = false.
Proof.
  unfold fec_allowed, is_pwid, is_wildcard, is_twcard.
  destruct (fec m); intros H; cbn [andb]; split_and; try reflexivity.
  - destruct H as (H1 & H2 & H3). apply Z.eqb_neq in H1, H2, H3.
    now rewrite H1, H2, H3.
  - destruct H as [-> | [-> | ->]]; [ reflexivity | | ].
    + destruct (has_flag (flags m) F_MAP_PW_ID); reflexivity.
    + destruct (has_flag (flags m) F_MAP_PW_ID); reflexivity.
  - destruct H as (H1 & H2). apply Z.eqb_neq in H1, H2.
    now rewrite H1, H2.
Qed.

(** The first stage of [recv_labelmessage] on a message whose FEC TLV
    holds one element that the decoder takes whole. *)
Lemma parse_fec_one_elm (msg : ldp_msg) (type : Z) (hdr elem opts : list Z)
    (m' : map) :
  length hdr = 8%nat ->
  1 <= Z.of_nat (length elem) ->
  12 + Z.of_nat (length elem) + Z.of_nat (length opts) < 65536 ->
  tlv_decode_fec_elm msg (elem ++ opts) (Z.of_nat (length elem))
    (set_msg_id map_zero (msg_id_f msg))
  = ok (Z.of_nat (length elem), m') ->
  fec_allowed type m' ->
  parse_fec msg
    (hdr ++ put_u16 TLV_TYPE_FEC ++ put_u16 (Z.of_nat (length elem))
     ++ elem ++ opts)
    (12 + Z.of_nat (length elem) + Z.of_nat (length opts)) type
  = ok ({| c_buf := opts; c_len := Z.of_nat (length opts) |}, [m']).
Proof.
  intros Hh H1 Hmax Hdec Hal.
  destruct (@fec_allowed_checks type m' Hal) as (C1 & C2 & C3).
  set (fl := Z.of_nat (length elem)) in *.
  set (len := 12 + fl + Z.of_nat (length opts)) in *.
  set (buf := hdr ++ put_u16 TLV_TYPE_FEC ++ put_u16 fl ++ elem ++ opts).
  assert (Hfl : 0 <= fl < 65536) by lia.
  assert (Hfeclen : fec_len buf = fl).
  { unfold fec_len, buf. change (Z.to_nat LDP_MSG_SIZE) with 8%nat.
    rewrite (skipn_app_len _ _ Hh).
    destruct (get_u16_tlv_hdr TLV_TYPE_FEC fl (elem ++ opts)) as (_ & H2).
    now rewrite H2, (u16_small Hfl). }
  assert (Hstart : fec_start buf len
                   = {| c_buf := elem ++ opts; c_len := len - 12 |}).
  { unfold fec_start, advance, buf. cbn [c_buf c_len].
    change (Z.to_nat LDP_MSG_SIZE) with 8%nat.
    rewrite (skipn_app_len _ _ Hh).
    change (Z.to_nat TLV_HDR_SIZE) with 4%nat.
    change (skipn 4 (put_u16 TLV_TYPE_FEC ++ put_u16 fl ++ elem ++ opts))
      with (elem ++ opts).
    unfold LDP_MSG_SIZE, TLV_HDR_SIZE.
    rewrite (u16_small (x := len - 8)) by lia.
    rewrite (u16_small (x := len - 8 - 4)) by lia.
    apply f_equal. lia. }
  rewrite parse_fec_header_ok.
  2:{ unfold fec_header_ok, advance, buf. cbn [c_buf c_len].
      change (Z.to_nat LDP_MSG_SIZE) with 8%nat.
      rewrite (skipn_app_len _ _ Hh).
      destruct (get_u16_tlv_hdr TLV_TYPE_FEC fl (elem ++ opts)) as (H0 & H2).
      rewrite H0, H2, (u16_small Hfl).
      unfold LDP_MSG_SIZE, TLV_HDR_SIZE.
      rewrite (u16_small (x := len - 8)) by lia.
      split; [ lia | split; [ reflexivity | lia ] ]. }
  rewrite Hfeclen, Hstart. clear Hfeclen Hstart. clearbody buf.
  rewrite fec_loop_S. unfold fec_round. cbn [c_buf].
  rewrite (u16_small Hfl), Hdec, bind_ok. cbv beta iota.
  rewrite C1, C2, C3, Z.eqb_refl. cbn [negb]. rewrite andb_false_r.
  rewrite bind_ok. cbv beta iota.
  rewrite Z.sub_diag. change (0 >? 0) with false. cbv iota.
  unfold advance. cbn [c_buf c_len]. unfold fl at 1.
  rewrite Nat2Z.id, skipn_app_len by reflexivity.
  rewrite u16_small by lia.
  replace (len - 12 - fl) with (Z.of_nat (length opts)) by lia.
  reflexivity.
Qed.

(** The Pseudowire Status TLV in a Label Mapping: the status is kept
    and its flag is set. *)
Lemma opt_round_pw_status (msg : ldp_msg) (status : Z) (rest : list Z)
    (len : Z) (o : optvals) :
  o_current_tlv o <> 1 ->
  0 <= status < 4294967296 ->
  8 <= len < 65536 ->
  opt_round msg MSG_TYPE_LABELMAPPING
    {| c_buf := pw_status_tlv status ++ rest; c_len := len |} o =
  ok ({| c_buf := rest; c_len := len - 8 |},
      {| o_label := o_label o; o_reqid := o_reqid o;
         o_pw_status := status;
         o_flags := Z.lor (o_flags o) F_MAP_PW_STATUS;
         o_current_tlv := u16 (o_current_tlv o + 1) |}).
Proof.
  intros Hcur Hr Hlen. unfold pw_status_tlv. rewrite <- !app_assoc.
  change PW_STATUS_TLV_LEN with (Z.of_nat (length (put_u32 status))).
  rewrite opt_round_tlv
    by (try (vm_compute; split; congruence);
        change (Z.of_nat (length (put_u32 status))) with 4; lia).
  apply Z.eqb_neq in Hcur. rewrite Hcur. cbn [andb].
  unfold opt_switch.
  change (Z.of_nat (length (put_u32 status))) with 4.
  closed_ifs.
  rewrite get_u32_put_u32. unfold u32. rewrite Z.mod_small by lia.
  rewrite bind_ok. unfold next_tlv. cbn [o_label o_reqid o_pw_status o_flags
                                         o_current_tlv].
  replace (len - 4 - 4) with (len - 8) by lia. reflexivity.
Qed.

Lemma land_opt_flags (f : Z) :
  Z.land f OPT_FLAGS =
  (if has_flag f F_MAP_REQ_ID then F_MAP_REQ_ID else 0)
  + (if has_flag f F_MAP_PW_STATUS then F_MAP_PW_STATUS else 0).
Proof.
  unfold OPT_FLAGS. rewrite Z.land_lor_distr_r.
  change F_MAP_REQ_ID with (2 ^ 0). change F_MAP_PW_STATUS with (2 ^ 5).
  rewrite !has_flag_pow2, !land_pow2 by lia.
  destruct (Z.testbit f 0), (Z.testbit f 5); reflexivity.
Qed.

Lemma has_flag_land_mask (f g k : Z) :
  Z.land g k = k -> has_flag (Z.land f g) k = has_flag f k.
Proof.
  intros H. unfold has_flag. now rewrite <- Z.land_assoc, H.
Qed.

(** The loop over the optional parameters on what the encoders append
    behind the FEC TLV of a Label Mapping with a label: the label, the
    request identifier and the pseudowire status are read, each with
    its flag, and the Status TLV is skipped. *)
Lemma opt_loop_mapping_sent (msg : ldp_msg) (me : map) (f : nat) :
  label_invalid (label me) = false ->
  0 <= requestid me < 4294967296 ->
  0 <= pw_status me < 4294967296 ->
  exists k,
    opt_loop (S (S (S (S f)))) msg MSG_TYPE_LABELMAPPING
      {| c_buf := concat (opt_chunks me);
         c_len := Z.of_nat (length (concat (opt_chunks me))) |} optvals_init
    = ok {| o_label := label me;
            o_reqid := if has_flag (flags me) F_MAP_REQ_ID
                       then requestid me else 0;
            o_pw_status := if has_flag (flags me) F_MAP_PW_STATUS
                           then pw_status me else 0;
            o_flags := Z.land (flags me) OPT_FLAGS;
            o_current_tlv := k |}.
Proof.
  intros Hlab Hreq Hpw.
  pose proof (label_valid_range _ Hlab) as Hlr.
  unfold MPLS_LABEL_MAX in Hlr.
  assert (Hlv : 0 <= label me < 4294967296) by lia.
  assert (Hnl : negb (label me =? NO_LABEL) = true).
  { apply negb_true_iff, Z.eqb_neq. unfold NO_LABEL. lia. }
  rewrite opt_chunks_length, land_opt_flags.
  rewrite <- (app_nil_r (concat (opt_chunks me))), opt_chunks_concat, Hnl.
  rewrite <- !app_assoc.
  destruct (has_flag (flags me) F_MAP_REQ_ID);
    destruct (has_flag (flags me) F_MAP_PW_STATUS);
    destruct (has_flag (flags me) F_MAP_STATUS);
    cbn [app]; cbv iota; eexists;
    rewrite opt_loop_S by (cbn [c_len]; lia);
    rewrite (@opt_round_label msg MSG_TYPE_LABELMAPPING (label me) _ _
               optvals_init (or_introl eq_refl) Hlv Hlab) by lia;
    rewrite bind_ok; cbv beta iota;
    repeat
      (rewrite opt_loop_S by (cbn [c_len]; lia);
       first
         [ rewrite (@opt_round_reqid msg MSG_TYPE_LABELMAPPING (requestid me)
                      _ _ _ (or_introl eq_refl) Hreq) by lia
         | rewrite (@opt_round_pw_status msg (pw_status me) _ _ _) by
             first [ lia | assumption
                   | cbn [o_current_tlv optvals_init]; intros Hx;
                     vm_compute in Hx; discriminate Hx ]
         | rewrite (@opt_round_status msg MSG_TYPE_LABELMAPPING (st me) _ _ _)
             by lia ];
       rewrite bind_ok; cbv beta iota);
    rewrite opt_loop_done by (cbn [c_len]; lia);
    unfold next_tlv;
    cbn [o_label o_reqid o_pw_status o_flags o_current_tlv optvals_init];
    reflexivity.
Qed.

(** The Label Mapping message that the encoders write for a pseudowire
    record, and what [recv_labelmessage] makes of it. *)
Lemma pwid_mapping_decoded :
  forall (n : nbr) (id : Z) (me : map) (pw_type pwid gid ifmtu : Z),
    fec me = FecPwid pw_type pwid gid ifmtu ->
    pwid_canonical (flags me) pw_type pwid gid ifmtu ->
    has_flag (flags me) F_MAP_PW_ID = true ->
    0 <= id < 4294967296 ->
    MPLS_LABEL_RESERVED_MAX < label me <= MPLS_LABEL_MAX ->
    0 <= requestid me < 4294967296 ->
    0 <= pw_status me < 4294967296 ->
    exists bytes,
      encode_msg id MSG_TYPE_LABELMAPPING me = Some bytes /\
      recv_labelmessage n bytes (Z.of_nat (length bytes))
        MSG_TYPE_LABELMAPPING
      = ([EvImsg IMSG_LABEL_MAPPING (peerid n)
            {| msg_id := id; fec := fec me; st := st0; label := label me;
               requestid := if has_flag (flags me) F_MAP_REQ_ID
                            then requestid me else 0;
               pw_status := if has_flag (flags me) F_MAP_PW_STATUS
                            then pw_status me else 0;
               flags := Z.land (flags me) (Z.lor FEC_FLAGS OPT_FLAGS) |}],
         Ok tt).
Proof.
  intros n id me pw_type pwid gid ifmtu Hfec Hcan Hpwid Hid Hlabel Hreq Hpws.
  assert (Hlab : label_invalid (label me) = false).
  { unfold label_invalid, MPLS_LABEL_MAX, MPLS_LABEL_RESERVED_MAX in *.
    apply orb_false_iff. split.
    - apply not_true_is_false. intros E. apply Zgtb_true in E. lia.
    - destruct (Z.leb_spec (label me) 15); [ lia | reflexivity ]. }
  destruct (pwid_fec_chunks me Hfec Hcan)
    as (cs & elem & Hcs & Hcat & Hel & Hdec).
  assert (Hw : well_sized me).
  { split; [ now rewrite Hfec | ].
    intros _. unfold is_pwid. now rewrite Hfec. }
  destruct (calc_msg_size me) as [sz | ] eqn:Hsz.
  2:{ unfold calc_msg_size, len_fec_tlv in Hsz. rewrite Hfec in Hsz.
      discriminate Hsz. }
  pose proof (msg_size_exact id MSG_TYPE_LABELMAPPING Hw Hsz Hcs) as Hlen.
  exists (msg_bytes id MSG_TYPE_LABELMAPPING sz me cs).
  split; [ now apply encode_msg_bytes | ].
  set (hdr := put_u16 MSG_TYPE_LABELMAPPING ++ put_u16 (sz - LDP_MSG_DEAD_LEN)
              ++ put_u32 id).
  set (opts := concat (opt_chunks me)).
  assert (Hshape : msg_bytes id MSG_TYPE_LABELMAPPING sz me cs
                   = hdr ++ put_u16 TLV_TYPE_FEC
                     ++ put_u16 (Z.of_nat (length elem)) ++ elem ++ opts).
  { unfold msg_bytes. fold hdr. rewrite concat_app, Hcat. fold opts.
    rewrite <- !app_assoc. reflexivity. }
  assert (Hmsgid : msg_id_f (read_msg (msg_bytes id MSG_TYPE_LABELMAPPING
                                         sz me cs)) = id).
  { unfold msg_bytes, read_msg. cbn [msg_id_f]. rewrite <- !app_assoc.
    change (get_u32 (put_u16 MSG_TYPE_LABELMAPPING
                     ++ put_u16 (sz - LDP_MSG_DEAD_LEN) ++ put_u32 id
                     ++ concat (cs ++ opt_chunks me)) 4)
      with (get_u32 (put_u32 id ++ concat (cs ++ opt_chunks me)) 0).
    rewrite get_u32_put_u32. unfold u32. now rewrite Z.mod_small. }
  pose proof (label_valid_range _ Hlab) as Hlr.
  assert (Hnl : negb (label me =? NO_LABEL) = true).
  { apply negb_true_iff, Z.eqb_neq. unfold NO_LABEL, MPLS_LABEL_MAX in *.
    lia. }
  assert (Hol : 8 <= Z.of_nat (length opts) <= 38).
  { unfold opts. rewrite opt_chunks_length, Hnl.
    destruct (has_flag (flags me) F_MAP_REQ_ID),
      (has_flag (flags me) F_MAP_PW_STATUS),
      (has_flag (flags me) F_MAP_STATUS); lia. }
  assert (Htot : Z.of_nat (length (msg_bytes id MSG_TYPE_LABELMAPPING sz me cs))
                 = 12 + Z.of_nat (length elem) + Z.of_nat (length opts)).
  { rewrite Hshape, !length_app, !Nat2Z.inj_add.
    unfold hdr, put_u16, put_u32. cbn [length app]. lia. }
  set (m' := set_flags (set_fec (set_msg_id map_zero id)
                          (FecPwid pw_type pwid gid ifmtu))
               (Z.land (flags me) FEC_FLAGS)).
  assert (Hpid' : has_flag (Z.land (flags me) FEC_FLAGS) F_MAP_PW_ID = true).
  { rewrite has_flag_land_mask by reflexivity. exact Hpwid. }
  unfold recv_labelmessage.
  set (msg := read_msg _) in *.
  rewrite Htot, Hshape.
  rewrite (@parse_fec_one_elm msg MSG_TYPE_LABELMAPPING hdr elem opts m').
  2:{ reflexivity. }
  2:{ lia. }
  2:{ lia. }
  2:{ rewrite Hmsgid. apply Hdec. reflexivity. }
  2:{ unfold fec_allowed, m'. cbn [fec set_flags set_fec flags].
      left. exact Hpid'. }
  rewrite bind_ok. cbv beta iota. cbn [c_len].
  replace (Z.to_nat (Z.of_nat (length opts)))
    with (S (S (S (S (Z.to_nat (Z.of_nat (length opts)) - 4))))) by lia.
  destruct (@opt_loop_mapping_sent msg me
              (Z.to_nat (Z.of_nat (length opts)) - 4) Hlab Hreq Hpws)
    as (k & Hopt).
  fold opts in Hopt. rewrite Hopt, bind_ok.
  cbn [notify_lde]. unfold check_record, m'.
  cbn [fec set_flags set_fec flags o_label o_flags o_pw_status].
  destruct (Z.leb_spec (label me) MPLS_LABEL_RESERVED_MAX) as [Hle | _];
    [ lia | ].
  rewrite <- Z.land_lor_distr_r.
  rewrite (@has_flag_land_mask (flags me) (Z.lor FEC_FLAGS OPT_FLAGS)
             F_MAP_PW_STATUS eq_refl).
  assert (Hfin :
            forall m1 : map,
              msg_id m1 = id -> fec m1 = fec me -> st m1 = st0 ->
              pw_status m1 = (if has_flag (flags me) F_MAP_PW_STATUS
                              then pw_status me else 0) ->
              requestid m1 = 0 ->
              flags m1 = Z.land (flags me) (Z.lor FEC_FLAGS OPT_FLAGS) ->
              finish_record
                {| o_label := label me;
                   o_reqid := if has_flag (flags me) F_MAP_REQ_ID
                              then requestid me else 0;
                   o_pw_status := if has_flag (flags me) F_MAP_PW_STATUS
                                  then pw_status me else 0;
                   o_flags := Z.land (flags me) OPT_FLAGS;
                   o_current_tlv := k |} m1
              = {| msg_id := id; fec := fec me; st := st0; label := label me;
                   requestid := if has_flag (flags me) F_MAP_REQ_ID
                                then requestid me else 0;
                   pw_status := if has_flag (flags me) F_MAP_PW_STATUS
                                then pw_status me else 0;
                   flags := Z.land (flags me) (Z.lor FEC_FLAGS OPT_FLAGS) |}).
  { intros m1 H1 H2 H3 H4 H5 H6.
    unfold finish_record, set_label, set_requestid.
    cbn [flags msg_id fec st label requestid pw_status o_label o_reqid].
    rewrite H6.
    rewrite (@has_flag_land_mask (flags me) (Z.lor FEC_FLAGS OPT_FLAGS)
               F_MAP_REQ_ID eq_refl).
    rewrite H1, H2, H3, H4, H5.
    destruct (has_flag (flags me) F_MAP_REQ_ID); reflexivity. }
  destruct (has_flag (flags me) F_MAP_PW_STATUS) eqn:Eps.
  - rewrite Hfin; first [ reflexivity | now rewrite Hfec ].
  - rewrite Hfin; first [ reflexivity | now rewrite Hfec ].
Qed.

(** X18 (pseudowire mapping round trip): the Label Mapping message that
    the encoders write for a pseudowire record - with its identifier,
    with or without an interface MTU and the control word, a label
    above the reserved ones, with or without a request identifier, a
    pseudowire status and a status - is decoded by [recv_labelmessage]
    into exactly one record, handed to the label-distribution engine:
    it has the identifier of the message, the pseudowire and the label
    of the record sent, the request identifier and the pseudowire
    status if they were sent, and the record's flags but for the status
    flag - the Status TLV is skipped. *)
Theorem pwid_mapping_round_trip :
  forall (n : nbr) (id : Z) (me : map) (pw_type pwid gid ifmtu : Z),
    fec me = FecPwid pw_type pwid gid ifmtu ->
    pwid_canonical (flags me) pw_type pwid gid ifmtu ->
    has_flag (flags me) F_MAP_PW_ID = true ->
    0 <= id < 4294967296 ->
    MPLS_LABEL_RESERVED_MAX < label me <= MPLS_LABEL_MAX ->
    0 <= requestid me < 4294967296 ->
    0 <= pw_status me < 4294967296 ->
    exists bytes,
      encode_msg id MSG_TYPE_LABELMAPPING me = Some bytes /\
      recv_labelmessage n bytes (Z.of_nat (length bytes))
        MSG_TYPE_LABELMAPPING
      = ([EvImsg IMSG_LABEL_MAPPING (peerid n)
            {| msg_id := id; fec := fec me; st := st0; label := label me;
               requestid := if has_flag (flags me) F_MAP_REQ_ID
                            then requestid me else 0;
               pw_status := if has_flag (flags me) F_MAP_PW_STATUS
                            then pw_status me else 0;
               flags := Z.land (flags me) (Z.lor FEC_FLAGS OPT_FLAGS) |}],
         Ok tt).
Proof.
  intros n id me pw_type pwid gid ifmtu Hfec Hcan Hid Hi Hlab Hreq Hpw.
  eapply pwid_mapping_decoded; eassumption.
Qed.

Lemma pwid_mapping_round_trip_witness :
  (fec pw_77_mapping = FecPwid 5 77 1 1500 /\
   pwid_canonical (flags pw_77_mapping) 5 77 1 1500 /\
   has_flag (flags pw_77_mapping) F_MAP_PW_ID = true /\
   0 <= 9 < 4294967296 /\
   MPLS_LABEL_RESERVED_MAX < label pw_77_mapping <= MPLS_LABEL_MAX /\
   0 <= requestid pw_77_mapping < 4294967296 /\
   0 <= pw_status pw_77_mapping < 4294967296) /\
  exists bytes,
    encode_msg 9 MSG_TYPE_LABELMAPPING pw_77_mapping = Some bytes /\
    recv_labelmessage nbr0 bytes (Z.of_nat (length bytes))
      MSG_TYPE_LABELMAPPING
    = ([EvImsg IMSG_LABEL_MAPPING (peerid nbr0)
          {| msg_id := 9; fec := fec pw_77_mapping; st := st0;
             label := label pw_77_mapping;
             requestid := if has_flag (flags pw_77_mapping) F_MAP_REQ_ID
                          then requestid pw_77_mapping else 0;
             pw_status := if has_flag (flags pw_77_mapping) F_MAP_PW_STATUS
                          then pw_status pw_77_mapping else 0;
             flags := Z.land (flags pw_77_mapping)
                        (Z.lor FEC_FLAGS OPT_FLAGS) |}],
       Ok tt).
Proof.
  assert (Hc : pwid_canonical (flags pw_77_mapping) 5 77 1 1500).
  { vm_compute. repeat split; discriminate. }
  assert (Hid : 0 <= 9 < 4294967296) by lia.
  assert (Hl : MPLS_LABEL_RESERVED_MAX < label pw_77_mapping
               <= MPLS_LABEL_MAX).
  { vm_compute. split; [ reflexivity | discriminate ]. }
  assert (Hr : 0 <= requestid pw_77_mapping < 4294967296)
    by (cbn [requestid pw_77_mapping]; lia).
  assert (Hp : 0 <= pw_status pw_77_mapping < 4294967296)
    by (cbn [pw_status pw_77_mapping]; lia).
  split.
  - split; [ reflexivity | ]. split; [ exact Hc | ].
    split; [ reflexivity | ]. split; [ exact Hid | ].
    split; [ exact Hl | ]. split; [ exact Hr | exact Hp ].
  - apply (@pwid_mapping_round_trip nbr0 9 pw_77_mapping 5 77 1 1500
             eq_refl Hc eq_refl Hid Hl Hr Hp).
Defined.

(** The same message, byte by byte and record by record: the status and
    its flag are not in the record that comes back. *)
Example round_trip_pw_77 :
  encode_msg 9 MSG_TYPE_LABELMAPPING pw_77_mapping
  = Some [0x04; 0x00; 0; 62; 0; 0; 0; 9;
          0x01; 0x00; 0; 16;
          0x80; 0x80; 0x05; 8; 0; 0; 0; 1; 0; 0; 0; 77; 1; 4; 0x05; 0xdc;
          0x02; 0x00; 0; 4; 0; 0; 0x03; 0xe8;
          0x06; 0x00; 0; 4; 0; 0; 0; 5;
          0x89; 0x6a; 0; 4; 0; 0; 0; 1;
          0x03; 0x00; 0; 10; 0; 0; 0; 1; 0; 0; 0; 7; 0x04; 0x01] /\
  recv_labelmessage nbr0
    [0x04; 0x00; 0; 62; 0; 0; 0; 9;
     0x01; 0x00; 0; 16;
     0x80; 0x80; 0x05; 8; 0; 0; 0; 1; 0; 0; 0; 77; 1; 4; 0x05; 0xdc;
     0x02; 0x00; 0; 4; 0; 0; 0x03; 0xe8;
     0x06; 0x00; 0; 4; 0; 0; 0; 5;
     0x89; 0x6a; 0; 4; 0; 0; 0; 1;
     0x03; 0x00; 0; 10; 0; 0; 0; 1; 0; 0; 0; 7; 0x04; 0x01]
    66 MSG_TYPE_LABELMAPPING
  = ([EvImsg IMSG_LABEL_MAPPING 7
        {| msg_id := 9; fec := FecPwid 5 77 1 1500; st := st0;
           label := 1000; requestid := 5; pw_status := 1;
           flags := 0x3d |}],
     Ok tt).
Proof. split; vm_compute; reflexivity. Qed.

(** ** Receiving: a Label Mapping without a label *)

(** X19 (no Label TLV): the check that a Label Mapping carries a label
    is made on the first optional parameter only, so a Label Mapping
    message that ends with its FEC TLV passes it: for well-formed
    prefix elements and a neighbour with both families enabled,
    [recv_labelmessage] returns success and hands one record per
    element to the label-distribution engine, each with the label
    [NO_LABEL]; no notification is sent. *)
Theorem mapping_without_label_tlv_is_accepted :
  forall (n : nbr) (hdr : list Z) (es : list wire_elm),
    let buf := fec_only_message hdr es in
    let id := msg_id_f (read_msg buf) in
    length hdr = 8%nat ->
    es <> [] ->
    Forall elm_ok es ->
    elms_len es < 65000 ->
    v4_enabled n = true -> v6_enabled n = true ->
    recv_labelmessage n buf (Z.of_nat (length buf)) MSG_TYPE_LABELMAPPING =
    (List.map (fun e => EvImsg IMSG_LABEL_MAPPING (peerid n)
                          (elm_record id NO_LABEL e)) es,
     Ok tt).
Proof.
  intros n hdr es buf id Hh Hne Hok Hsmall H4 H6.
  pose proof (elms_len_nonneg Hok) as Hnn.
  pose proof (elms_wire_length Hok) as Hwl.
  assert (Hlen : Z.of_nat (length buf) = 12 + elms_len es + 0).
  { unfold buf, fec_only_message.
    rewrite !length_app, !Nat2Z.inj_add, Hwl, Hh.
    unfold put_u16. cbn [length app]. lia. }
  unfold recv_labelmessage. fold id.
  unfold buf at 2. unfold fec_only_message.
  rewrite <- (app_nil_r (elms_wire es)).
  rewrite (@parse_fec_prefixes (read_msg buf) hdr es []
             (Z.of_nat (length buf)) 0 Hh Hne Hok) by lia.
  rewrite bind_ok. cbn [c_len].
  rewrite opt_loop_done by (cbn [c_len]; lia).
  rewrite bind_ok.
  apply (@notify_lde_prefixes n (read_msg buf) optvals_init id H4 H6
           eq_refl es Hok).
  apply Forall_forall. intros e _.
  split; intros _ H; discriminate H.
Qed.

Lemma mapping_without_label_tlv_is_accepted_witness :
  (length hdr_three_bare = 8%nat /\
   three_elms <> [] /\
   Forall elm_ok three_elms /\
   elms_len three_elms < 65000 /\
   v4_enabled nbr0 = true /\ v6_enabled nbr0 = true) /\
  recv_labelmessage nbr0 (fec_only_message hdr_three_bare three_elms)
    (Z.of_nat (length (fec_only_message hdr_three_bare three_elms)))
    MSG_TYPE_LABELMAPPING =
  (List.map (fun e => EvImsg IMSG_LABEL_MAPPING (peerid nbr0)
                        (elm_record
                           (msg_id_f (read_msg
                              (fec_only_message hdr_three_bare three_elms)))
                           NO_LABEL e))
     three_elms,
   Ok tt).
Proof.
  assert (Hne : three_elms <> []) by discriminate.
  assert (Hlen : elms_len three_elms < 65000) by reflexivity.
  split.
  - split; [ reflexivity | ]. split; [ exact Hne | ].
    split; [ exact three_elms_ok | ]. split; [ exact Hlen | ].
    split; reflexivity.
  - apply (@mapping_without_label_tlv_is_accepted nbr0 hdr_three_bare three_elms
             eq_refl Hne three_elms_ok Hlen eq_refl eq_refl).
Defined.

(** ** Receiving: the bytes that are read *)

Lemma agree_mono (k k' : Z) (b1 b2 : list Z) :
  agree_upto k b1 b2 -> k' <= k -> agree_upto k' b1 b2.
Proof. intros H Hk i Hi. apply H. lia. Qed.

Lemma agree_skipn (k j : Z) (b1 b2 : list Z) :
  agree_upto k b1 b2 -> 0 <= j ->
  agree_upto (k - j) (skipn (Z.to_nat j) b1) (skipn (Z.to_nat j) b2).
Proof.
  intros H Hj i Hi. rewrite !byte_at_skipn by lia. apply H. lia.
Qed.

Lemma advance_agree (c1 c2 : cursor) (k : Z) :
  cursor_agree c1 c2 -> 0 <= k <= c_len c1 ->
  cursor_agree (advance c1 k) (advance c2 k).
Proof.
  intros (Hl & Hr & Hag) Hk. unfold cursor_agree, advance. cbn [c_len c_buf].
  rewrite <- Hl. rewrite u16_small by lia.
  split; [ reflexivity | ]. split; [ lia | ]. now apply agree_skipn.
Qed.

Lemma bind_agree_eq {A B : Type} (x y : M (cursor * A))
    (f g : cursor * A -> M B) :
  agree_res x y ->
  (forall c1 c2 a, cursor_agree c1 c2 -> f (c1, a) = g (c2, a)) ->
  bind x f = bind y g.
Proof.
  destruct x as [l1 [[c1 a1] | | ]], y as [l2 [[c2 a2] | | ]];
    intros (Hl & Hr) Hf; cbn [fst snd] in *; subst; try contradiction;
    cbn [bind]; try reflexivity.
  destruct Hr as (-> & Hc). now rewrite (Hf _ _ _ Hc).
Qed.

Lemma bind_agree_res {A B : Type} (x y : M (cursor * A))
    (f g : cursor * A -> M (cursor * B)) :
  agree_res x y ->
  (forall c1 c2 a, cursor_agree c1 c2 -> agree_res (f (c1, a)) (g (c2, a))) ->
  agree_res (bind x f) (bind y g).
Proof.
  destruct x as [l1 [[c1 a1] | | ]], y as [l2 [[c2 a2] | | ]];
    intros (Hl & Hr) Hf; cbn [fst snd] in *; subst; try contradiction;
    cbn [bind]; try (split; [ reflexivity | exact I ]).
  destruct Hr as (-> & Hc). specialize (Hf _ _ a2 Hc).
  destruct (f (c1, a2)) as [l1 r1], (g (c2, a2)) as [l1' r1'].
  destruct Hf as (Hl & Hr). cbn [fst snd] in *. subst.
  split; [ reflexivity | exact Hr ].
Qed.

(** With no length at all the element decoder reads the type of the
    element and gives up. *)
Lemma tlv_decode_fec_elm_agree_0 (msg : ldp_msg) (b1 b2 : list Z) (m : map) :
  byte_at b1 0 = byte_at b2 0 ->
  tlv_decode_fec_elm msg b1 0 m = tlv_decode_fec_elm msg b2 0 m.
Proof.
  intros H. unfold tlv_decode_fec_elm. rewrite H.
  destruct (byte_at b2 0 =? MAP_TYPE_WILDCARD); [ reflexivity | ].
  destruct (byte_at b2 0 =? MAP_TYPE_PREFIX); [ reflexivity | ].
  destruct (byte_at b2 0 =? MAP_TYPE_PWID); [ reflexivity | ].
  destruct (byte_at b2 0 =? MAP_TYPE_TYPED_WCARD); reflexivity.
Qed.

Lemma fec_round_agree (msg : ldp_msg) (type : Z) (c1 c2 : cursor) (fl : Z)
    (mh : list map) :
  0 <= fl < 65536 ->
  agree_upto (Z.max fl 1) (c_buf c1) (c_buf c2) ->
  fec_round msg type c1 fl mh = fec_round msg type c2 fl mh.
Proof.
  intros Hfl Hag. unfold fec_round. rewrite (u16_small Hfl).
  destruct (Z.eq_dec fl 0) as [-> | Hne].
  - rewrite (@tlv_decode_fec_elm_agree_0 msg (c_buf c1) (c_buf c2));
      [ reflexivity | apply Hag; lia ].
  - rewrite (@tlv_decode_fec_elm_agree msg (c_buf c1) (c_buf c2) fl);
      [ reflexivity | lia | ].
    eapply agree_mono; [ exact Hag | lia ].
Qed.

(** The loop over the FEC elements reads within the FEC TLV - but for
    the type byte it reads when the TLV is empty. *)
Lemma fec_loop_agree (msg : ldp_msg) (type : Z) :
  forall (fuel : nat) (c1 c2 : cursor) (fl : Z) (mh : list map),
    cursor_agree c1 c2 ->
    0 <= fl <= c_len c1 -> 1 <= c_len c1 ->
    agree_res (fec_loop fuel msg type c1 fl mh)
      (fec_loop fuel msg type c2 fl mh).
Proof.
  induction fuel as [ | fuel IH]; intros c1 c2 fl mh Hc Hfl H1.
  - split; [ reflexivity | exact I ].
  - pose proof Hc as (Hl & Hr & Hag).
    rewrite !fec_loop_S.
    rewrite (@fec_round_agree msg type c1 c2 fl mh);
      [ | lia | eapply agree_mono; [ exact Hag | lia ] ].
    destruct (fec_round msg type c2 fl mh) as [l [[tlen mh1] | | ]] eqn:Hr2;
      cbn [bind]; try (split; [ reflexivity | exact I ]).
    assert (Hfl' : 0 <= fl < 65536) by lia.
    pose proof (fec_round_spec _ _ _ _ Hfl' Hr2) as (_ & Ht & _).
    assert (Hadv : cursor_agree (advance c1 tlen) (advance c2 tlen))
      by (apply advance_agree; [ exact Hc | lia ]).
    destruct (fl - tlen >? 0) eqn:E.
    + apply Zgtb_true in E.
      assert (Hlen' : c_len (advance c1 tlen) = c_len c1 - tlen).
      { unfold advance. cbn [c_len]. apply u16_small. lia. }
      specialize (IH (advance c1 tlen) (advance c2 tlen) (fl - tlen) mh1
                    Hadv).
      rewrite Hlen' in IH. specialize (IH ltac:(lia) ltac:(lia)).
      destruct (fec_loop fuel msg type (advance c1 tlen) (fl - tlen) mh1)
        as [la ra].
      destruct (fec_loop fuel msg type (advance c2 tlen) (fl - tlen) mh1)
        as [lb rb].
      destruct IH as (Hla & Hra). cbn [fst snd] in *. subst.
      split; [ reflexivity | exact Hra ].
    + unfold ok. cbn [fst snd].
      split; [ reflexivity | ]. split; [ reflexivity | exact Hadv ].
Qed.

Lemma opt_switch_agree (msg : ldp_msg) (type tlv_type tlv_len : Z)
    (b1 b2 : list Z) (o : optvals) :
  0 <= tlv_len ->
  agree_upto tlv_len b1 b2 ->
  opt_switch msg type tlv_type tlv_len b1 o
  = opt_switch msg type tlv_type tlv_len b2 o.
Proof.
  intros H0 Hag. unfold opt_switch.
  assert (H4 : forall L, negb (tlv_len =? L) = false -> L = 4 ->
                         get_u32 b1 0 = get_u32 b2 0).
  { intros L E ->. apply negb_eqb_false in E.
    apply (@agree_get_u32 tlv_len b1 b2 0 Hag); lia. }
  rewrite (@agree_mem_read tlv_len b1 b2 0 (Z.to_nat tlv_len) Hag)
    by lia.
  destruct (tlv_type =? TLV_TYPE_LABELREQUEST).
  { destruct ((type =? MSG_TYPE_LABELMAPPING)
              || (type =? MSG_TYPE_LABELREQUEST)); [ | reflexivity ].
    destruct (negb (tlv_len =? REQID_TLV_LEN)) eqn:E; [ reflexivity | ].
    now rewrite (H4 _ E eq_refl). }
  destruct ((tlv_type =? TLV_TYPE_HOPCOUNT)
            || (tlv_type =? TLV_TYPE_PATHVECTOR)); [ reflexivity | ].
  destruct (tlv_type =? TLV_TYPE_GENERICLABEL).
  { destruct ((type =? MSG_TYPE_LABELMAPPING)
              || (type =? MSG_TYPE_LABELWITHDRAW)
              || (type =? MSG_TYPE_LABELRELEASE)); [ | reflexivity ].
    destruct (negb (tlv_len =? LABEL_TLV_LEN)) eqn:E; [ reflexivity | ].
    now rewrite (H4 _ E eq_refl). }
  destruct ((tlv_type =? TLV_TYPE_ATMLABEL)
            || (tlv_type =? TLV_TYPE_FRLABEL)); [ reflexivity | ].
  destruct (tlv_type =? TLV_TYPE_STATUS); [ reflexivity | ].
  destruct (tlv_type =? TLV_TYPE_PW_STATUS); [ | reflexivity ].
  destruct (type =? MSG_TYPE_LABELMAPPING); [ | reflexivity ].
  destruct (negb (tlv_len =? PW_STATUS_TLV_LEN)) eqn:E; [ reflexivity | ].
  now rewrite (H4 _ E eq_refl).
Qed.

Lemma opt_round_agree (msg : ldp_msg) (type : Z) (c1 c2 : cursor)
    (o : optvals) :
  cursor_agree c1 c2 ->
  agree_res (opt_round msg type c1 o) (opt_round msg type c2 o).
Proof.
  intros Hc. pose proof Hc as (Hl & Hr & Hag).
  unfold opt_round. rewrite <- Hl. unfold TLV_HDR_SIZE.
  destruct (c_len c1 <? 4) eqn:E1; [ split; [ reflexivity | exact I ] | ].
  apply Z.ltb_ge in E1.
  rewrite (@agree_get_u16 (c_len c1) (c_buf c1) (c_buf c2) 0 Hag) by lia.
  rewrite (@agree_get_u16 (c_len c1) (c_buf c1) (c_buf c2) 2 Hag) by lia.
  pose proof (get_u16_range (c_buf c2) 2) as Hr2.
  destruct (get_u16 (c_buf c2) 2 + 4 >? c_len c1) eqn:E2;
    [ split; [ reflexivity | exact I ] | ].
  apply Zgtb_false in E2.
  destruct ((o_current_tlv o =? 1) && (type =? MSG_TYPE_LABELMAPPING) &&
            negb (has_flag (get_u16 (c_buf c2) 0) TLV_TYPE_GENERICLABEL));
    [ split; [ reflexivity | exact I ] | ].
  assert (Hadv : cursor_agree (advance c1 4) (advance c2 4))
    by (apply advance_agree; [ exact Hc | lia ]).
  assert (Hlen4 : c_len (advance c1 4) = c_len c1 - 4).
  { unfold advance. cbn [c_len]. apply u16_small. lia. }
  pose proof Hadv as (_ & _ & Hag4). rewrite Hlen4 in Hag4.
  rewrite (@opt_switch_agree msg type (get_u16 (c_buf c2) 0)
             (get_u16 (c_buf c2) 2) (c_buf (advance c1 4))
             (c_buf (advance c2 4)) o);
    [ | lia | eapply agree_mono; [ exact Hag4 | lia ] ].
  destruct (opt_switch msg type (get_u16 (c_buf c2) 0)
              (get_u16 (c_buf c2) 2) (c_buf (advance c2 4)) o)
    as [l [o' | | ]]; cbn [bind]; try (split; [ reflexivity | exact I ]).
  unfold ok. cbn [fst snd].
  split; [ reflexivity | ]. split; [ reflexivity | ].
  apply advance_agree; [ exact Hadv | lia ].
Qed.

(** The loop over the optional parameters reads within the length that
    is left. *)
Lemma opt_loop_agree (msg : ldp_msg) (type : Z) :
  forall (fuel : nat) (c1 c2 : cursor) (o : optvals),
    cursor_agree c1 c2 ->
    opt_loop fuel msg type c1 o = opt_loop fuel msg type c2 o.
Proof.
  induction fuel as [ | fuel IH]; intros c1 c2 o Hc;
    pose proof Hc as (Hl & _); cbn [opt_loop]; rewrite <- Hl.
  - reflexivity.
  - destruct (c_len c1 >? 0); [ | reflexivity ].
    apply bind_agree_eq; [ now apply opt_round_agree | ].
    intros c1' c2' o' Hc'. cbv beta iota. now apply IH.
Qed.

Lemma parse_fec_agree (msg : ldp_msg) (b1 b2 : list Z) (len type : Z) :
  LDP_MSG_SIZE <= len < 65536 ->
  agree_upto len b1 b2 ->
  (len = LDP_MSG_SIZE + TLV_HDR_SIZE -> get_u16 b1 10 <> 0) ->
  agree_res (parse_fec msg b1 len type) (parse_fec msg b2 len type).
Proof.
  unfold LDP_MSG_SIZE, TLV_HDR_SIZE. intros Hlen Hag Hne.
  assert (Hc0 : cursor_agree {| c_buf := b1; c_len := len |}
                  {| c_buf := b2; c_len := len |}).
  { split; [ reflexivity | ]. split; [ cbn [c_len]; lia | exact Hag ]. }
  assert (Hc8 : cursor_agree (advance {| c_buf := b1; c_len := len |} 8)
                  (advance {| c_buf := b2; c_len := len |} 8))
    by (apply advance_agree; [ exact Hc0 | cbn [c_len]; lia ]).
  unfold parse_fec, LDP_MSG_SIZE, TLV_HDR_SIZE.
  set (c1 := advance {| c_buf := b1; c_len := len |} 8) in *.
  set (c2 := advance {| c_buf := b2; c_len := len |} 8) in *.
  assert (Hl1 : c_len c1 = len - 8).
  { unfold c1, advance. cbn [c_len]. apply u16_small. lia. }
  assert (Hb1 : c_buf c1 = skipn 8 b1) by reflexivity.
  pose proof Hc8 as (Hl & Hr & Hag8).
  rewrite <- Hl.
  destruct (c_len c1 <? 4) eqn:E1; [ split; [ reflexivity | exact I ] | ].
  apply Z.ltb_ge in E1.
  rewrite <- (@agree_get_u16 (c_len c1) (c_buf c1) (c_buf c2) 0 Hag8) by lia.
  rewrite <- (@agree_get_u16 (c_len c1) (c_buf c1) (c_buf c2) 2 Hag8) by lia.
  destruct (negb (get_u16 (c_buf c1) 0 =? TLV_TYPE_FEC));
    [ split; [ reflexivity | exact I ] | ].
  pose proof (get_u16_range (c_buf c1) 2) as Hr2.
  destruct (get_u16 (c_buf c1) 2 >? c_len c1 - 4) eqn:E2;
    [ split; [ reflexivity | exact I ] | ].
  apply Zgtb_false in E2.
  assert (Hlen4 : c_len (advance c1 4) = c_len c1 - 4).
  { unfold advance. cbn [c_len]. apply u16_small. lia. }
  assert (Hfl : get_u16 (c_buf c1) 2 = get_u16 b1 10).
  { rewrite Hb1. unfold get_u16.
    rewrite !(@byte_at_skipn 8 b1) by lia. reflexivity. }
  apply fec_loop_agree.
  - apply advance_agree; [ exact Hc8 | lia ].
  - rewrite Hlen4. lia.
  - rewrite Hlen4.
    destruct (Z.eq_dec len 12) as [H12 | H12]; [ | lia ].
    specialize (Hne H12). lia.
Qed.

(** A prefix of at most 128 bits is at most 16 bytes long. *)
Lemma PREFIX_SIZE_within (plen : Z) :
  plen <= IPV6_MAX_BITLEN -> PREFIX_SIZE plen <= 16.
Proof.
  unfold IPV6_MAX_BITLEN, PREFIX_SIZE. intros H.
  apply Z.lt_succ_r. apply Z.div_lt_upper_bound; lia.
Qed.

(** [ldp_applymask] leaves the length of the address alone. *)
Lemma ldp_applymask_length (af : Z) (addr : list Z) (plen : Z) :
  length (ldp_applymask af addr plen) = length addr.
Proof.
  unfold ldp_applymask. destruct (af =? AF_INET).
  - rewrite length_app, applymask_bytes_length, <- length_app.
    now rewrite firstn_skipn.
  - apply applymask_bytes_length.
Qed.

(** Within a message in which every prefix fits, the decoder, started
    anywhere on a prefix element, builds a record whose prefix has the
    16 bytes of the address field and consumes no more than it was
    given: no copy of a prefix runs over the end of that field. *)
Lemma decoded_prefix_fits (msg : ldp_msg) (buf : list Z) (len : Z) (k : nat)
    (l : Z) (m m' : map) (log : list event) (tlen : Z) :
  v6_prefixes_fit len buf ->
  Z.of_nat k + l <= len ->
  byte_at buf (Z.of_nat k) = MAP_TYPE_PREFIX ->
  tlv_decode_fec_elm msg (skipn k buf) l m = (log, Ok (tlen, m')) ->
  exists af prefix plen,
    fec m' = FecPrefix af prefix plen /\
    PREFIX_SIZE plen <= 16 /\ length prefix = 16%nat /\
    tlen = FEC_ELM_PREFIX_MIN_LEN + PREFIX_SIZE plen /\ tlen <= l.
Proof.
  intros Hfit Hkl Hty. unfold tlv_decode_fec_elm.
  rewrite byte_at_skipn, Z.add_0_r, Hty by lia.
  change (MAP_TYPE_PREFIX =? MAP_TYPE_WILDCARD) with false.
  change (MAP_TYPE_PREFIX =? MAP_TYPE_PREFIX) with true. cbv iota.
  destruct (l <? FEC_ELM_PREFIX_MIN_LEN) eqn:E1; [ intros H; discriminate H | ].
  apply Z.ltb_ge in E1.
  assert (Hfam : get_u16 (skipn k buf) 1 = get_u16 buf (Z.of_nat k + 1)).
  { unfold get_u16. rewrite !byte_at_skipn by lia.
    now rewrite Z.add_assoc. }
  rewrite Hfam.
  change (1 + 2 + 1) with 4. change (1 + 2) with 3.
  rewrite (@byte_at_skipn k buf 3) by lia.
  set (plen := byte_at buf (Z.of_nat k + 3)).
  pose proof (byte_at_range buf (Z.of_nat k + 3)) as Hb. fold plen in Hb.
  destruct (af_of_family (get_u16 buf (Z.of_nat k + 1))) as [af | ] eqn:Eaf;
    [ | intros H; discriminate H ].
  destruct (((af =? AF_IPV4) && (plen >? IPV4_MAX_BITLEN))
            || ((af =? AF_IPV6) && (plen >? IPV6_MAX_BITLEN))) eqn:Echk;
    [ intros H; discriminate H | ].
  assert (Hplen : plen <= IPV6_MAX_BITLEN).
  { unfold af_of_family in Eaf.
    destruct (get_u16 buf (Z.of_nat k + 1) =? AF_IPV4) eqn:E4.
    - inv Eaf. change (AF_INET =? AF_IPV4) with false in Echk.
      change (AF_INET =? AF_IPV6) with true in Echk. cbn [andb orb] in Echk.
      now apply Zgtb_false.
    - destruct (get_u16 buf (Z.of_nat k + 1) =? AF_IPV6) eqn:E6;
        [ | discriminate Eaf ].
      apply Z.eqb_eq in E6. unfold plen.
      apply Hfit; try assumption; lia. }
  pose proof (@PREFIX_SIZE_within plen Hplen) as H16.
  pose proof (@PREFIX_SIZE_nonneg plen (proj1 Hb)) as H0.
  destruct (l <? 4 + PREFIX_SIZE plen) eqn:E2; [ intros H; discriminate H | ].
  apply Z.ltb_ge in E2.
  intros H. injection H as _ <- <-.
  eexists af, _, plen. split; [ reflexivity | ].
  split; [ exact H16 | ].
  split; [ | split; [ reflexivity | exact E2 ] ].
  rewrite ldp_applymask_length, length_app, mem_read_length, repeat_length.
  assert (Hn : (Z.to_nat (PREFIX_SIZE plen) <= 16)%nat) by lia.
  revert Hn. generalize (Z.to_nat (PREFIX_SIZE plen)). intros n Hn.
  do 17 (destruct n as [ | n]; [ reflexivity | ]). lia.
Qed.

(** X13 (reads within the message): [recv_labelmessage] looks at no
    byte beyond the length it is given, with one exception.  Take a
    message in which every prefix fits the address field of a record:
    no position within its length reads as the head of an IPv6 prefix
    element with a prefix length above 128.  On two buffers that hold
    the same first [len] bytes of it (a length that covers the message
    header) [recv_labelmessage] tells its collaborators the same and
    ends alike - unless the message ends with the header of an empty
    FEC TLV: then the loop over the FEC elements runs once all the same
    and the decoder reads, as the type of an element, the byte behind
    the message.  And wherever within such a message the decoder takes
    a prefix element, the prefix it copies is at most 16 bytes long,
    and the length it returns is that of the element and within the
    length it was given. *)
Theorem recv_reads_within_len :
  forall (n : nbr) (b1 b2 : list Z) (len type : Z),
    LDP_MSG_SIZE <= len < 65536 ->
    agree_upto len b1 b2 ->
    v6_prefixes_fit len b1 ->
    (len = LDP_MSG_SIZE + TLV_HDR_SIZE -> get_u16 b1 10 <> 0) ->
    recv_labelmessage n b1 len type = recv_labelmessage n b2 len type /\
    (forall (msg : ldp_msg) (k : nat) (l : Z) (m m' : map)
            (log : list event) (tlen : Z),
        Z.of_nat k + l <= len ->
        byte_at b1 (Z.of_nat k) = MAP_TYPE_PREFIX ->
        tlv_decode_fec_elm msg (skipn k b1) l m = (log, Ok (tlen, m')) ->
        exists af prefix plen,
          fec m' = FecPrefix af prefix plen /\
          PREFIX_SIZE plen <= 16 /\ length prefix = 16%nat /\
          tlen = FEC_ELM_PREFIX_MIN_LEN + PREFIX_SIZE plen /\ tlen <= l).
Proof.
  intros n b1 b2 len type Hlen Hag Hfit Hne. split.
  - unfold recv_labelmessage.
    assert (Hmsg : read_msg b1 = read_msg b2).
    { unfold LDP_MSG_SIZE in Hlen. unfold read_msg.
      rewrite (@agree_get_u16 len b1 b2 0 Hag) by lia.
      rewrite (@agree_get_u16 len b1 b2 2 Hag) by lia.
      rewrite (@agree_get_u32 len b1 b2 4 Hag) by lia.
      reflexivity. }
    rewrite <- Hmsg.
    apply bind_agree_eq.
    + now apply parse_fec_agree.
    + intros c1 c2 mh Hc. cbv beta iota.
      pose proof Hc as (Hl & _). rewrite <- Hl.
      now rewrite (@opt_loop_agree (read_msg b1) type
                     (Z.to_nat (c_len c1)) c1 c2 optvals_init Hc).
  - intros msg k l m m' log tlen Hkl Hty Hdec.
    exact (@decoded_prefix_fits msg b1 len k l m m' log tlen
             Hfit Hkl Hty Hdec).
Qed.

Lemma agree_app (b x : list Z) :
  agree_upto (Z.of_nat (length b)) b (b ++ x).
Proof.
  intros i Hi. unfold byte_at. rewrite app_nth1 by lia. reflexivity.
Qed.

(** The IPv6 prefix of [msg_v4_v6_label0] is 32 bits long, and nothing
    else in the message reads as an IPv6 prefix element. *)
Lemma msg_v4_v6_label0_fits : v6_prefixes_fit 35 msg_v4_v6_label0.
Proof.
  intros off H0 H1 Hty Haf. unfold FEC_ELM_PREFIX_MIN_LEN in H1.
  remember (Z.to_nat off) as k eqn:Ek.
  assert (Hoff : off = Z.of_nat k) by lia.
  assert (Hk : (k < 32)%nat) by lia.
  subst off. clear Ek H0 H1.
  do 32 (destruct k as [ | k];
         [ vm_compute in Hty, Haf |- *;
           first [ discriminate Hty | discriminate Haf
                 | intros H; discriminate H ] | ]).
  lia.
Qed.

Lemma recv_reads_within_len_witness :
  (LDP_MSG_SIZE <= 35 < 65536 /\
   agree_upto 35 msg_v4_v6_label0 (msg_v4_v6_label0 ++ [0xAA; 0xBB]) /\
   v6_prefixes_fit 35 msg_v4_v6_label0 /\
   (35 = LDP_MSG_SIZE + TLV_HDR_SIZE -> get_u16 msg_v4_v6_label0 10 <> 0)) /\
  recv_labelmessage nbr0 msg_v4_v6_label0 35 MSG_TYPE_LABELMAPPING
  = recv_labelmessage nbr0 (msg_v4_v6_label0 ++ [0xAA; 0xBB]) 35
      MSG_TYPE_LABELMAPPING.
Proof.
  assert (Hl : LDP_MSG_SIZE <= 35 < 65536)
    by (unfold LDP_MSG_SIZE; lia).
  assert (Ha : agree_upto 35 msg_v4_v6_label0
                 (msg_v4_v6_label0 ++ [0xAA; 0xBB]))
    by exact (agree_app msg_v4_v6_label0 [0xAA; 0xBB]).
  assert (Hn : 35 = LDP_MSG_SIZE + TLV_HDR_SIZE ->
               get_u16 msg_v4_v6_label0 10 <> 0)
    by (intros H; discriminate H).
  split;
    [ split; [ exact Hl | split; [ exact Ha | split;
        [ exact msg_v4_v6_label0_fits | exact Hn ] ] ] | ].
  exact (proj1 (@recv_reads_within_len nbr0 msg_v4_v6_label0
                  (msg_v4_v6_label0 ++ [0xAA; 0xBB]) 35
                  MSG_TYPE_LABELMAPPING Hl Ha msg_v4_v6_label0_fits Hn)).
Defined.

(** ** Decoding: the bound on the prefix length *)

(** X20 (prefix-length bound as coded): the decoder checks the prefix
    length after it has replaced the family number of the wire (1 for
    IPv4, 2 for IPv6) by the host's ([AF_INET], [AF_INET6]), and
    compares the host's number with those of the wire.  [AF_INET] is
    the number IPv6 has on the wire, so a prefix element of family IPv4
    is refused with Bad TLV Value exactly when its prefix length
    exceeds 128 - a length from 33 to 128 passes the check -, and a
    prefix element of family IPv6 is never refused for its prefix
    length. *)
Theorem prefix_length_bound_as_coded :
  forall (msg : ldp_msg) (buf : list Z) (len : Z) (m : map),
    byte_at buf 0 = MAP_TYPE_PREFIX ->
    FEC_ELM_PREFIX_MIN_LEN <= len ->
    (get_u16 buf 1 = AF_IPV4 ->
     (tlv_decode_fec_elm msg buf len m = shutdown S_BAD_TLV_VAL msg <->
      IPV6_MAX_BITLEN < byte_at buf 3)) /\
    (get_u16 buf 1 = AF_IPV6 ->
     tlv_decode_fec_elm msg buf len m <> shutdown S_BAD_TLV_VAL msg).
Proof.
  intros msg buf len m Hty Hlen.
  unfold tlv_decode_fec_elm. rewrite Hty.
  change (MAP_TYPE_PREFIX =? MAP_TYPE_WILDCARD) with false.
  change (MAP_TYPE_PREFIX =? MAP_TYPE_PREFIX) with true. cbv iota.
  destruct (len <? FEC_ELM_PREFIX_MIN_LEN) eqn:E1;
    [ apply Z.ltb_lt in E1; lia | ].
  change (1 + 2) with 3.
  split; intros Hfam; rewrite Hfam.
  - change (af_of_family AF_IPV4) with (Some AF_INET). cbv iota.
    change (AF_INET =? AF_IPV4) with false.
    change (AF_INET =? AF_IPV6) with true. cbn [andb orb].
    destruct (byte_at buf 3 >? IPV6_MAX_BITLEN) eqn:E2.
    + apply Zgtb_true in E2. split; [ lia | reflexivity ].
    + apply Zgtb_false in E2.
      split; [ | lia ].
      destruct (len <? 3 + 1 + PREFIX_SIZE (byte_at buf 3));
        intros H; discriminate H.
  - change (af_of_family AF_IPV6) with (Some AF_INET6). cbv iota.
    change (AF_INET6 =? AF_IPV4) with false.
    change (AF_INET6 =? AF_IPV6) with false. cbn [andb orb].
    destruct (len <? 3 + 1 + PREFIX_SIZE (byte_at buf 3));
      intros H; discriminate H.
Qed.

Lemma prefix_length_bound_as_coded_witness :
  let buf := [2; 0; 1; 40; 10; 1; 2; 3; 4] in
  (byte_at buf 0 = MAP_TYPE_PREFIX /\ FEC_ELM_PREFIX_MIN_LEN <= 9) /\
  (get_u16 buf 1 = AF_IPV4 ->
   (tlv_decode_fec_elm msg_9 buf 9 map_zero = shutdown S_BAD_TLV_VAL msg_9 <->
    IPV6_MAX_BITLEN < byte_at buf 3)) /\
  (get_u16 buf 1 = AF_IPV6 ->
   tlv_decode_fec_elm msg_9 buf 9 map_zero <> shutdown S_BAD_TLV_VAL msg_9).
Proof.
  cbv zeta.
  assert (H0 : byte_at [2; 0; 1; 40; 10; 1; 2; 3; 4] 0 = MAP_TYPE_PREFIX)
    by reflexivity.
  assert (Hl : FEC_ELM_PREFIX_MIN_LEN <= 9)
    by (unfold FEC_ELM_PREFIX_MIN_LEN; lia).
  split; [ split; [ exact H0 | exact Hl ] | ].
  exact (@prefix_length_bound_as_coded msg_9 [2; 0; 1; 40; 10; 1; 2; 3; 4]
           9 map_zero H0 Hl).
Defined.

(** ** Receiving: the optional parameters a message type may carry *)

Lemma has_flag_lor_other (f a b : Z) :
  Z.land a b = 0 -> has_flag (Z.lor f a) b = has_flag f b.
Proof.
  intros H. unfold has_flag.
  now rewrite Z.land_lor_distr_l, H, Z.lor_0_r.
Qed.

Lemma has_flag_lor_opt (fm fo k : Z) :
  Z.land fm OPT_FLAGS = 0 -> Z.land OPT_FLAGS k = k ->
  has_flag (Z.lor fm fo) k = has_flag fo k.
Proof.
  intros Hm Hk. unfold has_flag. rewrite Z.land_lor_distr_l.
  replace (Z.land fm k) with 0; [ reflexivity | ].
  now rewrite <- Hk, Z.land_assoc, Hm.
Qed.

Lemma opt_switch_allowed (msg : ldp_msg) (type tlv_type tlv_len : Z)
    (buf : list Z) (o o' : optvals) (l : list event) :
  opt_switch msg type tlv_type tlv_len buf o = (l, Ok o') ->
  opt_allowed type (o_flags o) (o_label o) ->
  opt_allowed type (o_flags o') (o_label o').
Proof.
  unfold opt_switch, shutdown, ok. intros H (Hr & Hp & Hl).
  destruct (tlv_type =? TLV_TYPE_LABELREQUEST).
  { destruct ((type =? MSG_TYPE_LABELMAPPING)
              || (type =? MSG_TYPE_LABELREQUEST)) eqn:Et.
    - destruct (negb (tlv_len =? REQID_TLV_LEN)); inv H.
      cbn [o_flags o_label]. apply orb_true_iff in Et.
      rewrite !Z.eqb_eq in Et.
      split; [ intros; tauto | ].
      split; [ | exact Hl ].
      intros Hm. rewrite has_flag_lor_other by reflexivity. now apply Hp.
    - inv H. split; [ exact Hr | split; [ exact Hp | exact Hl ] ]. }
  destruct ((tlv_type =? TLV_TYPE_HOPCOUNT)
            || (tlv_type =? TLV_TYPE_PATHVECTOR)).
  { inv H. split; [ exact Hr | split; [ exact Hp | exact Hl ] ]. }
  destruct (tlv_type =? TLV_TYPE_GENERICLABEL).
  { destruct ((type =? MSG_TYPE_LABELMAPPING)
              || (type =? MSG_TYPE_LABELWITHDRAW)
              || (type =? MSG_TYPE_LABELRELEASE)) eqn:Et.
    - destruct (negb (tlv_len =? LABEL_TLV_LEN)); [ inv H | ].
      destruct (label_invalid (get_u32 buf 0)); inv H.
      cbn [o_flags o_label]. rewrite !orb_true_iff, !Z.eqb_eq in Et.
      split; [ exact Hr | ]. split; [ exact Hp | ]. intros; tauto.
    - inv H. split; [ exact Hr | split; [ exact Hp | exact Hl ] ]. }
  destruct ((tlv_type =? TLV_TYPE_ATMLABEL)
            || (tlv_type =? TLV_TYPE_FRLABEL)).
  { destruct ((type =? MSG_TYPE_LABELMAPPING)
              || (type =? MSG_TYPE_LABELWITHDRAW)
              || (type =? MSG_TYPE_LABELRELEASE)); inv H.
    split; [ exact Hr | split; [ exact Hp | exact Hl ] ]. }
  destruct (tlv_type =? TLV_TYPE_STATUS).
  { destruct (negb (tlv_len =? STATUS_TLV_LEN)); inv H.
    split; [ exact Hr | split; [ exact Hp | exact Hl ] ]. }
  destruct (tlv_type =? TLV_TYPE_PW_STATUS).
  { destruct (type =? MSG_TYPE_LABELMAPPING) eqn:Et.
    - destruct (negb (tlv_len =? PW_STATUS_TLV_LEN)); inv H.
      cbn [o_flags o_label]. apply Z.eqb_eq in Et.
      split; [ intros; tauto | ]. split; [ intros; tauto | exact Hl ].
    - inv H. split; [ exact Hr | split; [ exact Hp | exact Hl ] ]. }
  destruct (negb (has_flag tlv_type UNKNOWN_FLAG)); inv H;
    (split; [ exact Hr | split; [ exact Hp | exact Hl ] ]).
Qed.

Lemma opt_round_allowed (msg : ldp_msg) (type : Z) (c c' : cursor)
    (o o' : optvals) (l : list event) :
  opt_round msg type c o = (l, Ok (c', o')) ->
  opt_allowed type (o_flags o) (o_label o) ->
  opt_allowed type (o_flags o') (o_label o').
Proof.
  unfold opt_round. intros H Hc.
  repeat case_if; try (inv H; fail).
  apply bind_ok_inv in H. destruct H as (l1 & o1 & l2 & Hs & H & ->).
  apply opt_switch_allowed in Hs; [ | exact Hc ].
  inv H. exact Hs.
Qed.

Lemma opt_loop_allowed (msg : ldp_msg) (type : Z) :
  forall (fuel : nat) (c : cursor) (o o' : optvals) (l : list event),
    opt_loop fuel msg type c o = (l, Ok o') ->
    opt_allowed type (o_flags o) (o_label o) ->
    opt_allowed type (o_flags o') (o_label o').
Proof.
  induction fuel as [ | fuel IH]; intros c o o' l H Hc; cbn [opt_loop] in H.
  - destruct (c_len c >? 0); inv H. exact Hc.
  - destruct (c_len c >? 0); [ | inv H; exact Hc ].
    apply bind_ok_inv in H. destruct H as (l1 & [c1 o1] & l2 & Hr & H & ->).
    apply opt_round_allowed in Hr; [ | exact Hc ].
    eapply IH; eauto.
Qed.

(** X21 (optional parameters by message type): whatever the message, a
    record that [recv_labelmessage] hands to the label-distribution
    engine carries only what its message type lets the decoder keep of
    the optional parameters: the request-identifier flag comes from a
    Label Mapping or a Label Request only - in a Label Abort Request
    the Label Request Message ID TLV is skipped -, the
    pseudowire-status flag from a Label Mapping only, and a label other
    than [NO_LABEL] from a Label Mapping, a Label Withdraw or a Label
    Release only. *)
Theorem optional_values_suit_message_type :
  forall (n : nbr) (buf : list Z) (len type : Z) (log : list event)
         (r : res unit) (t : imsg_type) (p : Z) (m : map),
    recv_labelmessage n buf len type = (log, r) ->
    In (EvImsg t p m) log ->
    opt_allowed type (flags m) (label m).
Proof.
  intros n buf len type log r t p m H Hin.
  destruct (@handed_over_origin n buf len type log r t p m H Hin)
    as (c & mh & l1 & o & me & m' & Hp & Ho & _ & _ & Hme & Hck
        & -> & -> & ->).
  pose proof (parse_fec_spec _ _ _ _ Hp) as (_ & Hdec & _).
  rewrite Forall_forall in Hdec. destruct (Hdec _ Hme) as (Hz & _).
  assert (Hal : opt_allowed type (o_flags o) (o_label o)).
  { eapply opt_loop_allowed; [ exact Ho | ].
    split; [ reflexivity | ]. split; reflexivity. }
  pose proof (check_record_deliver _ _ _ Hck) as Hflags.
  pose proof (finish_record_spec o m') as (Hl & Hf & _).
  destruct Hal as (Hr1 & Hp1 & Hl1).
  unfold opt_allowed. rewrite Hl, Hf, Hflags.
  rewrite !(@has_flag_lor_opt (flags me) (o_flags o)) by
    (exact Hz || reflexivity).
  split; [ exact Hr1 | split; [ exact Hp1 | exact Hl1 ] ].
Qed.

Lemma optional_values_suit_message_type_witness :
  (recv_labelmessage nbr0 msg_abort_req 27 MSG_TYPE_LABELABORTREQ
   = ([EvImsg IMSG_LABEL_ABORT 7 abort_10_24], Ok tt) /\
   In (EvImsg IMSG_LABEL_ABORT 7 abort_10_24)
     [EvImsg IMSG_LABEL_ABORT 7 abort_10_24]) /\
  opt_allowed MSG_TYPE_LABELABORTREQ (flags abort_10_24) (label abort_10_24).
Proof.
  assert (Hrun : recv_labelmessage nbr0 msg_abort_req 27
                   MSG_TYPE_LABELABORTREQ
                 = ([EvImsg IMSG_LABEL_ABORT 7 abort_10_24], Ok tt))
    by (vm_compute; reflexivity).
  assert (Hin : In (EvImsg IMSG_LABEL_ABORT 7 abort_10_24)
                   [EvImsg IMSG_LABEL_ABORT 7 abort_10_24])
    by (left; reflexivity).
  split; [ split; [ exact Hrun | exact Hin ] | ].
  exact (@optional_values_suit_message_type nbr0 msg_abort_req 27
           MSG_TYPE_LABELABORTREQ _ (Ok tt) IMSG_LABEL_ABORT 7 abort_10_24
           Hrun Hin).
Defined.

(** ** Encoding and decoding: withdrawing or releasing by wildcard *)

(** The Label Request Message ID TLV in a message that is neither a
    Label Mapping nor a Label Request is skipped. *)
Lemma opt_round_reqid_skipped (msg : ldp_msg) (type reqid : Z)
    (rest : list Z) (len : Z) (o : optvals) :
  type <> MSG_TYPE_LABELMAPPING -> type <> MSG_TYPE_LABELREQUEST ->
  8 <= len < 65536 ->
  opt_round msg type {| c_buf := reqid_tlv reqid ++ rest; c_len := len |} o =
  ok ({| c_buf := rest; c_len := len - 8 |}, next_tlv o).
Proof.
  intros Hm Hr Hlen. unfold reqid_tlv. rewrite <- !app_assoc.
  change REQID_TLV_LEN with (Z.of_nat (length (put_u32 reqid))).
  rewrite opt_round_tlv
    by (try (vm_compute; split; congruence);
        change (Z.of_nat (length (put_u32 reqid))) with 4; lia).
  change (has_flag TLV_TYPE_LABELREQUEST TLV_TYPE_GENERICLABEL) with true.
  rewrite andb_false_r.
  unfold opt_switch.
  change (TLV_TYPE_LABELREQUEST =? TLV_TYPE_LABELREQUEST) with true.
  apply Z.eqb_neq in Hm, Hr. cbv iota. rewrite Hm, Hr. cbn [orb].
  rewrite bind_ok.
  change (Z.of_nat (length (put_u32 reqid))) with 4.
  replace (len - 4 - 4) with (len - 8) by lia. reflexivity.
Qed.

(** The loop over the optional parameters on what the encoders append
    behind the FEC TLV of a Label Withdraw or a Label Release: the
    label, if there is one, is read; the request identifier and the
    status are skipped. *)
Lemma opt_loop_withdraw_sent (msg : ldp_msg) (type : Z) (me : map) :
  type = MSG_TYPE_LABELWITHDRAW \/ type = MSG_TYPE_LABELRELEASE ->
  label me = NO_LABEL \/ label_invalid (label me) = false ->
  has_flag (flags me) F_MAP_PW_STATUS = false ->
  forall fuel : nat,
    (length (opt_chunks me) <= fuel)%nat ->
    exists k,
      opt_loop fuel msg type
        {| c_buf := concat (opt_chunks me);
           c_len := Z.of_nat (length (concat (opt_chunks me))) |}
        optvals_init
      = ok {| o_label := label me; o_reqid := 0; o_pw_status := 0;
              o_flags := 0; o_current_tlv := k |}.
Proof.
  intros Hty Hlab Hpw fuel Hfuel.
  assert (Hm : type <> MSG_TYPE_LABELMAPPING)
    by (destruct Hty as [-> | ->]; intros H; discriminate H).
  assert (Hr : type <> MSG_TYPE_LABELREQUEST)
    by (destruct Hty as [-> | ->]; intros H; discriminate H).
  assert (Hty' : type = MSG_TYPE_LABELMAPPING \/
                 type = MSG_TYPE_LABELWITHDRAW \/
                 type = MSG_TYPE_LABELRELEASE) by tauto.
  rewrite opt_chunks_length.
  rewrite <- (app_nil_r (concat (opt_chunks me))), opt_chunks_concat.
  unfold opt_chunks in Hfuel. rewrite Hpw in *.
  rewrite <- !app_assoc.
  destruct (label me =? NO_LABEL) eqn:Enl; cbn [negb] in *.
  - apply Z.eqb_eq in Enl.
    destruct (has_flag (flags me) F_MAP_REQ_ID);
      destruct (has_flag (flags me) F_MAP_STATUS);
      cbn [app length] in *; cbv iota;
      destruct fuel as [ | [ | [ | f]]]; try (exfalso; lia);
      eexists;
      repeat
        (rewrite opt_loop_S by (cbn [c_len]; lia);
         first
           [ rewrite (@opt_round_reqid_skipped msg type (requestid me)
                        _ _ _ Hm Hr) by lia
           | rewrite (@opt_round_status msg type (st me) _ _ _) by lia ];
         rewrite bind_ok; cbv beta iota);
      rewrite opt_loop_done by (cbn [c_len]; lia);
      unfold next_tlv;
      cbn [o_label o_reqid o_pw_status o_flags o_current_tlv optvals_init];
      rewrite Enl; reflexivity.
  - destruct Hlab as [Hlab | Hlab];
      [ apply Z.eqb_neq in Enl; contradiction | ].
    pose proof (label_valid_range _ Hlab) as Hlr.
    unfold MPLS_LABEL_MAX in Hlr.
    assert (Hlv : 0 <= label me < 4294967296) by lia.
    destruct (has_flag (flags me) F_MAP_REQ_ID);
      destruct (has_flag (flags me) F_MAP_STATUS);
      cbn [app length] in *; cbv iota;
      destruct fuel as [ | [ | [ | f]]]; try (exfalso; lia);
      eexists;
      rewrite opt_loop_S by (cbn [c_len]; lia);
      rewrite (@opt_round_label msg type (label me) _ _
                 optvals_init Hty' Hlv Hlab) by lia;
      rewrite bind_ok; cbv beta iota;
      repeat
        (rewrite opt_loop_S by (cbn [c_len]; lia);
         first
           [ rewrite (@opt_round_reqid_skipped msg type (requestid me)
                        _ _ _ Hm Hr) by lia
           | rewrite (@opt_round_status msg type (st me) _ _ _) by lia ];
         rewrite bind_ok; cbv beta iota);
      rewrite opt_loop_done by (cbn [c_len]; lia);
      unfold next_tlv;
      cbn [o_label o_reqid o_pw_status o_flags o_current_tlv optvals_init];
      reflexivity.
Qed.

(** The Label Withdraw or Label Release message that the encoders
    write for a wildcard or a typed wildcard, and what
    [recv_labelmessage] makes of it. *)
Lemma wildcard_withdraw_decoded :
  forall (n : nbr) (id type : Z) (me : map),
    type = MSG_TYPE_LABELWITHDRAW \/ type = MSG_TYPE_LABELRELEASE ->
    wildcard_canonical (fec me) ->
    0 <= id < 4294967296 ->
    label me = NO_LABEL \/ label_invalid (label me) = false ->
    has_flag (flags me) F_MAP_PW_STATUS = false ->
    exists bytes,
      encode_msg id type me = Some bytes /\
      recv_labelmessage n bytes (Z.of_nat (length bytes)) type
      = ([EvImsg (imsg_of_type type) (peerid n)
            {| msg_id := id; fec := fec me; st := st0; label := label me;
               requestid := 0; pw_status := 0; flags := 0 |}],
         Ok tt).
Proof.
  intros n id type me Hty Hcan Hid Hlab Hpw.
  destruct (wildcard_fec_chunks me Hcan)
    as (cs & elem & Hcs & Hcat & Hel & Hdec).
  assert (Hw : well_sized me).
  { split; [ | rewrite Hpw; discriminate ].
    destruct (fec me); try exact I. destruct Hcan. }
  destruct (calc_msg_size me) as [sz | ] eqn:Hsz.
  2:{ unfold calc_msg_size in Hsz.
      assert (Hbyte : prefixlen_is_byte me).
      { unfold prefixlen_is_byte. destruct (fec me); try exact I.
        destruct Hcan. }
      destruct (fec_chunks_tlv me Hbyte Hcs) as (_ & Hl & _).
      rewrite Hl in Hsz. discriminate Hsz. }
  pose proof (msg_size_exact id type Hw Hsz Hcs) as Hlen.
  exists (msg_bytes id type sz me cs).
  split; [ now apply encode_msg_bytes | ].
  set (hdr := put_u16 type ++ put_u16 (sz - LDP_MSG_DEAD_LEN) ++ put_u32 id).
  set (opts := concat (opt_chunks me)).
  assert (Hshape : msg_bytes id type sz me cs
                   = hdr ++ put_u16 TLV_TYPE_FEC
                     ++ put_u16 (Z.of_nat (length elem)) ++ elem ++ opts).
  { unfold msg_bytes. fold hdr. rewrite concat_app, Hcat. fold opts.
    rewrite <- !app_assoc. reflexivity. }
  assert (Hmsgid : msg_id_f (read_msg (msg_bytes id type sz me cs)) = id).
  { unfold msg_bytes, read_msg. cbn [msg_id_f]. rewrite <- !app_assoc.
    change (get_u32 (put_u16 type
                     ++ put_u16 (sz - LDP_MSG_DEAD_LEN) ++ put_u32 id
                     ++ concat (cs ++ opt_chunks me)) 4)
      with (get_u32 (put_u32 id ++ concat (cs ++ opt_chunks me)) 0).
    rewrite get_u32_put_u32. unfold u32. now rewrite Z.mod_small. }
  assert (Hol : 0 <= Z.of_nat (length opts) <= 38 /\
                (length (opt_chunks me) <= Z.to_nat (Z.of_nat (length opts)))%nat).
  { unfold opts. rewrite Nat2Z.id. unfold opt_chunks. rewrite Hpw.
    destruct (negb (label me =? NO_LABEL)),
      (has_flag (flags me) F_MAP_REQ_ID),
      (has_flag (flags me) F_MAP_STATUS);
      unfold put_u16, put_u32; cbn [app concat length]; lia. }
  destruct Hol as (Hol & Hfuel).
  assert (Htot : Z.of_nat (length (msg_bytes id type sz me cs))
                 = 12 + Z.of_nat (length elem) + Z.of_nat (length opts)).
  { rewrite Hshape, !length_app, !Nat2Z.inj_add.
    unfold hdr, put_u16, put_u32. cbn [length app]. lia. }
  set (m' := set_fec (set_msg_id map_zero id) (fec me)).
  unfold recv_labelmessage.
  set (msg := read_msg _) in *.
  rewrite Htot, Hshape.
  rewrite (@parse_fec_one_elm msg type hdr elem opts m').
  2:{ reflexivity. }
  2:{ lia. }
  2:{ lia. }
  2:{ rewrite Hmsgid. apply Hdec. }
  2:{ unfold fec_allowed, m'. cbn [fec set_fec].
      destruct (fec me); try destruct Hcan;
        destruct Hty as [-> | ->]; split_and; intros H'; discriminate H'. }
  rewrite bind_ok. cbv beta iota. cbn [c_len].
  destruct (@opt_loop_withdraw_sent msg type me Hty Hlab Hpw
              (Z.to_nat (Z.of_nat (length opts))) Hfuel) as (k & Hopt).
  fold opts in Hopt. rewrite Hopt, bind_ok.
  cbn [notify_lde]. unfold check_record, m'.
  cbn [fec set_flags set_fec flags].
  destruct (fec me) as [ | ? ? ? | ? ? ? ? | tw u] eqn:Hfec;
    try destruct Hcan; reflexivity.
Qed.

(** X22 (withdraw or release by wildcard): the Label Withdraw or Label
    Release message that the encoders write for a wildcard or
    typed-wildcard record - with a label within bounds or with none,
    with or without a request identifier and a status - is decoded by
    [recv_labelmessage] into exactly one record, handed to the
    label-distribution engine under the kind of the message type: it
    has the identifier of the message, the wildcard and the label of
    the record sent (or [NO_LABEL]), and no flag - the request
    identifier and the status are skipped. *)
Theorem wildcard_withdraw_round_trip :
  forall (n : nbr) (id type : Z) (me : map),
    type = MSG_TYPE_LABELWITHDRAW \/ type = MSG_TYPE_LABELRELEASE ->
    wildcard_canonical (fec me) ->
    0 <= id < 4294967296 ->
    label me = NO_LABEL \/ label_invalid (label me) = false ->
    has_flag (flags me) F_MAP_PW_STATUS = false ->
    exists bytes,
      encode_msg id type me = Some bytes /\
      recv_labelmessage n bytes (Z.of_nat (length bytes)) type
      = ([EvImsg (imsg_of_type type) (peerid n)
            {| msg_id := id; fec := fec me; st := st0; label := label me;
               requestid := 0; pw_status := 0; flags := 0 |}],
         Ok tt).
Proof.
  intros n id type me Hty Hcan Hid Hlab Hpw.
  eapply wildcard_withdraw_decoded; eassumption.
Qed.

Lemma wildcard_withdraw_round_trip_witness :
  (MSG_TYPE_LABELWITHDRAW = MSG_TYPE_LABELWITHDRAW \/
   MSG_TYPE_LABELWITHDRAW = MSG_TYPE_LABELRELEASE) /\
  (wildcard_canonical (fec withdraw_all) /\
   0 <= 9 < 4294967296 /\
   (label withdraw_all = NO_LABEL \/
    label_invalid (label withdraw_all) = false) /\
   has_flag (flags withdraw_all) F_MAP_PW_STATUS = false) /\
  exists bytes,
    encode_msg 9 MSG_TYPE_LABELWITHDRAW withdraw_all = Some bytes /\
    recv_labelmessage nbr0 bytes (Z.of_nat (length bytes))
      MSG_TYPE_LABELWITHDRAW
    = ([EvImsg (imsg_of_type MSG_TYPE_LABELWITHDRAW) (peerid nbr0)
          {| msg_id := 9; fec := fec withdraw_all; st := st0;
             label := label withdraw_all;
             requestid := 0; pw_status := 0; flags := 0 |}],
       Ok tt).
Proof.
  assert (Hty : MSG_TYPE_LABELWITHDRAW = MSG_TYPE_LABELWITHDRAW \/
                MSG_TYPE_LABELWITHDRAW = MSG_TYPE_LABELRELEASE)
    by (left; reflexivity).
  assert (Hc : wildcard_canonical (fec withdraw_all)) by exact I.
  assert (Hid : 0 <= 9 < 4294967296) by lia.
  assert (Hl : label withdraw_all = NO_LABEL \/
               label_invalid (label withdraw_all) = false)
    by (left; reflexivity).
  split; [ exact Hty | ].
  split.
  - split; [ exact Hc | ]. split; [ exact Hid | ].
    split; [ exact Hl | reflexivity ].
  - apply (@wildcard_withdraw_round_trip nbr0 9 MSG_TYPE_LABELWITHDRAW
             withdraw_all Hty Hc Hid Hl eq_refl).
Defined.

(** The same message, byte by byte. *)
Example round_trip_withdraw_all :
  encode_msg 9 MSG_TYPE_LABELWITHDRAW withdraw_all
  = Some [0x04; 0x02; 0; 9; 0; 0; 0; 9; 0x01; 0x00; 0; 1; 1] /\
  recv_labelmessage nbr0 [0x04; 0x02; 0; 9; 0; 0; 0; 9; 0x01; 0x00; 0; 1; 1]
    13 MSG_TYPE_LABELWITHDRAW
  = ([EvImsg IMSG_LABEL_WITHDRAW 7
        {| msg_id := 9; fec := FecWildcard; st := st0; label := NO_LABEL;
           requestid := 0; pw_status := 0; flags := 0 |}],
     Ok tt).
Proof. split; vm_compute; reflexivity. Qed.

(** ** Encoding and decoding: the round trip of a record *)



